(* ===== verification/_CoqProject ===== *)
-Q . S2P
Prelude.v
GoStrings.v
Codes.v
Wire.v
WireFacts.v
Props.v
PropsFacts.v
PublishPackets.v
ControlPackets.v
SubscribePackets.v
MockBroker.v
MockFacts.v
Topic.v
SessionStore.v
Errors.v
IdAllocator.v
Quota.v
Breaker.v
Subscriptions.v
Lifecycle.v
Client.v
Pump.v
Requests.v
Connection.v
ClientFacts.v
InboundFacts.v
SessionFacts.v
Teardown.v
Supervisor.v
SupervisorFacts.v
RequestFacts.v
LinkFacts.v
ReadLoopFacts.v
OutboundFacts.v
Flow.v
Exchange.v
Transport.v
Wellformed.v
Buffers.v
Bridge.v
Delivery.v
World.v
WorldFacts.v
PublishFacts.v
Torn.v
Ownership.v
Simulation.v
Traffic.v
Answers.v
Resume.v
EndToEnd.v
Duplex.v
Receiving.v
Inflow.v
Receipt.v
Waiters.v
Callers.v
MockClient.v
