(* ===== verification/Prelude.v ===== *)
(** * A verification of the go-mqtt client library

    go-mqtt is an MQTT 3.1.1 / 5.0 client in Go.  The package protocol is the
    codec: bytes to packets and back.  The package mqtt is the client on top of
    it: a session with in-flight QoS 1 and QoS 2 exchanges, packet identifiers and
    a send quota, a subscription table, a reconnect loop and a circuit breaker.

    This development models the codec and the client as executable functions, and
    proves the properties that make them correct.  One Go function is one
    definition; a method [m] of a type [T] is [T_m] or, for the TCPClient, [m] or
    [client_m]; a loop of a function [f] is [f_loop], one turn of it [f_turn]; a
    function that blocks is a step function [f_step] over its control points.

    ** Files

    - Prelude: this file.  Machine integers, the error type of the codec, the
      result monad, record setters, tactics and hint databases ([mqtt], [safe]).
    - GoStrings: the parts of Go's strings and unicode/utf8 packages the code
      uses, on byte lists.
    - Codes: protocol/version.go, protocol/reason.go and the packet types of
      protocol/wire.go.
    - Wire: protocol/wire.go.  A stream is a byte list; a decoder is a function on
      a [cursor] ([parser], a state and error monad) that panics ([GoPanic]) where
      Go would.  WireFacts: its theorems, and the predicates all decoders share:
      [parses] (what a decoder reads back), [reads] and [total] (what it does on
      arbitrary bytes).
    - Props, PropsFacts: protocol/properties.go and its theorems.
    - PublishPackets, ControlPackets, SubscribePackets: protocol/publish.go,
      connect.go and control.go, subscribe.go.
    - MockBroker: test_mock_broker.go, the scripted broker of the test suite.
      MockFacts: it against the client's codec; a predicate [lenient] says that
      its readers accept what the reference readers accept.  MockClient: the
      client connects to it.
    - Topic: protocol/topic.go.
    - SessionStore, IdAllocator, Quota: the three parts of session.go.
    - Errors: errors.go.
    - Breaker: breaker.go.
    - Subscriptions: the subscription table of adapter_tcp.go and the routing of
      pump.go.
    - Lifecycle: the reconnect policy of lifecycle.go.  Supervisor: Start, Stop,
      OnConnect and the reconnect loop as goroutines over the [Connector]
      interface.  SupervisorFacts: their theorems, and the TCP client as an
      instance of the interface.
    - Client: the TCPClient and its link (adapter_tcp.go), waiters, writing a
      frame, teardown, and the replies of pump.go.
    - Pump: pump.go, a handler per inbound packet, the read loop and the
      keep-alive loop.
    - Requests: options.go and publish.go, the calls that block.
    - Connection: Connect, Disconnect, the resumption and the replay of the
      session (adapter_tcp.go).
    - ClientFacts, InboundFacts, SessionFacts, RequestFacts, LinkFacts,
      ReadLoopFacts, OutboundFacts: the theorems about them, by subject.
    - Teardown: teardownLink statement by statement, interleaved with other
      teardowns and with connects.
    - Flow: publishers, read loops and connects interleaved, and the Receive
      Maximum.  Exchange: the same system, and who holds a packet identifier.
    - Wellformed: the invariant of the client object and a logic of commands
      ([upholds], hint database [client]) that carries it through every operation.
    - Transport: tls_config.go and dial of adapter_tcp.go.
    - Buffers: storedCopy of publish.go on shared byte buffers.
    - Bridge: client.go, the interfaces, and a breaker in front of a client.
    - Delivery: the QoS 1 and QoS 2 exchanges of MQTT 4.3 as a protocol between a
      sender and a receiver over connections that can be lost, with its invariant.
      World: the client of the files above composed with such a receiver.
      WorldFacts, PublishFacts, Torn, Ownership: what each operation of the client does
      to the outbound exchanges, what is left of a publish that loses its
      connection, and who holds an identifier.  Simulation,
      Traffic, Answers, Resume: every step of the composed system is a step of
      the protocol.  EndToEnd: the theorems about delivery.  Waiters, Callers: the
      same system with the calls of Publish that wait for an acknowledgement.
      Duplex: the same system with a broker that sends messages of its own and
      keeps a session for them.  Receiving: what each operation of the client does
      to the inbound exchanges.  Inflow: every step is also a step of the protocol
      with the client as the receiver.  Receipt: the theorems about delivery to
      the handlers.

    ** How state and concurrency are modelled

    Go integers are [Z] with explicit wrap-around ([u8] to [u64], [i64]); strings
    and byte slices are lists of bytes; a pointer that may be nil is an [option].
    A type guarded by a mutex is a record, and each critical section is one
    function on it.  Where goroutines interleave, a step relation ([id_step],
    [quota_step], [breaker_step], [sub_step], [client_step], [tear]) runs those functions in any order
    next to the values the goroutines hold (identifiers, permits, admissions,
    registrations); theorems hold for every reachable state.  Channels of the
    quota are numbered: a broadcast closes the current one and makes the next.
    Map iteration order is an argument ([memStore_All_from]).  Handlers and
    callbacks are opaque: what is proved is which are called, how often and in
    which order.

    The TCP client is one record ([client]) and its methods are commands on it
    ([cmd], a state monad).  Links, sockets and acknowledgement channels are heap
    objects referred to by number, so a goroutine of an old connection goes on
    using its own link after a reconnect.  The session store is any instance of
    the class [SessionStore]; theorems ask for its laws ([SessionStoreLaws]) and
    for calls that do not fail ([ReliableStore]) where they need them, and
    [memStore] satisfies both.  What is outside the repository is the class
    [Environment]: whether a write succeeds, and what happens to the client while
    a message handler runs.  A goroutine in a blocking call is a control point
    ([pub_pc], [req_pc], [sub_pc], [uns_pc], [await_pc], [start_pc], [stop_pc],
    [loop_pc]), and a step runs one
    critical section; the functions of the read loop run as a whole, except in
    Flow, where the sections of [completeOutbound], [applySession] and
    [replaySession] are steps of their own and [completeOutbound_steps] and
    [applySession_steps] show that the steps in a row are the function.  A frame
    written, with the teardown when the write fails, is one step; Teardown splits
    the teardown itself, and [down_steps] shows that its steps are the function.

    Other code outside the repository is a class too: the file system, the PEM
    decoder and the certificate parser ([Crypto], with [PemLaws]), the network
    below a dial ([Network]) and the application's reconnect callbacks.

    ** What the theorems show

    - Codec.  Every encoder's output is read back by the framing and the decoder
      as the same packet, less what the protocol version does not carry; a
      PUBLISH with a topic that is no topic name is written and refused when
      read.  CONNECT, SUBSCRIBE and UNSUBSCRIBE, which the library
      only writes, are read back by reference readers built from the same cursor.
      Frames and variable byte integers have exactly one accepted form; oversized
      frames are refused from their header; no decoder panics or diverges on any
      bytes, and what the PUBLISH, CONNACK and SUBACK decoders accept is legal.
    - Topics.  Validation and matching agree with the rules of MQTT 4.7 and 4.8.2
      stated as inductive relations, the filter behind a shared subscription
      included.
    - Session.  The store refines an ordered list of entries and satisfies the
      [SessionStore] contract as a class with laws; identifiers of live exchanges
      are distinct and do not leak; permits, those of replayed messages included,
      add up to the Receive Maximum of the last connect or to what it replays,
      and no wakeup is lost.
    - Breaker.  A bound on the probes of one half-open phase (together with
      probes left from an earlier one there can be more: [stale_probe_exceeds_bound]),
      ordered and complete reporting, also when a callback panics, opening
      threshold, recovery, neutrality of local errors.
    - Subscriptions.  Routing, one registration per filter, stale rollbacks are
      harmless; and two defects: a failed re-subscription keeps the new
      identifier, and the snapshot and the registration are not one step.
    - Client.  The receiver side refines the exactly-once receiver and the
      acknowledgement handlers refine the QoS 1 and QoS 2 sender; a resumed
      session is replayed in order before new traffic; the accounting of permits
      bounds the unacknowledged messages by the Receive Maximum across
      reconnects, as long as the replay itself fits; a teardown releases every
      caller that has a waiter or is parked on the quota; a publish that was not sent and a connect that failed leave
      nothing behind; protocol violations are fatal, after a DISCONNECT with the
      right reason where the code sends one; the
      watchdog fires at exactly the third unanswered tick; topic aliases resolve
      to the latest topic; the read loop terminates.  Two defects: a reconnect
      that lowers the Receive Maximum replays more messages than it allows, and
      so does one that a publish of the old connection overtakes.
    - Delivery.  A client and a broker that follows MQTT 4.3, connected and cut off
      any number of times: QoS 2 messages reach the subscribers exactly once and
      in order, QoS 1 messages at least once, and on a connection that holds
      every exchange comes to its end within a bounded number of steps; a call of
      Publish that returns nil has delivered its message.  A Subscribe that was
      overtaken by a new session can strand an acknowledged publish.  The
      system ([World]) consists of publishes, broker and client handling one
      frame at a time, connection losses (between two steps, in the middle of a
      publish and while a handler runs), keep-alive ticks, disconnects,
      connects that fail anywhere, resume the session or renew it, and subscribe
      and unsubscribe calls in progress.  It assumes that between the critical
      sections of a publish on its way to the socket nothing happens but the loss
      of its connection, in particular no connect (the races below show that
      this matters), that a publish that finds no free permit gives up, that the
      broker announces the same Maximum Packet Size on every connection, that
      besides its answers it sends anything (messages, PUBRELs, even violations
      of the protocol) but acknowledgements of publishes, and that handlers do
      not use the client ([Observers]).  The same holds in the other direction
      ([Duplex]): the handlers are called for the messages that a reference
      receiver, given the packets the client reads, would pass on; the client
      takes over the broker's QoS 2 messages exactly once and in order and its
      QoS 1 messages at least once, and both directions together come to rest.
      A QoS 2 message during whose handlers the connection is lost is not taken
      over and is delivered again ([called_again]).  There the broker is assumed to use a free identifier for a new
      message, to retransmit when a session is resumed, to send no topic aliases,
      and to accept acknowledgements of five bytes.
    - The test double.  The scripted broker of the test suite reads every packet
      the client's encoders produce, in frames of at most 16 MiB and with topics
      a PUBLISH may carry, notes down exactly what it says and blames no such
      client; its CONNACKs, for scripts the protocol allows, SUBACKs and UNSUBACKs
      are read by the client as scripted.
    - Identifiers.  When acknowledgements belong to the current connection and no
      goroutine is in the middle of an exchange during a connect, no two exchanges
      share an identifier on a connection, across failures, resets and replays.
      Two races outside these conditions free an identifier that a resumed
      session has just replayed.
    - Well-formedness.  Every operation of the client keeps its invariant, no
      frame exceeds the Maximum Packet Size of the broker, and no acknowledgement
      result is dropped; the order of a teardown protects the next session.
    - Transport.  A CA file either pins the trust or is an error; the scheme alone
      decides about TLS, and no dial loosens a configuration or leaks a socket.
      A stored message does not alias the caller's buffers.
    - Lifecycle.  Bounded exponential delays for failing and for flapping
      brokers, jitter bounds, exact attempt counts; a stopped lifecycle stays
      stopped and a started one has exactly one loop, as long as calls of Start do
      not overlap; a run in which they do and a loop is leaked.  A guarded session
      fails fast during an outage and still subscribes.

    ** Bounds

    Loops that the code bounds by a constant keep it as their fuel: four bytes of
    a variable byte integer, five digits of a [uint32], 65536 candidates of the
    allocator.  The property and reason code loops take the number of remaining
    bytes as fuel, and [decoders_total] shows that the fuel never runs out.
    Sequence numbers, generations and epochs are [uint64]: steps that increment
    them assume that fewer than 2^64 increments have happened.  Reconnect delays
    are assumed below 2^62 nanoseconds, since doubling wraps around above.  The
    read loop takes fuel, one turn each: [read_loop_terminates] shows that the
    number of unread bytes and one more is enough.  Flow assumes limits of 16
    bits and fewer than 2^62 stored messages, so that an [int] never overflows.
    Reading a CA file takes one turn per byte and one more, and
    [ca_file_pins_trust] shows that this is enough.

    ** What is not modelled

    Socket deadlines, timers and logging: whether a write succeeds, when a timer
    fires and when a context ends are arguments.  [Disconnect] does not wait for
    the loops, and log lines are left out except for the warning of an ignored
    TLS configuration.  Handlers are numbers.  The functions of crypto/tls, x509,
    encoding/pem, os and net that do I/O or cryptography are parameters.  Outside
    Buffers byte slices are values.  The scripted broker takes a turn of its
    serve loop as one step, without its listener and timeouts.  The certificate
    generator is a test tool outside the development. *)

From Stdlib Require Export ZArith Lia ZifyBool.
From stdpp Require Export base tactics numbers list gmap strings sorting.
From stdpp Require Import options.

#[global] Open Scope Z_scope.

(** * Machine integers

    Go integers are modelled as [Z]; every operation that can leave the range
    of its Go type is wrapped explicitly. *)

Definition u8 (z : Z) : Z := z mod 256.
Definition u16 (z : Z) : Z := z mod 65536.
Definition u32 (z : Z) : Z := z mod 4294967296.
Definition u64 (z : Z) : Z := z mod 18446744073709551616.

(** [int64] arithmetic (time.Duration): two's complement wrap-around. *)
Definition i64 (z : Z) : Z :=
  (z + 9223372036854775808) mod 18446744073709551616 - 9223372036854775808.

Definition in_u8 (z : Z) : Prop := 0 <= z < 256.
Definition in_u16 (z : Z) : Prop := 0 <= z < 65536.
Definition in_u32 (z : Z) : Prop := 0 <= z < 4294967296.
Definition in_u64 (z : Z) : Prop := 0 <= z < 18446744073709551616.

#[export] Instance in_u8_dec z : Decision (in_u8 z).
Proof. unfold in_u8. apply _. Defined.
#[export] Instance in_u16_dec z : Decision (in_u16 z).
Proof. unfold in_u16. apply _. Defined.
#[export] Instance in_u32_dec z : Decision (in_u32 z).
Proof. unfold in_u32. apply _. Defined.
#[export] Instance in_u64_dec z : Decision (in_u64 z).
Proof. unfold in_u64. apply _. Defined.

(** Prove a decidable proposition by evaluating its decision procedure. *)
Ltac by_decide := apply (bool_decide_unpack _); vm_compute; exact I.

(** The test [x&mask != 0] that Go code writes on flag words. *)
Definition has_bits (x mask : Z) : bool := negb (Z.land x mask =? 0).

(** * Errors and results *)

(** The codec's sentinel errors (protocol/errors.go), as a caller sees them
    through [errors.Is]; the message text around a sentinel is not modelled.
    The two I/O errors are those of [io.ReadFull].  [GoPanic] is the run-time
    panic of an out-of-range index or slice, and [OutOfFuel] marks a loop of
    the model that reached its iteration bound: theorems show that neither is
    ever produced. *)
Inductive error : Type :=
| ErrMalformedPacket
| ErrProtocolViolation
| ErrStringTooLong
| ErrFrameTooLarge
| ErrEOF
| ErrUnexpectedEOF
| GoPanic
| OutOfFuel.

#[export] Instance error_eq_dec : EqDecision error.
Proof. solve_decision. Defined.

(** A Go pair [(T, error)]: either the value or a non-nil error. *)
Inductive res (A : Type) : Type :=
| Ok (a : A)
| Err (e : error).
Arguments Ok {A} a.
Arguments Err {A} e.

#[export] Instance res_ret : MRet res := fun A a => Ok a.
#[export] Instance res_bind : MBind res := fun A B f m =>
  match m with Ok a => f a | Err e => Err e end.

(** [if cond { return err }] in front of the rest of a function. *)
Definition guard_err {A} (bad : bool) (e : error) (k : res A) : res A :=
  if bad then Err e else k.

Lemma res_bind_Ok {A B} (a : A) (f : A -> res B) : (Ok a ≫= f) = f a.
Proof. reflexivity. Qed.

Lemma res_bind_inv {A B} (m : res A) (f : A -> res B) b :
  (m ≫= f) = Ok b -> exists a, m = Ok a /\ f a = Ok b.
Proof. destruct m; intros H; [eauto | discriminate H]. Qed.

Lemma res_bind_err {A B} (m : res A) (f : A -> res B) e :
  (m ≫= f) = Err e -> m = Err e \/ exists a, m = Ok a /\ f a = Err e.
Proof. destruct m as [a|e']; intros H; [right; eauto | left; by injection H as <-]. Qed.

(** * Record updates

    [record_setter eta proj] builds the function that replaces one field of a
    record, from the eta expansion of the record. *)
Ltac record_setter eta proj :=
  let body := eval cbv delta [eta] in eta in
  let abstracted := eval pattern proj in body in
  match abstracted with
  | ?k _ =>
      let s := eval cbv beta in (fun v r => k (fun _ => v) r) in
      exact s
  end.

(** * Tactics and hint databases *)

Create HintDb mqtt.
Create HintDb safe.

(** Split the monadic computation of a hypothesis [H : ... = Ok _] (or of a
    result of any shape) into its steps. *)
Ltac res_step :=
  match goal with
  | H : Ok _ = Ok _ |- _ => injection H as H; subst
  | H : Err _ = Err _ |- _ => injection H as H; subst
  | H : Ok _ = Err _ |- _ => discriminate H
  | H : Err _ = Ok _ |- _ => discriminate H
  | H : mbind _ _ = Ok _ |- _ =>
      let E := fresh "E" in
      apply res_bind_inv in H as (? & E & H); cbn beta iota in H
  | H : mbind _ _ = Err _ |- _ =>
      let E := fresh "E" in
      apply res_bind_err in H as [H | (? & E & H)]; cbn beta iota in H
  | H : context [guard_err ?b _ _] |- _ =>
      let E := fresh "G" in
      destruct b eqn:E; unfold guard_err in H; cbn iota in H
  end.
Ltac res_inv := repeat res_step.

(** Turn boolean comparisons in the context into propositions. *)
Ltac bool_prop :=
  repeat match goal with
  | H : andb _ _ = true |- _ => apply andb_true_iff in H as [? ?]
  | H : orb _ _ = false |- _ => apply orb_false_iff in H as [? ?]
  | H : negb _ = true |- _ => apply negb_true_iff in H
  | H : negb _ = false |- _ => apply negb_false_iff in H
  | H : (_ <? _) = true |- _ => apply Z.ltb_lt in H
  | H : (_ <? _) = false |- _ => apply Z.ltb_ge in H
  | H : (_ <=? _) = true |- _ => apply Z.leb_le in H
  | H : (_ <=? _) = false |- _ => apply Z.leb_gt in H
  | H : (_ =? _) = true |- _ => apply Z.eqb_eq in H
  | H : (_ =? _) = false |- _ => apply Z.eqb_neq in H
  | H : (_ >? _) = true |- _ => apply Z.gtb_lt in H
  | H : (_ >=? _) = true |- _ => apply Z.geb_le in H
  | H : bool_decide _ = true |- _ => apply bool_decide_eq_true in H
  | H : bool_decide _ = false |- _ => apply bool_decide_eq_false in H
  end.

(** * Generic lemmas *)

Lemma Zlength_app {A} (l1 l2 : list A) :
  Z.of_nat (length (l1 ++ l2)) = Z.of_nat (length l1) + Z.of_nat (length l2).
Proof. rewrite length_app. lia. Qed.

(** [u8] and friends are the identity inside their range. *)
Lemma u8_id z : in_u8 z -> u8 z = z.
Proof. apply Z.mod_small. Qed.
Lemma u16_id z : in_u16 z -> u16 z = z.
Proof. apply Z.mod_small. Qed.
Lemma u32_id z : in_u32 z -> u32 z = z.
Proof. apply Z.mod_small. Qed.
Lemma u64_id z : in_u64 z -> u64 z = z.
Proof. apply Z.mod_small. Qed.
Lemma i64_id z : -9223372036854775808 <= z < 9223372036854775808 -> i64 z = z.
Proof. unfold i64. intros. rewrite Z.mod_small; lia. Qed.
Lemma u64_range z : in_u64 (u64 z).
Proof. apply Z.mod_pos_bound. lia. Qed.
Lemma u16_range z : in_u16 (u16 z).
Proof. apply Z.mod_pos_bound. lia. Qed.
#[export] Hint Resolve u8_id u16_id u32_id u64_id i64_id u64_range u16_range : mqtt.

(** Disjoint bit patterns: [Z.lor] of a multiple of [2^n] and a value below
    [2^n] is their sum. *)
Lemma lor_shiftl_add a b n :
  0 <= n -> 0 <= b < 2 ^ n -> Z.lor (Z.shiftl a n) b = a * 2 ^ n + b.
Proof.
  intros Hn Hb. rewrite Z.shiftl_mul_pow2 by lia.
  assert (Hd : Z.land (a * 2 ^ n) b = 0).
  { apply Z.bits_inj'. intros i Hi. rewrite Z.land_spec, Z.bits_0.
    destruct (Z.lt_ge_cases i n).
    - rewrite Z.mul_pow2_bits_low by lia. reflexivity.
    - pose proof (Z.pow_le_mono_r 2 n i).
      assert (Z.testbit b i = false) as ->; [|apply andb_false_r].
      apply Z.testbit_false; [lia|]. rewrite Z.div_small by lia. reflexivity. }
  by rewrite Z.add_nocarry_lxor, Z.lxor_lor.
Qed.

(** The flag test on a single bit. *)
Lemma has_bits_pow2 seen id :
  0 <= id < 64 -> 0 <= seen -> has_bits seen (u64 (Z.shiftl 1 id)) = Z.testbit seen id.
Proof.
  intros Hid Hs. assert (Hb : 0 < 2 ^ id < 2 ^ 64).
  { split; [apply Z.pow_pos_nonneg|apply Z.pow_lt_mono_r]; lia. }
  rewrite Z.shiftl_mul_pow2, Z.mul_1_l, u64_id by (unfold in_u64; lia).
  unfold has_bits. destruct (Z.testbit seen id) eqn:E.
  - apply negb_true_iff, Z.eqb_neq. intros H0. apply (f_equal (fun z => Z.testbit z id)) in H0.
    rewrite Z.land_spec, E, Z.pow2_bits_true, Z.bits_0 in H0 by lia. done.
  - apply negb_false_iff, Z.eqb_eq. apply Z.bits_inj'. intros i Hi.
    rewrite Z.land_spec, Z.bits_0, Z.pow2_bits_eqb by lia.
    destruct (Z.eqb_spec id i) as [<-|]; [by rewrite E|apply andb_false_r].
Qed.
