(* ===== verification/GoStrings.v ===== *)
(** The part of Go's standard library the client relies on for strings: byte
    strings, UTF-8 validity ([unicode/utf8]), and the searching and splitting
    functions of [strings].  A Go [string] or [[]byte] is a list of bytes, a
    byte being a [Z] between 0 and 255. *)

From Stdlib Require Import Ascii.
From Stdlib Require String.
From S2P Require Import Prelude.
From stdpp Require Import options.

(** A string literal of the source as the bytes Go stores for it. *)
Definition gostr (s : string) : list Z :=
  map (fun c => Z.of_N (N_of_ascii c)) (String.list_ascii_of_string s).

Definition SLASH : Z := 47.
Definition HASH : Z := 35.
Definition PLUS : Z := 43.
Definition DOLLAR : Z := 36.

(** ** unicode/utf8 *)

(** [b] lies in [lo..hi]. *)
Definition within (lo hi b : Z) : bool := (lo <=? b) && (b <=? hi).

(** utf8.ValidString: the table of well-formed byte sequences (no overlong
    forms, no surrogates, nothing above U+10FFFF). *)
Fixpoint ValidString (s : list Z) : bool :=
  match s with
  | [] => true
  | b0 :: s1 =>
    if within 0 0x7F b0 then ValidString s1
    else match s1 with
    | [] => false
    | b1 :: s2 =>
      if within 0xC2 0xDF b0 then within 0x80 0xBF b1 && ValidString s2
      else match s2 with
      | [] => false
      | b2 :: s3 =>
        if b0 =? 0xE0 then within 0xA0 0xBF b1 && within 0x80 0xBF b2 && ValidString s3
        else if within 0xE1 0xEC b0 || within 0xEE 0xEF b0
          then within 0x80 0xBF b1 && within 0x80 0xBF b2 && ValidString s3
        else if b0 =? 0xED then within 0x80 0x9F b1 && within 0x80 0xBF b2 && ValidString s3
        else match s3 with
        | [] => false
        | b3 :: s4 =>
          if b0 =? 0xF0
          then within 0x90 0xBF b1 && within 0x80 0xBF b2 && within 0x80 0xBF b3 && ValidString s4
          else if within 0xF1 0xF3 b0
          then within 0x80 0xBF b1 && within 0x80 0xBF b2 && within 0x80 0xBF b3 && ValidString s4
          else if b0 =? 0xF4
          then within 0x80 0x8F b1 && within 0x80 0xBF b2 && within 0x80 0xBF b3 && ValidString s4
          else false
        end
      end
    end
  end.

(** ** strings *)

(** strings.IndexByte: the first index of [b], or -1. *)
Fixpoint IndexByte (s : list Z) (b : Z) : Z :=
  match s with
  | [] => -1
  | c :: s' => if c =? b then 0 else let i := IndexByte s' b in if i <? 0 then -1 else i + 1
  end.

(** strings.ContainsRune and strings.Contains for one ASCII character. *)
Definition contains_byte (s : list Z) (b : Z) : bool := existsb (Z.eqb b) s.

(** strings.ContainsAny for a set of ASCII characters. *)
Definition ContainsAny (s chars : list Z) : bool := existsb (contains_byte chars) s.

(** strings.CutPrefix: the rest after [prefix], if [s] starts with it. *)
Fixpoint CutPrefix (s prefix : list Z) {struct prefix} : option (list Z) :=
  match prefix, s with
  | [], _ => Some s
  | p :: prefix', c :: s' => if c =? p then CutPrefix s' prefix' else None
  | _ :: _, [] => None
  end.

(** strings.Cut around the first [sep]; the boolean is Go's [found]. *)
Fixpoint Cut (s : list Z) (sep : Z) : list Z * list Z * bool :=
  match s with
  | [] => ([], [], false)
  | c :: s' =>
    if c =? sep then ([], s', true)
    else let '(before, after, found) := Cut s' sep in (c :: before, after, found)
  end.

(** strings.Split by a one-byte separator. *)
Fixpoint Split (s : list Z) (sep : Z) : list (list Z) :=
  match s with
  | [] => [[]]
  | c :: s' =>
    if c =? sep then [] :: Split s' sep
    else match Split s' sep with
         | l :: ls => (c :: l) :: ls
         | [] => [[c]]
         end
  end.

(** strings.Join by a one-byte separator. *)
Fixpoint Join (ls : list (list Z)) (sep : Z) : list Z :=
  match ls with
  | [] => []
  | [l] => l
  | l :: ls' => l ++ sep :: Join ls' sep
  end.

(** * Lemmas *)

Lemma contains_byte_spec s b : contains_byte s b = true <-> b ∈ s.
Proof.
  unfold contains_byte. rewrite existsb_exists. split.
  - intros (x & Hx & E). bool_prop. subst. by apply list_elem_of_In.
  - intros H. exists b. split; [by apply list_elem_of_In | apply Z.eqb_refl].
Qed.

Lemma contains_byte_false s b : contains_byte s b = false <-> b ∉ s.
Proof. rewrite <- contains_byte_spec. destruct (contains_byte s b); split; congruence. Qed.

Lemma IndexByte_contains s b : (IndexByte s b >=? 0) = contains_byte s b.
Proof.
  unfold contains_byte. induction s as [|c s IH]; simpl; [reflexivity|].
  rewrite (Z.eqb_sym b c). destruct (c =? b) eqn:E; simpl; [reflexivity|].
  rewrite <- IH. destruct (IndexByte s b <? 0) eqn:E2; simpl.
  - symmetry. rewrite Z.geb_leb. bool_prop. apply Z.leb_gt. lia.
  - bool_prop. rewrite !Z.geb_leb. transitivity true; [|symmetry]; apply Z.leb_le; lia.
Qed.

Lemma ContainsAny_false s cs :
  ContainsAny s cs = false <-> forall c, c ∈ cs -> c ∉ s.
Proof.
  unfold ContainsAny. split.
  - intros H c Hc Hs. assert (existsb (contains_byte cs) s = true); [|congruence].
    apply existsb_exists. exists c. split; [by apply list_elem_of_In|]. by apply contains_byte_spec.
  - intros H. destruct (existsb _ s) eqn:E; [|reflexivity].
    apply existsb_exists in E as (x & Hx & Hc). apply contains_byte_spec in Hc.
    exfalso. apply (H x Hc). by apply list_elem_of_In.
Qed.

(** Every byte of a well-formed UTF-8 string is a byte. *)
Lemma within_u8 lo hi b : 0 <= lo -> hi <= 255 -> within lo hi b = true -> in_u8 b.
Proof. unfold within, in_u8. intros. bool_prop. lia. Qed.

Lemma CutPrefix_Some s p r : CutPrefix s p = Some r <-> s = p ++ r.
Proof.
  revert s. induction p as [|b p IH]; intros s; simpl.
  - destruct s; split; congruence.
  - destruct s as [|c s]; [split; congruence|].
    destruct (c =? b) eqn:E; bool_prop.
    + subst. rewrite IH. split; congruence.
    + split; congruence.
Qed.

Lemma CutPrefix_None s p : CutPrefix s p = None <-> ~ exists r, s = p ++ r.
Proof.
  destruct (CutPrefix s p) eqn:E.
  - apply CutPrefix_Some in E. split; [congruence|]. intros H. exfalso. eauto.
  - split; [|done]. intros _ [r H]. apply CutPrefix_Some in H. congruence.
Qed.

Lemma Cut_true s sep a b : Cut s sep = (a, b, true) <-> s = a ++ sep :: b /\ sep ∉ a.
Proof.
  revert a. induction s as [|c s IH]; intros a; simpl.
  { split; [congruence|]. intros [H _]. by destruct a. }
  destruct (c =? sep) eqn:E; bool_prop.
  - subst. split.
    + intros [= <- <-]. split; [done|]. apply not_elem_of_nil.
    + intros [H Hn]. destruct a as [|x a]; [by simplify_eq/=|].
      simplify_eq/=. exfalso. apply Hn. left.
  - destruct (Cut s sep) as [[a' b'] f'] eqn:Ec. split.
    + intros [= <- <- ->]. destruct (proj1 (IH a') eq_refl) as [-> Hn].
      split; [done|]. rewrite not_elem_of_cons. done.
    + intros [H Hn]. destruct a as [|x a]; [by simplify_eq/=|].
      simplify_eq/=. rewrite not_elem_of_cons in Hn.
      assert (Hc : (a', b', f') = (a, b, true)) by (apply (IH a); split; [done|tauto]).
      by simplify_eq.
Qed.

Lemma Cut_false s sep a b : Cut s sep = (a, b, false) -> (sep ∉ s) /\ a = s.
Proof.
  revert a. induction s as [|c s IH]; intros a; simpl.
  { intros [= <- <-]. split; [apply not_elem_of_nil|done]. }
  destruct (c =? sep) eqn:E; bool_prop; [congruence|].
  destruct (Cut s sep) as [[a' b'] f'] eqn:Ec. intros [= <- <- ->].
  destruct (IH a' eq_refl) as [Hn ->]. rewrite not_elem_of_cons. done.
Qed.

Lemma Split_nonempty s sep : Split s sep <> [].
Proof.
  destruct s as [|c s]; simpl; [done|]. destruct (c =? sep); [done|]. by destruct (Split s sep).
Qed.

Lemma Join_Split s sep : Join (Split s sep) sep = s.
Proof.
  induction s as [|c s IH]; simpl; [done|].
  pose proof (Split_nonempty s sep) as Hne.
  destruct (c =? sep) eqn:E; bool_prop; subst.
  - simpl. destruct (Split s sep) eqn:Es; [done|]. by rewrite <- IH.
  - destruct (Split s sep) as [|l ls] eqn:Es; [done|]. rewrite <- IH. by destruct ls.
Qed.

Lemma Split_inj s t sep : Split s sep = Split t sep -> s = t.
Proof. intros H. by rewrite <- (Join_Split s sep), H, Join_Split. Qed.

Lemma Split_no_sep s sep l : l ∈ Split s sep -> sep ∉ l.
Proof.
  revert l. induction s as [|c s IH]; simpl; intros l.
  - rewrite list_elem_of_singleton. intros ->. apply not_elem_of_nil.
  - destruct (c =? sep) eqn:E; bool_prop.
    + rewrite elem_of_cons. intros [->|H]; [apply not_elem_of_nil|auto].
    + destruct (Split s sep) as [|h t] eqn:Es; [by apply Split_nonempty in Es|].
      rewrite elem_of_cons. intros [->|H]; [|apply IH; by right].
      rewrite not_elem_of_cons. split; [done|]. apply IH. by left.
Qed.

Lemma Split_app s sep t : sep ∉ s -> Split (s ++ sep :: t) sep = s :: Split t sep.
Proof.
  induction s as [|c s IH]; simpl; intros Hn.
  - by rewrite Z.eqb_refl.
  - rewrite not_elem_of_cons in Hn. destruct Hn as [Hc Hs].
    destruct (c =? sep) eqn:E; bool_prop; [congruence|]. by rewrite IH.
Qed.

Lemma Split_single s sep : sep ∉ s -> Split s sep = [s].
Proof.
  induction s as [|c s IH]; simpl; intros Hn; [done|].
  rewrite not_elem_of_cons in Hn. destruct Hn as [Hc Hs].
  destruct (c =? sep) eqn:E; bool_prop; [congruence|]. by rewrite IH.
Qed.

(** A byte occurs in a string iff it is the separator of two levels or occurs
    in one of the levels. *)
Lemma Split_elem s sep b : b <> sep -> b ∈ s <-> exists l, l ∈ Split s sep /\ b ∈ l.
Proof.
  intros Hb. induction s as [|c s IH]; simpl.
  - split; [by intros ?%elem_of_nil|].
    intros (l & Hl & Hbl). apply list_elem_of_singleton in Hl as ->. done.
  - rewrite elem_of_cons, IH. destruct (c =? sep) eqn:E; bool_prop.
    + subst. split.
      * intros [->|(l & Hl & Hbl)]; [done|]. exists l. split; [by right|done].
      * intros (l & Hl & Hbl). apply elem_of_cons in Hl as [->|Hl]; [by apply elem_of_nil in Hbl|eauto].
    + destruct (Split s sep) as [|h t] eqn:Es; [by apply Split_nonempty in Es|]. split.
      * intros [->|(l & Hl & Hbl)].
        { exists (c :: h). split; left. }
        apply elem_of_cons in Hl as [->|Hl].
        { exists (c :: h). split; [left|by right]. }
        exists l. split; [by right|done].
      * intros (l & Hl & Hbl). apply elem_of_cons in Hl as [->|Hl].
        { apply elem_of_cons in Hbl as [->|Hbl]; [by left|]. right. exists h. split; [left|done]. }
        right. exists l. split; [by right|done].
Qed.
