(* ===== verification/Codes.v ===== *)
(** Protocol levels, control packet types and reason codes
    (protocol/version.go, protocol/reason.go and the constants of
    protocol/wire.go).  All three are byte types in Go, so a value outside the
    named constants is possible and is modelled. *)

From Stdlib Require Import Ascii.
From stdpp Require Import pretty.
From S2P Require Import Prelude GoStrings.
From stdpp Require Import options.

(** * Protocol versions *)

Definition V311 : Z := 4.
Definition V50 : Z := 5.

Definition Version_Valid (v : Z) : bool := (v =? V311) || (v =? V50).

Definition Version_String (v : Z) : string :=
  if v =? V311 then "MQTT 3.1.1"
  else if v =? V50 then "MQTT 5.0"
  else "MQTT(level " +:+ pretty v +:+ ")".

(** * Control packet types *)

Definition Connect : Z := 1.
Definition Connack : Z := 2.
Definition Publish : Z := 3.
Definition Puback : Z := 4.
Definition Pubrec : Z := 5.
Definition Pubrel : Z := 6.
Definition Pubcomp : Z := 7.
Definition Subscribe : Z := 8.
Definition Suback : Z := 9.
Definition Unsubscribe : Z := 10.
Definition Unsuback : Z := 11.
Definition Pingreq : Z := 12.
Definition Pingresp : Z := 13.
Definition Disconnect : Z := 14.
Definition Auth : Z := 15.

Definition PacketType_String (t : Z) : string :=
  if t =? Connect then "CONNECT"
  else if t =? Connack then "CONNACK"
  else if t =? Publish then "PUBLISH"
  else if t =? Puback then "PUBACK"
  else if t =? Pubrec then "PUBREC"
  else if t =? Pubrel then "PUBREL"
  else if t =? Pubcomp then "PUBCOMP"
  else if t =? Subscribe then "SUBSCRIBE"
  else if t =? Suback then "SUBACK"
  else if t =? Unsubscribe then "UNSUBSCRIBE"
  else if t =? Unsuback then "UNSUBACK"
  else if t =? Pingreq then "PINGREQ"
  else if t =? Pingresp then "PINGRESP"
  else if t =? Disconnect then "DISCONNECT"
  else if t =? Auth then "AUTH"
  else "PacketType(" +:+ pretty t +:+ ")".

(** * Reason codes *)

Definition Success : Z := 0x00.
Definition NormalDisconnection : Z := 0x00.
Definition GrantedQoS0 : Z := 0x00.
Definition GrantedQoS1 : Z := 0x01.
Definition GrantedQoS2 : Z := 0x02.
Definition DisconnectWithWillMessage : Z := 0x04.
Definition NoMatchingSubscribers : Z := 0x10.
Definition NoSubscriptionExisted : Z := 0x11.
Definition ContinueAuthentication : Z := 0x18.
Definition ReAuthenticate : Z := 0x19.
Definition UnspecifiedError : Z := 0x80.
Definition MalformedPacketReason : Z := 0x81.
Definition ProtocolErrorReason : Z := 0x82.
Definition ImplementationSpecificError : Z := 0x83.
Definition UnsupportedProtocolVersion : Z := 0x84.
Definition ClientIdentifierNotValid : Z := 0x85.
Definition BadUserNameOrPassword : Z := 0x86.
Definition NotAuthorized : Z := 0x87.
Definition ServerUnavailable : Z := 0x88.
Definition ServerBusy : Z := 0x89.
Definition Banned : Z := 0x8A.
Definition ServerShuttingDown : Z := 0x8B.
Definition BadAuthenticationMethod : Z := 0x8C.
Definition KeepAliveTimeout : Z := 0x8D.
Definition SessionTakenOver : Z := 0x8E.
Definition TopicFilterInvalid : Z := 0x8F.
Definition TopicNameInvalid : Z := 0x90.
Definition PacketIdentifierInUse : Z := 0x91.
Definition PacketIdentifierNotFound : Z := 0x92.
Definition ReceiveMaximumExceeded : Z := 0x93.
Definition TopicAliasInvalid : Z := 0x94.
Definition PacketTooLargeReason : Z := 0x95.
Definition MessageRateTooHigh : Z := 0x96.
Definition QuotaExceeded : Z := 0x97.
Definition AdministrativeAction : Z := 0x98.
Definition PayloadFormatInvalid : Z := 0x99.
Definition RetainNotSupported : Z := 0x9A.
Definition QoSNotSupported : Z := 0x9B.
Definition UseAnotherServer : Z := 0x9C.
Definition ServerMoved : Z := 0x9D.
Definition SharedSubscriptionsNotSupported : Z := 0x9E.
Definition ConnectionRateExceeded : Z := 0x9F.
Definition MaximumConnectTime : Z := 0xA0.
Definition SubscriptionIdentifiersNotSupported : Z := 0xA1.
Definition WildcardSubscriptionsNotSupported : Z := 0xA2.

Definition ReasonCode_IsError (c : Z) : bool := c >=? 0x80.

Definition reasonNames : gmap Z string := list_to_map [
  (0x00, "Success");
  (0x01, "Granted QoS 1");
  (0x02, "Granted QoS 2");
  (0x04, "Disconnect with Will Message");
  (0x10, "No matching subscribers");
  (0x11, "No subscription existed");
  (0x18, "Continue authentication");
  (0x19, "Re-authenticate");
  (0x80, "Unspecified error");
  (0x81, "Malformed Packet");
  (0x82, "Protocol Error");
  (0x83, "Implementation specific error");
  (0x84, "Unsupported Protocol Version");
  (0x85, "Client Identifier not valid");
  (0x86, "Bad User Name or Password");
  (0x87, "Not authorized");
  (0x88, "Server unavailable");
  (0x89, "Server busy");
  (0x8A, "Banned");
  (0x8B, "Server shutting down");
  (0x8C, "Bad authentication method");
  (0x8D, "Keep Alive timeout");
  (0x8E, "Session taken over");
  (0x8F, "Topic Filter invalid");
  (0x90, "Topic Name invalid");
  (0x91, "Packet Identifier in use");
  (0x92, "Packet Identifier not found");
  (0x93, "Receive Maximum exceeded");
  (0x94, "Topic Alias invalid");
  (0x95, "Packet too large");
  (0x96, "Message rate too high");
  (0x97, "Quota exceeded");
  (0x98, "Administrative action");
  (0x99, "Payload format invalid");
  (0x9A, "Retain not supported");
  (0x9B, "QoS not supported");
  (0x9C, "Use another server");
  (0x9D, "Server moved");
  (0x9E, "Shared Subscriptions not supported");
  (0x9F, "Connection rate exceeded");
  (0xA0, "Maximum connect time");
  (0xA1, "Subscription Identifiers not supported");
  (0xA2, "Wildcard Subscriptions not supported")
]%string.

(** The verb [%02X] of a byte. *)
Definition hex_digit (n : Z) : ascii :=
  ascii_of_N (Z.to_N (if n <? 10 then n + 48 else n + 55)).
Definition hex2 (b : Z) : string :=
  String (hex_digit (b / 16)) (String (hex_digit (b mod 16)) EmptyString).

Definition ReasonCode_String (c : Z) : string :=
  match reasonNames !! c with
  | Some name => name
  | None => "ReasonCode(0x" +:+ hex2 c +:+ ")"
  end.

Definition v3ConnackReason : gmap Z Z := list_to_map [
  (1, UnsupportedProtocolVersion);
  (2, ClientIdentifierNotValid);
  (3, ServerUnavailable);
  (4, BadUserNameOrPassword);
  (5, NotAuthorized)
].

(** V3ConnackError: the text of the refusal error, or [None] for nil. *)
Definition V3ConnackError (code : Z) : option string :=
  if code =? 0 then None
  else match v3ConnackReason !! code with
       | Some rc => Some ("mqtt: connection refused: " +:+ ReasonCode_String rc)
       | None => Some ("mqtt: connection refused with unknown return code 0x" +:+ hex2 code)
       end.

(** * Lemmas *)

Lemma Version_Valid_spec v : Version_Valid v = true <-> v = V311 \/ v = V50.
Proof. unfold Version_Valid. rewrite orb_true_iff, !Z.eqb_eq. reflexivity. Qed.

(** Every v5 reason code a 3.1.1 return code maps to is a failure code. *)
Lemma v3ConnackReason_error code rc :
  v3ConnackReason !! code = Some rc -> ReasonCode_IsError rc = true.
Proof.
  intros H. apply elem_of_list_to_map_2 in H.
  repeat (apply elem_of_cons in H as [[= -> ->]|H]; [reflexivity|]).
  by apply elem_of_nil in H.
Qed.
