(* ===== verification/Wire.v ===== *)
(** The wire layer of the codec (protocol/wire.go): the fixed header, the
    variable byte integer in its stream and cursor readers, length-prefixed
    strings and binary data, and the bounds-checked cursor every packet decoder
    reads through. *)

From S2P Require Import Prelude GoStrings Codes.
From stdpp Require Import options.

Definition maxVarint : Z := 0x0FFFFFFF.
Definition maxStringLen : Z := 0xFFFF.

(** Go's [len]. *)
Abbreviation len l := (Z.of_nat (length l)).

(** * Frames *)

Record Frame : Type := mkFrame { Header : Z; Body : list Z }.

Definition Frame_PacketType (f : Frame) : Z := Z.shiftr (Header f) 4.

Definition Frame_ValidateFlags (f : Frame) : res unit :=
  let flags := Z.land (Header f) 0x0F in
  let t := Frame_PacketType f in
  if t =? Publish then
    let qos := Z.land (Z.shiftr flags 1) 0x03 in
    if qos =? 0x03 then Err ErrMalformedPacket
    else if (qos =? 0) && has_bits flags 0x08 then Err ErrMalformedPacket
    else Ok tt
  else if (t =? Pubrel) || (t =? Subscribe) || (t =? Unsubscribe) then
    if negb (flags =? 0x02) then Err ErrMalformedPacket else Ok tt
  else if (t =? Connect) || (t =? Connack) || (t =? Puback) || (t =? Pubrec) ||
          (t =? Pubcomp) || (t =? Suback) || (t =? Unsuback) || (t =? Pingreq) ||
          (t =? Pingresp) || (t =? Disconnect) || (t =? Auth) then
    if negb (flags =? 0x00) then Err ErrMalformedPacket else Ok tt
  else Err ErrMalformedPacket.

(** * Variable byte integers *)

Definition nonMinimalVarint (i : Z) (last : Z) : bool := (i >? 0) && (last =? 0x00).

Definition varintLen (v : Z) : Z :=
  if v <? Z.shiftl 1 7 then 1
  else if v <? Z.shiftl 1 14 then 2
  else if v <? Z.shiftl 1 21 then 3
  else 4.

(** The loop of [appendVarint]; a [uint32] has at most five 7-bit digits. *)
Fixpoint appendVarint_loop (fuel : nat) (buf : list Z) (v : Z) : list Z :=
  match fuel with
  | O => buf
  | S fuel' =>
    let digit := u8 (Z.land v 0x7F) in
    let v := Z.shiftr v 7 in
    let digit := if v >? 0 then Z.lor digit 0x80 else digit in
    let buf := buf ++ [digit] in
    if v =? 0 then buf else appendVarint_loop fuel' buf v
  end.
Definition appendVarint (buf : list Z) (v : Z) : list Z := appendVarint_loop 5 buf v.

(** * The byte stream of a connection

    An [io.Reader] delivers the bytes of a list; the end of the list is the
    end of the stream. *)

(** io.ReadFull into a buffer of [n] bytes. *)
Definition ReadFull (r : list Z) (n : Z) : res (list Z * list Z) :=
  if len r <? n then (if len r =? 0 then Err ErrEOF else Err ErrUnexpectedEOF)
  else Ok (take (Z.to_nat n) r, drop (Z.to_nat n) r).

(** io.ReadFull into a one-byte array [b], then [b[0]]. *)
Definition ReadFull1 (r : list Z) : res (Z * list Z) :=
  '(b, r) ← ReadFull r 1;
  match b with b0 :: _ => Ok (b0, r) | [] => Err GoPanic end.

Fixpoint readVarintFrom_loop (k : nat) (i value : Z) (r : list Z) : res (Z * list Z) :=
  match k with
  | O => Err ErrMalformedPacket
  | S k' =>
    '(b, r) ← ReadFull1 r;
    let value := Z.lor value (u32 (Z.shiftl (Z.land b 0x7F) (7 * i))) in
    if Z.land b 0x80 =? 0 then
      if nonMinimalVarint i b then Err ErrMalformedPacket else Ok (value, r)
    else readVarintFrom_loop k' (i + 1) value r
  end.
Definition readVarintFrom (r : list Z) : res (Z * list Z) := readVarintFrom_loop 4 0 0 r.

Definition ReadFrame (r : list Z) (maxPacketSize : Z) : res (Frame * list Z) :=
  '(head, r) ← ReadFull1 r;
  '(length, r) ← readVarintFrom r;
  let overhead := u32 (1 + varintLen length) in
  if (maxPacketSize <? overhead) || (length >? u32 (maxPacketSize - overhead))
  then Err ErrFrameTooLarge
  else if length >? 0 then
    '(body, r) ← ReadFull r length;
    Ok (mkFrame head body, r)
  else Ok (mkFrame head [], r).

(** * Writers

    The [io.Writer] and the [bytes.Buffer] of the encoders are byte lists that
    grow at the end; a [bytes.Buffer] never fails a write. *)

Definition writePacket (w : list Z) (header : Z) (body : list Z) : res (list Z) :=
  if len body >? maxVarint then Err ErrFrameTooLarge
  else
    let hdr := appendVarint [header] (u32 (len body)) in
    let w := w ++ hdr in
    if len body =? 0 then Ok w else Ok (w ++ body).

(** binary.BigEndian.PutUint16 and PutUint32 of a fresh array. *)
Definition PutUint16 (v : Z) : list Z := [u8 (Z.shiftr v 8); u8 v].
Definition PutUint32 (v : Z) : list Z :=
  [u8 (Z.shiftr v 24); u8 (Z.shiftr v 16); u8 (Z.shiftr v 8); u8 v].

Definition appendString (buf : list Z) (s : list Z) : res (list Z) :=
  if len s >? maxStringLen then Err ErrStringTooLong
  else if negb (ValidString s) then Err ErrProtocolViolation
  else if IndexByte s 0 >=? 0 then Err ErrProtocolViolation
  else Ok (buf ++ PutUint16 (u16 (len s)) ++ s).

Definition appendBinary (buf : list Z) (b : list Z) : res (list Z) :=
  if len b >? maxStringLen then Err ErrStringTooLong
  else Ok (buf ++ PutUint16 (u16 (len b)) ++ b).

(** * The cursor *)

Record cursor : Type := mkCursor { buf : list Z; pos : Z }.

Definition newCursor (b : list Z) : cursor := mkCursor b 0.

Definition remaining (c : cursor) : Z := len (buf c) - pos c.

(** A method of [*cursor] that returns [(T, error)]: it moves the cursor or
    fails, and no caller uses a cursor after a failed read. *)
Definition parser (A : Type) : Type := cursor -> res (A * cursor).
#[export] Instance parser_ret : MRet parser := fun A a c => Ok (a, c).
#[export] Instance parser_bind : MBind parser := fun A B f p c =>
  match p c with Ok (a, c') => f a c' | Err e => Err e end.
Definition fail {A} (e : error) : parser A := fun _ => Err e.
Definition get_remaining : parser Z := fun c => Ok (remaining c, c).

(** The Go expressions [b[i]] and [b[lo:hi]], which panic out of range. *)
Definition index (b : list Z) (i : Z) : res Z :=
  if i <? 0 then Err GoPanic
  else match b !! Z.to_nat i with Some x => Ok x | None => Err GoPanic end.
Definition slice (b : list Z) (lo hi : Z) : res (list Z) :=
  if (0 <=? lo) && (lo <=? hi) && (hi <=? len b)
  then Ok (take (Z.to_nat (hi - lo)) (drop (Z.to_nat lo) b))
  else Err GoPanic.

(** binary.BigEndian.Uint16 and Uint32. *)
Definition Uint16 (b : list Z) : res Z :=
  match b with
  | b0 :: b1 :: _ => Ok (Z.lor (Z.shiftl b0 8) b1)
  | _ => Err GoPanic
  end.
Definition Uint32 (b : list Z) : res Z :=
  match b with
  | b0 :: b1 :: b2 :: b3 :: _ =>
    Ok (Z.lor (Z.shiftl (Z.lor (Z.shiftl (Z.lor (Z.shiftl b0 8) b1) 8) b2) 8) b3)
  | _ => Err GoPanic
  end.

(** Take the next [n] bytes and advance: the pattern
    [c.buf[c.pos:c.pos+n]; c.pos += n]. *)
Definition next_bytes (n : Z) : parser (list Z) := fun c =>
  b ← slice (buf c) (pos c) (pos c + n);
  Ok (b, mkCursor (buf c) (pos c + n)).

Definition readByte : parser Z := fun c =>
  if remaining c <? 1 then Err ErrMalformedPacket
  else b ← index (buf c) (pos c); Ok (b, mkCursor (buf c) (pos c + 1)).

Definition readUint16 : parser Z := fun c =>
  if remaining c <? 2 then Err ErrMalformedPacket
  else '(b, c) ← next_bytes 2 c; v ← Uint16 b; Ok (v, c).

Definition readUint32 : parser Z := fun c =>
  if remaining c <? 4 then Err ErrMalformedPacket
  else '(b, c) ← next_bytes 4 c; v ← Uint32 b; Ok (v, c).

Fixpoint readVarint_loop (k : nat) (i value : Z) : parser Z :=
  match k with
  | O => fail ErrMalformedPacket
  | S k' =>
    b ← readByte;
    let value := Z.lor value (u32 (Z.shiftl (Z.land b 0x7F) (7 * i))) in
    if Z.land b 0x80 =? 0 then
      if nonMinimalVarint i b then fail ErrMalformedPacket else mret value
    else readVarint_loop k' (i + 1) value
  end.
Definition readVarint : parser Z := readVarint_loop 4 0 0.

Definition readString : parser (list Z) :=
  n ← readUint16;
  rem ← get_remaining;
  if rem <? n then fail ErrMalformedPacket
  else
    s ← next_bytes n;
    if negb (ValidString s) then fail ErrMalformedPacket
    else if IndexByte s 0 >=? 0 then fail ErrMalformedPacket
    else mret s.

Definition readBinary : parser (list Z) :=
  n ← readUint16;
  rem ← get_remaining;
  if rem <? n then fail ErrMalformedPacket
  else next_bytes n.

(** Run a decoder on a whole packet body; the final cursor is dropped. *)
Definition run {A} (p : parser A) (body : list Z) : res A :=
  match p (newCursor body) with Ok (a, _) => Ok a | Err e => Err e end.
