(* ===== verification/WireFacts.v ===== *)
(** Theorems about the wire layer: the variable byte integer has exactly one
    encoding and both readers implement its inverse, frames written by
    [writePacket] are read back by [ReadFrame], the length-prefixed fields
    round-trip, and no cursor read ever panics. *)

From S2P Require Import Prelude GoStrings Codes Wire.
From stdpp Require Import options.

(** * Reasoning principles for the cursor *)

(** The cursor standing between [pre] and [post]. *)
Definition at_pos (pre post : list Z) : cursor := mkCursor (pre ++ post) (len pre).

(** [p] accepts exactly the bytes [bs], whatever precedes or follows them, and
    returns [v]. *)
Definition parses {A} (p : parser A) (bs : list Z) (v : A) : Prop :=
  forall pre rest, p (at_pos pre (bs ++ rest)) = Ok (v, at_pos (pre ++ bs) rest).

Definition wf_cursor (c : cursor) : Prop := 0 <= pos c <= len (buf c).

(** [p] never panics and never runs out of its loop bound: from a cursor inside
    its buffer it either moves forward inside the same buffer or reports a
    malformed packet. *)
Definition safe {A} (p : parser A) : Prop :=
  forall c, wf_cursor c ->
    match p c with
    | Ok (_, c') => buf c' = buf c /\ pos c <= pos c' <= len (buf c)
    | Err e => e = ErrMalformedPacket
    end.

Lemma at_pos_app pre bs post : at_pos pre (bs ++ post) = mkCursor (pre ++ bs ++ post) (len pre).
Proof. reflexivity. Qed.

Lemma at_pos_move pre bs post :
  mkCursor (pre ++ bs ++ post) (len pre + len bs) = at_pos (pre ++ bs) post.
Proof. unfold at_pos. rewrite <- app_assoc, Zlength_app. reflexivity. Qed.

Lemma newCursor_at b : newCursor b = at_pos [] b.
Proof. reflexivity. Qed.

Lemma remaining_at pre post : remaining (at_pos pre post) = len post.
Proof. unfold remaining, at_pos. simpl. rewrite Zlength_app. lia. Qed.

(** Every cursor inside its buffer stands between two byte strings. *)
Lemma wf_cursor_split c :
  wf_cursor c -> exists pre post, c = at_pos pre post /\ remaining c = len post.
Proof.
  intros [H0 H1]. exists (take (Z.to_nat (pos c)) (buf c)), (drop (Z.to_nat (pos c)) (buf c)).
  unfold at_pos, remaining. rewrite take_drop, length_take, length_drop.
  destruct c as [b p]; simpl in *. split; [f_equal|]; lia.
Qed.

Lemma parser_bind_eq {A B} (p : parser A) (k : A -> parser B) c :
  (p ≫= k) c = match p c with Ok (a, c') => k a c' | Err e => Err e end.
Proof. reflexivity. Qed.

Lemma parser_ret_eq {A} (a : A) c : (mret a : parser A) c = Ok (a, c).
Proof. reflexivity. Qed.

Lemma get_remaining_eq c : get_remaining c = Ok (remaining c, c).
Proof. reflexivity. Qed.

Lemma parses_ret {A} (v : A) : parses (mret v) [] v.
Proof. intros pre rest. unfold mret, parser_ret. by rewrite app_nil_r. Qed.

Lemma parses_bind {A B} (p : parser A) (k : A -> parser B) b1 b2 v w :
  parses p b1 v -> parses (k v) b2 w -> parses (p ≫= k) (b1 ++ b2) w.
Proof.
  intros Hp Hk pre rest. unfold mbind, parser_bind.
  rewrite <- app_assoc, Hp, Hk. by rewrite app_assoc.
Qed.

Lemma parses_run {A} (p : parser A) bs v :
  parses p bs v -> p (newCursor bs) = Ok (v, at_pos bs []).
Proof. intros H. specialize (H [] []). rewrite app_nil_r in H. exact H. Qed.

Lemma safe_ret {A} (v : A) : safe (mret v).
Proof. intros c [H0 H1]. unfold mret, parser_ret. split; [done|lia]. Qed.

Lemma safe_fail {A} : safe (@fail A ErrMalformedPacket).
Proof. intros c _. reflexivity. Qed.

Lemma safe_bind {A B} (p : parser A) (k : A -> parser B) :
  safe p -> (forall a, safe (k a)) -> safe (p ≫= k).
Proof.
  intros Hp Hk c Hc. unfold mbind, parser_bind. specialize (Hp c Hc).
  destruct (p c) as [[a c']|e]; [|done]. destruct Hp as [Hb Hpos].
  assert (Hc' : wf_cursor c') by (unfold wf_cursor; rewrite Hb; destruct Hc; lia).
  specialize (Hk a c' Hc'). destruct (k a c') as [[b c'']|e]; [|done].
  rewrite Hb in Hk. destruct Hk. split; [congruence|]. lia.
Qed.

Lemma safe_if {A} (b : bool) (p q : parser A) : safe p -> safe q -> safe (if b then p else q).
Proof. by destruct b. Qed.

#[export] Hint Resolve safe_ret safe_fail safe_if : safe.

(** Decompose the goal [safe p] along binds and tests. *)
Ltac safe_tac :=
  repeat first
    [ progress intros
    | apply safe_bind
    | apply safe_if
    | solve [eauto with safe]
    | match goal with |- safe (match ?x with _ => _ end) => destruct x end ].

(** * Fixed-size reads *)

Lemma slice_at pre bs post :
  slice (pre ++ bs ++ post) (len pre) (len pre + len bs) = Ok bs.
Proof.
  unfold slice. rewrite !Zlength_app.
  replace ((0 <=? len pre) && (len pre <=? len pre + len bs) &&
           (len pre + len bs <=? len pre + (len bs + len post))) with true by (symmetry; lia).
  replace (Z.to_nat (len pre)) with (length pre) by lia.
  replace (Z.to_nat (len pre + len bs - len pre)) with (length bs) by lia.
  by rewrite drop_app_length, take_app_length.
Qed.

Lemma parses_next_bytes n bs : n = len bs -> parses (next_bytes n) bs bs.
Proof.
  intros -> pre rest. unfold next_bytes. simpl. rewrite slice_at. simpl.
  by rewrite at_pos_move.
Qed.

Lemma parses_readByte b : parses readByte [b] b.
Proof.
  intros pre rest. unfold readByte. rewrite remaining_at. simpl length.
  replace (Z.of_nat (S (length rest)) <? 1) with false by (symmetry; lia).
  unfold at_pos at 1 2. simpl. unfold index.
  replace (len pre <? 0) with false by (symmetry; lia).
  rewrite Nat2Z.id, list_lookup_middle by done. simpl.
  exact (f_equal (fun c => Ok (b, c)) (at_pos_move pre [b] rest)).
Qed.

Lemma readByte_end pre : readByte (at_pos pre []) = Err ErrMalformedPacket.
Proof. unfold readByte. by rewrite remaining_at. Qed.

Lemma Uint16_PutUint16 v : in_u16 v -> Uint16 (PutUint16 v) = Ok v.
Proof.
  unfold in_u16, PutUint16, Uint16, u8. intros Hv. f_equal.
  rewrite lor_shiftl_add by (try apply Z.mod_pos_bound; lia).
  rewrite Z.shiftr_div_pow2 by lia. change (2 ^ 8) with 256.
  pose proof (Z.div_mod v 256). rewrite (Z.mod_small (v / 256)); [lia|].
  split; [apply Z.div_pos; lia | apply Z.div_lt_upper_bound; lia].
Qed.

Lemma Uint32_PutUint32 v : in_u32 v -> Uint32 (PutUint32 v) = Ok v.
Proof.
  unfold in_u32, PutUint32, Uint32, u8. intros Hv. f_equal.
  rewrite !lor_shiftl_add by (try apply Z.mod_pos_bound; lia).
  rewrite !Z.shiftr_div_pow2 by lia.
  change (2 ^ 8) with 256. change (2 ^ 16) with (256 * 256).
  change (2 ^ 24) with (256 * 256 * 256).
  rewrite <- !Z.div_div by lia.
  pose proof (Z.div_mod v 256 ltac:(lia)).
  pose proof (Z.div_mod (v / 256) 256 ltac:(lia)).
  pose proof (Z.div_mod (v / 256 / 256) 256 ltac:(lia)).
  rewrite (Z.mod_small (v / 256 / 256 / 256)); [lia|].
  split; [repeat apply Z.div_pos; lia|].
  repeat apply Z.div_lt_upper_bound; lia.
Qed.

Lemma parses_readUint16 v : in_u16 v -> parses readUint16 (PutUint16 v) v.
Proof.
  intros Hv pre rest. unfold readUint16. rewrite remaining_at, Zlength_app.
  change (len (PutUint16 v)) with 2.
  replace (2 + len rest <? 2) with false by (symmetry; lia).
  rewrite (parses_next_bytes 2 (PutUint16 v) eq_refl). cbn beta iota.
  rewrite res_bind_Ok, Uint16_PutUint16 by done. reflexivity.
Qed.

Lemma parses_readUint32 v : in_u32 v -> parses readUint32 (PutUint32 v) v.
Proof.
  intros Hv pre rest. unfold readUint32. rewrite remaining_at, Zlength_app.
  change (len (PutUint32 v)) with 4.
  replace (4 + len rest <? 4) with false by (symmetry; lia).
  rewrite (parses_next_bytes 4 (PutUint32 v) eq_refl). cbn beta iota.
  rewrite res_bind_Ok, Uint32_PutUint32 by done. reflexivity.
Qed.

(** * Variable byte integers *)

Lemma land_7F b : Z.land b 0x7F = b mod 128.
Proof. change 0x7F with (Z.ones 7). by rewrite Z.land_ones by lia. Qed.

Lemma land_80_zero b : in_u8 b -> (Z.land b 0x80 =? 0) = (b <? 128).
Proof.
  intros Hb. assert (Ht : Z.testbit b 7 = negb (b <? 128)).
  { rewrite Z.testbit_eqb by lia. change (2 ^ 7) with 128. unfold in_u8 in Hb.
    destruct (Z.ltb_spec b 128); [rewrite Z.div_small by lia; reflexivity|].
    replace (b / 128) with 1; [reflexivity|].
    apply Z.div_unique with (r := b - 128); lia. }
  assert (Hl : Z.land b 0x80 = if Z.testbit b 7 then 128 else 0).
  { apply Z.bits_inj'. intros i Hi. rewrite Z.land_spec. change 0x80 with (2 ^ 7).
    rewrite Z.pow2_bits_eqb by lia. destruct (Z.eqb_spec 7 i) as [<-|Hne].
    - rewrite andb_true_r. destruct (Z.testbit b 7); reflexivity.
    - rewrite andb_false_r. destruct (Z.testbit b 7); [|by rewrite Z.bits_0].
      change 128 with (2 ^ 7). rewrite Z.pow2_bits_eqb by lia. symmetry. lia. }
  rewrite Hl, Ht. destruct (b <? 128); reflexivity.
Qed.

Lemma lor_80 d : 0 <= d < 128 -> Z.lor d 0x80 = d + 128.
Proof.
  intros. rewrite Z.lor_comm. pose proof (lor_shiftl_add 1 d 7 ltac:(lia) ltac:(lia)) as H'.
  change (Z.shiftl 1 7) with 0x80 in H'. rewrite H'. lia.
Qed.

(** The digits of [v]: [appendVarint] on an empty buffer. *)
Definition vbytes (v : Z) : list Z := appendVarint [] v.

Lemma appendVarint_loop_app fuel buf v :
  appendVarint_loop fuel buf v = buf ++ appendVarint_loop fuel [] v.
Proof.
  revert buf v. induction fuel as [|f IH]; intros buf v; simpl; [by rewrite app_nil_r|].
  destruct (Z.shiftr v 7 =? 0); [done|].
  rewrite IH, (IH [_]). by rewrite app_assoc.
Qed.

Lemma appendVarint_app buf v : appendVarint buf v = buf ++ vbytes v.
Proof. apply appendVarint_loop_app. Qed.

(** One iteration, with its bit operations read as arithmetic. *)
Lemma appendVarint_loop_S fuel v : 0 <= v ->
  appendVarint_loop (S fuel) [] v =
  if v <? 128 then [v] else (v mod 128 + 128) :: appendVarint_loop fuel [] (v / 128).
Proof.
  intros Hv. cbn [appendVarint_loop app].
  rewrite land_7F, Z.shiftr_div_pow2 by lia. change (2 ^ 7) with 128.
  pose proof (Z.mod_pos_bound v 128 ltac:(lia)).
  rewrite u8_id by (unfold in_u8; lia).
  destruct (Z.ltb_spec v 128).
  - rewrite Z.div_small, Z.mod_small by lia. reflexivity.
  - assert (1 <= v / 128) by (apply Z.div_le_lower_bound; lia).
    replace (v / 128 >? 0) with true by lia. replace (v / 128 =? 0) with false by lia.
    rewrite lor_80 by lia. by rewrite appendVarint_loop_app.
Qed.

(** Five iterations are enough for every [uint32]: more fuel changes nothing. *)
Lemma appendVarint_fuel f g v : 0 <= v < 128 ^ Z.of_nat (S f) -> (f <= g)%nat ->
  appendVarint_loop (S f) [] v = appendVarint_loop (S g) [] v.
Proof.
  revert g v. induction f as [|f IH]; intros g v Hv Hg.
  - rewrite !appendVarint_loop_S by lia. change (128 ^ Z.of_nat 1) with 128 in Hv. by replace (v <? 128) with true by lia.
  - rewrite (appendVarint_loop_S (S f)), (appendVarint_loop_S g) by lia.
    destruct (Z.ltb_spec v 128); [done|]. destruct g as [|g]; [lia|]. f_equal. apply IH; [|lia].
    split; [apply Z.div_pos; lia|]. apply Z.div_lt_upper_bound; [lia|].
    rewrite (Nat2Z.inj_succ (S f)), Z.pow_succ_r in Hv by lia. lia.
Qed.

Lemma vbytes_eq v : in_u32 v ->
  vbytes v = if v <? 128 then [v] else (v mod 128 + 128) :: vbytes (v / 128).
Proof.
  intros Hv. unfold in_u32 in Hv. unfold vbytes, appendVarint.
  rewrite appendVarint_loop_S by lia. destruct (v <? 128); [done|]. f_equal.
  apply appendVarint_fuel; [|lia]. change (128 ^ Z.of_nat 4) with 268435456.
  split; [apply Z.div_pos; lia|]. apply Z.div_lt_upper_bound; lia.
Qed.

Lemma vbytes_nonempty v : 0 <= v -> vbytes v <> [].
Proof.
  intros. unfold vbytes, appendVarint. rewrite appendVarint_loop_S by lia. by destruct (v <? 128).
Qed.

Lemma vbytes_u8 v : 0 <= v -> Forall in_u8 (vbytes v).
Proof.
  unfold vbytes, appendVarint. generalize 5%nat as fuel. intros fuel. revert v.
  induction fuel as [|f IH]; intros v Hv; [constructor|].
  rewrite appendVarint_loop_S by lia. destruct (Z.ltb_spec v 128).
  - apply Forall_singleton. unfold in_u8. lia.
  - apply Forall_cons. split; [|apply IH, Z.div_pos; lia].
    pose proof (Z.mod_pos_bound v 128 ltac:(lia)). unfold in_u8. lia.
Qed.

(** Accumulating one more 7-bit digit at position [7*i]. *)
Lemma acc_digit value d i :
  0 <= i <= 3 -> 0 <= value < 2 ^ (7 * i) -> 0 <= d < 128 ->
  Z.lor value (u32 (Z.shiftl d (7 * i))) = value + d * 2 ^ (7 * i) /\
  value + d * 2 ^ (7 * i) < 2 ^ (7 * (i + 1)).
Proof.
  intros Hi Hv Hd.
  assert (Hp : 0 < 2 ^ (7 * i) <= 2 ^ 21) by (split; [apply Z.pow_pos_nonneg | apply Z.pow_le_mono_r]; lia).
  assert (Hs : 2 ^ (7 * (i + 1)) = 128 * 2 ^ (7 * i)).
  { replace (7 * (i + 1)) with (7 + 7 * i) by lia. rewrite Z.pow_add_r by lia. reflexivity. }
  rewrite u32_id by (unfold in_u32; rewrite Z.shiftl_mul_pow2 by lia; nia).
  rewrite Z.lor_comm, lor_shiftl_add by lia. split; [lia|nia].
Qed.

Lemma ReadFull1_cons b r : ReadFull1 (b :: r) = Ok (b, r).
Proof.
  unfold ReadFull1, ReadFull. replace (len (b :: r) <? 1) with false by (simpl length; lia). reflexivity.
Qed.

(** The two varint readers run the same loop: on the same remaining bytes they
    return the same value and leave the same rest, and where the stream reader
    meets the end of the stream the cursor reports a malformed packet. *)
Lemma readVarint_loop_stream k i value pre r :
  match readVarintFrom_loop k i value r with
  | Ok (v, rest) => exists used, r = used ++ rest /\
      readVarint_loop k i value (at_pos pre r) = Ok (v, at_pos (pre ++ used) rest)
  | Err e => (e = ErrMalformedPacket \/ e = ErrEOF) /\
      readVarint_loop k i value (at_pos pre r) = Err ErrMalformedPacket
  end.
Proof.
  revert i value pre r. induction k as [|k IH]; intros i value pre r; simpl; [eauto|].
  rewrite parser_bind_eq. destruct r as [|b r].
  - rewrite readByte_end. simpl. eauto.
  - rewrite ReadFull1_cons, res_bind_Ok.
    rewrite (parses_readByte b pre r : readByte (at_pos pre (b :: r)) = _).
    destruct (Z.land b 128 =? 0).
    + destruct (nonMinimalVarint i b); [simpl; eauto|]. exists [b]. done.
    + specialize (IH (i + 1) (Z.lor value (u32 (Z.shiftl (Z.land b 127) (7 * i)))) (pre ++ [b]) r).
      destruct (readVarintFrom_loop _ _ _ r) as [[v rest]|e]; [|done].
      destruct IH as (used & -> & IH). exists (b :: used). split; [done|].
      simpl in IH. rewrite IH. by rewrite <- app_assoc.
Qed.

(** Reading back the digits of [v] from position [i]. *)
Lemma readVarintFrom_loop_vbytes k i value v rest :
  0 <= i -> i + Z.of_nat k = 4 -> 0 <= value < 2 ^ (7 * i) ->
  0 <= v < 128 ^ Z.of_nat k -> (0 < k)%nat -> (0 < i -> 0 < v) ->
  readVarintFrom_loop k i value (vbytes v ++ rest) = Ok (value + v * 2 ^ (7 * i), rest).
Proof.
  revert i value v. induction k as [|k IH]; intros i value v Hi Hk Hval Hv Hk0 Hmin; [lia|].
  assert (Hv32 : in_u32 v).
  { unfold in_u32. pose proof (Z.pow_le_mono_r 128 (Z.of_nat (S k)) 4 ltac:(lia)). lia. }
  rewrite vbytes_eq by done. destruct (Z.ltb_spec v 128) as [Hsmall|Hbig].
  - cbn [app]. cbn [readVarintFrom_loop]. rewrite ReadFull1_cons, res_bind_Ok, land_7F.
    rewrite Z.mod_small, land_80_zero by (unfold in_u8; lia).
    replace (v <? 128) with true by lia. unfold nonMinimalVarint.
    replace ((i >? 0) && (v =? 0)) with false by lia.
    by destruct (acc_digit value v i) as [-> _]; try lia.
  - assert (Hdm : v = 128 * (v / 128) + v mod 128) by (apply Z.div_mod; lia).
    pose proof (Z.mod_pos_bound v 128 ltac:(lia)).
    destruct k as [|k']; [change (128 ^ Z.of_nat 1) with 128 in Hv; lia|].
    cbn [app]. cbn [readVarintFrom_loop]. rewrite ReadFull1_cons, res_bind_Ok, land_7F.
    rewrite land_80_zero by (unfold in_u8; lia).
    replace (v mod 128 + 128 <? 128) with false by lia.
    replace ((v mod 128 + 128) mod 128) with (v mod 128)
      by (rewrite Z.add_mod, Z.mod_same, Z.add_0_r, !Z.mod_mod by lia; done).
    destruct (acc_digit value (v mod 128) i) as [-> Hlt]; [lia..|].
    pose proof (IH (i + 1) (value + v mod 128 * 2 ^ (7 * i)) (v / 128)) as IH'.
    cbn [readVarintFrom_loop] in IH'. rewrite IH'; clear IH IH'; try lia.
    + f_equal. f_equal. replace (7 * (i + 1)) with (7 + 7 * i) by lia.
      rewrite Z.pow_add_r by lia. change (2 ^ 7) with 128. nia.
    + split; [apply Z.div_pos; lia|]. apply Z.div_lt_upper_bound; [lia|].
      rewrite (Nat2Z.inj_succ (S k')), Z.pow_succ_r in Hv by lia. lia.
Qed.

Lemma readVarintFrom_vbytes v rest : 0 <= v <= maxVarint ->
  readVarintFrom (vbytes v ++ rest) = Ok (v, rest).
Proof.
  intros Hv. unfold maxVarint in Hv. unfold readVarintFrom.
  rewrite readVarintFrom_loop_vbytes by (try change (128 ^ Z.of_nat 4) with 268435456; simpl; lia).
  f_equal. f_equal. simpl. lia.
Qed.

(** What the reader accepts is the one minimal encoding. *)
Lemma readVarintFrom_loop_inv k i value r w rest :
  Forall in_u8 r -> 0 <= i -> i + Z.of_nat k = 4 -> 0 <= value < 2 ^ (7 * i) ->
  readVarintFrom_loop k i value r = Ok (w, rest) ->
  exists v, r = vbytes v ++ rest /\ w = value + v * 2 ^ (7 * i) /\
            0 <= v < 128 ^ Z.of_nat k /\ (0 < i -> 0 < v).
Proof.
  revert i value r. induction k as [|k IH]; intros i value r Hr Hi Hk Hval; [done|].
  cbn [readVarintFrom_loop]. destruct r as [|b r]; [done|].
  apply Forall_cons in Hr as [Hb Hr]. rewrite ReadFull1_cons, res_bind_Ok, land_7F, land_80_zero by done.
  unfold in_u8 in Hb. pose proof (Z.mod_pos_bound b 128 ltac:(lia)).
  assert (Hpk : 128 ^ Z.of_nat (S k) = 128 * 128 ^ Z.of_nat k)
    by (rewrite Nat2Z.inj_succ, Z.pow_succ_r by lia; done).
  assert (0 < 128 ^ Z.of_nat k) by (apply Z.pow_pos_nonneg; lia).
  destruct (acc_digit value (b mod 128) i) as [Ha Hlt]; [lia..|]. rewrite Ha.
  destruct (Z.ltb_spec b 128) as [Hlt128|Hge].
  - rewrite Z.mod_small in * by lia. unfold nonMinimalVarint.
    destruct ((i >? 0) && (b =? 0)) eqn:En; [done|]. intros [= <- <-].
    exists b. rewrite vbytes_eq by (unfold in_u32; lia). replace (b <? 128) with true by lia.
    repeat split; try lia; nia.
  - intros Hr'. apply IH in Hr'; [|done|lia|lia|].
    2: { split; [|done]. assert (0 < 2 ^ (7 * i)) by (apply Z.pow_pos_nonneg; lia). nia. }
    destruct Hr' as (v & -> & -> & Hv & Hpos). specialize (Hpos ltac:(lia)).
    assert (Hbm : b mod 128 = b - 128) by (symmetry; apply Z.mod_unique with (q := 1); lia).
    exists (b mod 128 + 128 * v). pose proof (Z.pow_le_mono_r 128 (Z.of_nat (S k)) 4 ltac:(lia)).
    assert (Hup : b mod 128 + 128 * v < 128 * 128 ^ Z.of_nat k) by lia.
    rewrite (vbytes_eq (b mod 128 + 128 * v)) by (unfold in_u32; change (128 ^ 4) with 268435456 in *; lia).
    replace (b mod 128 + 128 * v <? 128) with false by lia.
    replace ((b mod 128 + 128 * v) / 128) with v by (apply Z.div_unique with (r := b mod 128); lia).
    replace ((b mod 128 + 128 * v) mod 128) with (b mod 128)
      by (apply Z.mod_unique with (q := v); lia).
    split; [simpl; f_equal; lia|]. split; [|lia].
    replace (7 * (i + 1)) with (7 + 7 * i) by lia.
    rewrite Z.pow_add_r by lia. change (2 ^ 7) with 128. nia.
Qed.

Lemma readVarintFrom_inv r v rest : Forall in_u8 r ->
  readVarintFrom r = Ok (v, rest) -> r = vbytes v ++ rest /\ 0 <= v <= maxVarint.
Proof.
  intros Hr H. apply readVarintFrom_loop_inv in H as (v' & -> & -> & Hv & _); [|done|lia..].
  change (128 ^ Z.of_nat 4) with 268435456 in Hv. unfold maxVarint.
  replace (0 + v' * 2 ^ (7 * 0)) with v' by (simpl; lia). split; [done|lia].
Qed.

Lemma parses_readVarint v : 0 <= v <= maxVarint -> parses readVarint (vbytes v) v.
Proof.
  intros Hv pre rest. pose proof (readVarint_loop_stream 4 0 0 pre (vbytes v ++ rest)) as H.
  fold readVarint in H. change (readVarintFrom_loop 4 0 0) with readVarintFrom in H.
  rewrite readVarintFrom_vbytes in H by done. destruct H as (used & E & H).
  apply app_inv_tail in E as <-. exact H.
Qed.

Lemma length_vbytes v : 0 <= v <= maxVarint -> len (vbytes v) = varintLen v.
Proof.
  unfold maxVarint. intros Hv. unfold varintLen.
  change (Z.shiftl 1 7) with 128. change (Z.shiftl 1 14) with 16384. change (Z.shiftl 1 21) with 2097152.
  assert (Hd : forall w, 0 <= w -> 128 * (w / 128) <= w < 128 * (w / 128) + 128).
  { intros w Hw. pose proof (Z.div_mod w 128 ltac:(lia)). pose proof (Z.mod_pos_bound w 128 ltac:(lia)). lia. }
  pose proof (Hd v). pose proof (Hd (v / 128)). pose proof (Hd (v / 128 / 128)).
  rewrite vbytes_eq by (unfold in_u32; lia). destruct (Z.ltb_spec v 128); [done|].
  rewrite (vbytes_eq (v / 128)) by (unfold in_u32; lia).
  destruct (Z.ltb_spec (v / 128) 128); destruct (Z.ltb_spec v 16384); try lia; [done|].
  rewrite (vbytes_eq (v / 128 / 128)) by (unfold in_u32; lia).
  destruct (Z.ltb_spec (v / 128 / 128) 128); destruct (Z.ltb_spec v 2097152); try lia; [done|].
  rewrite (vbytes_eq (v / 128 / 128 / 128)) by (unfold in_u32; lia).
  destruct (Z.ltb_spec (v / 128 / 128 / 128) 128); [done|lia].
Qed.

(** * Length-prefixed fields *)

(** The strings the codec transports: at most 65535 bytes of well-formed UTF-8
    without U+0000. *)
Definition valid_str (s : list Z) : Prop :=
  len s <= maxStringLen /\ ValidString s = true /\ 0 ∉ s.
Definition str_bytes (s : list Z) : list Z := PutUint16 (len s) ++ s.

Lemma appendString_Ok b s : valid_str s -> appendString b s = Ok (b ++ str_bytes s).
Proof.
  intros (Hl & Hv & H0). unfold appendString, str_bytes, maxStringLen in *.
  replace (len s >? 0xFFFF) with false by lia. rewrite Hv, IndexByte_contains. simpl negb.
  apply contains_byte_false in H0. rewrite H0, u16_id by (unfold in_u16; lia). reflexivity.
Qed.

Lemma appendString_inv b s b' :
  appendString b s = Ok b' -> valid_str s /\ b' = b ++ str_bytes s.
Proof.
  intros H. assert (Hs : valid_str s).
  { unfold appendString in H. rewrite IndexByte_contains in H.
    destruct (len s >? maxStringLen) eqn:E1; [done|].
    destruct (ValidString s) eqn:E2; [|done]. simpl in H.
    destruct (contains_byte s 0) eqn:E3; [done|].
    split; [lia|]. split; [done|]. by apply contains_byte_false. }
  split; [done|]. rewrite appendString_Ok in H by done. congruence.
Qed.

Lemma appendBinary_Ok b s : len s <= maxStringLen -> appendBinary b s = Ok (b ++ str_bytes s).
Proof.
  intros Hl. unfold appendBinary, str_bytes, maxStringLen in *.
  replace (len s >? 0xFFFF) with false by lia. by rewrite u16_id by (unfold in_u16; lia).
Qed.

Lemma appendBinary_inv b s b' :
  appendBinary b s = Ok b' -> len s <= maxStringLen /\ b' = b ++ str_bytes s.
Proof.
  intros H. assert (len s <= maxStringLen).
  { unfold appendBinary in H. destruct (len s >? maxStringLen) eqn:E1; [done|]. lia. }
  split; [done|]. rewrite appendBinary_Ok in H by done. congruence.
Qed.

(** The encoders of strings and binary data fail only with the errors the
    package documents. *)
Lemma appendString_err b s e : appendString b s = Err e -> e = ErrStringTooLong \/ e = ErrProtocolViolation.
Proof. unfold appendString. repeat case_match; intros [=]; subst; eauto. Qed.

Lemma appendBinary_err b s e : appendBinary b s = Err e -> e = ErrStringTooLong.
Proof. unfold appendBinary. case_match; by intros [=]. Qed.

Lemma get_remaining_at pre post : get_remaining (at_pos pre post) = Ok (len post, at_pos pre post).
Proof. unfold get_remaining. by rewrite remaining_at. Qed.

Lemma parses_readBinary s : len s <= maxStringLen -> parses readBinary (str_bytes s) s.
Proof.
  unfold maxStringLen. intros Hl pre rest. unfold readBinary, str_bytes.
  rewrite <- app_assoc, parser_bind_eq, parses_readUint16 by (unfold in_u16; lia).
  rewrite parser_bind_eq, get_remaining_at, Zlength_app.
  replace (len s + len rest <? len s) with false by lia.
  rewrite (parses_next_bytes (len s) s eq_refl). by rewrite app_assoc.
Qed.

Lemma parses_readString s : valid_str s -> parses readString (str_bytes s) s.
Proof.
  unfold valid_str, maxStringLen. intros (Hl & Hv & H0) pre rest. unfold readString, str_bytes.
  rewrite <- app_assoc, parser_bind_eq, parses_readUint16 by (unfold in_u16; lia).
  rewrite parser_bind_eq, get_remaining_at, Zlength_app.
  replace (len s + len rest <? len s) with false by lia.
  rewrite parser_bind_eq, (parses_next_bytes (len s) s eq_refl), Hv, IndexByte_contains.
  apply contains_byte_false in H0. rewrite H0. cbn [negb].
  unfold mret, parser_ret. by rewrite app_assoc.
Qed.

(** * No cursor read panics *)

Lemma slice_Ok b lo hi : 0 <= lo <= hi -> hi <= len b ->
  exists s, slice b lo hi = Ok s /\ len s = hi - lo.
Proof.
  intros Hlo Hhi. unfold slice.
  replace ((0 <=? lo) && (lo <=? hi) && (hi <=? len b)) with true by lia.
  eexists. split; [done|]. rewrite length_take, length_drop. lia.
Qed.

(** A read of [n] bytes guarded by the [remaining] test. *)
Lemma next_bytes_Ok n c : wf_cursor c -> 0 <= n <= remaining c ->
  exists s, next_bytes n c = Ok (s, mkCursor (buf c) (pos c + n)) /\ len s = n.
Proof.
  unfold wf_cursor, remaining. intros Hc Hn. unfold next_bytes.
  destruct (slice_Ok (buf c) (pos c) (pos c + n)) as (s & -> & Hs); [lia..|].
  exists s. split; [done|lia].
Qed.

Lemma safe_readByte : safe readByte.
Proof.
  intros c Hc. unfold readByte. destruct (remaining c <? 1) eqn:E; [done|].
  unfold remaining in E. destruct Hc as [H0 H1]. unfold index.
  replace (pos c <? 0) with false by lia.
  destruct (lookup_lt_is_Some_2 (buf c) (Z.to_nat (pos c))) as [b Hb]; [lia|].
  rewrite Hb. simpl. split; [done|lia].
Qed.

Lemma safe_readUint16 : safe readUint16.
Proof.
  intros c Hc. unfold readUint16. destruct (remaining c <? 2) eqn:E; [done|].
  destruct (next_bytes_Ok 2 c Hc) as (s & -> & Hs); [lia|].
  destruct s as [|a [|b s]]; simpl length in Hs; try lia.
  unfold remaining in E. destruct Hc. simpl. split; [done|lia].
Qed.

Lemma safe_readUint32 : safe readUint32.
Proof.
  intros c Hc. unfold readUint32. destruct (remaining c <? 4) eqn:E; [done|].
  destruct (next_bytes_Ok 4 c Hc) as (s & -> & Hs); [lia|].
  destruct s as [|a [|b [|d [|f s]]]]; simpl length in Hs; try lia.
  unfold remaining in E. destruct Hc. simpl. split; [done|lia].
Qed.
#[export] Hint Resolve safe_readByte safe_readUint16 safe_readUint32 : safe.

Lemma safe_readVarint_loop k i value : safe (readVarint_loop k i value).
Proof. revert i value. induction k; intros; simpl; safe_tac. Qed.

Lemma safe_readVarint : safe readVarint.
Proof. apply safe_readVarint_loop. Qed.
#[export] Hint Resolve safe_readVarint : safe.

Lemma safe_get_remaining : safe get_remaining.
Proof. intros c [H0 H1]. simpl. split; [done|lia]. Qed.
#[export] Hint Resolve safe_get_remaining : safe.

(** What [readUint16] returns is a 16-bit value when the buffer holds bytes. *)
Lemma Uint16_range b v : Forall in_u8 b -> Uint16 b = Ok v -> in_u16 v.
Proof.
  intros Hb H. destruct b as [|b0 [|b1 b]]; try done. injection H as <-.
  apply Forall_cons in Hb as [H0 Hb]. apply Forall_cons in Hb as [H1 _].
  unfold in_u8, in_u16 in *. rewrite lor_shiftl_add by lia. lia.
Qed.

Definition wf_bytes (c : cursor) : Prop := wf_cursor c /\ Forall in_u8 (buf c).

(** The byte-range invariant refines [safe]: the value read satisfies [P]. *)
Definition reads {A} (p : parser A) (P : A -> Prop) : Prop :=
  forall c, wf_bytes c ->
    match p c with
    | Ok (v, c') => P v /\ buf c' = buf c /\ pos c <= pos c' <= len (buf c)
    | Err e => e = ErrMalformedPacket
    end.

Lemma reads_bind {A B} (p : parser A) (k : A -> parser B) (P : A -> Prop) Q :
  reads p P -> (forall a, P a -> reads (k a) Q) -> reads (p ≫= k) Q.
Proof.
  intros Hp Hk c Hc. rewrite parser_bind_eq. specialize (Hp c Hc).
  destruct (p c) as [[a c']|e]; [|done]. destruct Hp as (HP & Hb & Hpos).
  destruct Hc as [[H0 H1] Hu].
  assert (Hc' : wf_bytes c') by (unfold wf_bytes, wf_cursor; rewrite Hb; split; [lia|done]).
  specialize (Hk a HP c' Hc'). destruct (k a c') as [[b c'']|e]; [|done].
  rewrite Hb in Hk. destruct Hk as (? & ? & ?). split; [done|]. split; [congruence|lia].
Qed.

Lemma reads_safe {A} (p : parser A) : safe p -> reads p (fun _ => True).
Proof. intros H c [Hc _]. specialize (H c Hc). destruct (p c) as [[??]|]; tauto. Qed.

Lemma reads_weaken {A} (p : parser A) (P Q : A -> Prop) :
  reads p P -> (forall a, P a -> Q a) -> reads p Q.
Proof.
  intros H HPQ c Hc. specialize (H c Hc). destruct (p c) as [[??]|]; [|done].
  destruct H as (? & ? & ?). auto.
Qed.

Lemma slice_Forall (P : Z -> Prop) b lo hi s : Forall P b -> slice b lo hi = Ok s -> Forall P s.
Proof.
  unfold slice. intros Hb. case_match; intros [= <-]. by apply Forall_take, Forall_drop.
Qed.

Lemma reads_readUint16 : reads readUint16 in_u16.
Proof.
  intros c [Hc Hu]. pose proof (safe_readUint16 c Hc) as Hs. unfold readUint16 in *.
  destruct (remaining c <? 2) eqn:E; [done|].
  destruct (next_bytes_Ok 2 c Hc) as (s & Hn & Hl); [lia|]. rewrite Hn in *. cbn beta iota in *.
  rewrite !res_bind_Ok in *. destruct (Uint16 s) as [v|e] eqn:Ev; simpl in *; [|done].
  split; [|done]. apply (Uint16_range s); [|done].
  unfold next_bytes in Hn. destruct (slice _ _ _) as [s'|] eqn:Es; [|done]. simpl in Hn.
  injection Hn as <-. by eapply slice_Forall.
Qed.

(** A field of [n] bytes, guarded as [readString] and [readBinary] guard it. *)
Lemma safe_field {A} n (k : list Z -> parser A) : 0 <= n -> (forall s, safe (k s)) ->
  safe (rem ← get_remaining; if rem <? n then fail ErrMalformedPacket else next_bytes n ≫= k).
Proof.
  intros Hn Hk c Hc. rewrite parser_bind_eq. simpl.
  destruct (remaining c <? n) eqn:E; [done|]. rewrite parser_bind_eq.
  destruct (next_bytes_Ok n c Hc) as (s & -> & _); [lia|].
  assert (Hc' : wf_cursor (mkCursor (buf c) (pos c + n))).
  { unfold wf_cursor, remaining in *. simpl. lia. }
  pose proof (Hk s _ Hc') as Hks. destruct (k s _) as [[? c'']|]; [|done].
  simpl in Hks. destruct Hks as [-> ?]. split; [done|lia].
Qed.

Lemma parser_bind_ret {A} (p : parser A) c : (p ≫= mret) c = p c.
Proof. rewrite parser_bind_eq. by destruct (p c) as [[??]|]. Qed.

Lemma reads_readBinary : reads readBinary (fun _ => True).
Proof.
  unfold readBinary. apply reads_bind with (P := in_u16); [apply reads_readUint16|].
  intros n Hn. apply reads_safe. intros c Hc.
  pose proof (safe_field n (mret (M := parser)) ltac:(unfold in_u16 in Hn; lia) ltac:(eauto with safe) c Hc) as H.
  rewrite !parser_bind_eq in *. simpl in *. destruct (remaining c <? n); [done|].
  by rewrite parser_bind_ret in H.
Qed.

Lemma reads_readString : reads readString (fun _ => True).
Proof.
  unfold readString. apply reads_bind with (P := in_u16); [apply reads_readUint16|].
  intros n Hn. apply reads_safe, safe_field; [unfold in_u16 in Hn; lia|]. intros s. safe_tac.
Qed.

(** [readString] returns a transportable string. *)
Lemma next_bytes_reads n : 0 <= n -> forall c, wf_bytes c -> n <= remaining c ->
  exists s c', next_bytes n c = Ok (s, c') /\ len s = n /\ buf c' = buf c /\ pos c' = pos c + n.
Proof.
  intros Hn c [Hc _] Hr. destruct (next_bytes_Ok n c Hc) as (s & -> & Hs); [lia|]. eauto 10.
Qed.

Lemma reads_readString_valid : reads readString valid_str.
Proof.
  unfold readString. apply reads_bind with (P := in_u16); [apply reads_readUint16|].
  intros n Hn c Hc. unfold in_u16 in Hn. rewrite parser_bind_eq, get_remaining_eq.
  destruct (remaining c <? n) eqn:E; [done|]. rewrite parser_bind_eq.
  destruct (next_bytes_reads n ltac:(lia) c Hc ltac:(lia)) as (s & c' & -> & Hs & Hb & Hp).
  rewrite IndexByte_contains. destruct (ValidString s) eqn:Ev; [|done]. cbn [negb].
  destruct (contains_byte s 0) eqn:E0; [done|]. rewrite parser_ret_eq.
  destruct Hc as [[H0 H1] _]. unfold remaining in E. rewrite Hb, Hp.
  split; [|split; [done|lia]]. unfold valid_str, maxStringLen. apply contains_byte_false in E0.
  split; [lia|done].
Qed.

(** [total p]: on a buffer of bytes, [p] neither panics nor exhausts a loop
    bound; its only failure is a malformed packet. *)
Definition total {A} (p : parser A) : Prop := reads p (fun _ => True).

Lemma total_safe {A} (p : parser A) : safe p -> total p.
Proof. apply reads_safe. Qed.
Lemma total_bind {A B} (p : parser A) (k : A -> parser B) :
  total p -> (forall a, total (k a)) -> total (p ≫= k).
Proof. intros Hp Hk. apply reads_bind with (P := fun _ => True); [done|]. intros a _. apply Hk. Qed.
Lemma total_if {A} (b : bool) (p q : parser A) : total p -> total q -> total (if b then p else q).
Proof. by destruct b. Qed.
Lemma total_readUint16 : total readUint16.
Proof. apply total_safe, safe_readUint16. Qed.
Lemma total_readString : total readString.
Proof. apply reads_readString. Qed.
Lemma total_readBinary : total readBinary.
Proof. apply reads_readBinary. Qed.
#[export] Hint Resolve total_readString total_readBinary : safe.
#[export] Hint Extern 5 (total _) => apply total_safe; solve [eauto with safe] : safe.

(** Decompose [total p] along binds, tests and matches. *)
Ltac total_tac :=
  repeat first
    [ progress intros
    | solve [eauto with safe]
    | apply total_bind
    | apply total_if
    | match goal with |- total (match ?x with _ => _ end) => destruct x end ].

(** * Running a decoder on a whole body *)

Lemma run_parses {A} (p : parser A) bs v : parses p bs v -> run p bs = Ok v.
Proof. intros H. unfold run. by rewrite (parses_run p bs v H). Qed.

(** A run of a total decoder ends with a value or a malformed packet. *)
Lemma run_total {A} (p : parser A) body e : total p -> Forall in_u8 body ->
  run p body = Err e -> e = ErrMalformedPacket.
Proof.
  intros Hp Hb. unfold run.
  assert (Hw : wf_bytes (newCursor body)) by (split; [unfold wf_cursor; simpl; lia|done]).
  specialize (Hp _ Hw). destruct (p (newCursor body)) as [[a c]|e']; congruence.
Qed.

Lemma reads_ret {A} (v : A) (P : A -> Prop) : P v -> reads (mret v) P.
Proof. intros HP c [[H0 H1] _]. rewrite parser_ret_eq. repeat split; try done; lia. Qed.

Lemma reads_fail {A} (P : A -> Prop) : reads (fail ErrMalformedPacket) P.
Proof. intros c _. reflexivity. Qed.

Lemma reads_if {A} (b : bool) (p q : parser A) P : reads p P -> reads q P -> reads (if b then p else q) P.
Proof. by destruct b. Qed.

(** What a run of a decoder returns satisfies its postcondition. *)
Lemma run_reads {A} (p : parser A) (P : A -> Prop) body v : reads p P -> Forall in_u8 body ->
  run p body = Ok v -> P v.
Proof.
  intros Hp Hb. unfold run.
  assert (Hw : wf_bytes (newCursor body)) by (split; [unfold wf_cursor; simpl; lia|done]).
  specialize (Hp _ Hw). destruct (p (newCursor body)) as [[a c]|e']; [|done].
  intros [= <-]. apply Hp.
Qed.

(** Parsing to the end of the body: the last read may depend on nothing
    following. *)
Definition parses_end {A} (p : parser A) (bs : list Z) (v : A) : Prop :=
  forall pre, p (at_pos pre bs) = Ok (v, at_pos (pre ++ bs) []).

Lemma parses_end_run {A} (p : parser A) bs v : parses_end p bs v -> run p bs = Ok v.
Proof. intros H. unfold run. by rewrite newCursor_at, H. Qed.

Lemma parses_end_bind {A B} (p : parser A) (k : A -> parser B) b1 b2 v w :
  parses p b1 v -> parses_end (k v) b2 w -> parses_end (p ≫= k) (b1 ++ b2) w.
Proof. intros Hp Hk pre. by rewrite parser_bind_eq, Hp, Hk, app_assoc. Qed.

Lemma parses_end_ret {A} (v : A) : parses_end (mret v) [] v.
Proof. intros pre. by rewrite app_nil_r. Qed.

(** A test of the remaining length at a known position. *)
Lemma parses_end_remaining {A} (k : Z -> parser A) bs v :
  parses_end (k (len bs)) bs v -> parses_end (get_remaining ≫= k) bs v.
Proof. intros H pre. by rewrite parser_bind_eq, get_remaining_at, H. Qed.

Lemma parses_to_end {A} (p : parser A) bs v : parses p bs v -> parses_end p bs v.
Proof. intros H pre. pose proof (H pre []) as H'. by rewrite app_nil_r in H'. Qed.

(** [p] rejects the bytes [bs] up to the end of the buffer with [e]. *)
Definition rejects {A} (p : parser A) (bs : list Z) (e : error) : Prop :=
  forall pre, p (at_pos pre bs) = Err e.

Lemma rejects_run {A} (p : parser A) bs e : rejects p bs e -> run p bs = Err e.
Proof. intros H. unfold run. by rewrite newCursor_at, H. Qed.

Lemma rejects_bind {A B} (p : parser A) (k : A -> parser B) b1 b2 v e :
  parses p b1 v -> rejects (k v) b2 e -> rejects (p ≫= k) (b1 ++ b2) e.
Proof. intros Hp Hk pre. by rewrite parser_bind_eq, Hp, Hk. Qed.

Lemma rejects_fail {A} bs e : rejects (fail e : parser A) bs e.
Proof. by intros pre. Qed.

(** * Frames *)

Definition packet_bytes (h : Z) (body : list Z) : list Z := h :: vbytes (len body) ++ body.

Lemma writePacket_Ok w h body :
  len body <= maxVarint -> writePacket w h body = Ok (w ++ packet_bytes h body).
Proof.
  intros Hb. unfold writePacket, packet_bytes, maxVarint in *.
  replace (len body >? 0x0FFFFFFF) with false by lia.
  rewrite appendVarint_app, u32_id by (unfold in_u32; lia). simpl.
  destruct (len body =? 0) eqn:E; [|by rewrite <- app_assoc].
  destruct body; [by rewrite app_nil_r|]. simpl length in E. lia.
Qed.

Lemma writePacket_inv w h body w' :
  writePacket w h body = Ok w' -> len body <= maxVarint /\ w' = w ++ packet_bytes h body.
Proof.
  intros H. assert (len body <= maxVarint).
  { unfold writePacket in H. destruct (len body >? maxVarint) eqn:E; [done|]. lia. }
  split; [done|]. rewrite writePacket_Ok in H by done. congruence.
Qed.

Lemma length_packet_bytes h body : len body <= maxVarint ->
  len (packet_bytes h body) = 1 + varintLen (len body) + len body.
Proof.
  intros Hb. unfold packet_bytes. simpl length. rewrite Nat2Z.inj_succ, Zlength_app, length_vbytes; lia.
Qed.

Lemma varintLen_range v : 1 <= varintLen v <= 4.
Proof. unfold varintLen. repeat case_match; lia. Qed.

(** The header of a frame is accepted or refused by its size alone, before any
    body byte is looked at. *)
Lemma ReadFrame_header h n rest max : 0 <= n <= maxVarint -> in_u32 max ->
  ReadFrame (h :: vbytes n ++ rest) max =
  if max <? 1 + varintLen n + n then Err ErrFrameTooLarge
  else if n >? 0 then '(body, r) ← ReadFull rest n; Ok (mkFrame h body, r)
  else Ok (mkFrame h [], rest).
Proof.
  unfold maxVarint, in_u32. intros Hn Hm. unfold ReadFrame. rewrite ReadFull1_cons, res_bind_Ok.
  rewrite readVarintFrom_vbytes, res_bind_Ok by (unfold maxVarint; lia).
  pose proof (varintLen_range n). rewrite u32_id by (unfold in_u32; lia).
  destruct (max <? 1 + varintLen n) eqn:E1; simpl.
  - by replace (max <? 1 + varintLen n + n) with true by lia.
  - rewrite u32_id by (unfold in_u32; lia).
    by replace (n >? max - (1 + varintLen n)) with (max <? 1 + varintLen n + n) by lia.
Qed.

Lemma ReadFull_app b rest : ReadFull (b ++ rest) (len b) = Ok (b, rest).
Proof.
  unfold ReadFull. rewrite Zlength_app. replace (len b + len rest <? len b) with false by lia.
  by rewrite Nat2Z.id, take_app_length, drop_app_length.
Qed.

Lemma ReadFull_inv r n b rest : 0 <= n -> ReadFull r n = Ok (b, rest) -> r = b ++ rest /\ len b = n.
Proof.
  unfold ReadFull. intros Hn. repeat case_match; intros [= <- <-].
  rewrite take_drop, length_take. split; [done|lia].
Qed.

Lemma ReadFrame_packet h body rest max : len body <= maxVarint -> in_u32 max ->
  len (packet_bytes h body) <= max ->
  ReadFrame (packet_bytes h body ++ rest) max = Ok (mkFrame h body, rest).
Proof.
  intros Hb Hm Hl. rewrite length_packet_bytes in Hl by done.
  unfold packet_bytes. simpl. rewrite <- app_assoc, ReadFrame_header by (done || lia).
  replace (max <? 1 + varintLen (len body) + len body) with false by lia.
  destruct (len body >? 0) eqn:E; [by rewrite ReadFull_app|].
  destruct body; [done|]. simpl length in E. lia.
Qed.

Lemma ReadFrame_inv r max f rest : Forall in_u8 r -> in_u32 max ->
  ReadFrame r max = Ok (f, rest) ->
  r = packet_bytes (Header f) (Body f) ++ rest /\ len (Body f) <= maxVarint /\
  len (packet_bytes (Header f) (Body f)) <= max.
Proof.
  intros Hr Hm H. destruct r as [|h r]; [done|]. apply Forall_cons in Hr as [Hh Hr].
  destruct (readVarintFrom r) as [[n r']|e] eqn:Ev.
  2: { unfold ReadFrame in H. rewrite ReadFull1_cons, res_bind_Ok, Ev in H. done. }
  apply readVarintFrom_inv in Ev as [-> Hn]; [|done]. rewrite ReadFrame_header in H by done.
  destruct (max <? 1 + varintLen n + n) eqn:Em; [done|].
  destruct (n >? 0) eqn:En.
  - destruct (ReadFull r' n) as [[b r'']|] eqn:Er; [|done]. apply ReadFull_inv in Er as [-> Hb]; [|lia].
    injection H as <- <-. cbn [Header Body]. rewrite length_packet_bytes, Hb by lia.
    split; [|lia]. unfold packet_bytes. rewrite Hb. simpl. by rewrite <- app_assoc.
  - assert (n = 0) as -> by lia. injection H as <- <-. cbn [Header Body].
    rewrite length_packet_bytes by (unfold maxVarint; simpl; lia). change (len (@nil Z)) with 0.
    split; [|unfold maxVarint; lia]. unfold packet_bytes. simpl. done.
Qed.

(** * Theorems *)

(** [readVarintFrom] accepts exactly the bytes [appendVarint]
    produces: a value has one encoding, every value up to 268435455 is read
    back, and any non-minimal or five-byte spelling is refused. *)
Theorem varint_canonical r v rest : Forall in_u8 r ->
  readVarintFrom r = Ok (v, rest) <->
  0 <= v <= maxVarint /\ r = appendVarint [] v ++ rest.
Proof.
  intros Hr. split.
  - intros H. apply readVarintFrom_inv in H as [-> Hv]; done.
  - intros [Hv ->]. by apply readVarintFrom_vbytes.
Qed.

Lemma varint_canonical_witness :
  readVarintFrom [0x80; 0x01; 7] = Ok (128, [7]) <->
  0 <= 128 <= maxVarint /\ [0x80; 0x01; 7] = appendVarint [] 128 ++ [7].
Proof.
  apply varint_canonical. by_decide.
Defined.

(** C31.  Framing is exact: [ReadFrame] returns a frame and leaves the stream
    behind it if and only if the stream starts with what [writePacket] emits
    for that frame and the whole packet, fixed header included, fits into the
    limit. *)
Theorem frame_exact r max h body rest : Forall in_u8 r -> in_u32 max ->
  ReadFrame r max = Ok (mkFrame h body, rest) <->
  exists w, writePacket [] h body = Ok w /\ r = w ++ rest /\ len w <= max.
Proof.
  intros Hr Hm. split.
  - intros (-> & Hb & Hl)%ReadFrame_inv; [|done..]. cbn [Header Body] in *.
    exists (packet_bytes h body). by rewrite writePacket_Ok.
  - intros (w & Hw & -> & Hl). apply writePacket_inv in Hw as [Hb ->]. by apply ReadFrame_packet.
Qed.

Lemma frame_exact_witness :
  ReadFrame [0x40; 2; 0; 9; 0xC0] 4 = Ok (mkFrame 0x40 [0; 9], [0xC0]) <->
  exists w, writePacket [] 0x40 [0; 9] = Ok w /\ [0x40; 2; 0; 9; 0xC0] = w ++ [0xC0] /\ len w <= 4.
Proof. apply frame_exact; by_decide. Defined.

(** A frame over the limit is refused on its fixed header alone: whatever
    follows the header on the stream, even nothing, the answer is
    [ErrFrameTooLarge], and it is given exactly when the packet's total size
    exceeds the limit. *)
Theorem frame_limit_first h n rest max : 0 <= n <= maxVarint -> in_u32 max ->
  ReadFrame (h :: appendVarint [] n ++ rest) max = Err ErrFrameTooLarge <->
  max < 1 + len (appendVarint [] n) + n.
Proof.
  intros Hn Hm. change (appendVarint [] n) with (vbytes n).
  rewrite ReadFrame_header, length_vbytes by done.
  destruct (max <? _) eqn:E; [split; [lia|done]|]. split; [|lia].
  destruct (n >? 0); [|done]. unfold ReadFull. by repeat case_match.
Qed.

Lemma frame_limit_first_witness :
  ReadFrame (0x30 :: appendVarint [] 200 ++ []) 202 = Err ErrFrameTooLarge <->
  202 < 1 + len (appendVarint [] 200) + 200.
Proof. apply frame_limit_first; [unfold maxVarint; lia|by_decide]. Defined.

(** The two readers of the variable byte integer, the one on the stream
    and the one on a packet body, give the same value and the same verdict on
    the same bytes (the stream's short read is the body's malformed packet). *)
Theorem varint_readers_agree pre r :
  match readVarintFrom r with
  | Ok (v, rest) => exists used, r = used ++ rest /\
      readVarint (at_pos pre r) = Ok (v, at_pos (pre ++ used) rest)
  | Err e => (e = ErrMalformedPacket \/ e = ErrEOF) /\
      readVarint (at_pos pre r) = Err ErrMalformedPacket
  end.
Proof. apply (readVarint_loop_stream 4 0 0 pre r). Qed.
