(* ===== verification/Props.v ===== *)
(** The MQTT 5.0 property block (protocol/properties.go): which property is
    legal where and with which value, the encoder, and the decoder. *)

From S2P Require Import Prelude GoStrings Codes Wire.
From stdpp Require Import options.

Record UserProperty : Type := mkUserProperty { Key : list Z; Value : list Z }.

(** A numeric property is a pointer ([None] is nil); an empty string, byte
    slice or list is an absent property. *)
Record Properties : Type := mkProperties {
  PayloadFormat : option Z;
  MessageExpiryInterval : option Z;
  ContentType : list Z;
  ResponseTopic : list Z;
  CorrelationData : list Z;
  SubscriptionIdentifiers : list Z;
  SessionExpiryInterval : option Z;
  AssignedClientID : list Z;
  ServerKeepAlive : option Z;
  AuthMethod : list Z;
  AuthData : list Z;
  RequestProblemInfo : option Z;
  WillDelayInterval : option Z;
  RequestResponseInfo : option Z;
  ResponseInfo : list Z;
  ServerReference : list Z;
  ReasonString : list Z;
  ReceiveMaximum : option Z;
  TopicAliasMaximum : option Z;
  TopicAlias : option Z;
  MaximumQoS : option Z;
  RetainAvailable : option Z;
  UserProperties : list UserProperty;
  MaximumPacketSize : option Z;
  WildcardSubAvailable : option Z;
  SubIDAvailable : option Z;
  SharedSubAvailable : option Z
}.

(** [&Properties{}]. *)
Definition emptyProperties : Properties :=
  mkProperties None None [] [] [] [] None [] None [] [] None None None [] [] [] None None None None None [] None None None None.

Definition Properties_eta (p : Properties) : Properties :=
  mkProperties (PayloadFormat p) (MessageExpiryInterval p) (ContentType p) (ResponseTopic p) (CorrelationData p) (SubscriptionIdentifiers p) (SessionExpiryInterval p) (AssignedClientID p) (ServerKeepAlive p) (AuthMethod p) (AuthData p) (RequestProblemInfo p) (WillDelayInterval p) (RequestResponseInfo p) (ResponseInfo p) (ServerReference p) (ReasonString p) (ReceiveMaximum p) (TopicAliasMaximum p) (TopicAlias p) (MaximumQoS p) (RetainAvailable p) (UserProperties p) (MaximumPacketSize p) (WildcardSubAvailable p) (SubIDAvailable p) (SharedSubAvailable p).

(** The assignments [p.Field = v]. *)
Definition set_PayloadFormat : option Z -> Properties -> Properties := ltac:(record_setter Properties_eta PayloadFormat).
Definition set_MessageExpiryInterval : option Z -> Properties -> Properties := ltac:(record_setter Properties_eta MessageExpiryInterval).
Definition set_ContentType : list Z -> Properties -> Properties := ltac:(record_setter Properties_eta ContentType).
Definition set_ResponseTopic : list Z -> Properties -> Properties := ltac:(record_setter Properties_eta ResponseTopic).
Definition set_CorrelationData : list Z -> Properties -> Properties := ltac:(record_setter Properties_eta CorrelationData).
Definition set_SubscriptionIdentifiers : list Z -> Properties -> Properties := ltac:(record_setter Properties_eta SubscriptionIdentifiers).
Definition set_SessionExpiryInterval : option Z -> Properties -> Properties := ltac:(record_setter Properties_eta SessionExpiryInterval).
Definition set_AssignedClientID : list Z -> Properties -> Properties := ltac:(record_setter Properties_eta AssignedClientID).
Definition set_ServerKeepAlive : option Z -> Properties -> Properties := ltac:(record_setter Properties_eta ServerKeepAlive).
Definition set_AuthMethod : list Z -> Properties -> Properties := ltac:(record_setter Properties_eta AuthMethod).
Definition set_AuthData : list Z -> Properties -> Properties := ltac:(record_setter Properties_eta AuthData).
Definition set_RequestProblemInfo : option Z -> Properties -> Properties := ltac:(record_setter Properties_eta RequestProblemInfo).
Definition set_WillDelayInterval : option Z -> Properties -> Properties := ltac:(record_setter Properties_eta WillDelayInterval).
Definition set_RequestResponseInfo : option Z -> Properties -> Properties := ltac:(record_setter Properties_eta RequestResponseInfo).
Definition set_ResponseInfo : list Z -> Properties -> Properties := ltac:(record_setter Properties_eta ResponseInfo).
Definition set_ServerReference : list Z -> Properties -> Properties := ltac:(record_setter Properties_eta ServerReference).
Definition set_ReasonString : list Z -> Properties -> Properties := ltac:(record_setter Properties_eta ReasonString).
Definition set_ReceiveMaximum : option Z -> Properties -> Properties := ltac:(record_setter Properties_eta ReceiveMaximum).
Definition set_TopicAliasMaximum : option Z -> Properties -> Properties := ltac:(record_setter Properties_eta TopicAliasMaximum).
Definition set_TopicAlias : option Z -> Properties -> Properties := ltac:(record_setter Properties_eta TopicAlias).
Definition set_MaximumQoS : option Z -> Properties -> Properties := ltac:(record_setter Properties_eta MaximumQoS).
Definition set_RetainAvailable : option Z -> Properties -> Properties := ltac:(record_setter Properties_eta RetainAvailable).
Definition set_UserProperties : list UserProperty -> Properties -> Properties := ltac:(record_setter Properties_eta UserProperties).
Definition set_MaximumPacketSize : option Z -> Properties -> Properties := ltac:(record_setter Properties_eta MaximumPacketSize).
Definition set_WildcardSubAvailable : option Z -> Properties -> Properties := ltac:(record_setter Properties_eta WildcardSubAvailable).
Definition set_SubIDAvailable : option Z -> Properties -> Properties := ltac:(record_setter Properties_eta SubIDAvailable).
Definition set_SharedSubAvailable : option Z -> Properties -> Properties := ltac:(record_setter Properties_eta SharedSubAvailable).

(** * Placement and value rules *)

Definition tgConnect : Z := Z.shiftl 1 Connect.
Definition tgConnack : Z := Z.shiftl 1 Connack.
Definition tgPublish : Z := Z.shiftl 1 Publish.
Definition tgPuback : Z := Z.shiftl 1 Puback.
Definition tgPubrec : Z := Z.shiftl 1 Pubrec.
Definition tgPubrel : Z := Z.shiftl 1 Pubrel.
Definition tgPubcomp : Z := Z.shiftl 1 Pubcomp.
Definition tgSubscribe : Z := Z.shiftl 1 Subscribe.
Definition tgSuback : Z := Z.shiftl 1 Suback.
Definition tgUnsubscribe : Z := Z.shiftl 1 Unsubscribe.
Definition tgUnsuback : Z := Z.shiftl 1 Unsuback.
Definition tgDisconnect : Z := Z.shiftl 1 Disconnect.
Definition tgAuth : Z := Z.shiftl 1 Auth.
Definition willBit : Z := Z.shiftl 1 16.

(** The union [a | b | ...] of targets. *)
Definition targets (l : list Z) : Z := foldr Z.lor 0 l.

Definition userPropTargets : Z := targets
  [tgConnect; tgConnack; tgPublish; willBit; tgPuback; tgPubrec; tgPubrel; tgPubcomp;
   tgSubscribe; tgSuback; tgUnsubscribe; tgUnsuback; tgDisconnect; tgAuth].

Definition propertySpec : gmap Z Z := list_to_map [
  (0x01, targets [tgPublish; willBit]);
  (0x02, targets [tgPublish; willBit]);
  (0x03, targets [tgPublish; willBit]);
  (0x08, targets [tgPublish; willBit]);
  (0x09, targets [tgPublish; willBit]);
  (0x0B, targets [tgPublish; tgSubscribe]);
  (0x11, targets [tgConnect; tgConnack; tgDisconnect]);
  (0x12, tgConnack);
  (0x13, tgConnack);
  (0x15, targets [tgConnect; tgConnack; tgAuth]);
  (0x16, targets [tgConnect; tgConnack; tgAuth]);
  (0x17, tgConnect);
  (0x18, willBit);
  (0x19, tgConnect);
  (0x1A, tgConnack);
  (0x1C, targets [tgConnack; tgDisconnect]);
  (0x1F, targets [tgConnack; tgPuback; tgPubrec; tgPubrel; tgPubcomp; tgSuback; tgUnsuback;
                  tgDisconnect; tgAuth]);
  (0x21, targets [tgConnect; tgConnack]);
  (0x22, targets [tgConnect; tgConnack]);
  (0x23, tgPublish);
  (0x24, tgConnack);
  (0x25, tgConnack);
  (0x26, userPropTargets);
  (0x27, targets [tgConnect; tgConnack]);
  (0x28, tgConnack);
  (0x29, tgConnack);
  (0x2A, tgConnack)
].

(** A Go map read: an absent key yields the zero value. *)
Definition spec_of (id : Z) : Z := default 0 (propertySpec !! id).

Definition checkEncodeAllowed (id target : Z) : res unit :=
  if Z.land (spec_of id) target =? 0 then Err ErrProtocolViolation else Ok tt.

(** [true] when the Go function returns a non-empty description. *)
Definition propertyValueViolation (id v : Z) : bool :=
  if (id =? 0x01) || (id =? 0x17) || (id =? 0x19) || (id =? 0x24) || (id =? 0x25) ||
     (id =? 0x28) || (id =? 0x29) || (id =? 0x2A) then v >? 1
  else if (id =? 0x21) || (id =? 0x23) || (id =? 0x27) then v =? 0
  else false.

Definition checkEncodeValue (id value : Z) : res unit :=
  if propertyValueViolation id value then Err ErrProtocolViolation else Ok tt.

(** * Encoding *)

(** The closures of [Properties.encode]; [body] is the buffer they capture. *)
Definition writeByteProp (target id : Z) (v : option Z) (body : list Z) : res (list Z) :=
  match v with
  | None => Ok body
  | Some v =>
    _ ← checkEncodeAllowed id target;
    _ ← checkEncodeValue id v;
    Ok (body ++ [id] ++ [v])
  end.

Definition writeU16Prop (target id : Z) (v : option Z) (body : list Z) : res (list Z) :=
  match v with
  | None => Ok body
  | Some v =>
    _ ← checkEncodeAllowed id target;
    _ ← checkEncodeValue id v;
    Ok (body ++ [id] ++ PutUint16 v)
  end.

Definition writeU32Prop (target id : Z) (v : option Z) (body : list Z) : res (list Z) :=
  match v with
  | None => Ok body
  | Some v =>
    _ ← checkEncodeAllowed id target;
    _ ← checkEncodeValue id v;
    Ok (body ++ [id] ++ PutUint32 v)
  end.

Definition writeStrProp (target id : Z) (s : list Z) (body : list Z) : res (list Z) :=
  if bool_decide (s = []) then Ok body
  else
    _ ← checkEncodeAllowed id target;
    appendString (body ++ [id]) s.

Definition writeBinProp (target id : Z) (v : list Z) (body : list Z) : res (list Z) :=
  if len v =? 0 then Ok body
  else
    _ ← checkEncodeAllowed id target;
    appendBinary (body ++ [id]) v.

(** The loop over [p.SubscriptionIdentifiers]. *)
Fixpoint writeSubIDs (ids : list Z) (body : list Z) : res (list Z) :=
  match ids with
  | [] => Ok body
  | id :: ids' =>
    if (id =? 0) || (id >? maxVarint) then Err ErrProtocolViolation
    else writeSubIDs ids' (appendVarint (body ++ [0x0B]) id)
  end.

Definition writeSubIDsProp (target : Z) (ids : list Z) (body : list Z) : res (list Z) :=
  if len ids >? 0 then
    _ ← checkEncodeAllowed 0x0B target;
    if has_bits target tgSubscribe && (len ids >? 1) then Err ErrProtocolViolation
    else writeSubIDs ids body
  else Ok body.

(** The loop over [p.UserProperties]. *)
Fixpoint writeUserProps (ups : list UserProperty) (body : list Z) : res (list Z) :=
  match ups with
  | [] => Ok body
  | up :: ups' =>
    body ← appendString (body ++ [0x26]) (Key up);
    body ← appendString body (Value up);
    writeUserProps ups' body
  end.

Definition writeUserPropsProp (target : Z) (ups : list UserProperty) (body : list Z) : res (list Z) :=
  if len ups >? 0 then
    _ ← checkEncodeAllowed 0x26 target;
    writeUserProps ups body
  else Ok body.

(** The property bytes of a non-nil receiver, in ascending identifier order. *)
Definition Properties_body (p : Properties) (target : Z) : res (list Z) :=
  let body := [] in
  body ← writeByteProp target 0x01 (PayloadFormat p) body;
  body ← writeU32Prop target 0x02 (MessageExpiryInterval p) body;
  body ← writeStrProp target 0x03 (ContentType p) body;
  body ← writeStrProp target 0x08 (ResponseTopic p) body;
  body ← writeBinProp target 0x09 (CorrelationData p) body;
  body ← writeSubIDsProp target (SubscriptionIdentifiers p) body;
  body ← writeU32Prop target 0x11 (SessionExpiryInterval p) body;
  body ← writeStrProp target 0x12 (AssignedClientID p) body;
  body ← writeU16Prop target 0x13 (ServerKeepAlive p) body;
  body ← writeStrProp target 0x15 (AuthMethod p) body;
  body ← writeBinProp target 0x16 (AuthData p) body;
  body ← writeByteProp target 0x17 (RequestProblemInfo p) body;
  body ← writeU32Prop target 0x18 (WillDelayInterval p) body;
  body ← writeByteProp target 0x19 (RequestResponseInfo p) body;
  body ← writeStrProp target 0x1A (ResponseInfo p) body;
  body ← writeStrProp target 0x1C (ServerReference p) body;
  body ← writeStrProp target 0x1F (ReasonString p) body;
  body ← writeU16Prop target 0x21 (ReceiveMaximum p) body;
  body ← writeU16Prop target 0x22 (TopicAliasMaximum p) body;
  body ← writeU16Prop target 0x23 (TopicAlias p) body;
  body ← writeByteProp target 0x24 (MaximumQoS p) body;
  body ← writeByteProp target 0x25 (RetainAvailable p) body;
  body ← writeUserPropsProp target (UserProperties p) body;
  body ← writeU32Prop target 0x27 (MaximumPacketSize p) body;
  body ← writeByteProp target 0x28 (WildcardSubAvailable p) body;
  body ← writeByteProp target 0x29 (SubIDAvailable p) body;
  body ← writeByteProp target 0x2A (SharedSubAvailable p) body;
  Ok body.

Definition Properties_encode (p : option Properties) (buf : list Z) (target : Z) : res (list Z) :=
  match p with
  | None => Ok (buf ++ [0x00])
  | Some p =>
    body ← Properties_body p target;
    if len body >? maxVarint then Err ErrFrameTooLarge
    else Ok (appendVarint buf (u32 (len body)) ++ body)
  end.

(** * Decoding *)

Definition repeatableProperty (id target : Z) : bool :=
  if id =? 0x26 then true
  else if id =? 0x0B then has_bits target tgPublish
  else false.

Definition readPropByte (id : Z) : parser Z :=
  v ← readByte;
  if propertyValueViolation id v then fail ErrMalformedPacket else mret v.

Definition readPropUint16 (id : Z) : parser Z :=
  v ← readUint16;
  if propertyValueViolation id v then fail ErrMalformedPacket else mret v.

Definition readPropUint32 (id : Z) : parser Z :=
  v ← readUint32;
  if propertyValueViolation id v then fail ErrMalformedPacket else mret v.

Definition Properties_decodeOne (p : Properties) (id : Z) : parser Properties :=
  if id =? 0x01 then v ← readPropByte id; mret (set_PayloadFormat (Some v) p)
  else if id =? 0x02 then v ← readPropUint32 id; mret (set_MessageExpiryInterval (Some v) p)
  else if id =? 0x03 then s ← readString; mret (set_ContentType s p)
  else if id =? 0x08 then s ← readString; mret (set_ResponseTopic s p)
  else if id =? 0x09 then b ← readBinary; mret (set_CorrelationData b p)
  else if id =? 0x0B then 
    v ← readVarint;
    if v =? 0 then fail ErrMalformedPacket
    else mret (set_SubscriptionIdentifiers (SubscriptionIdentifiers p ++ [v]) p)
  else if id =? 0x11 then v ← readPropUint32 id; mret (set_SessionExpiryInterval (Some v) p)
  else if id =? 0x12 then s ← readString; mret (set_AssignedClientID s p)
  else if id =? 0x13 then v ← readPropUint16 id; mret (set_ServerKeepAlive (Some v) p)
  else if id =? 0x15 then s ← readString; mret (set_AuthMethod s p)
  else if id =? 0x16 then b ← readBinary; mret (set_AuthData b p)
  else if id =? 0x17 then v ← readPropByte id; mret (set_RequestProblemInfo (Some v) p)
  else if id =? 0x18 then v ← readPropUint32 id; mret (set_WillDelayInterval (Some v) p)
  else if id =? 0x19 then v ← readPropByte id; mret (set_RequestResponseInfo (Some v) p)
  else if id =? 0x1A then s ← readString; mret (set_ResponseInfo s p)
  else if id =? 0x1C then s ← readString; mret (set_ServerReference s p)
  else if id =? 0x1F then s ← readString; mret (set_ReasonString s p)
  else if id =? 0x21 then v ← readPropUint16 id; mret (set_ReceiveMaximum (Some v) p)
  else if id =? 0x22 then v ← readPropUint16 id; mret (set_TopicAliasMaximum (Some v) p)
  else if id =? 0x23 then v ← readPropUint16 id; mret (set_TopicAlias (Some v) p)
  else if id =? 0x24 then v ← readPropByte id; mret (set_MaximumQoS (Some v) p)
  else if id =? 0x25 then v ← readPropByte id; mret (set_RetainAvailable (Some v) p)
  else if id =? 0x26 then 
    k ← readString;
    val ← readString;
    mret (set_UserProperties (UserProperties p ++ [mkUserProperty k val]) p)
  else if id =? 0x27 then v ← readPropUint32 id; mret (set_MaximumPacketSize (Some v) p)
  else if id =? 0x28 then v ← readPropByte id; mret (set_WildcardSubAvailable (Some v) p)
  else if id =? 0x29 then v ← readPropByte id; mret (set_SubIDAvailable (Some v) p)
  else if id =? 0x2A then v ← readPropByte id; mret (set_SharedSubAvailable (Some v) p)
  else fail ErrMalformedPacket.

(** The loop [for sub.remaining() > 0]; every iteration reads at least the
    identifier byte, so the number of remaining bytes bounds it. *)
Fixpoint decodeProperties_loop (fuel : nat) (target : Z) (p : Properties) (seen : Z) : parser Properties :=
  rem ← get_remaining;
  if rem >? 0 then
    match fuel with
    | O => fail OutOfFuel
    | S fuel' =>
      id ← readByte;
      match propertySpec !! id with
      | None => fail ErrMalformedPacket
      | Some allowed =>
        if Z.land allowed target =? 0 then fail ErrMalformedPacket
        else if negb (repeatableProperty id target) then
          let bit := u64 (Z.shiftl 1 id) in
          if has_bits seen bit then fail ErrMalformedPacket
          else
            p ← Properties_decodeOne p id;
            decodeProperties_loop fuel' target p (Z.lor seen bit)
        else
          p ← Properties_decodeOne p id;
          decodeProperties_loop fuel' target p seen
      end
    end
  else mret p.

(** Run [p] on a cursor of its own over [sub]. *)
Definition on_sub {A} (sub : list Z) (p : parser A) : parser A := fun c =>
  match p (newCursor sub) with Ok (a, _) => Ok (a, c) | Err e => Err e end.

Definition decodeProperties (target : Z) : parser (option Properties) :=
  n ← readVarint;
  rem ← get_remaining;
  if n >? rem then fail ErrMalformedPacket
  else
    sub ← next_bytes n;
    if n =? 0 then mret None
    else
      p ← on_sub sub (decodeProperties_loop (Z.to_nat n) target emptyProperties 0);
      mret (Some p).
