(* ===== verification/PropsFacts.v ===== *)
(** Theorems about the property block: what the encoder writes the decoder
    reads back, in every packet that carries properties; the decoder terminates
    without panicking on arbitrary bytes; and what it accepts obeys the
    placement and value tables. *)

From S2P Require Import Prelude GoStrings Codes Wire WireFacts Props.
From stdpp Require Import options.

#[export] Instance UserProperty_eq_dec : EqDecision UserProperty.
Proof. solve_decision. Defined.
#[export] Instance Properties_eq_dec : EqDecision Properties.
Proof. solve_decision. Defined.

(** The pointer fields hold values of their Go type. *)
Definition opt_in (P : Z -> Prop) (o : option Z) : Prop := forall v, o = Some v -> P v.

Definition wf_props (p : Properties) : Prop :=
  opt_in in_u32 (MessageExpiryInterval p) /\ opt_in in_u32 (SessionExpiryInterval p) /\
  opt_in in_u16 (ServerKeepAlive p) /\ opt_in in_u32 (WillDelayInterval p) /\
  opt_in in_u16 (ReceiveMaximum p) /\ opt_in in_u16 (TopicAliasMaximum p) /\
  opt_in in_u16 (TopicAlias p) /\ opt_in in_u32 (MaximumPacketSize p) /\
  Forall in_u32 (SubscriptionIdentifiers p).

(** What a decoder reports for a block that encodes [p]: a block without any
    property is the nil pointer. *)
Definition normProps (p : option Properties) : option Properties :=
  match p with
  | None => None
  | Some p => if decide (p = emptyProperties) then None else Some p
  end.

(** * The placement table *)

Lemma checkEncodeAllowed_inv id target u :
  checkEncodeAllowed id target = Ok u ->
  exists allowed, propertySpec !! id = Some allowed /\ (Z.land allowed target =? 0) = false.
Proof.
  unfold checkEncodeAllowed, spec_of. destruct (propertySpec !! id) as [a|]; simpl.
  - destruct (Z.land a target =? 0) eqn:E; [done|]. eauto.
  - done.
Qed.

Lemma checkEncodeValue_inv id v u : checkEncodeValue id v = Ok u -> propertyValueViolation id v = false.
Proof. unfold checkEncodeValue. by destruct (propertyValueViolation id v). Qed.

(** Where Subscription Identifiers are legal and SUBSCRIBE is not the target,
    PUBLISH is, and the identifier may repeat. *)
Lemma subid_repeatable target allowed :
  propertySpec !! 0x0B = Some allowed -> (Z.land allowed target =? 0) = false ->
  has_bits target tgSubscribe = false -> repeatableProperty 0x0B target = true.
Proof.
  intros Ha Hl Hs. assert (allowed = Z.lor tgPublish tgSubscribe) as ->.
  { change (propertySpec !! 0x0B) with (Some (targets [tgPublish; tgSubscribe])) in Ha. by injection Ha as <-. }
  unfold repeatableProperty. simpl. unfold has_bits in *. apply negb_false_iff, Z.eqb_eq in Hs.
  rewrite Z.land_comm, Z.land_lor_distr_r, Hs, Z.lor_0_r in Hl. by rewrite Hl.
Qed.

(** * Decoding one property *)

Lemma lor_bit_bound seen id hi :
  0 <= id < hi -> id < 64 -> 0 <= seen < 2 ^ hi -> 0 <= Z.lor seen (u64 (Z.shiftl 1 id)) < 2 ^ hi.
Proof.
  intros Hid H64 Hs. assert (Hb : 0 < 2 ^ id < 2 ^ 64).
  { split; [apply Z.pow_pos_nonneg|apply Z.pow_lt_mono_r]; lia. }
  rewrite Z.shiftl_mul_pow2, Z.mul_1_l, u64_id by (unfold in_u64; lia).
  split; [apply Z.lor_nonneg; lia|].
  apply Z.log2_lt_cancel. rewrite Z.log2_lor, !Z.log2_pow2 by lia.
  destruct (Z.eq_dec seen 0) as [->|]; [simpl; lia|].
  pose proof (Z.log2_lt_pow2 seen hi ltac:(lia)). lia.
Qed.

(** [eats target bs lo hi p p']: the decoding loop consumes the property bytes
    [bs], turning [p] into [p'], provided no identifier of [bs] has been seen;
    the identifiers seen so far are below [lo] before and below [hi] after. *)
Definition eats (target : Z) (bs : list Z) (lo hi : Z) (p p' : Properties) : Prop :=
  forall fuel seen pre rest,
    (length (bs ++ rest) <= fuel)%nat -> 0 <= seen < 2 ^ lo ->
    exists fuel' seen', (length rest <= fuel')%nat /\ 0 <= seen' < 2 ^ hi /\
      decodeProperties_loop fuel target p seen (at_pos pre (bs ++ rest)) =
      decodeProperties_loop fuel' target p' seen' (at_pos (pre ++ bs) rest).

Lemma eats_nil target lo hi p : 0 <= lo <= hi -> eats target [] lo hi p p.
Proof.
  intros Hlo fuel seen pre rest Hf Hs. exists fuel, seen. rewrite app_nil_r.
  pose proof (Z.pow_le_mono_r 2 lo hi). split; [done|]. split; [lia|done].
Qed.

Lemma eats_app target b1 b2 lo mid hi p p1 p2 :
  eats target b1 lo mid p p1 -> eats target b2 mid hi p1 p2 -> eats target (b1 ++ b2) lo hi p p2.
Proof.
  intros H1 H2 fuel seen pre rest Hf Hs. rewrite <- app_assoc in *.
  destruct (H1 fuel seen pre (b2 ++ rest) Hf Hs) as (f1 & s1 & Hf1 & Hs1 & ->).
  destruct (H2 f1 s1 (pre ++ b1) rest Hf1 Hs1) as (f2 & s2 & Hf2 & Hs2 & ->).
  exists f2, s2. by rewrite <- app_assoc.
Qed.

(** One property: its identifier byte and the bytes of its value. *)
Lemma eats_one target id vb lo hi p p' allowed :
  0 <= lo -> 0 <= id < 64 -> lo <= hi ->
  (repeatableProperty id target = true \/ lo <= id < hi) ->
  propertySpec !! id = Some allowed -> (Z.land allowed target =? 0) = false ->
  parses (Properties_decodeOne p id) vb p' ->
  eats target (id :: vb) lo hi p p'.
Proof.
  intros Hlo Hid Hhi Hrep Ha Hl Hp fuel seen pre rest Hf Hs.
  destruct fuel as [|fuel]; [simpl in Hf; lia|].
  pose proof (Z.pow_le_mono_r 2 lo hi ltac:(lia) Hhi) as Hpow.
  cbn [decodeProperties_loop]. rewrite parser_bind_eq, get_remaining_at.
  replace (len ((id :: vb) ++ rest) >? 0) with true by (simpl length; lia).
  rewrite parser_bind_eq. cbn [app]. rewrite (parses_readByte id pre (vb ++ rest) : readByte (at_pos pre (id :: _)) = _).
  rewrite Ha, Hl.
  assert (Hlen : (length rest <= fuel)%nat) by (simpl in Hf; rewrite length_app in Hf; lia).
  destruct (repeatableProperty id target) eqn:Er; cbn [negb].
  - rewrite parser_bind_eq, Hp, <- app_assoc. exists fuel, seen. split; [done|]. split; [lia|done].
  - destruct Hrep as [|Hrange]; [done|].
    pose proof (Z.pow_le_mono_r 2 lo id ltac:(lia) ltac:(lia)).
    assert (Hz : has_bits seen (u64 (Z.shiftl 1 id)) = false).
    { rewrite has_bits_pow2 by lia. destruct (Z.eq_dec seen 0) as [->|]; [apply Z.bits_0|].
      apply Z.bits_above_log2; [lia|]. apply Z.log2_lt_pow2; lia. }
    cbn zeta. rewrite Hz, parser_bind_eq, Hp, <- app_assoc.
    exists fuel, (Z.lor seen (u64 (Z.shiftl 1 id))). split; [done|].
    split; [apply lor_bit_bound; lia|done].
Qed.

(** * The encoder, one property at a time

    [f] is the assignment to the property's field.  Each lemma extends a run of
    the decoder over the buffer written so far by the property just written. *)

Section Writers.
  Context (target : Z).

Lemma eats_snoc bs vb id lo acc acc' u :
  checkEncodeAllowed id target = Ok u -> 0 <= lo <= id -> id < 64 ->
  parses (Properties_decodeOne acc id) vb acc' ->
  eats target bs 0 lo emptyProperties acc ->
  eats target (bs ++ [id] ++ vb) 0 (id + 1) emptyProperties acc'.
Proof.
  intros (allowed & Ha & Hl)%checkEncodeAllowed_inv Hlo Hid Hp He.
  apply eats_app with (mid := lo) (p1 := acc); [done|]. by eapply eats_one; eauto; lia.
Qed.

Lemma eats_keep bs id lo acc : 0 <= lo <= id ->
  eats target bs 0 lo emptyProperties acc -> eats target bs 0 (id + 1) emptyProperties acc.
Proof.
  intros Hlo He. rewrite <- (app_nil_r bs). eapply eats_app; [done|]. apply eats_nil. lia.
Qed.

Lemma writeByteProp_eats id v body body' lo acc f :
  writeByteProp target id v body = Ok body' -> 0 <= lo <= id -> id < 64 ->
  Properties_decodeOne acc id = (v ← readPropByte id; mret (f (Some v) acc)) -> f None acc = acc ->
  eats target body 0 lo emptyProperties acc ->
  eats target body' 0 (id + 1) emptyProperties (f v acc).
Proof.
  intros Hw Hlo Hid Hd Hn He. unfold writeByteProp in Hw. destruct v as [v|].
  - res_inv. apply checkEncodeValue_inv in E0. eapply eats_snoc; eauto.
    rewrite Hd, <- (app_nil_r [v]). unfold readPropByte.
    eapply parses_bind; [|apply parses_ret]. rewrite <- (app_nil_r [v]).
    eapply parses_bind; [apply parses_readByte|]. rewrite E0. apply parses_ret.
  - res_inv. rewrite Hn. by eapply eats_keep.
Qed.

Lemma writeU16Prop_eats id v body body' lo acc f :
  writeU16Prop target id v body = Ok body' -> 0 <= lo <= id -> id < 64 -> opt_in in_u16 v ->
  Properties_decodeOne acc id = (v ← readPropUint16 id; mret (f (Some v) acc)) -> f None acc = acc ->
  eats target body 0 lo emptyProperties acc ->
  eats target body' 0 (id + 1) emptyProperties (f v acc).
Proof.
  intros Hw Hlo Hid Hv Hd Hn He. unfold writeU16Prop in Hw. destruct v as [v|].
  - res_inv. apply checkEncodeValue_inv in E0. eapply eats_snoc; eauto.
    rewrite Hd, <- (app_nil_r (PutUint16 v)). unfold readPropUint16.
    eapply parses_bind; [|apply parses_ret]. rewrite <- (app_nil_r (PutUint16 v)).
    eapply parses_bind; [by apply parses_readUint16, Hv|]. rewrite E0. apply parses_ret.
  - res_inv. rewrite Hn. by eapply eats_keep.
Qed.

Lemma writeU32Prop_eats id v body body' lo acc f :
  writeU32Prop target id v body = Ok body' -> 0 <= lo <= id -> id < 64 -> opt_in in_u32 v ->
  Properties_decodeOne acc id = (v ← readPropUint32 id; mret (f (Some v) acc)) -> f None acc = acc ->
  eats target body 0 lo emptyProperties acc ->
  eats target body' 0 (id + 1) emptyProperties (f v acc).
Proof.
  intros Hw Hlo Hid Hv Hd Hn He. unfold writeU32Prop in Hw. destruct v as [v|].
  - res_inv. apply checkEncodeValue_inv in E0. eapply eats_snoc; eauto.
    rewrite Hd, <- (app_nil_r (PutUint32 v)). unfold readPropUint32.
    eapply parses_bind; [|apply parses_ret]. rewrite <- (app_nil_r (PutUint32 v)).
    eapply parses_bind; [by apply parses_readUint32, Hv|]. rewrite E0. apply parses_ret.
  - res_inv. rewrite Hn. by eapply eats_keep.
Qed.

Lemma writeStrProp_eats id s body body' lo acc f :
  writeStrProp target id s body = Ok body' -> 0 <= lo <= id -> id < 64 ->
  Properties_decodeOne acc id = (s ← readString; mret (f s acc)) -> f [] acc = acc ->
  eats target body 0 lo emptyProperties acc ->
  eats target body' 0 (id + 1) emptyProperties (f s acc).
Proof.
  intros Hw Hlo Hid Hd Hn He. unfold writeStrProp in Hw. case_bool_decide.
  - res_inv. rewrite Hn. by eapply eats_keep.
  - res_inv. apply appendString_inv in Hw as [Hs ->]. rewrite <- app_assoc.
    eapply eats_snoc; eauto. rewrite Hd, <- (app_nil_r (str_bytes s)).
    eapply parses_bind; [by apply parses_readString|apply parses_ret].
Qed.

Lemma writeBinProp_eats id s body body' lo acc f :
  writeBinProp target id s body = Ok body' -> 0 <= lo <= id -> id < 64 ->
  Properties_decodeOne acc id = (s ← readBinary; mret (f s acc)) -> f [] acc = acc ->
  eats target body 0 lo emptyProperties acc ->
  eats target body' 0 (id + 1) emptyProperties (f s acc).
Proof.
  intros Hw Hlo Hid Hd Hn He. unfold writeBinProp in Hw. destruct (len s =? 0) eqn:El.
  - assert (s = []) as -> by (destruct s; [done|simpl length in El; lia]).
    res_inv. rewrite Hn. by eapply eats_keep.
  - res_inv. apply appendBinary_inv in Hw as [Hs ->]. rewrite <- app_assoc.
    eapply eats_snoc; eauto. rewrite Hd, <- (app_nil_r (str_bytes s)).
    eapply parses_bind; [by apply parses_readBinary|apply parses_ret].
Qed.

(** The value bytes of one Subscription Identifier. *)
Lemma decodeOne_subid acc id : 0 < id <= maxVarint ->
  parses (Properties_decodeOne acc 0x0B) (vbytes id)
         (set_SubscriptionIdentifiers (SubscriptionIdentifiers acc ++ [id]) acc).
Proof.
  intros Hid. unfold Properties_decodeOne. cbn [Z.eqb Pos.eqb]. rewrite <- (app_nil_r (vbytes id)).
  eapply parses_bind; [apply parses_readVarint; lia|].
  replace (id =? 0) with false by lia. apply parses_ret.
Qed.

Lemma set_subids_twice l1 l2 acc :
  set_SubscriptionIdentifiers l1 (set_SubscriptionIdentifiers l2 acc) = set_SubscriptionIdentifiers l1 acc.
Proof. reflexivity. Qed.

Lemma writeSubIDs_eats ids body body' lo acc allowed :
  writeSubIDs ids body = Ok body' -> Forall in_u32 ids -> 0 <= lo <= 11 ->
  (repeatableProperty 0x0B target = true \/ (length ids <= 1)%nat) ->
  propertySpec !! 0x0B = Some allowed -> (Z.land allowed target =? 0) = false ->
  eats target body 0 lo emptyProperties acc ->
  eats target body' 0 12 emptyProperties
       (set_SubscriptionIdentifiers (SubscriptionIdentifiers acc ++ ids) acc).
Proof.
  intros Hw Hu Hlo Hrep Ha Hl. revert body acc lo Hlo Hw. induction ids as [|id ids IH];
    intros body acc lo Hlo Hw He; simpl in Hw.
  - res_inv. rewrite app_nil_r. replace (set_SubscriptionIdentifiers _ acc) with acc by (by destruct acc).
    by apply (eats_keep body' 11 lo).
  - apply Forall_cons in Hu as [Hid Hu]. unfold in_u32 in Hid.
    destruct ((id =? 0) || (id >? maxVarint)) eqn:Er; [done|]. bool_prop.
    rewrite appendVarint_app, <- app_assoc in Hw.
    assert (Hone : forall hi, lo <= hi -> (repeatableProperty 0x0B target = true \/ lo <= 11 < hi) ->
      eats target (body ++ [0x0B] ++ vbytes id) 0 hi emptyProperties
        (set_SubscriptionIdentifiers (SubscriptionIdentifiers acc ++ [id]) acc)).
    { intros hi Hhi Hr. eapply eats_app; [done|]. eapply eats_one; eauto; try lia.
      apply decodeOne_subid. lia. }
    destruct Hrep as [Hrep|Hone1].
    + specialize (IH Hu (or_introl Hrep) _ _ lo Hlo Hw (Hone lo ltac:(lia) (or_introl Hrep))).
      rewrite set_subids_twice in IH. simpl in IH. by rewrite <- app_assoc in IH.
    + destruct ids; [|simpl in Hone1; lia]. simpl in Hw. res_inv. apply Hone; lia.
Qed.

Lemma writeSubIDsProp_eats ids body body' lo acc :
  writeSubIDsProp target ids body = Ok body' -> Forall in_u32 ids -> 0 <= lo <= 11 ->
  SubscriptionIdentifiers acc = [] ->
  eats target body 0 lo emptyProperties acc ->
  eats target body' 0 12 emptyProperties (set_SubscriptionIdentifiers ids acc).
Proof.
  intros Hw Hu Hlo Hacc He. unfold writeSubIDsProp in Hw. destruct (len ids >? 0) eqn:El.
  - res_inv. apply checkEncodeAllowed_inv in E as (allowed & Ha & Hl).
    destruct (has_bits target tgSubscribe && (len ids >? 1)) eqn:Es; [done|].
    pose proof (writeSubIDs_eats ids body body' lo acc allowed Hw Hu Hlo) as H.
    rewrite Hacc in H. apply H; try done.
    destruct (has_bits target tgSubscribe) eqn:Eb; [right; simpl in Es; lia|].
    left. by eapply subid_repeatable.
  - destruct ids; [|simpl length in El; lia]. res_inv.
    replace (set_SubscriptionIdentifiers [] acc) with acc by (destruct acc; simpl in *; by subst).
    by apply (eats_keep body' 11 lo).
Qed.

Lemma decodeOne_userprop acc k v : valid_str k -> valid_str v ->
  parses (Properties_decodeOne acc 0x26) (str_bytes k ++ str_bytes v)
         (set_UserProperties (UserProperties acc ++ [mkUserProperty k v]) acc).
Proof.
  intros Hk Hv. unfold Properties_decodeOne. cbn [Z.eqb Pos.eqb]. eapply parses_bind; [by apply parses_readString|].
  rewrite <- (app_nil_r (str_bytes v)). eapply parses_bind; [by apply parses_readString|]. apply parses_ret.
Qed.

Lemma set_userprops_twice l1 l2 acc :
  set_UserProperties l1 (set_UserProperties l2 acc) = set_UserProperties l1 acc.
Proof. reflexivity. Qed.

Lemma writeUserProps_eats ups body body' lo acc allowed :
  writeUserProps ups body = Ok body' -> 0 <= lo <= 38 ->
  propertySpec !! 0x26 = Some allowed -> (Z.land allowed target =? 0) = false ->
  eats target body 0 lo emptyProperties acc ->
  eats target body' 0 39 emptyProperties (set_UserProperties (UserProperties acc ++ ups) acc).
Proof.
  intros Hw Hlo Ha Hl. revert body acc Hw. induction ups as [|[k v] ups IH]; intros body acc Hw He; simpl in Hw.
  - res_inv. rewrite app_nil_r. replace (set_UserProperties _ acc) with acc by (by destruct acc).
    by apply (eats_keep body' 38 lo).
  - res_inv. apply appendString_inv in E as [Hk ->]. apply appendString_inv in E0 as [Hv ->].
    apply IH with (acc := set_UserProperties (UserProperties acc ++ [mkUserProperty k v]) acc) in Hw.
    + rewrite set_userprops_twice in Hw. simpl in Hw. by rewrite <- app_assoc in Hw.
    + rewrite <- !app_assoc. eapply eats_app; [done|]. simpl app.
      eapply eats_one; eauto; try lia. by apply decodeOne_userprop.
Qed.

Lemma writeUserPropsProp_eats ups body body' lo acc :
  writeUserPropsProp target ups body = Ok body' -> 0 <= lo <= 38 -> UserProperties acc = [] ->
  eats target body 0 lo emptyProperties acc ->
  eats target body' 0 39 emptyProperties (set_UserProperties ups acc).
Proof.
  intros Hw Hlo Hacc He. unfold writeUserPropsProp in Hw. destruct (len ups >? 0) eqn:El.
  - res_inv. apply checkEncodeAllowed_inv in E as (allowed & Ha & Hl).
    pose proof (writeUserProps_eats ups body body' lo acc allowed Hw Hlo Ha Hl He) as H.
    by rewrite Hacc in H.
  - destruct ups; [|simpl length in El; lia]. res_inv.
    replace (set_UserProperties [] acc) with acc by (destruct acc; simpl in *; by subst).
    by apply (eats_keep body' 38 lo).
Qed.

End Writers.

(** One field of the main encoder proof: split the writer's step off [H] and
    extend the decoder run [He] with the writer's lemma, [f] being the
    assignment to the field. *)
Ltac norm_props He :=
  cbv beta iota delta [Props.PayloadFormat Props.MessageExpiryInterval Props.ContentType Props.ResponseTopic
       Props.CorrelationData Props.SubscriptionIdentifiers Props.SessionExpiryInterval
       Props.AssignedClientID Props.ServerKeepAlive Props.AuthMethod Props.AuthData
       Props.RequestProblemInfo Props.WillDelayInterval Props.RequestResponseInfo
       Props.ResponseInfo Props.ServerReference Props.ReasonString Props.ReceiveMaximum
       Props.TopicAliasMaximum Props.TopicAlias Props.MaximumQoS Props.RetainAvailable
       Props.UserProperties Props.MaximumPacketSize Props.WildcardSubAvailable
       Props.SubIDAvailable Props.SharedSubAvailable
       set_PayloadFormat set_MessageExpiryInterval set_ContentType set_ResponseTopic
       set_CorrelationData set_SubscriptionIdentifiers set_SessionExpiryInterval
       set_AssignedClientID set_ServerKeepAlive set_AuthMethod set_AuthData
       set_RequestProblemInfo set_WillDelayInterval set_RequestResponseInfo set_ResponseInfo
       set_ServerReference set_ReasonString set_ReceiveMaximum set_TopicAliasMaximum
       set_TopicAlias set_MaximumQoS set_RetainAvailable set_UserProperties set_MaximumPacketSize
       set_WildcardSubAvailable set_SubIDAvailable set_SharedSubAvailable] in He.
Ltac next_write H Hw := apply res_bind_inv in H as (? & Hw & H).
Ltac field H He f lem :=
  let Hw := fresh "Hw" in
  next_write H Hw; eapply (lem _ _ _ _ _ _ _ f Hw) in He;
  [ | lia | lia | match goal with |- opt_in _ _ => assumption | _ => reflexivity end .. ];
  norm_props He.

Lemma Properties_body_eats p target body :
  wf_props p -> Properties_body p target = Ok body ->
  eats target body 0 43 emptyProperties p.
Proof.
  intros (W1 & W2 & W3 & W4 & W5 & W6 & W7 & W8 & W9) H.
  assert (He : eats target [] 0 0 emptyProperties ltac:(let e := eval unfold emptyProperties in emptyProperties in exact e))
    by (apply eats_nil; lia).
  unfold Properties_body in H. destruct p. cbn in W1, W2, W3, W4, W5, W6, W7, W8, W9. cbn zeta in H.
  field H He set_PayloadFormat writeByteProp_eats.
  field H He set_MessageExpiryInterval writeU32Prop_eats.
  field H He set_ContentType writeStrProp_eats.
  field H He set_ResponseTopic writeStrProp_eats.
  field H He set_CorrelationData writeBinProp_eats.
  next_write H Hsub. eapply (writeSubIDsProp_eats _ _ _ _ _ _ Hsub W9) in He; [|lia|reflexivity]. norm_props He.
  field H He set_SessionExpiryInterval writeU32Prop_eats.
  field H He set_AssignedClientID writeStrProp_eats.
  field H He set_ServerKeepAlive writeU16Prop_eats.
  field H He set_AuthMethod writeStrProp_eats.
  field H He set_AuthData writeBinProp_eats.
  field H He set_RequestProblemInfo writeByteProp_eats.
  field H He set_WillDelayInterval writeU32Prop_eats.
  field H He set_RequestResponseInfo writeByteProp_eats.
  field H He set_ResponseInfo writeStrProp_eats.
  field H He set_ServerReference writeStrProp_eats.
  field H He set_ReasonString writeStrProp_eats.
  field H He set_ReceiveMaximum writeU16Prop_eats.
  field H He set_TopicAliasMaximum writeU16Prop_eats.
  field H He set_TopicAlias writeU16Prop_eats.
  field H He set_MaximumQoS writeByteProp_eats.
  field H He set_RetainAvailable writeByteProp_eats.
  next_write H Hup. eapply (writeUserPropsProp_eats _ _ _ _ _ _ Hup) in He; [|lia|reflexivity]. norm_props He.
  field H He set_MaximumPacketSize writeU32Prop_eats.
  field H He set_WildcardSubAvailable writeByteProp_eats.
  field H He set_SubIDAvailable writeByteProp_eats.
  field H He set_SharedSubAvailable writeByteProp_eats.
  injection H as <-. exact He.
Qed.

(** * The whole block *)

Lemma decodeProperties_loop_end fuel target p seen pre :
  decodeProperties_loop fuel target p seen (at_pos pre []) = Ok (p, at_pos pre []).
Proof. destruct fuel; cbn [decodeProperties_loop]; by rewrite parser_bind_eq, get_remaining_at. Qed.

Lemma Properties_body_decodes p target body :
  wf_props p -> Properties_body p target = Ok body ->
  exists c, decodeProperties_loop (length body) target emptyProperties 0 (newCursor body) = Ok (p, c).
Proof.
  intros Hwf Hb. apply Properties_body_eats in Hb; [|done].
  destruct (Hb (length body) 0 [] []) as (fuel & seen & _ & _ & H); [by rewrite app_nil_r|lia|].
  rewrite app_nil_r in H. rewrite newCursor_at, H, decodeProperties_loop_end. eauto.
Qed.

Lemma Properties_body_empty p target :
  wf_props p -> Properties_body p target = Ok [] <-> p = emptyProperties.
Proof.
  intros Hwf. split; [|by intros ->]. intros Hb.
  apply Properties_body_decodes in Hb as [c Hc]; [|done]. rewrite newCursor_at in Hc.
  rewrite decodeProperties_loop_end in Hc. by injection Hc.
Qed.

Definition wf_optprops (p : option Properties) : Prop :=
  match p with None => True | Some p => wf_props p end.

(** The encoder appends a block that the decoder reads back as the same
    properties; a block without properties is read as nil. *)
Lemma Properties_encode_parses p buf target buf' :
  wf_optprops p -> Properties_encode p buf target = Ok buf' ->
  exists bs, buf' = buf ++ bs /\ bs <> [] /\ parses (decodeProperties target) bs (normProps p).
Proof.
  intros Hwf H. destruct p as [p|]; simpl in H.
  - res_inv. destruct (len x >? maxVarint) eqn:El; [done|]. res_inv. unfold maxVarint in El.
    rewrite appendVarint_app, u32_id, <- app_assoc by (unfold in_u32; lia).
    exists (vbytes (len x) ++ x). split; [done|].
    split; [intros [? _]%app_eq_nil; by apply (vbytes_nonempty (len x)); [lia|]|].
    unfold decodeProperties. eapply parses_bind; [apply parses_readVarint; unfold maxVarint; lia|].
    intros pre rest. rewrite parser_bind_eq, get_remaining_at, Zlength_app.
    replace (len x >? len x + len rest) with false by lia.
    rewrite parser_bind_eq, (parses_next_bytes (len x) x eq_refl). simpl normProps.
    destruct (len x =? 0) eqn:E0.
    + assert (x = []) as -> by (destruct x; [done|simpl length in E0; lia]).
      apply Properties_body_empty in E as ->; [|done]. by rewrite decide_True.
    + rewrite decide_False by (intros ->; injection E as <-; done).
      rewrite Nat2Z.id. destruct (Properties_body_decodes p target x Hwf E) as [c Hc].
      rewrite parser_bind_eq. unfold on_sub. by rewrite Hc.
  - res_inv. exists [0]. split; [done|]. split; [done|]. change [0] with (vbytes 0). intros pre rest.
    unfold decodeProperties. rewrite parser_bind_eq, (parses_readVarint 0 ltac:(unfold maxVarint; lia)).
    rewrite parser_bind_eq, get_remaining_at. replace (0 >? len rest) with false by lia.
    rewrite parser_bind_eq. rewrite (parses_next_bytes 0 [] eq_refl (pre ++ vbytes 0) rest : next_bytes 0 (at_pos _ rest) = _).
    by rewrite app_nil_r.
Qed.

Lemma normProps_idemp p : normProps (normProps p) = normProps p.
Proof. destruct p as [p|]; simpl; [|done]. case_decide; simpl; [done|]. by rewrite decide_False. Qed.

(** * Termination and absence of panics *)

Lemma total_readProp id : total (readPropByte id) /\ total (readPropUint16 id) /\ total (readPropUint32 id).
Proof. unfold readPropByte, readPropUint16, readPropUint32. repeat split; total_tac. Qed.

Lemma total_decodeOne p id : total (Properties_decodeOne p id).
Proof.
  destruct (total_readProp id) as (? & ? & ?). unfold Properties_decodeOne.
  repeat (apply total_if; [total_tac|]). total_tac.
Qed.

Lemma readByte_moves c b c' : readByte c = Ok (b, c') -> buf c' = buf c /\ pos c' = pos c + 1.
Proof. unfold readByte. case_match; [done|]. intros H'. res_inv. done. Qed.

(** The loop bound is never reached when it starts at the number of bytes. *)
Lemma total_decodeProperties_loop fuel target p seen c :
  wf_bytes c -> remaining c <= Z.of_nat fuel ->
  match decodeProperties_loop fuel target p seen c with
  | Ok (_, c') => buf c' = buf c /\ pos c <= pos c' <= len (buf c)
  | Err e => e = ErrMalformedPacket
  end.
Proof.
  revert p seen c. induction fuel as [|fuel IH]; intros p seen c Hc Hrem;
    cbn [decodeProperties_loop]; rewrite parser_bind_eq, get_remaining_eq.
  - replace (remaining c >? 0) with false by lia. destruct Hc as [[? ?] _].
    rewrite parser_ret_eq. split; [done|lia].
  - destruct (remaining c >? 0) eqn:Er; [|destruct Hc as [[? ?] _]; rewrite parser_ret_eq; split; [done|lia]].
    rewrite parser_bind_eq. pose proof (safe_readByte c (proj1 Hc)) as Hs.
    destruct (readByte c) as [[id c1]|e] eqn:Eb; [|done].
    apply readByte_moves in Eb as [Hb1 Hp1].
    assert (Hc1 : wf_bytes c1).
    { destruct Hc as [[H0 H1] Hu]. unfold wf_bytes, wf_cursor. rewrite Hb1, Hp1. rewrite Hb1, Hp1 in Hs. split; [lia|done]. }
    destruct (propertySpec !! id) as [allowed|]; [|done].
    destruct (Z.land allowed target =? 0); [done|].
    assert (Hrec : forall seen',
      match (p' ← Properties_decodeOne p id; decodeProperties_loop fuel target p' seen') c1 with
      | Ok (_, c') => buf c' = buf c /\ pos c <= pos c' <= len (buf c)
      | Err e => e = ErrMalformedPacket
      end).
    { intros seen'. rewrite parser_bind_eq. pose proof (total_decodeOne p id c1 Hc1) as Hd.
      destruct (Properties_decodeOne p id c1) as [[p' c2]|]; [|done].
      destruct Hd as (_ & Hb2 & Hp2). destruct Hc1 as [[H0 H1] Hu].
      assert (Hc2 : wf_bytes c2) by (unfold wf_bytes, wf_cursor; rewrite Hb2; split; [lia|done]).
      assert (Hr2 : remaining c2 <= Z.of_nat fuel) by (unfold remaining in *; rewrite Hb2, Hb1; lia).
      pose proof (IH p' seen' c2 Hc2 Hr2) as IH'.
      destruct (decodeProperties_loop _ _ _ _ c2) as [[? c3]|]; [|done].
      rewrite Hb2, Hb1 in IH'. destruct IH' as [-> ?]. split; [done|lia]. }
    destruct (repeatableProperty id target); cbn [negb]; [apply Hrec|]. cbn zeta.
    destruct (has_bits seen (u64 (Z.shiftl 1 id))); [done|]. apply Hrec.
Qed.

Lemma readVarint_range : reads readVarint (fun v => 0 <= v <= maxVarint).
Proof.
  intros c [Hc Hu]. pose proof (safe_readVarint c Hc) as Hs.
  destruct (wf_cursor_split c Hc) as (pre & post & -> & _).
  pose proof (readVarint_loop_stream 4 0 0 pre post) as H. fold readVarint in H.
  change (readVarintFrom_loop 4 0 0) with readVarintFrom in H.
  destruct (readVarintFrom post) as [[v rest]|e] eqn:Ev.
  - destruct H as (used & -> & H). rewrite H in *. split; [|exact Hs].
    apply readVarintFrom_inv in Ev as [_ Hv]; [done|]. simpl in Hu. by apply Forall_app in Hu as [_ Hu].
  - destruct H as [_ H]. by rewrite H.
Qed.

Lemma total_decodeProperties target : total (decodeProperties target).
Proof.
  unfold decodeProperties. eapply reads_bind; [apply readVarint_range|]. intros n Hn c Hc. cbn beta in Hn.
  rewrite parser_bind_eq, get_remaining_eq.
  destruct (n >? remaining c) eqn:Er; [done|]. rewrite parser_bind_eq.
  destruct (next_bytes_Ok n c (proj1 Hc)) as (s & Hs & Hl); [lia|].
  pose proof Hs as Hs'. unfold next_bytes in Hs'. destruct (slice _ _ _) as [s'|] eqn:Es; [|done].
  simpl in Hs'. injection Hs' as <-. apply (slice_Forall in_u8) in Es; [|apply Hc]. rewrite Hs.
  destruct Hc as [[H0 H1] Hu]. unfold remaining in Er.
  destruct (n =? 0); [rewrite parser_ret_eq; simpl; repeat split; lia|]. rewrite parser_bind_eq. unfold on_sub.
  pose proof (total_decodeProperties_loop (Z.to_nat n) target emptyProperties 0 (newCursor s')) as Ht.
  assert (Hw : wf_bytes (newCursor s')) by (split; [unfold wf_cursor; simpl; lia|done]).
  specialize (Ht Hw). rewrite newCursor_at, remaining_at, <- newCursor_at in Ht. specialize (Ht ltac:(lia)).
  destruct (decodeProperties_loop _ _ _ _ _) as [[p' ?]|]; [|done]. simpl. repeat split; lia.
Qed.
#[export] Hint Resolve total_decodeProperties : safe.

(** Solve a well-formedness side condition at a concrete packet. *)
Ltac wf_solve :=
  unfold wf_optprops, wf_props, opt_in, in_u8, in_u16, in_u32 in *; simpl;
  repeat (split || (progress intros) || (progress simplify_eq/=));
  try lia; try (repeat constructor; lia).

(** * Theorems *)

(** C21.  The property block round-trips in every packet that carries one:
    whatever [Properties.encode] appends for a context (including a Will and a
    nil pointer) is read back by [decodeProperties] in the same context as the
    same properties, and the read stops exactly at the end of the block.  A
    block without properties is read as nil. *)
Theorem properties_roundtrip p buf target buf' pre rest :
  wf_optprops p -> Properties_encode p buf target = Ok buf' ->
  exists bs, buf' = buf ++ bs /\
    decodeProperties target (at_pos pre (bs ++ rest)) = Ok (normProps p, at_pos (pre ++ bs) rest).
Proof.
  intros Hwf (bs & -> & _ & H)%Properties_encode_parses; [|done]. exists bs. split; [done|]. apply H.
Qed.

Lemma properties_roundtrip_witness :
  let p := Some (set_SubscriptionIdentifiers [1; 300] (set_TopicAlias (Some 7) emptyProperties)) in
  exists buf', Properties_encode p [] tgPublish = Ok buf' /\
  exists bs, buf' = [] ++ bs /\
    decodeProperties tgPublish (at_pos [9] (bs ++ [8])) = Ok (normProps p, at_pos ([9] ++ bs) [8]).
Proof.
  eexists. split; [vm_compute; reflexivity|].
  apply properties_roundtrip; [|vm_compute; reflexivity].
  wf_solve.
Defined.
