(* ===== verification/PublishPackets.v ===== *)
(** PUBLISH and its acknowledgements PUBACK, PUBREC, PUBREL and PUBCOMP
    (protocol/publish.go): encoders and decoders for MQTT 3.1.1 and 5.0. *)

From S2P Require Import Prelude GoStrings Codes Wire WireFacts Props PropsFacts.
From stdpp Require Import options.

(** * PUBLISH *)

Record PublishPacket : Type := mkPublish {
  pub_Version : Z;
  pub_Topic : list Z;
  pub_Payload : list Z;
  pub_QoS : Z;
  pub_Retain : bool;
  pub_Dup : bool;
  pub_PacketID : Z;
  pub_Properties : option Properties
}.

Definition PublishPacket_Encode (p : PublishPacket) (w : list Z) : res (list Z) :=
  if negb (Version_Valid (pub_Version p)) then Err ErrProtocolViolation
  else if pub_QoS p >? 2 then Err ErrProtocolViolation
  else if (pub_QoS p >? 0) && (pub_PacketID p =? 0) then Err ErrProtocolViolation
  else if (pub_QoS p =? 0) && pub_Dup p then Err ErrProtocolViolation
  else
    let header := u8 (Z.shiftl Publish 4) in
    let header := if pub_Dup p then Z.lor header 0x08 else header in
    let header := Z.lor header (u8 (Z.shiftl (pub_QoS p) 1)) in
    let header := if pub_Retain p then Z.lor header 0x01 else header in
    body ← appendString [] (pub_Topic p);
    let body := if pub_QoS p >? 0 then body ++ PutUint16 (pub_PacketID p) else body in
    body ← (if pub_Version p =? V50
            then Properties_encode (pub_Properties p) body tgPublish else Ok body);
    let body := body ++ pub_Payload p in
    writePacket w header body.

Definition readRest : parser (list Z) := fun c =>
  out ← slice (buf c) (pos c) (len (buf c));
  Ok (out, mkCursor (buf c) (len (buf c))).

(** [p.Properties == nil || p.Properties.TopicAlias == nil]. *)
Definition no_alias (props : option Properties) : bool :=
  match props with
  | None => true
  | Some p => match TopicAlias p with None => true | Some _ => false end
  end.

Definition DecodePublish (v header : Z) (body : list Z) : res PublishPacket :=
  let flags := Z.land header 0x0F in
  let qos := Z.land (Z.shiftr flags 1) 0x03 in
  if qos =? 3 then Err ErrMalformedPacket
  else if (qos =? 0) && has_bits flags 0x08 then Err ErrMalformedPacket
  else run (
    topic ← readString;
    if ContainsAny topic (gostr "+#") then fail ErrMalformedPacket
    else
      id ← (if qos >? 0 then
              id ← readUint16;
              if id =? 0 then fail ErrMalformedPacket else mret id
            else mret 0);
      props ← (if v =? V311 then mret None
               else if v =? V50 then decodeProperties tgPublish
               else fail ErrProtocolViolation);
      if bool_decide (topic = []) && (negb (v =? V50) || no_alias props)
      then fail ErrMalformedPacket
      else
        payload ← readRest;
        mret (mkPublish v topic payload qos (has_bits flags 0x01) (has_bits flags 0x08) id props)
  ) body.

(** * Acknowledgements *)

Record AckPacket : Type := mkAck {
  ack_Version : Z;
  ack_Type : Z;
  ack_PacketID : Z;
  ack_ReasonCode : Z;
  ack_Properties : option Properties
}.

Definition ackTarget (t : Z) : option Z :=
  if t =? Puback then Some tgPuback
  else if t =? Pubrec then Some tgPubrec
  else if t =? Pubrel then Some tgPubrel
  else if t =? Pubcomp then Some tgPubcomp
  else None.

Definition is_some {A} (o : option A) : bool := match o with Some _ => true | None => false end.

Definition AckPacket_EncodeAck (p : AckPacket) (w : list Z) : res (list Z) :=
  if negb (Version_Valid (ack_Version p)) then Err ErrProtocolViolation
  else match ackTarget (ack_Type p) with
  | None => Err ErrProtocolViolation
  | Some target =>
    if ack_PacketID p =? 0 then Err ErrProtocolViolation
    else
      let header := u8 (Z.shiftl (ack_Type p) 4) in
      let header := if ack_Type p =? Pubrel then Z.lor header 0x02 else header in
      let body := PutUint16 (ack_PacketID p) in
      body ← (if (ack_Version p =? V50) && (negb (ack_ReasonCode p =? 0) || is_some (ack_Properties p))
              then
                let body := body ++ [ack_ReasonCode p] in
                if is_some (ack_Properties p)
                then Properties_encode (ack_Properties p) body target
                else Ok body
              else Ok body);
      writePacket w header body
  end.

Definition DecodeAck (v t : Z) (body : list Z) : res AckPacket :=
  match ackTarget t with
  | None => Err ErrMalformedPacket
  | Some target => run (
      pid ← readUint16;
      if pid =? 0 then fail ErrMalformedPacket
      else if v =? V311 then
        rem ← get_remaining;
        if negb (rem =? 0) then fail ErrMalformedPacket
        else mret (mkAck v t pid Success None)
      else if v =? V50 then
        rem ← get_remaining;
        if rem =? 0 then mret (mkAck v t pid Success None)
        else
          rc ← readByte;
          rem ← get_remaining;
          if rem =? 0 then mret (mkAck v t pid rc None)
          else
            props ← decodeProperties target;
            rem ← get_remaining;
            if negb (rem =? 0) then fail ErrMalformedPacket
            else mret (mkAck v t pid rc props)
      else fail ErrProtocolViolation
    ) body
  end.

(** * Lemmas *)

Lemma parses_end_readRest bs : parses_end readRest bs bs.
Proof.
  intros pre. unfold readRest, at_pos at 1. simpl.
  replace (len (pre ++ bs)) with (len pre + len bs) by (by rewrite Zlength_app).
  pose proof (slice_at pre bs []) as H. rewrite app_nil_r in H. rewrite H. simpl.
  unfold at_pos. by rewrite app_nil_r, Zlength_app.
Qed.

Lemma safe_readRest : safe readRest.
Proof.
  intros c [H0 H1]. unfold readRest.
  destruct (slice_Ok (buf c) (pos c) (len (buf c))) as (s & -> & _); [lia..|]. simpl. split; [done|lia].
Qed.
#[export] Hint Resolve safe_readRest : safe.

(** ** Round trip of PUBLISH *)

(** The fields hold values of their Go types. *)
Definition wf_publish (p : PublishPacket) : Prop :=
  0 <= pub_QoS p < 256 /\ in_u16 (pub_PacketID p) /\ wf_optprops (pub_Properties p).

(** What survives the wire: a QoS 0 packet has no identifier, a 3.1.1 packet
    has no properties, and an empty property block is nil. *)
Definition canon_publish (p : PublishPacket) : PublishPacket :=
  mkPublish (pub_Version p) (pub_Topic p) (pub_Payload p) (pub_QoS p) (pub_Retain p) (pub_Dup p)
    (if pub_QoS p >? 0 then pub_PacketID p else 0)
    (if pub_Version p =? V50 then normProps (pub_Properties p) else None).

(** The topics a PUBLISH may carry: no wildcard, and not empty unless a topic
    alias stands for it. *)
Definition publishable (p : PublishPacket) : Prop :=
  ContainsAny (pub_Topic p) (gostr "+#") = false /\
  (pub_Topic p <> [] \/ pub_Version p = V50 /\ no_alias (pub_Properties p) = false).

Lemma no_alias_norm o : no_alias o = false -> no_alias (normProps o) = false.
Proof.
  destruct o as [p|]; simpl; [|done]. destruct (TopicAlias p) eqn:E; [|done].
  case_decide as Hd; [by rewrite Hd in E|]. simpl. by rewrite E.
Qed.

Lemma no_alias_norm_true o : no_alias o = true -> no_alias (normProps o) = true.
Proof.
  destruct o as [p|]; simpl; [|done]. destruct (TopicAlias p) eqn:E; [done|]. case_decide; simpl; by rewrite ?E.
Qed.

#[export] Instance publishable_dec p : Decision (publishable p).
Proof. unfold publishable. apply _. Defined.

Definition publish_header (dup retain : bool) (qos : Z) : Z :=
  let header := u8 (Z.shiftl Publish 4) in
  let header := if dup then Z.lor header 0x08 else header in
  let header := Z.lor header (u8 (Z.shiftl qos 1)) in
  if retain then Z.lor header 0x01 else header.

(** The flag nibble of an encoded PUBLISH, read back. *)
Lemma publish_header_flags dup retain qos : 0 <= qos <= 2 -> (qos =? 0) && dup = false ->
  let h := publish_header dup retain qos in
  let flags := Z.land h 0x0F in
  Z.land (Z.shiftr flags 1) 0x03 = qos /\ has_bits flags 0x08 = dup /\ has_bits flags 0x01 = retain /\
  (forall body, Frame_ValidateFlags (mkFrame h body) = Ok tt) /\
  (forall body, Frame_PacketType (mkFrame h body) = Publish).
Proof.
  intros Hq Hd. assert (qos = 0 \/ qos = 1 \/ qos = 2) as [-> | [-> | ->]] by lia;
    destruct dup, retain; try discriminate Hd; vm_compute; auto.
Qed.

(** The body of an encoded PUBLISH: the topic, the identifier where the QoS has
    one, a property block that parses to the canonical properties, and the
    payload. *)
Lemma PublishPacket_Encode_layout p w w' : wf_publish p -> PublishPacket_Encode p w = Ok w' ->
  let v := pub_Version p in
  let ids := if pub_QoS p >? 0 then PutUint16 (pub_PacketID p) else [] in
  exists pb, len (str_bytes (pub_Topic p) ++ ids ++ pb ++ pub_Payload p) <= maxVarint /\
    w' = w ++ packet_bytes (publish_header (pub_Dup p) (pub_Retain p) (pub_QoS p))
               (str_bytes (pub_Topic p) ++ ids ++ pb ++ pub_Payload p) /\
    pub_QoS p <= 2 /\ (pub_QoS p =? 0) && pub_Dup p = false /\ (pub_QoS p >? 0) && (pub_PacketID p =? 0) = false /\
    valid_str (pub_Topic p) /\
    parses (if v =? V311 then mret None else if v =? V50 then decodeProperties tgPublish else fail ErrProtocolViolation)
      pb (if v =? V50 then normProps (pub_Properties p) else None).
Proof.
  intros (Hq & Hid & Hwf) H. unfold PublishPacket_Encode in H.
  destruct (negb (Version_Valid _)) eqn:Ev; [done|]. bool_prop. apply Version_Valid_spec in Ev.
  destruct (pub_QoS p >? 2) eqn:Eq2; [done|].
  destruct ((pub_QoS p >? 0) && (pub_PacketID p =? 0)) eqn:Eid; [done|].
  destruct ((pub_QoS p =? 0) && pub_Dup p) eqn:Ed; [done|]. cbn zeta in H.
  next_write H Hs. apply appendString_inv in Hs as [Hs ->]. next_write H Hp.
  apply writePacket_inv in H as [Hl ->]. cbn [app] in *. cbn zeta.
  assert (Hx : exists pb, x = (str_bytes (pub_Topic p) ++
      (if pub_QoS p >? 0 then PutUint16 (pub_PacketID p) else [])) ++ pb /\
      parses (if pub_Version p =? V311 then mret None
              else if pub_Version p =? V50 then decodeProperties tgPublish else fail ErrProtocolViolation)
        pb (if pub_Version p =? V50 then normProps (pub_Properties p) else None)).
  { destruct Ev as [Ev|Ev]; rewrite Ev in *; cbn [Z.eqb Pos.eqb V311 V50] in *.
    - injection Hp as <-. exists []. rewrite app_nil_r.
      split; [destruct (pub_QoS p >? 0); [done|by rewrite app_nil_r]|apply parses_ret].
    - apply Properties_encode_parses in Hp as (bs & -> & _ & Hb); [|done]. exists bs.
      split; [|exact Hb]. destruct (pub_QoS p >? 0); [done|by rewrite app_nil_r]. }
  destruct Hx as (pb & -> & Hpb). rewrite <- !app_assoc in *. exists pb. split_and!; [done..|lia|done|done|done|done].
Qed.

(** The identifier of an encoded PUBLISH, read back. *)
Lemma parses_publish_id q id : in_u16 id -> (q >? 0) && (id =? 0) = false ->
  parses (if q >? 0 then id ← readUint16; if id =? 0 then fail ErrMalformedPacket else mret id else mret 0)
    (if q >? 0 then PutUint16 id else []) (if q >? 0 then id else 0).
Proof.
  intros Hid Hz. destruct (q >? 0); [|apply parses_ret]. rewrite <- (app_nil_r (PutUint16 _)).
  eapply parses_bind; [by apply parses_readUint16|]. simpl in Hz. rewrite Hz. apply parses_ret.
Qed.

(** The check of the decoder on an empty topic, on an encoded packet. *)
Lemma empty_topic_check p : ContainsAny (pub_Topic p) (gostr "+#") = false ->
  bool_decide (pub_Topic p = []) &&
    (negb (pub_Version p =? V50) || no_alias (if pub_Version p =? V50 then normProps (pub_Properties p) else None))
  = bool_decide (~ publishable p).
Proof.
  intros Hany. apply eq_bool_prop_intro. rewrite !bool_decide_spec, andb_True, bool_decide_spec. unfold publishable.
  destruct (Z.eqb_spec (pub_Version p) V50) as [Hv|Hv]; simpl; [|destruct (decide (pub_Topic p = [])); naive_solver].
  destruct (no_alias (pub_Properties p)) eqn:Ea;
    [rewrite (no_alias_norm_true _ Ea)|rewrite (no_alias_norm _ Ea)]; simpl; [|tauto].
  destruct (decide (pub_Topic p = [])); naive_solver.
Qed.

(** Decoding an encoded PUBLISH gives the canonical packet, or is refused where
    its topic is not one a PUBLISH may carry. *)
Lemma PublishPacket_Encode_decoded p w w' : wf_publish p -> PublishPacket_Encode p w = Ok w' ->
  exists body, len body <= maxVarint /\
    w' = w ++ packet_bytes (publish_header (pub_Dup p) (pub_Retain p) (pub_QoS p)) body /\
    (pub_QoS p <= 2) /\ ((pub_QoS p =? 0) && pub_Dup p = false) /\
    DecodePublish (pub_Version p) (publish_header (pub_Dup p) (pub_Retain p) (pub_QoS p)) body
      = (if decide (publishable p) then Ok (canon_publish p) else Err ErrMalformedPacket).
Proof.
  intros Hwf H. destruct (PublishPacket_Encode_layout _ _ _ Hwf H) as (pb & Hl & -> & Hq2 & Ed & Eid & Hs & Hpb).
  destruct Hwf as (Hq & Hid & _). eexists. split; [exact Hl|]. split; [reflexivity|]. split; [lia|]. split; [done|].
  destruct (publish_header_flags (pub_Dup p) (pub_Retain p) (pub_QoS p) ltac:(lia) Ed) as (Hf1 & Hf2 & Hf3 & _ & _).
  unfold DecodePublish. rewrite Hf1, Hf2, Hf3. replace (pub_QoS p =? 3) with false by lia. rewrite Ed.
  destruct (ContainsAny (pub_Topic p) (gostr "+#")) eqn:Hany.
  { rewrite decide_False by (intros [? _]; congruence). apply rejects_run.
    eapply rejects_bind; [by apply parses_readString|]. rewrite Hany. apply rejects_fail. }
  pose proof (empty_topic_check p Hany) as Hc. case_decide as Hp.
  - rewrite (bool_decide_false (~ publishable p)) in Hc by (intros Hn; exact (Hn Hp)). apply parses_end_run.
    eapply parses_end_bind; [by apply parses_readString|]. rewrite Hany.
    eapply parses_end_bind; [by apply parses_publish_id|]. eapply parses_end_bind; [exact Hpb|]. rewrite Hc.
    intros pre. rewrite parser_bind_eq, parses_end_readRest. reflexivity.
  - rewrite (bool_decide_true (~ publishable p)) in Hc by done. apply rejects_run.
    eapply rejects_bind; [by apply parses_readString|]. rewrite Hany.
    eapply rejects_bind; [by apply parses_publish_id|]. eapply rejects_bind; [exact Hpb|]. rewrite Hc. apply rejects_fail.
Qed.

(** The body an encoded PUBLISH carries parses back to the canonical packet. *)
Lemma PublishPacket_Encode_body p w w' :
  wf_publish p -> publishable p -> PublishPacket_Encode p w = Ok w' ->
  exists body, len body <= maxVarint /\
    w' = w ++ packet_bytes (publish_header (pub_Dup p) (pub_Retain p) (pub_QoS p)) body /\
    (pub_QoS p <= 2) /\ ((pub_QoS p =? 0) && pub_Dup p = false) /\
    DecodePublish (pub_Version p) (publish_header (pub_Dup p) (pub_Retain p) (pub_QoS p)) body
      = Ok (canon_publish p).
Proof.
  intros Hwf Hp H. destruct (PublishPacket_Encode_decoded _ _ _ Hwf H) as (body & ? & ? & ? & ? & Hd).
  rewrite decide_True in Hd by done. by exists body.
Qed.

(** ** Round trip of the acknowledgements *)

Definition wf_ack (p : AckPacket) : Prop :=
  in_u16 (ack_PacketID p) /\ in_u8 (ack_ReasonCode p) /\ wf_optprops (ack_Properties p).

Definition canon_ack (p : AckPacket) : AckPacket :=
  mkAck (ack_Version p) (ack_Type p) (ack_PacketID p)
    (if ack_Version p =? V50 then ack_ReasonCode p else Success)
    (if ack_Version p =? V50 then normProps (ack_Properties p) else None).

Definition ack_header (t : Z) : Z :=
  let header := u8 (Z.shiftl t 4) in if t =? Pubrel then Z.lor header 0x02 else header.

Lemma ackTarget_cases t target : ackTarget t = Some target ->
  t = Puback \/ t = Pubrec \/ t = Pubrel \/ t = Pubcomp.
Proof. unfold ackTarget. repeat case_match; bool_prop; tauto || done. Qed.

(** The fixed header of an acknowledgement names its type and passes the
    reserved-flag check. *)
Lemma ack_header_flags t target body : ackTarget t = Some target ->
  Frame_ValidateFlags (mkFrame (ack_header t) body) = Ok tt /\
  Frame_PacketType (mkFrame (ack_header t) body) = t.
Proof. intros H. apply ackTarget_cases in H as [-> | [-> | [-> | ->]]]; split; reflexivity. Qed.

Lemma AckPacket_EncodeAck_body p w w' :
  wf_ack p -> AckPacket_EncodeAck p w = Ok w' ->
  exists body target, len body <= maxVarint /\ ackTarget (ack_Type p) = Some target /\
    w' = w ++ packet_bytes (ack_header (ack_Type p)) body /\
    DecodeAck (ack_Version p) (ack_Type p) body = Ok (canon_ack p).
Proof.
  intros (Hid & Hrc & Hwf) H. unfold AckPacket_EncodeAck in H.
  destruct (negb (Version_Valid _)) eqn:Ev; [done|]. bool_prop. apply Version_Valid_spec in Ev.
  destruct (ackTarget (ack_Type p)) as [target|] eqn:Et; [|done].
  destruct (ack_PacketID p =? 0) eqn:Eid; [done|]. cbn zeta in H.
  next_write H Hb. apply writePacket_inv in H as [Hl ->].
  exists x, target. split; [done|]. split; [done|]. split; [done|].
  unfold DecodeAck. rewrite Et. apply parses_end_run. unfold canon_ack.
  destruct Ev as [Ev|Ev]; rewrite Ev in *; cbn [Z.eqb Pos.eqb V311 V50 andb] in *.
  - injection Hb as <-. rewrite <- (app_nil_r (PutUint16 _)).
    eapply parses_end_bind; [by apply parses_readUint16|]. rewrite Eid.
    apply parses_end_remaining, parses_end_ret.
  - destruct (ack_Properties p) as [props|] eqn:Ep; cbn [is_some] in Hb.
    + rewrite orb_true_r in Hb. apply Properties_encode_parses in Hb as (bs & -> & Hne & Hb); [|done].
      rewrite <- app_assoc. eapply parses_end_bind; [by apply parses_readUint16|]. rewrite Eid.
      apply parses_end_remaining. replace (len ([_] ++ bs) =? 0) with false by (simpl length; lia).
      eapply parses_end_bind; [apply parses_readByte|].
      apply parses_end_remaining. replace (len bs =? 0) with false by (destruct bs; [done|simpl length; lia]).
      rewrite <- (app_nil_r bs). eapply parses_end_bind; [exact Hb|].
      apply parses_end_remaining, parses_end_ret.
    + rewrite orb_false_r in Hb. destruct (ack_ReasonCode p =? 0) eqn:Er; cbn [negb] in Hb; injection Hb as <-.
      * rewrite <- (app_nil_r (PutUint16 _)).
        eapply parses_end_bind; [by apply parses_readUint16|]. rewrite Eid.
        apply parses_end_remaining. bool_prop. rewrite Er. apply parses_end_ret.
      * change (parses_end ?q _ ?r) with (parses_end q (PutUint16 (ack_PacketID p) ++ [ack_ReasonCode p]) r).
        eapply parses_end_bind; [by apply parses_readUint16|]. rewrite Eid.
        apply parses_end_remaining. rewrite <- (app_nil_r [ack_ReasonCode p]).
        eapply parses_end_bind; [apply parses_readByte|]. apply parses_end_remaining, parses_end_ret.
Qed.

(** ** Decoding arbitrary bytes *)

Lemma total_version {A} v (p q : parser A) : Version_Valid v = true ->
  total p -> total q ->
  total (if v =? V311 then p else if v =? V50 then q else fail ErrProtocolViolation).
Proof. intros [-> | ->]%Version_Valid_spec Hp Hq; done. Qed.

Lemma DecodePublish_total v header body e : Version_Valid v = true -> Forall in_u8 body ->
  DecodePublish v header body = Err e -> e = ErrMalformedPacket.
Proof.
  intros Hv Hb. unfold DecodePublish. repeat (case_match; [by intros [=]|]).
  apply run_total; [|done]. apply total_bind; [total_tac|]. intros topic.
  apply total_if; [total_tac|]. apply total_bind; [total_tac|]. intros id.
  apply total_bind; [apply total_version; total_tac|]. intros props. total_tac.
Qed.

Lemma DecodeAck_total v t body e : Version_Valid v = true -> Forall in_u8 body ->
  DecodeAck v t body = Err e -> e = ErrMalformedPacket.
Proof.
  intros Hv Hb. unfold DecodeAck. case_match; [|by intros [=]].
  apply run_total; [|done]. apply total_bind; [total_tac|]. intros pid.
  apply total_if; [total_tac|]. apply total_version; total_tac.
Qed.

(** * Theorems *)

(** C20.  An encoded PUBLISH on the wire: it is read back as one frame of its
    type with legal flags.  Where the topic is one a PUBLISH may carry (no
    wildcard, and not empty unless a 5.0 topic alias stands for it), decoding
    that frame gives the packet in its canonical form, with the fields its version
    and QoS carry; the encoder does not check the topic, and the decoder refuses
    every other packet as malformed. *)
Theorem publish_roundtrip p w rest max :
  wf_publish p -> PublishPacket_Encode p [] = Ok w -> in_u32 max -> len w <= max ->
  exists f, ReadFrame (w ++ rest) max = Ok (f, rest) /\
    Frame_PacketType f = Publish /\ Frame_ValidateFlags f = Ok tt /\
    DecodePublish (pub_Version p) (Header f) (Body f) =
      (if decide (publishable p) then Ok (canon_publish p) else Err ErrMalformedPacket).
Proof.
  intros Hwf He Hm Hl. pose proof Hwf as [Hq _].
  apply PublishPacket_Encode_decoded in He as (body & Hb & -> & Hq2 & Hd & Hdec); [|done..].
  destruct (publish_header_flags (pub_Dup p) (pub_Retain p) (pub_QoS p) ltac:(lia) Hd) as (_ & _ & _ & Hv & Ht).
  eexists. split; [by apply ReadFrame_packet|]. auto.
Qed.

Lemma publish_roundtrip_witness :
  let p := mkPublish V50 (gostr "a/b") [1; 2; 3] 1 true true 77
             (Some (set_ContentType (gostr "t") emptyProperties)) in
  exists w f, ReadFrame (w ++ [5]) 100 = Ok (f, [5]) /\
    Frame_PacketType f = Publish /\ Frame_ValidateFlags f = Ok tt /\
    DecodePublish (pub_Version p) (Header f) (Body f) =
      (if decide (publishable p) then Ok (canon_publish p) else Err ErrMalformedPacket).
Proof.
  eexists. apply publish_roundtrip; [|vm_compute; reflexivity|by_decide|by_decide]. unfold wf_publish. wf_solve.
Defined.

(** An encoded PUBACK, PUBREC, PUBREL or PUBCOMP survives the wire in its
    short and its long form. *)
Theorem ack_roundtrip p w rest max :
  wf_ack p -> AckPacket_EncodeAck p [] = Ok w -> in_u32 max -> len w <= max ->
  exists f, ReadFrame (w ++ rest) max = Ok (f, rest) /\
    Frame_PacketType f = ack_Type p /\ Frame_ValidateFlags f = Ok tt /\
    DecodeAck (ack_Version p) (ack_Type p) (Body f) = Ok (canon_ack p).
Proof.
  intros Hwf He Hm Hl. apply AckPacket_EncodeAck_body in He as (body & tg & Hb & Ht & -> & Hdec); [|done].
  destruct (ack_header_flags _ _ body Ht). eexists. split; [by apply ReadFrame_packet|]. auto.
Qed.

Lemma ack_roundtrip_witness :
  let p := mkAck V50 Pubrel 513 PacketIdentifierNotFound None in
  exists w f, ReadFrame (w ++ []) 100 = Ok (f, []) /\
    Frame_PacketType f = ack_Type p /\ Frame_ValidateFlags f = Ok tt /\
    DecodeAck (ack_Version p) (ack_Type p) (Body f) = Ok (canon_ack p).
Proof.
  eexists. apply ack_roundtrip; [|vm_compute; reflexivity|by_decide|by_decide].
  split; [by_decide|]. split; [by_decide|done].
Defined.

(** What [DecodePublish] accepts is a legal PUBLISH: QoS at most 2, no DUP
    on QoS 0, a packet identifier exactly when the QoS needs one, a topic of
    valid UTF-8 without NUL or wildcard, and an empty topic only under an MQTT
    5.0 topic alias. *)
Theorem publish_decode_legal v header body p : Version_Valid v = true -> Forall in_u8 body ->
  DecodePublish v header body = Ok p ->
  pub_Version p = v /\ 0 <= pub_QoS p <= 2 /\ (pub_QoS p = 0 -> pub_Dup p = false) /\
  (pub_QoS p = 0 -> pub_PacketID p = 0) /\ (0 < pub_QoS p -> 0 < pub_PacketID p < 65536) /\
  publishable p /\ valid_str (pub_Topic p).
Proof.
  intros Hv Hb. unfold DecodePublish.
  set (flags := Z.land header 15). set (qos := Z.land (Z.shiftr flags 1) 3).
  assert (Hq : 0 <= qos <= 3).
  { unfold qos. change 3 with (Z.ones 2) at 1 2. rewrite Z.land_ones by lia.
    pose proof (Z.mod_pos_bound (Z.shiftr flags 1) (2 ^ 2) ltac:(lia)). simpl in *. lia. }
  destruct (qos =? 3) eqn:E3; [done|]. destruct ((qos =? 0) && has_bits flags 8) eqn:Ed; [done|].
  intros Hr. pattern p. revert Hr. apply run_reads; [|done].
  eapply reads_bind; [apply reads_readString_valid|]. intros topic Ht.
  destruct (ContainsAny topic (gostr "+#")) eqn:Ec; [apply reads_fail|].
  eapply reads_bind with (P := fun id => if qos >? 0 then 0 < id < 65536 else id = 0).
  { destruct (qos >? 0); [|by apply reads_ret]. eapply reads_bind; [apply reads_readUint16|].
    intros id Hid. unfold in_u16 in Hid. destruct (id =? 0) eqn:E; [apply reads_fail|]. apply reads_ret. lia. }
  intros id Hid. eapply reads_bind; [apply (total_version v _ _ Hv); total_tac|]. intros props _.
  destruct (bool_decide (topic = []) && (negb (v =? V50) || no_alias props)) eqn:Et; [apply reads_fail|].
  eapply reads_bind; [apply reads_safe, safe_readRest|]. intros payload _. apply reads_ret. simpl.
  split; [done|]. split; [lia|]. split; [intros ->; by destruct (has_bits flags 8)|].
  split; [intros H; by rewrite H in Hid|].
  split; [intros H; replace (qos >? 0) with true in Hid by lia; done|]. split; [|done].
  split; [done|]. simpl. case_bool_decide; [right|by left]. simpl in Et. bool_prop. done.
Qed.

Lemma publish_decode_legal_witness :
  let p := mkPublish V311 (gostr "t") [7] 0 false false 0 None in
  DecodePublish V311 0x30 [0; 1; 116; 7] = Ok p /\
  pub_Version p = V311 /\ 0 <= pub_QoS p <= 2 /\ (pub_QoS p = 0 -> pub_Dup p = false) /\
  (pub_QoS p = 0 -> pub_PacketID p = 0) /\ (0 < pub_QoS p -> 0 < pub_PacketID p < 65536) /\
  publishable p /\ valid_str (pub_Topic p).
Proof.
  split; [vm_compute; reflexivity|].
  apply (publish_decode_legal V311 0x30 [0; 1; 116; 7]); [reflexivity|by_decide|vm_compute; reflexivity].
Defined.
