(* ===== verification/ControlPackets.v ===== *)
(** Connection control packets: CONNECT and CONNACK (protocol/connect.go),
    PINGREQ, PINGRESP, DISCONNECT and AUTH (protocol/control.go). *)

From S2P Require Import Prelude GoStrings Codes Wire WireFacts Props PropsFacts PublishPackets.
From stdpp Require Import options.

(** * CONNECT *)

Record Will : Type := mkWill {
  will_Topic : list Z;
  will_Payload : list Z;
  will_QoS : Z;
  will_Retain : bool;
  will_Properties : option Properties
}.

Record ConnectPacket : Type := mkConnect {
  con_Version : Z;
  con_ClientID : list Z;
  con_KeepAlive : Z;
  con_Username : list Z;
  con_Password : list Z;
  con_CleanStart : bool;
  con_Will : option Will;
  con_Properties : option Properties
}.

(** [s != ""]. *)
Definition nonempty (s : list Z) : bool := negb (bool_decide (s = [])).

Definition ConnectPacket_Encode (p : ConnectPacket) (w : list Z) : res (list Z) :=
  if negb (Version_Valid (con_Version p)) then Err ErrProtocolViolation
  else
    let hasUser := nonempty (con_Username p) in
    let hasPass := nonempty (con_Password p) in
    if (con_Version p =? V311) && hasPass && negb hasUser then Err ErrProtocolViolation
    else
      body ← appendString [] (gostr "MQTT");
      let body := body ++ [con_Version p] in
      let flags := 0 in
      let flags := if hasUser then Z.lor flags 0x80 else flags in
      let flags := if hasPass then Z.lor flags 0x40 else flags in
      flags ← match con_Will p with
              | None => Ok flags
              | Some wl =>
                if will_QoS wl >? 2 then Err ErrProtocolViolation
                else
                  let flags := Z.lor flags 0x04 in
                  let flags := Z.lor flags (u8 (Z.shiftl (will_QoS wl) 3)) in
                  Ok (if will_Retain wl then Z.lor flags 0x20 else flags)
              end;
      let flags := if con_CleanStart p then Z.lor flags 0x02 else flags in
      let body := body ++ [flags] in
      let body := body ++ PutUint16 (con_KeepAlive p) in
      body ← (if con_Version p =? V50
              then Properties_encode (con_Properties p) body tgConnect else Ok body);
      body ← appendString body (con_ClientID p);
      body ← match con_Will p with
             | None => Ok body
             | Some wl =>
               body ← (if con_Version p =? V50
                       then Properties_encode (will_Properties wl) body willBit else Ok body);
               body ← appendString body (will_Topic wl);
               appendBinary body (will_Payload wl)
             end;
      body ← (if hasUser then appendString body (con_Username p) else Ok body);
      body ← (if hasPass then appendBinary body (con_Password p) else Ok body);
      writePacket w (u8 (Z.shiftl Connect 4)) body.

(** * CONNACK *)

Record ConnackPacket : Type := mkConnack {
  ca_SessionPresent : bool;
  ca_ReasonCode : Z;
  ca_Properties : option Properties
}.

Definition DecodeConnack (v : Z) (body : list Z) : res ConnackPacket := run (
  ackFlags ← readByte;
  if has_bits ackFlags 0xFE then fail ErrMalformedPacket
  else
    let sessionPresent := has_bits ackFlags 0x01 in
    rc ← readByte;
    if sessionPresent && negb (rc =? 0) then fail ErrMalformedPacket
    else if v =? V311 then
      let code := if rc =? 0 then Success
                  else match v3ConnackReason !! rc with
                       | Some code => code
                       | None => UnspecifiedError
                       end in
      rem ← get_remaining;
      if negb (rem =? 0) then fail ErrMalformedPacket
      else mret (mkConnack sessionPresent code None)
    else if v =? V50 then
      props ← decodeProperties tgConnack;
      rem ← get_remaining;
      if negb (rem =? 0) then fail ErrMalformedPacket
      else mret (mkConnack sessionPresent rc props)
    else fail ErrProtocolViolation) body.

(** * PINGREQ and PINGRESP *)

Definition EncodePingReq (w : list Z) : res (list Z) := writePacket w (u8 (Z.shiftl Pingreq 4)) [].
Definition EncodePingResp (w : list Z) : res (list Z) := writePacket w (u8 (Z.shiftl Pingresp 4)) [].

(** * DISCONNECT *)

Record DisconnectPacket : Type := mkDisconnect {
  dis_Version : Z;
  dis_ReasonCode : Z;
  dis_Properties : option Properties
}.

Definition DisconnectPacket_Encode (p : DisconnectPacket) (w : list Z) : res (list Z) :=
  if dis_Version p =? V311 then writePacket w (u8 (Z.shiftl Disconnect 4)) []
  else if dis_Version p =? V50 then
    if (dis_ReasonCode p =? 0) && negb (is_some (dis_Properties p))
    then writePacket w (u8 (Z.shiftl Disconnect 4)) []
    else
      let body := [dis_ReasonCode p] in
      body ← Properties_encode (dis_Properties p) body tgDisconnect;
      writePacket w (u8 (Z.shiftl Disconnect 4)) body
  else Err ErrProtocolViolation.

Definition DecodeDisconnect (v : Z) (body : list Z) : res DisconnectPacket :=
  if v =? V311 then
    if negb (len body =? 0) then Err ErrMalformedPacket
    else Ok (mkDisconnect v NormalDisconnection None)
  else if v =? V50 then run (
    rem ← get_remaining;
    if rem =? 0 then mret (mkDisconnect v NormalDisconnection None)
    else
      rc ← readByte;
      rem ← get_remaining;
      if rem =? 0 then mret (mkDisconnect v rc None)
      else
        props ← decodeProperties tgDisconnect;
        rem ← get_remaining;
        if negb (rem =? 0) then fail ErrMalformedPacket
        else mret (mkDisconnect v rc props)) body
  else Err ErrProtocolViolation.

(** * AUTH *)

Record AuthPacket : Type := mkAuth { auth_ReasonCode : Z; auth_Properties : option Properties }.

Definition DecodeAuth (body : list Z) : res AuthPacket := run (
  rem ← get_remaining;
  if rem =? 0 then mret (mkAuth Success None)
  else
    rc ← readByte;
    rem ← get_remaining;
    if rem =? 0 then mret (mkAuth rc None)
    else
      props ← decodeProperties tgAuth;
      rem ← get_remaining;
      if negb (rem =? 0) then fail ErrMalformedPacket
      else mret (mkAuth rc props)) body.

(** * Lemmas: decoding arbitrary bytes *)

Lemma DecodeConnack_total v body e : Version_Valid v = true -> Forall in_u8 body ->
  DecodeConnack v body = Err e -> e = ErrMalformedPacket.
Proof.
  intros Hv Hb. apply run_total; [|done]. apply total_bind; [total_tac|]. intros fl.
  apply total_if; [total_tac|]. apply total_bind; [total_tac|]. intros rc.
  apply total_if; [total_tac|]. apply total_version; total_tac.
Qed.

Lemma DecodeDisconnect_total v body e : Version_Valid v = true -> Forall in_u8 body ->
  DecodeDisconnect v body = Err e -> e = ErrMalformedPacket.
Proof.
  intros [-> | ->]%Version_Valid_spec Hb; unfold DecodeDisconnect; cbn [Z.eqb Pos.eqb V311 V50].
  - case_match; congruence.
  - apply run_total; [total_tac|done].
Qed.

Lemma DecodeAuth_total body e : Forall in_u8 body ->
  DecodeAuth body = Err e -> e = ErrMalformedPacket.
Proof. apply run_total; total_tac. Qed.

(** * CONNECT on the wire

    The library never decodes CONNECT; [parseConnect] reads the packet back the
    way a server does, with the cursor and the property decoder of the codec:
    it is the reference against which the encoder is judged. *)

Definition parseWill (v flags : Z) : parser (option Will) :=
  if has_bits flags 0x04 then
    props ← (if v =? V50 then decodeProperties willBit else mret None);
    topic ← readString;
    payload ← readBinary;
    mret (Some (mkWill topic payload (Z.land (Z.shiftr flags 3) 0x03) (has_bits flags 0x20) props))
  else mret None.

Definition parseConnect : parser ConnectPacket :=
  name ← readString;
  if negb (bool_decide (name = gostr "MQTT")) then fail ErrMalformedPacket
  else
    v ← readByte;
    flags ← readByte;
    if has_bits flags 0x01 then fail ErrMalformedPacket
    else
      ka ← readUint16;
      props ← (if v =? V50 then decodeProperties tgConnect else mret None);
      clientID ← readString;
      wl ← parseWill v flags;
      user ← (if has_bits flags 0x80 then readString else mret []);
      pass ← (if has_bits flags 0x40 then readBinary else mret []);
      rem ← get_remaining;
      if negb (rem =? 0) then fail ErrMalformedPacket
      else mret (mkConnect v clientID ka user pass (has_bits flags 0x02) wl props).

(** Only MQTT 5.0 carries properties, and an empty block reads as nil. *)
Definition canon_props (v : Z) (p : option Properties) : option Properties :=
  if v =? V50 then normProps p else None.

Definition canon_will (v : Z) (wl : Will) : Will :=
  mkWill (will_Topic wl) (will_Payload wl) (will_QoS wl) (will_Retain wl) (canon_props v (will_Properties wl)).

Definition canon_connect (p : ConnectPacket) : ConnectPacket :=
  mkConnect (con_Version p) (con_ClientID p) (con_KeepAlive p) (con_Username p) (con_Password p)
    (con_CleanStart p) (canon_will (con_Version p) <$> con_Will p) (canon_props (con_Version p) (con_Properties p)).

Definition wf_will (wl : Will) : Prop := 0 <= will_QoS wl < 256 /\ wf_optprops (will_Properties wl).

Definition wf_connect (p : ConnectPacket) : Prop :=
  in_u16 (con_KeepAlive p) /\ wf_optprops (con_Properties p) /\
  (forall wl, con_Will p = Some wl -> wf_will wl).

(** The CONNECT flags byte. *)
Definition connect_flags (user pass clean : bool) (wl : option (Z * bool)) : Z :=
  let flags := 0 in
  let flags := if user then Z.lor flags 0x80 else flags in
  let flags := if pass then Z.lor flags 0x40 else flags in
  let flags := match wl with
    | None => flags
    | Some (qos, retain) =>
      let flags := Z.lor (Z.lor flags 0x04) (u8 (Z.shiftl qos 3)) in
      if (retain : bool) then Z.lor flags 0x20 else flags
    end in
  if clean then Z.lor flags 0x02 else flags.

Lemma connect_flags_bits user pass clean wl :
  (forall q r, wl = Some (q, r) -> 0 <= q <= 2) ->
  let flags := connect_flags user pass clean wl in
  has_bits flags 0x80 = user /\ has_bits flags 0x40 = pass /\ has_bits flags 0x02 = clean /\
  has_bits flags 0x01 = false /\ has_bits flags 0x04 = is_some wl /\
  (forall q r, wl = Some (q, r) -> Z.land (Z.shiftr flags 3) 0x03 = q /\ has_bits flags 0x20 = r).
Proof.
  intros H. destruct wl as [[q r]|].
  - pose proof (H q r eq_refl) as Hq. assert (q = 0 \/ q = 1 \/ q = 2) as [-> | [-> | ->]] by lia;
      destruct user, pass, clean, r; cbv zeta; repeat split; intros; simplify_eq; reflexivity.
  - destruct user, pass, clean; cbv zeta; repeat split; intros; simplify_eq; reflexivity.
Qed.

(** What an encoding step appended is what the reading step consumes. *)
Definition writes {A} (enc : list Z -> res (list Z)) (q : parser A) (v : A) : Prop :=
  forall buf buf', enc buf = Ok buf' -> exists bs, buf' = buf ++ bs /\ parses q bs v.

Lemma writes_props v target p : wf_optprops p ->
  writes (fun buf => if v =? V50 then Properties_encode p buf target else Ok buf)
    (if v =? V50 then decodeProperties target else mret None) (canon_props v p).
Proof.
  intros Hp buf buf'. unfold canon_props. destruct (v =? V50).
  - intros (bs & -> & _ & Hb)%Properties_encode_parses; eauto.
  - intros [= <-]. exists []. rewrite app_nil_r. split; [done|apply parses_ret].
Qed.

Lemma writes_string s : writes (fun buf => appendString buf s) readString s.
Proof. intros buf buf' [? ->]%appendString_inv. eauto using parses_readString. Qed.

Lemma writes_binary s : writes (fun buf => appendBinary buf s) readBinary s.
Proof. intros buf buf' [? ->]%appendBinary_inv. eauto using parses_readBinary. Qed.

Lemma writes_optional (f : list Z -> list Z -> res (list Z)) (q : parser (list Z)) s :
  writes (fun buf => f buf s) q s ->
  writes (fun buf => if nonempty s then f buf s else Ok buf) (if nonempty s then q else mret []) s.
Proof.
  intros Hf buf buf'. unfold nonempty. case_bool_decide; simpl; [|apply Hf].
  intros [= <-]. exists []. subst. rewrite app_nil_r. split; [done|apply parses_ret].
Qed.

(** Take one encoding step apart. *)
Ltac wrote H lem :=
  let Hw := fresh "Hw" in let bs := fresh "bs" in let Hbs := fresh "Hbs" in
  next_write H Hw; apply lem in Hw as (bs & -> & Hbs).

Lemma writes_will v flags wl : wf_will wl ->
  has_bits flags 0x04 = true -> Z.land (Z.shiftr flags 3) 0x03 = will_QoS wl ->
  has_bits flags 0x20 = will_Retain wl ->
  writes (fun body => body ← (if v =? V50 then Properties_encode (will_Properties wl) body willBit else Ok body);
                      body ← appendString body (will_Topic wl);
                      appendBinary body (will_Payload wl))
    (parseWill v flags) (Some (canon_will v wl)).
Proof.
  intros [_ Hp] H4 Hq H20 buf buf' H. unfold parseWill. rewrite H4, Hq, H20.
  wrote H (writes_props v willBit (will_Properties wl) Hp). wrote H (writes_string (will_Topic wl)).
  apply writes_binary in H as (b3 & -> & Hb3). exists (bs ++ bs0 ++ b3 ++ []). rewrite app_nil_r, !app_assoc.
  split; [done|]. rewrite <- !app_assoc. eapply parses_bind; [done|]. eapply parses_bind; [done|].
  rewrite <- (app_nil_r b3). eapply parses_bind; [done|apply parses_ret].
Qed.

Definition will_flags (p : ConnectPacket) : option (Z * bool) :=
  (fun wl => (will_QoS wl, will_Retain wl)) <$> con_Will p.

Definition connect_flags_of (p : ConnectPacket) : Z :=
  connect_flags (nonempty (con_Username p)) (nonempty (con_Password p)) (con_CleanStart p) (will_flags p).

Lemma writes_will_opt p : wf_connect p ->
  (forall q r, will_flags p = Some (q, r) -> 0 <= q <= 2) ->
  writes (fun body => match con_Will p with
      | None => Ok body
      | Some wl =>
        body ← (if con_Version p =? V50
                then Properties_encode (will_Properties wl) body willBit else Ok body);
        body ← appendString body (will_Topic wl);
        appendBinary body (will_Payload wl)
      end)
    (parseWill (con_Version p) (connect_flags_of p)) (canon_will (con_Version p) <$> con_Will p).
Proof.
  intros (_ & _ & Hw) Hq. unfold connect_flags_of.
  destruct (connect_flags_bits (nonempty (con_Username p)) (nonempty (con_Password p)) (con_CleanStart p)
    (will_flags p) Hq) as (_ & _ & _ & _ & H4 & Hbits). unfold will_flags in *.
  destruct (con_Will p) as [wl|]; simpl in *.
  - destruct (Hbits _ _ eq_refl). apply writes_will; auto.
  - intros buf buf' [= <-]. exists []. rewrite app_nil_r. split; [done|]. unfold parseWill. rewrite H4. apply parses_ret.
Qed.

(** A successful encoding passed every check, and its flags byte is
    [connect_flags_of]. *)
Lemma ConnectPacket_Encode_steps p w w' : ConnectPacket_Encode p w = Ok w' ->
  (con_Version p = V311 \/ con_Version p = V50) /\
  (con_Version p = V311 -> con_Password p <> [] -> con_Username p <> []) /\
  (forall wl, con_Will p = Some wl -> will_QoS wl <= 2) /\
  (let body := (str_bytes (gostr "MQTT") ++ [con_Version p]) ++ [connect_flags_of p] ++ PutUint16 (con_KeepAlive p) in
   body ← (if con_Version p =? V50 then Properties_encode (con_Properties p) body tgConnect else Ok body);
   body ← appendString body (con_ClientID p);
   body ← match con_Will p with
      | None => Ok body
      | Some wl =>
        body ← (if con_Version p =? V50
                then Properties_encode (will_Properties wl) body willBit else Ok body);
        body ← appendString body (will_Topic wl);
        appendBinary body (will_Payload wl)
      end;
   body ← (if nonempty (con_Username p) then appendString body (con_Username p) else Ok body);
   body ← (if nonempty (con_Password p) then appendBinary body (con_Password p) else Ok body);
   writePacket w (u8 (Z.shiftl Connect 4)) body) = Ok w'.
Proof.
  intros H. unfold ConnectPacket_Encode in H. destruct (negb (Version_Valid _)) eqn:Ev; [done|].
  bool_prop. apply Version_Valid_spec in Ev. cbn zeta in H.
  destruct ((con_Version p =? V311) && _ && _) eqn:Ep; [done|].
  next_write H Hs. apply appendString_inv in Hs as [_ ->]. next_write H Hf.
  rewrite <- !(app_assoc _ [_]), app_nil_l in H. split; [done|]. split; [|].
  { intros Hv Hpass Huser. unfold nonempty in Ep. rewrite Hv, Huser in Ep. by rewrite bool_decide_false in Ep. }
  unfold connect_flags_of, will_flags.
  destruct (con_Will p) as [wl|]; simpl fmap.
  - destruct (will_QoS wl >? 2) eqn:Eq; [done|]. injection Hf as <-. split; [|exact H].
    intros ? [= <-]. lia.
  - injection Hf as <-. split; [done|exact H].
Qed.

Lemma ConnectPacket_Encode_body p w w' : wf_connect p -> ConnectPacket_Encode p w = Ok w' ->
  exists body, len body <= maxVarint /\ w' = w ++ packet_bytes (u8 (Z.shiftl Connect 4)) body /\
    run parseConnect body = Ok (canon_connect p).
Proof.
  intros Hwf H. apply ConnectPacket_Encode_steps in H as (Hv & _ & Hq & H). cbn zeta in H.
  assert (Hq' : forall q r, will_flags p = Some (q, r) -> 0 <= q <= 2).
  { unfold will_flags. destruct Hwf as (_ & _ & Hw). intros q r Hqr.
    destruct (con_Will p) as [wl|]; [|done]. injection Hqr as <- _.
    destruct (Hw _ eq_refl). specialize (Hq _ eq_refl). lia. }
  pose proof Hwf as (Hka & Hprops & _).
  wrote H (writes_props (con_Version p) tgConnect (con_Properties p) Hprops).
  wrote H (writes_string (con_ClientID p)). wrote H (writes_will_opt p Hwf Hq').
  wrote H (writes_optional appendString readString _ (writes_string (con_Username p))).
  wrote H (writes_optional appendBinary readBinary _ (writes_binary (con_Password p))).
  apply writePacket_inv in H as [Hl ->]. eexists. split; [exact Hl|]. split; [reflexivity|].
  apply parses_end_run. rewrite <- !app_assoc. unfold parseConnect.
  destruct (connect_flags_bits (nonempty (con_Username p)) (nonempty (con_Password p)) (con_CleanStart p)
    (will_flags p) Hq') as (H80 & H40 & H2 & H1 & _).
  fold (connect_flags_of p) in *. clear Hl Hq Hwf.
  eapply parses_end_bind; [by apply parses_readString; by_decide|]. rewrite bool_decide_true by done. cbn [negb].
  eapply parses_end_bind; [apply parses_readByte|]. eapply parses_end_bind; [apply parses_readByte|].
  rewrite H1, H80, H40, H2. eapply parses_end_bind; [by apply parses_readUint16|].
  eapply parses_end_bind; [done|]. eapply parses_end_bind; [done|]. eapply parses_end_bind; [done|].
  eapply parses_end_bind; [done|]. rewrite <- (app_nil_r bs3). eapply parses_end_bind; [done|].
  apply parses_end_remaining, parses_end_ret.
Qed.

(** * DISCONNECT on the wire *)

Definition wf_disconnect (p : DisconnectPacket) : Prop :=
  in_u8 (dis_ReasonCode p) /\ wf_optprops (dis_Properties p).

Definition canon_disconnect (p : DisconnectPacket) : DisconnectPacket :=
  mkDisconnect (dis_Version p) (if dis_Version p =? V50 then dis_ReasonCode p else NormalDisconnection)
    (canon_props (dis_Version p) (dis_Properties p)).

Lemma DisconnectPacket_Encode_body p w w' : wf_disconnect p -> DisconnectPacket_Encode p w = Ok w' ->
  exists body, len body <= maxVarint /\ w' = w ++ packet_bytes (u8 (Z.shiftl Disconnect 4)) body /\
    DecodeDisconnect (dis_Version p) body = Ok (canon_disconnect p).
Proof.
  intros [Hrc Hp] H. unfold DisconnectPacket_Encode in H. unfold DecodeDisconnect, canon_disconnect, canon_props.
  destruct (dis_Version p =? V311) eqn:E3; bool_prop.
  { rewrite E3. apply writePacket_inv in H as [Hl ->]. by exists []. }
  destruct (dis_Version p =? V50) eqn:E5; [|done]. bool_prop. rewrite E5.
  destruct ((dis_ReasonCode p =? 0) && negb (is_some (dis_Properties p))) eqn:Es.
  - apply writePacket_inv in H as [Hl ->]. exists []. split; [done|]. split; [done|]. bool_prop.
    destruct (dis_Properties p); [done|]. by match goal with H : dis_ReasonCode p = 0 |- _ => rewrite H end.
  - cbn zeta in H. next_write H Hb. apply Properties_encode_parses in Hb as (bs & -> & Hne & Hb); [|done].
    apply writePacket_inv in H as [Hl ->]. eexists. split; [exact Hl|]. split; [reflexivity|].
    apply parses_end_run, parses_end_remaining.
    replace (len ([_] ++ bs) =? 0) with false by (simpl length; lia).
    eapply parses_end_bind; [apply parses_readByte|]. apply parses_end_remaining.
    replace (len bs =? 0) with false by (destruct bs; [done|simpl length; lia]).
    rewrite <- (app_nil_r bs). eapply parses_end_bind; [exact Hb|]. apply parses_end_remaining, parses_end_ret.
Qed.

(** * Theorems *)

(** C32.  An encoded CONNECT says what the client meant: a server that reads the
    frame field by field (protocol name, level, flags, keep-alive, properties,
    client identifier, will, user name, password, end of body) recovers every
    field, whatever combination of will, credentials and properties is present;
    and MQTT 3.1.1 never sends a password without a user name. *)
Theorem connect_roundtrip p w rest max :
  wf_connect p -> ConnectPacket_Encode p [] = Ok w -> in_u32 max -> len w <= max ->
  exists f, ReadFrame (w ++ rest) max = Ok (f, rest) /\
    Frame_PacketType f = Connect /\ Frame_ValidateFlags f = Ok tt /\
    run parseConnect (Body f) = Ok (canon_connect p) /\
    (con_Version p = V311 -> con_Password p <> [] -> con_Username p <> []).
Proof.
  intros Hwf He Hm Hl. pose proof (ConnectPacket_Encode_steps _ _ _ He) as (_ & Hpw & _).
  apply ConnectPacket_Encode_body in He as (body & Hb & -> & Hdec); [|done].
  eexists. split; [by apply ReadFrame_packet|]. repeat split; auto.
Qed.

Lemma connect_roundtrip_witness :
  let wl := mkWill (gostr "w") [1; 2] 1 true (Some (set_WillDelayInterval (Some 5) emptyProperties)) in
  let p := mkConnect V50 (gostr "id") 30 (gostr "u") (gostr "p") true (Some wl)
             (Some (set_ReceiveMaximum (Some 10) emptyProperties)) in
  exists w f, ReadFrame (w ++ []) 1000 = Ok (f, []) /\
    Frame_PacketType f = Connect /\ Frame_ValidateFlags f = Ok tt /\
    run parseConnect (Body f) = Ok (canon_connect p) /\
    (con_Version p = V311 -> con_Password p <> [] -> con_Username p <> []).
Proof.
  eexists. apply connect_roundtrip; [|vm_compute; reflexivity|by_decide|by_decide].
  unfold wf_connect, wf_will. wf_solve.
Defined.

(** An encoded DISCONNECT survives the wire, in the empty short form and
    in the form with a reason code and properties; MQTT 3.1.1 carries neither. *)
Theorem disconnect_roundtrip p w rest max :
  wf_disconnect p -> DisconnectPacket_Encode p [] = Ok w -> in_u32 max -> len w <= max ->
  exists f, ReadFrame (w ++ rest) max = Ok (f, rest) /\
    Frame_PacketType f = Disconnect /\ Frame_ValidateFlags f = Ok tt /\
    DecodeDisconnect (dis_Version p) (Body f) = Ok (canon_disconnect p).
Proof.
  intros Hwf He Hm Hl. apply DisconnectPacket_Encode_body in He as (body & Hb & -> & Hdec); [|done].
  eexists. split; [by apply ReadFrame_packet|]. auto.
Qed.

Lemma disconnect_roundtrip_witness :
  let p := mkDisconnect V50 0x82 (Some (set_ReasonString (gostr "no") emptyProperties)) in
  exists w f, ReadFrame (w ++ []) 100 = Ok (f, []) /\
    Frame_PacketType f = Disconnect /\ Frame_ValidateFlags f = Ok tt /\
    DecodeDisconnect (dis_Version p) (Body f) = Ok (canon_disconnect p).
Proof.
  eexists. apply disconnect_roundtrip; [|vm_compute; reflexivity|by_decide|by_decide].
  unfold wf_disconnect. wf_solve.
Defined.

(** [DecodeConnack] never reports a contradictory answer: a resumed session
    comes with a success code only, and a 3.1.1 CONNACK yields no properties and
    either success or one of the failure codes. *)
Theorem connack_consistent v body p : Version_Valid v = true -> Forall in_u8 body ->
  DecodeConnack v body = Ok p ->
  (ca_SessionPresent p = true -> ca_ReasonCode p = Success) /\
  (v = V311 -> ca_Properties p = None /\
     (ca_ReasonCode p = Success \/ ReasonCode_IsError (ca_ReasonCode p) = true)).
Proof.
  intros Hv Hb Hr. pattern p. revert Hr. apply run_reads; [|done].
  eapply reads_bind; [apply reads_safe, safe_readByte|]. intros fl _.
  destruct (has_bits fl 0xFE); [apply reads_fail|].
  eapply reads_bind; [apply reads_safe, safe_readByte|]. intros rc _.
  destruct (has_bits fl 1 && negb (rc =? 0)) eqn:Es; [apply reads_fail|].
  assert (Hs : has_bits fl 1 = true -> rc = 0).
  { intros H. rewrite H in Es. simpl in Es. bool_prop. done. }
  apply Version_Valid_spec in Hv as [-> | ->]; cbn [Z.eqb Pos.eqb V311 V50].
  - eapply reads_bind; [apply reads_safe, safe_get_remaining|]. intros rem _.
    apply reads_if; [apply reads_fail|]. apply reads_ret. simpl. split.
    + intros H. by rewrite (Hs H).
    + split; [done|]. destruct (rc =? 0); [by left|right]. destruct (v3ConnackReason !! rc) eqn:E; [|done].
      by apply v3ConnackReason_error in E.
  - eapply reads_bind; [apply total_decodeProperties|]. intros props _.
    eapply reads_bind; [apply reads_safe, safe_get_remaining|]. intros rem _.
    apply reads_if; [apply reads_fail|]. apply reads_ret. simpl. split; [|done]. intros H. by rewrite (Hs H).
Qed.

Lemma connack_consistent_witness :
  let p := mkConnack false ServerUnavailable None in
  DecodeConnack V311 [0; 3] = Ok p /\
  (ca_SessionPresent p = true -> ca_ReasonCode p = Success) /\
  (V311 = V311 -> ca_Properties p = None /\
     (ca_ReasonCode p = Success \/ ReasonCode_IsError (ca_ReasonCode p) = true)).
Proof.
  split; [vm_compute; reflexivity|].
  apply (connack_consistent V311 [0; 3]); [reflexivity|by_decide|vm_compute; reflexivity].
Defined.
