(* ===== verification/SubscribePackets.v ===== *)
(** SUBSCRIBE, SUBACK, UNSUBSCRIBE and UNSUBACK (protocol/subscribe.go). *)

From S2P Require Import Prelude GoStrings Codes Wire WireFacts Props PropsFacts PublishPackets ControlPackets.
From stdpp Require Import options.

(** * SUBSCRIBE *)

Record SubscribeOptions : Type := mkSubscribeOptions {
  so_QoS : Z;
  so_NoLocal : bool;
  so_RetainAsPublished : bool;
  so_RetainHandling : Z
}.

Definition subscribeOptionsByte (v : Z) (o : SubscribeOptions) : res Z :=
  if so_QoS o >? 2 then Err ErrProtocolViolation
  else
    let b := so_QoS o in
    if v =? V50 then
      let b := if so_NoLocal o then Z.lor b 0x04 else b in
      let b := if so_RetainAsPublished o then Z.lor b 0x08 else b in
      if so_RetainHandling o >? 2 then Err ErrProtocolViolation
      else Ok (Z.lor b (u8 (Z.shiftl (so_RetainHandling o) 4)))
    else Ok b.

Record Subscription : Type := mkSubscription { sub_Filter : list Z; sub_Options : SubscribeOptions }.

Record SubscribePacket : Type := mkSubscribe {
  sp_Version : Z;
  sp_PacketID : Z;
  sp_Subscriptions : list Subscription;
  sp_Properties : option Properties
}.

(** The loop over [p.Subscriptions]. *)
Fixpoint appendSubscriptions (v : Z) (subs : list Subscription) (body : list Z) : res (list Z) :=
  match subs with
  | [] => Ok body
  | sub :: subs' =>
    body ← appendString body (sub_Filter sub);
    opt ← subscribeOptionsByte v (sub_Options sub);
    appendSubscriptions v subs' (body ++ [opt])
  end.

Definition SubscribePacket_Encode (p : SubscribePacket) (w : list Z) : res (list Z) :=
  if negb (Version_Valid (sp_Version p)) then Err ErrProtocolViolation
  else if sp_PacketID p =? 0 then Err ErrProtocolViolation
  else if len (sp_Subscriptions p) =? 0 then Err ErrProtocolViolation
  else
    let body := PutUint16 (sp_PacketID p) in
    body ← (if sp_Version p =? V50
            then Properties_encode (sp_Properties p) body tgSubscribe else Ok body);
    body ← appendSubscriptions (sp_Version p) (sp_Subscriptions p) body;
    writePacket w (Z.lor (u8 (Z.shiftl Subscribe 4)) 0x02) body.

(** * SUBACK *)

Record SubackPacket : Type := mkSuback {
  sa_PacketID : Z;
  sa_ReasonCodes : list Z;
  sa_Properties : option Properties
}.

Definition subackReasonV311 : gmap Z bool := list_to_map [
  (0x00, true); (0x01, true); (0x02, true); (0x80, true)].

Definition subackReasonV50 : gmap Z bool := list_to_map [
  (0x00, true); (0x01, true); (0x02, true); (0x80, true); (0x83, true); (0x87, true);
  (0x8F, true); (0x91, true); (0x97, true); (0x9E, true); (0xA1, true); (0xA2, true)].

Definition unsubackReasonV50 : gmap Z bool := list_to_map [
  (0x00, true); (0x11, true); (0x80, true); (0x83, true); (0x87, true); (0x8F, true); (0x91, true)].

(** The loop [for c.remaining() > 0] over the reason codes; every iteration
    reads one byte, so the number of remaining bytes bounds it. *)
Fixpoint readReasonCodes_loop (fuel : nat) (allowed : gmap Z bool) (codes : list Z) : parser (list Z) :=
  rem ← get_remaining;
  if rem >? 0 then
    match fuel with
    | O => fail OutOfFuel
    | S fuel' =>
      rc ← readByte;
      if negb (default false (allowed !! rc)) then fail ErrMalformedPacket
      else readReasonCodes_loop fuel' allowed (codes ++ [rc])
    end
  else mret codes.

Definition readReasonCodes (allowed : gmap Z bool) : parser (list Z) :=
  rem ← get_remaining;
  readReasonCodes_loop (Z.to_nat rem) allowed [].

Definition DecodeSuback (v : Z) (body : list Z) : res SubackPacket := run (
  pid ← readUint16;
  if pid =? 0 then fail ErrMalformedPacket
  else
    props ← (if v =? V311 then mret None
             else if v =? V50 then decodeProperties tgSuback
             else fail ErrProtocolViolation);
    rem ← get_remaining;
    if rem =? 0 then fail ErrMalformedPacket
    else
      let allowed := if v =? V311 then subackReasonV311 else subackReasonV50 in
      codes ← readReasonCodes allowed;
      mret (mkSuback pid codes props)) body.

(** * UNSUBSCRIBE *)

Record UnsubscribePacket : Type := mkUnsubscribe {
  up_Version : Z;
  up_PacketID : Z;
  up_Filters : list (list Z);
  up_Properties : option Properties
}.

(** The loop over [p.Filters]. *)
Fixpoint appendFilters (filters : list (list Z)) (body : list Z) : res (list Z) :=
  match filters with
  | [] => Ok body
  | filter :: filters' => body ← appendString body filter; appendFilters filters' body
  end.

Definition UnsubscribePacket_Encode (p : UnsubscribePacket) (w : list Z) : res (list Z) :=
  if negb (Version_Valid (up_Version p)) then Err ErrProtocolViolation
  else if up_PacketID p =? 0 then Err ErrProtocolViolation
  else if len (up_Filters p) =? 0 then Err ErrProtocolViolation
  else
    let body := PutUint16 (up_PacketID p) in
    body ← (if up_Version p =? V50
            then Properties_encode (up_Properties p) body tgUnsubscribe else Ok body);
    body ← appendFilters (up_Filters p) body;
    writePacket w (Z.lor (u8 (Z.shiftl Unsubscribe 4)) 0x02) body.

(** * UNSUBACK *)

Record UnsubackPacket : Type := mkUnsuback {
  ua_PacketID : Z;
  ua_ReasonCodes : list Z;
  ua_Properties : option Properties
}.

Definition DecodeUnsuback (v : Z) (body : list Z) : res UnsubackPacket := run (
  pid ← readUint16;
  if pid =? 0 then fail ErrMalformedPacket
  else if v =? V311 then
    rem ← get_remaining;
    if negb (rem =? 0) then fail ErrMalformedPacket
    else mret (mkUnsuback pid [] None)
  else if v =? V50 then
    props ← decodeProperties tgUnsuback;
    rem ← get_remaining;
    if rem =? 0 then fail ErrMalformedPacket
    else
      codes ← readReasonCodes unsubackReasonV50;
      mret (mkUnsuback pid codes props)
  else fail ErrProtocolViolation) body.

(** * Lemmas: the reason-code loop *)

Lemma readReasonCodes_loop_spec allowed codes c fuel : wf_cursor c -> remaining c <= Z.of_nat fuel ->
  Forall (fun rc => allowed !! rc = Some true) codes ->
  match readReasonCodes_loop fuel allowed codes c with
  | Ok (out, c') => Forall (fun rc => allowed !! rc = Some true) out /\
      len out = len codes + remaining c /\ buf c' = buf c /\ pos c' = len (buf c)
  | Err e => e = ErrMalformedPacket
  end.
Proof.
  revert codes c. induction fuel as [|fuel IH]; intros codes c Hc Hf Hcodes;
    cbn [readReasonCodes_loop]; rewrite parser_bind_eq, get_remaining_eq;
    destruct (remaining c >? 0) eqn:E; try lia.
  1,3: rewrite parser_ret_eq; unfold wf_cursor, remaining in *; repeat split; try done; lia.
  rewrite parser_bind_eq. pose proof (safe_readByte c Hc) as Hs.
  destruct (readByte c) as [[rc c']|e] eqn:Er; [|done]. apply readByte_moves in Er as [Hb Hp].
  destruct (allowed !! rc) as [[]|] eqn:Ea; cbn [default from_option negb id]; [|done..].
  assert (Hc' : wf_cursor c') by (unfold wf_cursor, remaining in *; rewrite Hb; lia).
  specialize (IH (codes ++ [rc]) c' Hc'). unfold remaining in *. rewrite Hb in IH.
  specialize (IH ltac:(lia) ltac:(by apply Forall_app; split; [|constructor])).
  destruct (readReasonCodes_loop _ _ _ _) as [[out c'']|]; [|done].
  rewrite Zlength_app in IH. simpl length in IH. destruct IH as (? & ? & ? & ?).
  repeat split; [done|lia|congruence|done].
Qed.

Lemma readReasonCodes_reads allowed : reads (readReasonCodes allowed)
  (Forall (fun rc => allowed !! rc = Some true)).
Proof.
  intros c [Hc _]. unfold readReasonCodes. rewrite parser_bind_eq, get_remaining_eq.
  pose proof (readReasonCodes_loop_spec allowed [] c (Z.to_nat (remaining c)) Hc) as H.
  destruct Hc as [H0 H1]. unfold remaining in *. specialize (H ltac:(lia) ltac:(by constructor)).
  destruct (readReasonCodes_loop _ _ _ _) as [[out c'']|]; [|done].
  destruct H as (? & ? & ? & ?). split; [done|]. split; [done|lia].
Qed.

Lemma total_readReasonCodes allowed : total (readReasonCodes allowed).
Proof. eapply reads_weaken; [apply readReasonCodes_reads|done]. Qed.
#[export] Hint Resolve total_readReasonCodes : safe.

Lemma DecodeSuback_total v body e : Version_Valid v = true -> Forall in_u8 body ->
  DecodeSuback v body = Err e -> e = ErrMalformedPacket.
Proof.
  intros Hv Hb. apply run_total; [|done]. apply total_bind; [total_tac|]. intros pid.
  apply total_if; [total_tac|]. apply total_bind; [apply total_version; total_tac|]. total_tac.
Qed.

Lemma DecodeUnsuback_total v body e : Version_Valid v = true -> Forall in_u8 body ->
  DecodeUnsuback v body = Err e -> e = ErrMalformedPacket.
Proof.
  intros Hv Hb. apply run_total; [|done]. apply total_bind; [total_tac|]. intros pid.
  apply total_if; [total_tac|]. apply total_version; total_tac.
Qed.

(** The reason codes are the bytes up to the end of the body. *)
Lemma readReasonCodes_loop_at fuel allowed codes pre rest : (length rest <= fuel)%nat ->
  readReasonCodes_loop fuel allowed codes (at_pos pre rest) =
  if forallb (fun rc => default false (allowed !! rc)) rest
  then Ok (codes ++ rest, at_pos (pre ++ rest) []) else Err ErrMalformedPacket.
Proof.
  revert fuel codes pre. induction rest as [|rc rest IH]; intros fuel codes pre Hf.
  - destruct fuel; cbn [readReasonCodes_loop]; rewrite parser_bind_eq, get_remaining_at, !app_nil_r; done.
  - destruct fuel as [|fuel]; [simpl in Hf; lia|]. cbn [readReasonCodes_loop].
    rewrite parser_bind_eq, get_remaining_at. replace (len (rc :: rest) >? 0) with true by (simpl length; lia).
    rewrite parser_bind_eq. rewrite (parses_readByte rc pre rest : readByte (at_pos pre (rc :: rest)) = _).
    cbn [forallb]. destruct (default false (allowed !! rc)); [|done]. cbn [negb andb].
    rewrite IH by (simpl in Hf; lia). by rewrite <- !app_assoc.
Qed.

Lemma readReasonCodes_at allowed pre rest :
  readReasonCodes allowed (at_pos pre rest) =
  if forallb (fun rc => default false (allowed !! rc)) rest
  then Ok (rest, at_pos (pre ++ rest) []) else Err ErrMalformedPacket.
Proof.
  unfold readReasonCodes. rewrite parser_bind_eq, get_remaining_at. by apply readReasonCodes_loop_at; lia.
Qed.

(** * SUBSCRIBE and UNSUBSCRIBE on the wire

    As for CONNECT, the reference readers use the codec's cursor. *)

Definition parseOptions (v b : Z) : SubscribeOptions :=
  if v =? V50
  then mkSubscribeOptions (Z.land b 0x03) (has_bits b 0x04) (has_bits b 0x08) (Z.land (Z.shiftr b 4) 0x03)
  else mkSubscribeOptions b false false 0.

(** Items up to the end of the body. *)
Fixpoint parseItems {A} (fuel : nat) (item : parser A) : parser (list A) :=
  rem ← get_remaining;
  if rem >? 0 then
    match fuel with
    | O => fail OutOfFuel
    | S fuel' => x ← item; xs ← parseItems fuel' item; mret (x :: xs)
    end
  else mret [].

Definition parseSubscription (v : Z) : parser Subscription :=
  filter ← readString; opt ← readByte; mret (mkSubscription filter (parseOptions v opt)).

Definition parseFilters {A} (v target : Z) (item : parser A) : parser (Z * option Properties * list A) :=
  pid ← readUint16;
  props ← (if v =? V50 then decodeProperties target else mret None);
  rem ← get_remaining;
  items ← parseItems (Z.to_nat rem) item;
  mret (pid, props, items).

Definition wf_options (o : SubscribeOptions) : Prop := in_u8 (so_QoS o) /\ in_u8 (so_RetainHandling o).

Definition canon_options (v : Z) (o : SubscribeOptions) : SubscribeOptions :=
  if v =? V50 then o else mkSubscribeOptions (so_QoS o) false false 0.

Lemma subscribeOptionsByte_parse v o b : wf_options o -> subscribeOptionsByte v o = Ok b ->
  parseOptions v b = canon_options v o.
Proof.
  intros [Hq Hr] H. unfold in_u8 in *. unfold subscribeOptionsByte, parseOptions, canon_options in *.
  destruct o as [q nl rap rh]; simpl in *. destruct (q >? 2) eqn:Eq; [done|].
  destruct (v =? V50); [|by injection H as <-]. destruct (rh >? 2) eqn:Er; [done|]. injection H as <-.
  assert (q = 0 \/ q = 1 \/ q = 2) as [-> | [-> | ->]] by lia;
    assert (rh = 0 \/ rh = 1 \/ rh = 2) as [-> | [-> | ->]] by lia; by destruct nl, rap.
Qed.

(** Items that each consume the bytes of their encoding, written one after the
    other, are read back to the end of the body. *)
Lemma parseItems_parses {A B} (item : parser B) (enc : A -> list Z) (out : A -> B) xs fuel :
  (forall x, x ∈ xs -> enc x <> [] /\ parses item (enc x) (out x)) -> (length (concat (enc <$> xs)) <= fuel)%nat ->
  parses_end (parseItems fuel item) (concat (enc <$> xs)) (out <$> xs).
Proof.
  revert fuel. induction xs as [|x xs IH]; intros fuel Hx Hf pre.
  - destruct fuel; simpl; by rewrite parser_bind_eq, get_remaining_at, app_nil_r.
  - destruct (Hx x ltac:(apply list_elem_of_here)) as [Hne Hp]. 
    change (concat (enc <$> x :: xs)) with (enc x ++ concat (enc <$> xs)) in *. rewrite length_app in Hf.
    assert (0 < length (enc x))%nat by (destruct (enc x); [done|simpl; lia]).
    destruct fuel as [|fuel]; [lia|]. cbn [parseItems].
    rewrite parser_bind_eq, get_remaining_at, Zlength_app.
    match goal with |- context [?n >? 0] => replace (n >? 0) with true by lia end.
    rewrite parser_bind_eq, Hp, parser_bind_eq, (IH fuel); [|intros y Hy; apply Hx; by right|lia].
    by rewrite parser_ret_eq, app_assoc.
Qed.

Lemma appendSubscriptions_inv v subs body body' : appendSubscriptions v subs body = Ok body' ->
  exists enc : Subscription -> list Z, body' = body ++ concat (enc <$> subs) /\
    forall s, s ∈ subs -> valid_str (sub_Filter s) /\
      exists b, subscribeOptionsByte v (sub_Options s) = Ok b /\ enc s = str_bytes (sub_Filter s) ++ [b].
Proof.
  intros H. exists (fun s => str_bytes (sub_Filter s) ++
    match subscribeOptionsByte v (sub_Options s) with Ok b => [b] | Err _ => [] end).
  revert body H. induction subs as [|s subs IH]; intros body H; cbn [appendSubscriptions] in H.
  - injection H as <-. rewrite app_nil_r. split; [done|]. by intros s ?%elem_of_nil.
  - next_write H Hs. apply appendString_inv in Hs as [Hs ->]. next_write H Ho.
    destruct (IH _ H) as [-> Hall]. cbn [fmap list_fmap concat]. rewrite Ho, <- !app_assoc. split; [done|].
    intros s' [->|Hin]%elem_of_cons; [|auto]. rewrite Ho. eauto.
Qed.

Lemma appendFilters_inv fs body body' : appendFilters fs body = Ok body' ->
  body' = body ++ concat (str_bytes <$> fs) /\ forall f, f ∈ fs -> valid_str f.
Proof.
  revert body. induction fs as [|f fs IH]; intros body H; cbn [appendFilters] in H.
  - injection H as <-. rewrite app_nil_r. split; [done|]. by intros f ?%elem_of_nil.
  - next_write H Hs. apply appendString_inv in Hs as [Hs ->]. destruct (IH _ H) as [-> Hall].
    cbn [fmap list_fmap concat]. rewrite <- app_assoc. split; [done|]. intros g [->|]%elem_of_cons; auto.
Qed.

(** The shared shape of the two packets: identifier, properties, items. *)
Lemma parseFilters_run {A B} v target pid props (enc : A -> list Z) (item : parser B) out xs pb buf :
  in_u16 pid -> parses (if v =? V50 then decodeProperties target else mret None) pb (canon_props v props) ->
  (forall x, x ∈ xs -> enc x <> [] /\ parses item (enc x) (out x)) ->
  buf = (PutUint16 pid ++ pb) ++ concat (enc <$> xs) ->
  run (parseFilters v target item) buf = Ok (pid, canon_props v props, out <$> xs).
Proof.
  intros Hid Hpb Hx ->. apply parses_end_run. rewrite <- app_assoc. unfold parseFilters.
  eapply parses_end_bind; [by apply parses_readUint16|]. eapply parses_end_bind; [exact Hpb|].
  apply parses_end_remaining. rewrite Nat2Z.id. intros pre.
  rewrite parser_bind_eq, (parseItems_parses item enc out xs) by (done || lia). by rewrite parser_ret_eq.
Qed.

Lemma SubscribePacket_Encode_body p w w' :
  in_u16 (sp_PacketID p) -> wf_optprops (sp_Properties p) ->
  Forall (fun s => wf_options (sub_Options s)) (sp_Subscriptions p) ->
  SubscribePacket_Encode p w = Ok w' ->
  exists body, len body <= maxVarint /\ w' = w ++ packet_bytes 0x82 body /\
    0 < sp_PacketID p /\ sp_Subscriptions p <> [] /\
    run (parseFilters (sp_Version p) tgSubscribe (parseSubscription (sp_Version p))) body =
      Ok (sp_PacketID p, canon_props (sp_Version p) (sp_Properties p),
          (fun s => mkSubscription (sub_Filter s) (canon_options (sp_Version p) (sub_Options s))) <$> sp_Subscriptions p).
Proof.
  intros Hid Hp Ho H. unfold SubscribePacket_Encode in H. destruct (negb _) eqn:Ev; [done|].
  destruct (sp_PacketID p =? 0) eqn:Ei; [done|]. destruct (len (sp_Subscriptions p) =? 0) eqn:Es; [done|].
  wrote H (writes_props (sp_Version p) tgSubscribe _ Hp). next_write H Hs.
  apply appendSubscriptions_inv in Hs as (enc & -> & Henc). apply writePacket_inv in H as [Hl ->].
  eexists. split; [exact Hl|]. split; [reflexivity|]. unfold in_u16 in Hid. split; [lia|].
  split; [by intros Hn; rewrite Hn in Es|].
  eapply parseFilters_run with (enc := enc); [done|done| |done]. intros s Hin.
  destruct (Henc s Hin) as (Hf & b & Hb & ->). split; [by destruct (str_bytes _)|].
  eapply parses_bind; [by apply parses_readString|].
  rewrite <- (app_nil_r [b]). eapply parses_bind; [apply parses_readByte|].
  rewrite Forall_forall in Ho. rewrite (subscribeOptionsByte_parse _ _ _ (Ho s Hin) Hb). apply parses_ret.
Qed.

Lemma UnsubscribePacket_Encode_body p w w' :
  in_u16 (up_PacketID p) -> wf_optprops (up_Properties p) ->
  UnsubscribePacket_Encode p w = Ok w' ->
  exists body, len body <= maxVarint /\ w' = w ++ packet_bytes 0xA2 body /\
    0 < up_PacketID p /\ up_Filters p <> [] /\
    run (parseFilters (up_Version p) tgUnsubscribe readString) body =
      Ok (up_PacketID p, canon_props (up_Version p) (up_Properties p), up_Filters p).
Proof.
  intros Hid Hp H. unfold UnsubscribePacket_Encode in H. destruct (negb _) eqn:Ev; [done|].
  destruct (up_PacketID p =? 0) eqn:Ei; [done|]. destruct (len (up_Filters p) =? 0) eqn:Es; [done|].
  wrote H (writes_props (up_Version p) tgUnsubscribe _ Hp). next_write H Hs.
  apply appendFilters_inv in Hs as (-> & Hf). apply writePacket_inv in H as [Hl ->].
  eexists. split; [exact Hl|]. split; [reflexivity|]. unfold in_u16 in Hid. split; [lia|].
  split; [by intros Hn; rewrite Hn in Es|]. rewrite <- (list_fmap_id (up_Filters p)) at 2.
  eapply parseFilters_run with (enc := str_bytes); [done|done| |done]. intros s Hin.
  split; [done|]. by apply parses_readString, Hf.
Qed.

(** * Theorems *)

(** An encoded SUBSCRIBE reads back as the packet identifier, the
    properties and, in order, every filter with the options its version carries;
    it has an identifier and at least one filter. *)
Theorem subscribe_roundtrip p w rest max :
  in_u16 (sp_PacketID p) -> wf_optprops (sp_Properties p) ->
  Forall (fun s => wf_options (sub_Options s)) (sp_Subscriptions p) ->
  SubscribePacket_Encode p [] = Ok w -> in_u32 max -> len w <= max ->
  exists f, ReadFrame (w ++ rest) max = Ok (f, rest) /\
    Frame_PacketType f = Subscribe /\ Frame_ValidateFlags f = Ok tt /\
    0 < sp_PacketID p /\ sp_Subscriptions p <> [] /\
    run (parseFilters (sp_Version p) tgSubscribe (parseSubscription (sp_Version p))) (Body f) =
      Ok (sp_PacketID p, canon_props (sp_Version p) (sp_Properties p),
          (fun s => mkSubscription (sub_Filter s) (canon_options (sp_Version p) (sub_Options s)))
            <$> sp_Subscriptions p).
Proof.
  intros Hid Hp Ho He Hm Hl.
  apply SubscribePacket_Encode_body in He as (body & Hb & -> & ? & ? & Hdec); [|done..].
  eexists. split; [by apply ReadFrame_packet|]. auto.
Qed.

Lemma subscribe_roundtrip_witness :
  let p := mkSubscribe V50 3 [mkSubscription (gostr "a/+") (mkSubscribeOptions 1 true false 2);
                              mkSubscription (gostr "#") (mkSubscribeOptions 2 false true 0)]
             (Some (set_SubscriptionIdentifiers [9] emptyProperties)) in
  exists w f, ReadFrame (w ++ []) 100 = Ok (f, []) /\
    Frame_PacketType f = Subscribe /\ Frame_ValidateFlags f = Ok tt /\
    0 < sp_PacketID p /\ sp_Subscriptions p <> [] /\
    run (parseFilters (sp_Version p) tgSubscribe (parseSubscription (sp_Version p))) (Body f) =
      Ok (sp_PacketID p, canon_props (sp_Version p) (sp_Properties p),
          (fun s => mkSubscription (sub_Filter s) (canon_options (sp_Version p) (sub_Options s)))
            <$> sp_Subscriptions p).
Proof.
  eexists. apply subscribe_roundtrip; [by_decide| | |vm_compute; reflexivity|by_decide|by_decide].
  - wf_solve.
  - unfold wf_options. repeat constructor; wf_solve.
Defined.

(** An encoded UNSUBSCRIBE reads back as its identifier, properties and
    filters. *)
Theorem unsubscribe_roundtrip p w rest max :
  in_u16 (up_PacketID p) -> wf_optprops (up_Properties p) ->
  UnsubscribePacket_Encode p [] = Ok w -> in_u32 max -> len w <= max ->
  exists f, ReadFrame (w ++ rest) max = Ok (f, rest) /\
    Frame_PacketType f = Unsubscribe /\ Frame_ValidateFlags f = Ok tt /\
    0 < up_PacketID p /\ up_Filters p <> [] /\
    run (parseFilters (up_Version p) tgUnsubscribe readString) (Body f) =
      Ok (up_PacketID p, canon_props (up_Version p) (up_Properties p), up_Filters p).
Proof.
  intros Hid Hp He Hm Hl.
  apply UnsubscribePacket_Encode_body in He as (body & Hb & -> & ? & ? & Hdec); [|done..].
  eexists. split; [by apply ReadFrame_packet|]. auto.
Qed.

Lemma unsubscribe_roundtrip_witness :
  let p := mkUnsubscribe V311 3 [gostr "a/+"; gostr "b"] None in
  exists w f, ReadFrame (w ++ [1]) 100 = Ok (f, [1]) /\
    Frame_PacketType f = Unsubscribe /\ Frame_ValidateFlags f = Ok tt /\
    0 < up_PacketID p /\ up_Filters p <> [] /\
    run (parseFilters (up_Version p) tgUnsubscribe readString) (Body f) =
      Ok (up_PacketID p, canon_props (up_Version p) (up_Properties p), up_Filters p).
Proof.
  eexists. apply unsubscribe_roundtrip; [by_decide|done|vm_compute; reflexivity|by_decide|by_decide].
Defined.

(** [DecodeSuback] on the body of a server's SUBACK: it returns the codes
    of the body, one per byte and in order, if there is at least one and every
    one is defined for the version, and otherwise reports a malformed packet. *)
Theorem suback_exact v pid props block codes : Version_Valid v = true ->
  0 < pid < 65536 -> wf_optprops props ->
  (if v =? V50 then Properties_encode props [] tgSuback else Ok []) = Ok block ->
  DecodeSuback v (PutUint16 pid ++ block ++ codes) =
  if negb (len codes =? 0) &&
     forallb (fun rc => default false ((if v =? V311 then subackReasonV311 else subackReasonV50) !! rc)) codes
  then Ok (mkSuback pid codes (canon_props v props)) else Err ErrMalformedPacket.
Proof.
  intros Hv Hid Hp Hb. destruct (writes_props v tgSuback props Hp [] block Hb) as (bs & -> & Hbs).
  unfold DecodeSuback, run. rewrite newCursor_at, parser_bind_eq, parses_readUint16 by (unfold in_u16; lia).
  replace (pid =? 0) with false by lia. rewrite parser_bind_eq, app_nil_l.
  replace (if v =? V311 then mret None else if v =? V50 then decodeProperties tgSuback else fail ErrProtocolViolation)
    with (if v =? V50 then decodeProperties tgSuback else mret None)
    by (apply Version_Valid_spec in Hv as [-> | ->]; done).
  rewrite Hbs, parser_bind_eq, get_remaining_at. destruct (len codes =? 0) eqn:E; [done|].
  rewrite parser_bind_eq, readReasonCodes_at. simpl negb. cbn [andb]. by destruct (forallb _ _).
Qed.

Lemma suback_exact_witness :
  DecodeSuback V311 (PutUint16 7 ++ [] ++ [0; 2; 128]) =
  if negb (len [0; 2; 128] =? 0) &&
     forallb (fun rc => default false ((if V311 =? V311 then subackReasonV311 else subackReasonV50) !! rc)) [0; 2; 128]
  then Ok (mkSuback 7 [0; 2; 128] (canon_props V311 None)) else Err ErrMalformedPacket.
Proof. apply suback_exact; [reflexivity|lia|done|reflexivity]. Defined.

(** The decoders of the packets a server sends. *)
Definition decoder_error (v header : Z) (body : list Z) (e : error) : Prop :=
  DecodePublish v header body = Err e \/ (exists t, DecodeAck v t body = Err e) \/
  DecodeConnack v body = Err e \/ DecodeSuback v body = Err e \/ DecodeUnsuback v body = Err e \/
  DecodeDisconnect v body = Err e \/ DecodeAuth body = Err e.

(** C29.  Decoding never panics and always terminates: on arbitrary bytes, for
    both protocol versions, every packet decoder returns a packet or an error
    that wraps [ErrMalformedPacket]. *)
Theorem decoders_total v header body e : Version_Valid v = true -> Forall in_u8 body ->
  decoder_error v header body e -> e = ErrMalformedPacket.
Proof.
  intros Hv Hb [H|[[t H]|[H|[H|[H|[H|H]]]]]]; revert H.
  - by apply DecodePublish_total.
  - by apply DecodeAck_total.
  - by apply DecodeConnack_total.
  - by apply DecodeSuback_total.
  - by apply DecodeUnsuback_total.
  - by apply DecodeDisconnect_total.
  - by apply DecodeAuth_total.
Qed.

Lemma decoders_total_witness : decoder_error V50 0x36 [0; 1] ErrMalformedPacket /\ ErrMalformedPacket = ErrMalformedPacket.
Proof.
  assert (H : decoder_error V50 0x36 [0; 1] ErrMalformedPacket) by (left; reflexivity).
  split; [exact H|]. apply (decoders_total V50 0x36 [0; 1]); [reflexivity|by_decide|exact H].
Defined.
