(* ===== verification/MockBroker.v ===== *)
(** The scripted broker of the test suite (test_mock_broker.go): its readers of
    the packets a client sends, its answers and its serve loop. *)

From S2P Require Import Prelude GoStrings Codes Wire WireFacts Props PropsFacts PublishPackets ControlPackets SubscribePackets.
From stdpp Require Import options.

Definition mockMaxRemainingLength : Z := 16 * 1024 * 1024.

(** The errors of the readers, by what their text says. *)
Inductive mockError : Type :=
| errMockTruncated
| propertyOverrun (n : Z)
| unknownProperty (id : Z)
| unsupportedLevel (level : Z)
| subscribeNoFilters
| unsubscribeNoFilters
| mockPanic
| mockOutOfFuel.

(** * The cursor

    [mCursor] has the fields of [cursor]. *)

Definition mCursor : Type := cursor.
Definition mparser (A : Type) : Type := mCursor -> mockError + A * mCursor.
#[export] Instance mparser_ret : MRet mparser := fun A a c => inr (a, c).
#[export] Instance mparser_bind : MBind mparser := fun A B f p c =>
  match p c with inr (a, c') => f a c' | inl e => inl e end.
Definition mfail {A} (e : mockError) : mparser A := fun _ => inl e.

(** An expression that panics out of range. *)
Definition mpanics {A} (p : parser A) : mparser A := fun c =>
  match p c with Ok r => inr r | Err _ => inl mockPanic end.

Definition m_remaining : mparser Z := fun c => inr (remaining c, c).

Definition m_readByte : mparser Z :=
  rem ← m_remaining;
  if rem <? 1 then mfail errMockTruncated
  else mpanics (fun c => b ← index (buf c) (pos c); Ok (b, mkCursor (buf c) (pos c + 1))).

Definition m_readUint16 : mparser Z :=
  rem ← m_remaining;
  if rem <? 2 then mfail errMockTruncated
  else mpanics (fun c => '(b, c) ← next_bytes 2 c; v ← Uint16 b; Ok (v, c)).

Definition m_readUint32 : mparser Z :=
  rem ← m_remaining;
  if rem <? 4 then mfail errMockTruncated
  else mpanics (fun c => '(b, c) ← next_bytes 4 c; v ← Uint32 b; Ok (v, c)).

Fixpoint m_readVarint_loop (k : nat) (i value : Z) : mparser Z :=
  match k with
  | O => mfail errMockTruncated
  | S k' =>
    b ← m_readByte;
    let value := Z.lor value (u32 (Z.shiftl (Z.land b 0x7F) (7 * i))) in
    if Z.land b 0x80 =? 0 then mret value else m_readVarint_loop k' (i + 1) value
  end.
Definition m_readVarint : mparser Z := m_readVarint_loop 4 0 0.

Definition m_readString : mparser (list Z) :=
  n ← m_readUint16;
  rem ← m_remaining;
  if rem <? n then mfail errMockTruncated else mpanics (next_bytes n).

(** The copy of the bytes is a value of its own. *)
Definition m_readBinary : mparser (list Z) :=
  n ← m_readUint16;
  rem ← m_remaining;
  if rem <? n then mfail errMockTruncated else mpanics (next_bytes n).

(** * Properties *)

Definition decodeMockProperty (id : Z) (p : Properties) : mparser Properties :=
  if id =? 0x01 then v ← m_readByte; mret (set_PayloadFormat (Some v) p)
  else if id =? 0x02 then v ← m_readUint32; mret (set_MessageExpiryInterval (Some v) p)
  else if id =? 0x03 then s ← m_readString; mret (set_ContentType s p)
  else if id =? 0x08 then s ← m_readString; mret (set_ResponseTopic s p)
  else if id =? 0x09 then v ← m_readBinary; mret (set_CorrelationData v p)
  else if id =? 0x0B then v ← m_readVarint; mret (set_SubscriptionIdentifiers (SubscriptionIdentifiers p ++ [v]) p)
  else if id =? 0x11 then v ← m_readUint32; mret (set_SessionExpiryInterval (Some v) p)
  else if id =? 0x12 then s ← m_readString; mret (set_AssignedClientID s p)
  else if id =? 0x13 then v ← m_readUint16; mret (set_ServerKeepAlive (Some v) p)
  else if id =? 0x15 then s ← m_readString; mret (set_AuthMethod s p)
  else if id =? 0x16 then v ← m_readBinary; mret (set_AuthData v p)
  else if id =? 0x17 then v ← m_readByte; mret (set_RequestProblemInfo (Some v) p)
  else if id =? 0x18 then v ← m_readUint32; mret (set_WillDelayInterval (Some v) p)
  else if id =? 0x19 then v ← m_readByte; mret (set_RequestResponseInfo (Some v) p)
  else if id =? 0x1A then s ← m_readString; mret (set_ResponseInfo s p)
  else if id =? 0x1C then s ← m_readString; mret (set_ServerReference s p)
  else if id =? 0x1F then s ← m_readString; mret (set_ReasonString s p)
  else if id =? 0x21 then v ← m_readUint16; mret (set_ReceiveMaximum (Some v) p)
  else if id =? 0x22 then v ← m_readUint16; mret (set_TopicAliasMaximum (Some v) p)
  else if id =? 0x23 then v ← m_readUint16; mret (set_TopicAlias (Some v) p)
  else if id =? 0x24 then v ← m_readByte; mret (set_MaximumQoS (Some v) p)
  else if id =? 0x25 then v ← m_readByte; mret (set_RetainAvailable (Some v) p)
  else if id =? 0x26 then
    k ← m_readString;
    v ← m_readString;
    mret (set_UserProperties (UserProperties p ++ [mkUserProperty k v]) p)
  else if id =? 0x27 then v ← m_readUint32; mret (set_MaximumPacketSize (Some v) p)
  else if id =? 0x28 then v ← m_readByte; mret (set_WildcardSubAvailable (Some v) p)
  else if id =? 0x29 then v ← m_readByte; mret (set_SubIDAvailable (Some v) p)
  else if id =? 0x2A then v ← m_readByte; mret (set_SharedSubAvailable (Some v) p)
  else mfail (unknownProperty id).

(** The loop [for sub.remaining() > 0]; every iteration reads a byte, so the
    number of remaining bytes bounds it. *)
Fixpoint decodeMockProperties_loop (fuel : nat) (p : Properties) : mparser Properties :=
  rem ← m_remaining;
  if rem >? 0 then
    match fuel with
    | O => mfail mockOutOfFuel
    | S fuel' =>
      id ← m_readByte;
      p ← decodeMockProperty id p;
      decodeMockProperties_loop fuel' p
    end
  else mret p.

Definition on_msub {A} (sub : list Z) (p : mparser A) : mparser A := fun c =>
  match p (newCursor sub) with inr (a, _) => inr (a, c) | inl e => inl e end.

Definition decodeMockProperties : mparser (option Properties) :=
  n ← m_readVarint;
  rem ← m_remaining;
  if n >? rem then mfail (propertyOverrun n)
  else
    sub ← mpanics (next_bytes n);
    if n =? 0 then mret None
    else
      p ← on_msub sub (decodeMockProperties_loop (Z.to_nat n) emptyProperties);
      mret (Some p).

(** * CONNECT, SUBSCRIBE, UNSUBSCRIBE *)

Record mockConnectInfo : Type := mkConnectInfo { mi_version : Z; mi_cleanStart : bool; mi_properties : option Properties }.

Definition decodeMockConnect_fields : mparser mockConnectInfo :=
  _ ← m_readString;
  level ← m_readByte;
  if negb (Version_Valid level) then mfail (unsupportedLevel level)
  else
    flags ← m_readByte;
    let hasUser := has_bits flags 0x80 in
    let hasPass := has_bits flags 0x40 in
    let hasWill := has_bits flags 0x04 in
    let cleanStart := has_bits flags 0x02 in
    _ ← m_readUint16;
    props ← (if level =? V50 then decodeMockProperties else mret None);
    _ ← m_readString;
    _ ← (if hasWill then
           _ ← (if level =? V50 then decodeMockProperties else mret None);
           _ ← m_readString;
           _ ← m_readBinary;
           mret tt
         else mret tt);
    _ ← (if hasUser then _ ← m_readString; mret tt else mret tt);
    _ ← (if hasPass then _ ← m_readBinary; mret tt else mret tt);
    mret (mkConnectInfo level cleanStart props).

Definition mrun {A} (p : mparser A) (body : list Z) : mockError + A :=
  match p (newCursor body) with inr (a, _) => inr a | inl e => inl e end.

Definition decodeMockConnect (body : list Z) : mockError + mockConnectInfo := mrun decodeMockConnect_fields body.

(** The loops [for c.remaining() > 0] over the filters. *)
Fixpoint decodeMockItems {A} (fuel : nat) (item : mparser A) (items : list A) : mparser (list A) :=
  rem ← m_remaining;
  if rem >? 0 then
    match fuel with
    | O => mfail mockOutOfFuel
    | S fuel' => x ← item; decodeMockItems fuel' item (items ++ [x])
    end
  else mret items.

Definition decodeMockSubscription (v : Z) : mparser Subscription :=
  filter ← m_readString;
  opt ← m_readByte;
  let qos := Z.land opt 0x03 in
  mret (mkSubscription filter
    (if v =? V50 then mkSubscribeOptions qos (has_bits opt 0x04) (has_bits opt 0x08) (Z.land (Z.shiftr opt 4) 0x03)
     else mkSubscribeOptions qos false false 0)).

Record mockSubscribeInfo : Type := mkSubscribeInfo { ms_packetID : Z; ms_subs : list Subscription }.

Definition decodeMockSubscribe (v : Z) (body : list Z) : mockError + mockSubscribeInfo := mrun (
  pid ← m_readUint16;
  _ ← (if v =? V50 then decodeMockProperties else mret None);
  rem ← m_remaining;
  subs ← decodeMockItems (Z.to_nat rem) (decodeMockSubscription v) [];
  if len subs =? 0 then mfail subscribeNoFilters else mret (mkSubscribeInfo pid subs)) body.

Record mockUnsubscribeInfo : Type := mkUnsubscribeInfo { mu_packetID : Z; mu_filters : list (list Z) }.

Definition decodeMockUnsubscribe (v : Z) (body : list Z) : mockError + mockUnsubscribeInfo := mrun (
  pid ← m_readUint16;
  _ ← (if v =? V50 then decodeMockProperties else mret None);
  rem ← m_remaining;
  filters ← decodeMockItems (Z.to_nat rem) m_readString [];
  if len filters =? 0 then mfail unsubscribeNoFilters else mret (mkUnsubscribeInfo pid filters)) body.

(** * Frames the broker assembles itself *)

(** A [uint32] has at most five 7-bit digits. *)
Fixpoint encodeMockVarint_loop (fuel : nat) (out : list Z) (v : Z) : list Z :=
  match fuel with
  | O => out
  | S fuel' =>
    let d := u8 (Z.land v 0x7F) in
    let v := Z.shiftr v 7 in
    let d := if v >? 0 then Z.lor d 0x80 else d in
    let out := out ++ [d] in
    if v =? 0 then out else encodeMockVarint_loop fuel' out v
  end.
Definition encodeMockVarint (n : Z) : list Z := encodeMockVarint_loop 5 [] (u32 n).

Definition writeMockFrame (header : Z) (body : list Z) (w : list Z) : res (list Z) :=
  let hdr := [header] ++ encodeMockVarint (len body) in
  let w := w ++ hdr in
  if len body =? 0 then Ok w else Ok (w ++ body).

Definition writeMockU16 (buf : list Z) (v : Z) : list Z := buf ++ PutUint16 v.
Definition writeMockU32 (buf : list Z) (v : Z) : list Z := buf ++ PutUint32 v.
Definition writeMockString (buf : list Z) (s : list Z) : list Z := writeMockU16 buf (u16 (len s)) ++ s.

(** [if v != nil { ... }]. *)
Definition when_set {A} (v : option A) (f : A -> list Z -> list Z) (buf : list Z) : list Z :=
  match v with Some v => f v buf | None => buf end.

Definition appendMockConnackProps (body : list Z) (p : option Properties) : list Z :=
  let props := match p with
    | None => []
    | Some p =>
      let props := when_set (ReceiveMaximum p) (fun v b => writeMockU16 (b ++ [0x21]) v) [] in
      let props := when_set (ServerKeepAlive p) (fun v b => writeMockU16 (b ++ [0x13]) v) props in
      let props := if nonempty (AssignedClientID p) then writeMockString (props ++ [0x12]) (AssignedClientID p) else props in
      let props := when_set (TopicAliasMaximum p) (fun v b => writeMockU16 (b ++ [0x22]) v) props in
      let props := when_set (MaximumQoS p) (fun v b => (b ++ [0x24]) ++ [v]) props in
      let props := when_set (RetainAvailable p) (fun v b => (b ++ [0x25]) ++ [v]) props in
      when_set (MaximumPacketSize p) (fun v b => writeMockU32 (b ++ [0x27]) v) props
    end in
  (body ++ encodeMockVarint (len props)) ++ props.

(** mockSubAckPolicy. *)
Record mockSubAckPolicy : Type := mkPolicy { po_reject : bool; po_reason : Z; po_override : bool; po_qos : Z }.
Definition setReject (reason : Z) (p : mockSubAckPolicy) : mockSubAckPolicy := mkPolicy true reason false (po_qos p).
Definition setGrant (qos : Z) (p : mockSubAckPolicy) : mockSubAckPolicy := mkPolicy false (po_reason p) true qos.
Definition policy_resolve (requested : Z) (p : mockSubAckPolicy) : Z :=
  if po_reject p then po_reason p else if po_override p then po_qos p else requested.

Definition buildMockUnsuback (v pid : Z) (filterCount : nat) : list Z :=
  let body := writeMockU16 [] pid in
  if v =? V50 then (body ++ [0x00]) ++ replicate filterCount Success else body.

(** * The broker *)

Record mockAck : Type := mkMockAck { mk_Type : Z; mk_PacketID : Z; mk_ReasonCode : Z }.

Record mockPublished : Type := mkMockPublished {
  mp_Topic : list Z; mp_Payload : list Z; mp_QoS : Z; mp_Retain : bool; mp_Dup : bool; mp_Properties : option Properties
}.

(** One connection: the bytes to read, the frames written, and [connected] of
    serve.  The channels that Inject waits on are numbered. *)
Record mockLink : Type := mkMockLink {
  ml_in : list Z;
  ml_out : list (list Z);
  ml_closed : bool;
  ml_connected : bool;
  ml_version : Z;
  ml_nextID : Z;
  ml_pubacks : gmap Z nat;
  ml_pubcomps : gmap Z nat
}.
Definition mockLink_eta (l : mockLink) : mockLink :=
  mkMockLink (ml_in l) (ml_out l) (ml_closed l) (ml_connected l) (ml_version l) (ml_nextID l) (ml_pubacks l) (ml_pubcomps l).
Definition set_ml_in : list Z -> mockLink -> mockLink := ltac:(record_setter mockLink_eta ml_in).
Definition set_ml_out : list (list Z) -> mockLink -> mockLink := ltac:(record_setter mockLink_eta ml_out).
Definition set_ml_closed : bool -> mockLink -> mockLink := ltac:(record_setter mockLink_eta ml_closed).
Definition set_ml_connected : bool -> mockLink -> mockLink := ltac:(record_setter mockLink_eta ml_connected).
Definition set_ml_version : Z -> mockLink -> mockLink := ltac:(record_setter mockLink_eta ml_version).
Definition set_ml_nextID : Z -> mockLink -> mockLink := ltac:(record_setter mockLink_eta ml_nextID).
Definition set_ml_pubacks : gmap Z nat -> mockLink -> mockLink := ltac:(record_setter mockLink_eta ml_pubacks).
Definition set_ml_pubcomps : gmap Z nat -> mockLink -> mockLink := ltac:(record_setter mockLink_eta ml_pubcomps).

Definition newMockLink (bytes : list Z) : mockLink := mkMockLink bytes [] false false 0 0 ∅ ∅.

(** What [t.Errorf] is told. *)
Inductive mockReport : Type :=
| reportExpectedConnect (pt : Z)
| reportDecode (pt : Z).

(** The int32 counters that count up are [Z]; those that count down are
    positive. *)
Record mockBroker : Type := mkMockBroker {
  mb_links : list mockLink;
  mb_cur : option nat;
  mb_rejectConnect : bool * Z;
  mb_sessionPresent : bool;
  mb_connackProps : option Properties;
  mb_lastConnect : mockConnectInfo;
  mb_subAck : mockSubAckPolicy;
  mb_subFrames : Z;
  mb_subs : list Subscription;
  mb_acks : list mockAck;
  mb_published : list mockPublished;
  mb_dropNextPuback : Z;
  mb_dupNextPuback : bool;
  mb_dropNextPubrec : Z;
  mb_dropNextPubcomp : Z;
  mb_dropPings : bool;
  mb_dropNextPings : Z;
  mb_pingCount : Z;
  mb_disconnectCount : Z;
  mb_done : gset nat;
  mb_nextCh : nat;
  mb_reports : list mockReport
}.
Definition mockBroker_eta (b : mockBroker) : mockBroker :=
  mkMockBroker (mb_links b) (mb_cur b) (mb_rejectConnect b) (mb_sessionPresent b) (mb_connackProps b) (mb_lastConnect b) (mb_subAck b) (mb_subFrames b) (mb_subs b) (mb_acks b) (mb_published b) (mb_dropNextPuback b) (mb_dupNextPuback b) (mb_dropNextPubrec b) (mb_dropNextPubcomp b) (mb_dropPings b) (mb_dropNextPings b) (mb_pingCount b) (mb_disconnectCount b) (mb_done b) (mb_nextCh b) (mb_reports b).
Definition set_mb_links : (list mockLink) -> mockBroker -> mockBroker := ltac:(record_setter mockBroker_eta mb_links).
Definition set_mb_cur : (option nat) -> mockBroker -> mockBroker := ltac:(record_setter mockBroker_eta mb_cur).
Definition set_mb_rejectConnect : (bool * Z) -> mockBroker -> mockBroker := ltac:(record_setter mockBroker_eta mb_rejectConnect).
Definition set_mb_sessionPresent : bool -> mockBroker -> mockBroker := ltac:(record_setter mockBroker_eta mb_sessionPresent).
Definition set_mb_connackProps : (option Properties) -> mockBroker -> mockBroker := ltac:(record_setter mockBroker_eta mb_connackProps).
Definition set_mb_lastConnect : mockConnectInfo -> mockBroker -> mockBroker := ltac:(record_setter mockBroker_eta mb_lastConnect).
Definition set_mb_subAck : mockSubAckPolicy -> mockBroker -> mockBroker := ltac:(record_setter mockBroker_eta mb_subAck).
Definition set_mb_subFrames : Z -> mockBroker -> mockBroker := ltac:(record_setter mockBroker_eta mb_subFrames).
Definition set_mb_subs : (list Subscription) -> mockBroker -> mockBroker := ltac:(record_setter mockBroker_eta mb_subs).
Definition set_mb_acks : (list mockAck) -> mockBroker -> mockBroker := ltac:(record_setter mockBroker_eta mb_acks).
Definition set_mb_published : (list mockPublished) -> mockBroker -> mockBroker := ltac:(record_setter mockBroker_eta mb_published).
Definition set_mb_dropNextPuback : Z -> mockBroker -> mockBroker := ltac:(record_setter mockBroker_eta mb_dropNextPuback).
Definition set_mb_dupNextPuback : bool -> mockBroker -> mockBroker := ltac:(record_setter mockBroker_eta mb_dupNextPuback).
Definition set_mb_dropNextPubrec : Z -> mockBroker -> mockBroker := ltac:(record_setter mockBroker_eta mb_dropNextPubrec).
Definition set_mb_dropNextPubcomp : Z -> mockBroker -> mockBroker := ltac:(record_setter mockBroker_eta mb_dropNextPubcomp).
Definition set_mb_dropPings : bool -> mockBroker -> mockBroker := ltac:(record_setter mockBroker_eta mb_dropPings).
Definition set_mb_dropNextPings : Z -> mockBroker -> mockBroker := ltac:(record_setter mockBroker_eta mb_dropNextPings).
Definition set_mb_pingCount : Z -> mockBroker -> mockBroker := ltac:(record_setter mockBroker_eta mb_pingCount).
Definition set_mb_disconnectCount : Z -> mockBroker -> mockBroker := ltac:(record_setter mockBroker_eta mb_disconnectCount).
Definition set_mb_done : (gset nat) -> mockBroker -> mockBroker := ltac:(record_setter mockBroker_eta mb_done).
Definition set_mb_nextCh : nat -> mockBroker -> mockBroker := ltac:(record_setter mockBroker_eta mb_nextCh).
Definition set_mb_reports : (list mockReport) -> mockBroker -> mockBroker := ltac:(record_setter mockBroker_eta mb_reports).

Definition newMockBroker : mockBroker := mkMockBroker [] None (false, 0) false None (mkConnectInfo 0 false None) (mkPolicy false 0 false 0)
  0 [] [] [] 0 false 0 0 false 0 0 0 ∅ 0 [].

(** ** Commands of the broker *)

Definition broker (A : Type) : Type := mockBroker -> A * mockBroker.
#[export] Instance broker_ret : MRet broker := fun A a b => (a, b).
#[export] Instance broker_bind : MBind broker := fun A B f m b => let '(a, b) := m b in f a b.
Definition bgets {A} (f : mockBroker -> A) : broker A := fun b => (f b, b).
Definition bupd (f : mockBroker -> mockBroker) : broker unit := fun b => (tt, f b).

Definition link_of (l : nat) (b : mockBroker) : mockLink := default (newMockLink []) (mb_links b !! l).
Definition upd_ml (l : nat) (f : mockLink -> mockLink) (b : mockBroker) : mockBroker := set_mb_links (alter f l (mb_links b)) b.

(** Whether the operating system takes a frame, given those it took before. *)
Class MockNet := mock_net : list (list Z) -> list Z -> bool.

Section broker.
Context {HN : MockNet}.

(** [true] when the frame is written; an encoder that fails writes nothing. *)
Definition link_send (l : nat) (fn : list Z -> res (list Z)) : broker bool :=
  match fn [] with
  | Err _ => mret false
  | Ok f =>
    lk ← bgets (link_of l);
    if negb (ml_closed lk) && mock_net (ml_out lk) f then
      _ ← bupd (upd_ml l (set_ml_out (ml_out lk ++ [f])));
      mret true
    else mret false
  end.
Definition link_sendRaw (l : nat) (header : Z) (body : list Z) : broker bool := link_send l (writeMockFrame header body).

Definition report (r : mockReport) : broker unit := bupd (fun b => set_mb_reports (mb_reports b ++ [r]) b).

Definition buildConnack (v : Z) : broker (list Z) :=
  present ← bgets mb_sessionPresent;
  let body := [if (present : bool) then 0x01 else 0x00] in
  '(armed, value) ← bgets mb_rejectConnect;
  _ ← bupd (set_mb_rejectConnect (false, value));
  let reason := if (armed : bool) then value else Success in
  let body := body ++ [reason] in
  props ← bgets mb_connackProps;
  mret (if v =? V50 then appendMockConnackProps body props else body).

Definition buildSuback (v pid : Z) (subs : list Subscription) : broker (list Z) :=
  policy ← bgets mb_subAck;
  let body := writeMockU16 [] pid in
  let body := if v =? V50 then body ++ [0x00] else body in
  mret (body ++ ((fun s => policy_resolve (so_QoS (sub_Options s)) policy) <$> subs)).

Definition recordConnect (info : mockConnectInfo) : broker unit := bupd (set_mb_lastConnect info).
Definition recordSubscriptions (subs : list Subscription) : broker unit :=
  bupd (fun b => set_mb_subs (mb_subs b ++ subs) (set_mb_subFrames (mb_subFrames b + 1) b)).
Definition recordPublished (p : PublishPacket) : broker unit := bupd (fun b => set_mb_published
  (mb_published b ++ [mkMockPublished (pub_Topic p) (pub_Payload p) (pub_QoS p) (pub_Retain p) (pub_Dup p) (pub_Properties p)]) b).
Definition recordAck (a : AckPacket) : broker unit :=
  bupd (fun b => set_mb_acks (mb_acks b ++ [mkMockAck (ack_Type a) (ack_PacketID a) (ack_ReasonCode a)]) b).

(** mockTakeCounter on one of the counters. *)
Definition mockTakeCounter (get : mockBroker -> Z) (set : Z -> mockBroker -> mockBroker) : broker bool :=
  n ← bgets get;
  if n <=? 0 then mret false
  else
    _ ← bupd (set (n - 1));
    mret true.

Definition mockReply (l : nat) (t id : Z) : broker bool :=
  v ← bgets (fun b => ml_version (link_of l b));
  link_send l (AckPacket_EncodeAck (mkAck v t id Success None)).

Definition replyPuback (l : nat) (id : Z) : broker unit :=
  drop ← mockTakeCounter mb_dropNextPuback set_mb_dropNextPuback;
  if (drop : bool) then mret tt
  else
    _ ← mockReply l Puback id;
    dup ← bgets mb_dupNextPuback;
    if (dup : bool) then
      _ ← bupd (set_mb_dupNextPuback false);
      _ ← mockReply l Puback id;
      mret tt
    else mret tt.

Definition replyPubrec (l : nat) (id : Z) : broker unit :=
  drop ← mockTakeCounter mb_dropNextPubrec set_mb_dropNextPubrec;
  if (drop : bool) then mret tt else _ ← mockReply l Pubrec id; mret tt.

Definition replyPubcomp (l : nat) (id : Z) : broker unit :=
  drop ← mockTakeCounter mb_dropNextPubcomp set_mb_dropNextPubcomp;
  if (drop : bool) then mret tt else _ ← mockReply l Pubcomp id; mret tt.

(** resolve: the channel of the identifier, if any, gets a value. *)
Definition link_resolve (l : nat) (get : mockLink -> gmap Z nat) (set : gmap Z nat -> mockLink -> mockLink) (id : Z) : broker unit :=
  m ← bgets (fun b => get (link_of l b));
  _ ← bupd (upd_ml l (set (delete id m)));
  match m !! id with
  | Some ch => bupd (fun b => set_mb_done (mb_done b ∪ {[ch]}) b)
  | None => mret tt
  end.

(** One turn of serve for a frame that is not about the connection itself; the
    result says whether the loop goes on. *)
Definition serve_frame (l : nat) (frame : Frame) : broker bool :=
  let pt := Frame_PacketType frame in
  let decodeFailed : broker bool := _ ← report (reportDecode pt); mret false in
  v ← bgets (fun b => ml_version (link_of l b));
  let acked (t : Z) (k : AckPacket -> broker bool) : broker bool :=
    match DecodeAck v t (Body frame) with
    | Err _ => decodeFailed
    | Ok ack => _ ← recordAck ack; k ack
    end in
  if pt =? Connect then
    match decodeMockConnect (Body frame) with
    | inl _ => decodeFailed
    | inr info =>
      _ ← bupd (upd_ml l (set_ml_version (mi_version info)));
      _ ← bupd (upd_ml l (set_ml_connected true));
      _ ← recordConnect info;
      body ← buildConnack (mi_version info);
      link_sendRaw l (u8 (Z.shiftl Connack 4)) body
    end
  else if pt =? Subscribe then
    match decodeMockSubscribe v (Body frame) with
    | inl _ => decodeFailed
    | inr info =>
      _ ← recordSubscriptions (ms_subs info);
      body ← buildSuback v (ms_packetID info) (ms_subs info);
      link_sendRaw l (u8 (Z.shiftl Suback 4)) body
    end
  else if pt =? Unsubscribe then
    match decodeMockUnsubscribe v (Body frame) with
    | inl _ => decodeFailed
    | inr info => link_sendRaw l (u8 (Z.shiftl Unsuback 4)) (buildMockUnsuback v (mu_packetID info) (length (mu_filters info)))
    end
  else if pt =? Publish then
    match DecodePublish v (Header frame) (Body frame) with
    | Err _ => decodeFailed
    | Ok pub =>
      _ ← recordPublished pub;
      _ ← (if pub_QoS pub =? 1 then replyPuback l (pub_PacketID pub)
           else if pub_QoS pub =? 2 then replyPubrec l (pub_PacketID pub)
           else mret tt);
      mret true
    end
  else if pt =? Pubrel then acked Pubrel (fun ack => _ ← replyPubcomp l (ack_PacketID ack); mret true)
  else if pt =? Puback then acked Puback (fun ack => _ ← link_resolve l ml_pubacks set_ml_pubacks (ack_PacketID ack); mret true)
  else if pt =? Pubrec then acked Pubrec (fun ack => link_send l (AckPacket_EncodeAck (mkAck v Pubrel (ack_PacketID ack) Success None)))
  else if pt =? Pubcomp then acked Pubcomp (fun ack => _ ← link_resolve l ml_pubcomps set_ml_pubcomps (ack_PacketID ack); mret true)
  else if pt =? Pingreq then
    _ ← bupd (fun b => set_mb_pingCount (mb_pingCount b + 1) b);
    mute ← bgets mb_dropPings;
    drop ← (if (mute : bool) then mret true else mockTakeCounter mb_dropNextPings set_mb_dropNextPings);
    if (drop : bool) then mret true else link_send l EncodePingResp
  else if pt =? Disconnect then
    _ ← bupd (fun b => set_mb_disconnectCount (mb_disconnectCount b + 1) b);
    mret false
  else mret true.

Definition serve_turn (l : nat) : broker bool :=
  r ← bgets (fun b => ml_in (link_of l b));
  match ReadFrame r mockMaxRemainingLength with
  | Err _ => mret false
  | Ok (frame, r) =>
    _ ← bupd (upd_ml l (set_ml_in r));
    connected ← bgets (fun b => ml_connected (link_of l b));
    if negb connected && negb (Frame_PacketType frame =? Connect) then
      _ ← report (reportExpectedConnect (Frame_PacketType frame));
      mret false
    else serve_frame l frame
  end.

(** The deferred function of serve. *)
Definition serve_exit (l : nat) (b : mockBroker) : mockBroker :=
  let b := if bool_decide (mb_cur b = Some l) then set_mb_cur None b else b in
  upd_ml l (set_ml_closed true) b.

(** The loop over what the client has sent so far: every turn reads a frame of
    at least two bytes. *)
Fixpoint serve_loop (fuel : nat) (l : nat) : broker unit :=
  match fuel with
  | O => mret tt
  | S fuel' =>
    on ← serve_turn l;
    if (on : bool) then serve_loop fuel' l else bupd (serve_exit l)
  end.

(** One round of acceptLoop. *)
Definition acceptLoop_turn (bytes : list Z) (b : mockBroker) : mockBroker :=
  set_mb_cur (Some (length (mb_links b))) (set_mb_links (mb_links b ++ [newMockLink bytes]) b).
Definition ConnCount (b : mockBroker) : Z := len (mb_links b).

(** ** Scripting *)

Definition RejectNextConnect (reason : Z) : mockBroker -> mockBroker := set_mb_rejectConnect (true, reason).
Definition SetSessionPresent (v : bool) : mockBroker -> mockBroker := set_mb_sessionPresent v.
Definition SetConnackProperties (p : option Properties) : mockBroker -> mockBroker := set_mb_connackProps p.
Definition RejectSubscribe (reason : Z) (b : mockBroker) : mockBroker := set_mb_subAck (setReject reason (mb_subAck b)) b.
Definition GrantQoS (qos : Z) (b : mockBroker) : mockBroker := set_mb_subAck (setGrant qos (mb_subAck b)) b.
Definition DropNextPuback (n : Z) : mockBroker -> mockBroker := set_mb_dropNextPuback n.
Definition DuplicateNextPuback : mockBroker -> mockBroker := set_mb_dupNextPuback true.
Definition DropNextPubrec (n : Z) : mockBroker -> mockBroker := set_mb_dropNextPubrec n.
Definition DropNextPubcomp (n : Z) : mockBroker -> mockBroker := set_mb_dropNextPubcomp n.
Definition DropPings (v : bool) : mockBroker -> mockBroker := set_mb_dropPings v.
Definition DropNextPings (n : Z) : mockBroker -> mockBroker := set_mb_dropNextPings n.

(** ** Messages from the broker *)

Definition allocID (l : nat) : broker Z :=
  n ← bgets (fun b => ml_nextID (link_of l b));
  let n := u16 (n + 1) in
  let n := if n =? 0 then 1 else n in
  _ ← bupd (upd_ml l (set_ml_nextID n));
  mret n.

Definition link_register (l : nat) (get : mockLink -> gmap Z nat) (set : gmap Z nat -> mockLink -> mockLink) (id : Z) : broker nat :=
  ch ← bgets mb_nextCh;
  _ ← bupd (set_mb_nextCh (S ch));
  m ← bgets (fun b => get (link_of l b));
  _ ← bupd (upd_ml l (set (<[id := ch]> m)));
  mret ch.

Inductive injected : Type :=
| NotConnected
| WriteFailed
| Injected
| Awaiting (ch : nat).

(** InjectPublish up to the wait for the acknowledgement. *)
Definition InjectPublish (topic payload : list Z) (qos : Z) (retain : bool) (props : option Properties) : broker injected :=
  cur ← bgets mb_cur;
  match cur with
  | None => mret NotConnected
  | Some l =>
    '(id, wait) ← (if qos >? 0 then
        id ← allocID l;
        ch ← (if qos =? 1 then link_register l ml_pubacks set_ml_pubacks id else link_register l ml_pubcomps set_ml_pubcomps id);
        mret (id, Some ch)
      else mret (0, None));
    v ← bgets (fun b => ml_version (link_of l b));
    sent ← link_send l (PublishPacket_Encode (mkPublish v topic payload qos retain false id props));
    mret (if negb sent then WriteFailed else match wait with Some ch => Awaiting ch | None => Injected end)
  end.

(** [true] once the acknowledgement is there; otherwise the call waits on, or
    times out. *)
Definition InjectPublish_acked (ch : nat) (b : mockBroker) : bool := bool_decide (ch ∈ mb_done b).

Definition inject (f : nat -> broker bool) : broker injected :=
  cur ← bgets mb_cur;
  match cur with
  | None => mret NotConnected
  | Some l => sent ← f l; mret (if (sent : bool) then Injected else WriteFailed)
  end.
Definition InjectDisconnect (reason : Z) : broker injected := inject (fun l =>
  v ← bgets (fun b => ml_version (link_of l b));
  link_send l (DisconnectPacket_Encode (mkDisconnect v reason None))).
Definition InjectAuth : broker injected := inject (fun l => link_sendRaw l (u8 (Z.shiftl Auth 4)) [ContinueAuthentication]).
Definition InjectRawFrame (raw : list Z) : broker injected := inject (fun l => link_send l (fun w => Ok (w ++ raw))).

Definition InjectTCPReset (b : mockBroker) : mockBroker :=
  match mb_cur b with
  | None => b
  | Some l => upd_ml l (set_ml_closed true) (set_mb_cur None b)
  end.
End broker.
