(* ===== verification/MockFacts.v ===== *)
(** The scripted broker against the client's codec: it reads every packet the
    client encodes, blames no client that keeps to the protocol, and its answers
    are read by the client as scripted. *)

From S2P Require Import Prelude GoStrings Codes Wire WireFacts Props PropsFacts PublishPackets ControlPackets SubscribePackets MockBroker.
From stdpp Require Import options.

(** * The readers accept what the reference readers accept

    [lenient G p q f]: where [p] reads a value with [G], [q] reads its image. *)

Definition lenient {A B} (G : A -> Prop) (p : parser A) (q : mparser B) (f : A -> B) : Prop :=
  forall c a c', p c = Ok (a, c') -> G a -> q c = inr (f a, c').
Abbreviation reads_as p q f := (lenient (fun _ => True) p q f).

Lemma mparser_bind_eq {A B} (q : mparser A) (k : A -> mparser B) c :
  (q ≫= k) c = match q c with inr (a, c') => k a c' | inl e => inl e end.
Proof. done. Qed.

Section lenient.
Context {A B : Type}.
Implicit Types (G : A -> Prop) (f : A -> B).

Lemma lenient_ret G f a b : (G a -> b = f a) -> lenient G (mret a) (mret b) f.
Proof. intros H c a' c' [= <- <-] Hg. by rewrite H. Qed.

Lemma lenient_fail G e q f : lenient G (fail e) q f.
Proof. by intros c a c'. Qed.

Lemma lenient_guard G (bad : bool) e p q f : lenient G p q f -> lenient G (if bad then fail e else p) q f.
Proof. intros H. destruct bad; [apply lenient_fail|done]. Qed.

Lemma lenient_if G (b : bool) p p' q q' f : lenient G p q f -> lenient G p' q' f -> lenient G (if b then p else p') (if b then q else q') f.
Proof. by destruct b. Qed.

Lemma lenient_bind {A' B'} G f (g : A' -> B') (p : parser A') (k : A' -> parser A) q k' :
  reads_as p q g -> (forall a, lenient G (k a) (k' (g a)) f) -> lenient G (p ≫= k) (q ≫= k') f.
Proof.
  intros Hp Hk c a c' H Hg. rewrite parser_bind_eq in H. destruct (p c) as [[x c1]|] eqn:E; [|done].
  rewrite mparser_bind_eq, (Hp c x c1 E I). by apply Hk.
Qed.

Lemma lenient_remaining G f (k : Z -> parser A) k' : (forall n, lenient G (k n) (k' n) f) -> lenient G (get_remaining ≫= k) (m_remaining ≫= k') f.
Proof. apply (lenient_bind G f id). intros c a c' [= <- <-] _. done. Qed.

Lemma lenient_panics G (p : parser A) : lenient G p (mpanics p) id.
Proof. intros c a c' H _. unfold mpanics. by rewrite H. Qed.

Lemma lenient_run G p q f body a : lenient G p q f -> run p body = Ok a -> G a -> mrun q body = inr (f a).
Proof.
  unfold run, mrun. intros H Hr Hg. destruct (p (newCursor body)) as [[x c']|] eqn:E; [|done]. injection Hr as ->. by rewrite (H _ _ _ E Hg).
Qed.
End lenient.

Create HintDb mock.
#[export] Hint Resolve lenient_fail : mock.

Lemma lenient_readByte : reads_as readByte m_readByte id.
Proof.
  intros c a c' H _. unfold m_readByte, readByte in *. rewrite mparser_bind_eq. unfold m_remaining, mpanics. destruct (remaining c <? 1); [done|].
  by rewrite H.
Qed.
Lemma lenient_readUint16 : reads_as readUint16 m_readUint16 id.
Proof.
  intros c a c' H _. unfold m_readUint16, readUint16 in *. rewrite mparser_bind_eq. unfold m_remaining, mpanics. destruct (remaining c <? 2); [done|].
  by rewrite H.
Qed.
Lemma lenient_readUint32 : reads_as readUint32 m_readUint32 id.
Proof.
  intros c a c' H _. unfold m_readUint32, readUint32 in *. rewrite mparser_bind_eq. unfold m_remaining, mpanics. destruct (remaining c <? 4); [done|].
  by rewrite H.
Qed.

Lemma lenient_readVarint : reads_as readVarint m_readVarint id.
Proof.
  unfold readVarint, m_readVarint. generalize 4%nat as k. intros k. generalize 0 at 1 3 as i. generalize 0 as value. induction k as [|k IH]; intros value i.
  - apply lenient_fail.
  - cbn [readVarint_loop m_readVarint_loop]. apply (lenient_bind _ _ id _ _ _ _ lenient_readByte). intros b. cbn [id]. destruct (_ =? 0); [|apply IH].
    by apply lenient_guard, lenient_ret.
Qed.

Lemma lenient_readBinary : reads_as readBinary m_readBinary id.
Proof.
  apply (lenient_bind _ _ id _ _ _ _ lenient_readUint16). intros n. apply lenient_remaining. intros rem. cbn [id].
  destruct (rem <? n); [apply lenient_fail|apply lenient_panics].
Qed.

Lemma lenient_readString : reads_as readString m_readString id.
Proof.
  apply (lenient_bind _ _ id _ _ _ _ lenient_readUint16). intros n. apply lenient_remaining. intros rem. cbn [id].
  destruct (rem <? n); [apply lenient_fail|]. intros c a c' H _. rewrite parser_bind_eq in H. unfold mpanics.
  destruct (next_bytes n c) as [[s c1]|]; [|done]. destruct (negb _); [done|]. destruct (IndexByte s 0 >=? 0); [done|]. by injection H as <- <-.
Qed.

Lemma lenient_checked (bad : Z -> bool) e (p : parser Z) q : reads_as p q id -> reads_as (v ← p; if bad v then fail e else mret v) q id.
Proof.
  intros Hp c a c' H _. rewrite parser_bind_eq in H. destruct (p c) as [[v c1]|] eqn:E; [|done]. destruct (bad v); [done|]. injection H as <- <-. by apply Hp.
Qed.
#[export] Hint Resolve lenient_readByte lenient_readUint16 lenient_readUint32 lenient_readVarint lenient_readBinary lenient_readString lenient_checked : mock.

Lemma lenient_decodeOne p i : reads_as (Properties_decodeOne p i) (decodeMockProperty i p) id.
Proof.
  unfold Properties_decodeOne, decodeMockProperty, readPropByte, readPropUint16, readPropUint32.
  repeat (apply lenient_if; [
    first [ apply (lenient_bind _ _ id); [solve [eauto with mock]|]; intros v; cbn [id];
            first [ by apply lenient_ret | by apply lenient_guard, lenient_ret
                  | apply (lenient_bind _ _ id); [solve [eauto with mock]|]; intros w; by apply lenient_ret ] ]|]).
  apply lenient_fail.
Qed.

Lemma lenient_properties_loop fuel target p seen : reads_as (decodeProperties_loop fuel target p seen) (decodeMockProperties_loop fuel p) id.
Proof.
  revert p seen. induction fuel as [|fuel IH]; intros p seen; cbn [decodeProperties_loop decodeMockProperties_loop]; apply lenient_remaining; intros rem;
    (destruct (rem >? 0); [|by apply lenient_ret]); [apply lenient_fail|].
  apply (lenient_bind _ _ id _ _ _ _ lenient_readByte). intros i. cbn [id]. destruct (propertySpec !! i); [|apply lenient_fail]. apply lenient_guard.
  destruct (negb _); [apply lenient_guard|]; apply (lenient_bind _ _ id _ _ _ _ (lenient_decodeOne p i)); intros p'; apply IH.
Qed.

Lemma lenient_properties target : reads_as (decodeProperties target) decodeMockProperties id.
Proof.
  apply (lenient_bind _ _ id _ _ _ _ lenient_readVarint). intros n. apply lenient_remaining. intros rem. cbn [id].
  destruct (n >? rem); [apply lenient_fail|]. apply (lenient_bind _ _ id _ _ _ _ (lenient_panics _ (next_bytes n))). intros sub. cbn [id].
  destruct (n =? 0); [by apply lenient_ret|]. apply (lenient_bind _ _ id); [|intros p; by apply lenient_ret].
  intros c a c' H _. unfold on_sub, on_msub in *. destruct (decodeProperties_loop _ _ _ _ _) as [[x c1]|] eqn:E; [|done]. injection H as <- <-.
  by rewrite (lenient_properties_loop _ _ _ _ _ _ _ E I).
Qed.

Lemma lenient_v5_properties v target :
  reads_as (if v =? V50 then decodeProperties target else mret None) (if v =? V50 then decodeMockProperties else mret None) id.
Proof. apply lenient_if; [apply lenient_properties|by apply lenient_ret]. Qed.
#[export] Hint Resolve lenient_v5_properties : mock.

(** ** CONNECT *)

Lemma lenient_unit {A} (b : bool) (p : parser A) (q : mparser A) d :
  reads_as p q id -> reads_as (if b then p else mret d) (if b then _ ← q; mret tt else mret tt) (fun _ => tt).
Proof.
  intros Hp. destruct b; [|by apply lenient_ret]. intros c a c' H _. by rewrite mparser_bind_eq, (Hp c a c' H I).
Qed.

Lemma lenient_will v flags : reads_as (parseWill v flags)
  (if has_bits flags 0x04 then
     _ ← (if v =? V50 then decodeMockProperties else mret None); _ ← m_readString; _ ← m_readBinary; mret tt
   else mret tt) (fun _ => tt).
Proof.
  unfold parseWill. apply lenient_if; [|by apply lenient_ret]. repeat (apply (lenient_bind _ _ id); [solve [eauto with mock]|]; intros ?).
  by apply lenient_ret.
Qed.

Definition connect_info (p : ConnectPacket) : mockConnectInfo := mkConnectInfo (con_Version p) (con_CleanStart p) (con_Properties p).

Lemma lenient_connect : lenient (fun p => Version_Valid (con_Version p) = true) parseConnect decodeMockConnect_fields connect_info.
Proof.
  apply (lenient_bind _ _ id _ _ _ _ lenient_readString). intros name. apply lenient_guard.
  apply (lenient_bind _ _ id _ _ _ _ lenient_readByte). intros v. cbn [id]. destruct (Version_Valid v) eqn:Hv; cbn [negb].
  - apply (lenient_bind _ _ id _ _ _ _ lenient_readByte). intros flags. apply lenient_guard. cbn [id].
    do 3 (apply (lenient_bind _ _ id); [solve [eauto with mock]|]; let x := fresh "x" in intros x). apply (lenient_bind _ _ (fun _ => tt) _ _ _ _ (lenient_will v flags)). intros wl.
    apply (lenient_bind _ _ (fun _ => tt)); [apply lenient_unit, lenient_readString|]. intros user.
    apply (lenient_bind _ _ (fun _ => tt)); [apply lenient_unit, lenient_readBinary|]. intros pass.
    intros c a c' H _. rewrite parser_bind_eq, get_remaining_eq in H. destruct (negb _); [done|]. by injection H as <- <-.
  - intros c a c' H Hg. exfalso. revert H. rewrite parser_bind_eq. destruct (readByte c) as [[fl c1]|]; [|done]. destruct (has_bits fl 1); [done|].
    do 6 (rewrite parser_bind_eq; match goal with |- context [match ?m with Ok _ => _ | Err _ => _ end = _] => destruct m as [[? ?]|]; [|done] end).
    rewrite parser_bind_eq, get_remaining_eq. destruct (negb _); [done|]. intros [= <- <-]. cbn in Hg. congruence.
Qed.

Lemma mock_reads_connect p w w' : wf_connect p -> ConnectPacket_Encode p w = Ok w' ->
  exists body, len body <= maxVarint /\ w' = w ++ packet_bytes (u8 (Z.shiftl Connect 4)) body /\
    decodeMockConnect body = inr (connect_info (canon_connect p)).
Proof.
  intros Hwf He. pose proof (ConnectPacket_Encode_steps _ _ _ He) as (Hv & _).
  apply ConnectPacket_Encode_body in He as (body & Hb & -> & Hdec); [|done]. exists body. split_and!; [done..|].
  apply (lenient_run _ _ _ _ _ _ lenient_connect Hdec). apply Version_Valid_spec. exact Hv.
Qed.

(** ** SUBSCRIBE and UNSUBSCRIBE *)

Lemma lenient_items {A B} (item : parser A) (item' : mparser B) f fuel acc : reads_as item item' f ->
  reads_as (parseItems fuel item) (decodeMockItems fuel item' acc) (fun xs => acc ++ (f <$> xs)).
Proof.
  intros Hi. revert acc. induction fuel as [|fuel IH]; intros acc; cbn [parseItems decodeMockItems]; apply lenient_remaining; intros rem;
    (destruct (rem >? 0); [|apply lenient_ret; by rewrite app_nil_r]); [apply lenient_fail|].
  intros c a c' H _. rewrite parser_bind_eq in H. destruct (item c) as [[x c1]|] eqn:Ex; [|done]. rewrite parser_bind_eq in H.
  destruct (parseItems fuel item c1) as [[xs c2]|] eqn:Exs; [|done]. injection H as <- <-.
  rewrite mparser_bind_eq, (Hi c x c1 Ex I), (IH (acc ++ [f x]) c1 xs c2 Exs I). by rewrite <- app_assoc.
Qed.

(** MQTT 3.1.1 takes the two low bits of the options byte. *)
Definition mock_subscription (v : Z) (s : Subscription) : Subscription :=
  if v =? V50 then s else mkSubscription (sub_Filter s) (mkSubscribeOptions (Z.land (so_QoS (sub_Options s)) 0x03) false false 0).

Lemma lenient_subscription v : reads_as (parseSubscription v) (decodeMockSubscription v) (mock_subscription v).
Proof.
  apply (lenient_bind _ _ id _ _ _ _ lenient_readString). intros filter. apply (lenient_bind _ _ id _ _ _ _ lenient_readByte). intros opt. apply lenient_ret.
  intros _. unfold mock_subscription, parseOptions. by destruct (v =? V50).
Qed.

Lemma lenient_filters {A B} v target (item : parser A) (item' : mparser B) f e body pid props xs (C : Type) (mk : Z -> list B -> C) :
  reads_as item item' f -> xs <> [] -> run (parseFilters v target item) body = Ok (pid, props, xs) ->
  mrun (pid ← m_readUint16; _ ← (if v =? V50 then decodeMockProperties else mret None); rem ← m_remaining;
        ys ← decodeMockItems (Z.to_nat rem) item' []; if len ys =? 0 then mfail e else mret (mk pid ys)) body = inr (mk pid (f <$> xs)).
Proof.
  intros Hi Hne Hr. change (mk pid (f <$> xs)) with ((fun r : Z * option Properties * list A => mk r.1.1 (f <$> r.2)) (pid, props, xs)).
  eapply (lenient_run (fun r => r.2 <> [])); [|exact Hr|done].
  apply (lenient_bind _ _ id _ _ _ _ lenient_readUint16). intros i. apply (lenient_bind _ _ id); [solve [eauto with mock]|]. intros pr.
  apply lenient_remaining. intros rem. apply (lenient_bind _ _ _ _ _ _ _ (lenient_items item item' f (Z.to_nat rem) [] Hi)). intros ys. cbn [app id].
  intros c a c' [= <- <-] Hg. cbn in *. destruct ys; [done|]. done.
Qed.

Lemma mock_subscription_canon v s b : wf_options (sub_Options s) -> subscribeOptionsByte v (sub_Options s) = Ok b ->
  let s' := mkSubscription (sub_Filter s) (canon_options v (sub_Options s)) in mock_subscription v s' = s'.
Proof.
  intros [Hq _] Hb. unfold mock_subscription, canon_options. destruct (v =? V50) eqn:Ev; [done|]. cbn [sub_Filter sub_Options so_QoS]. do 2 f_equal.
  unfold subscribeOptionsByte in Hb. unfold in_u8 in Hq. destruct (_ >? 2) eqn:E; [done|].
  assert (so_QoS (sub_Options s) = 0 \/ so_QoS (sub_Options s) = 1 \/ so_QoS (sub_Options s) = 2) as [-> | [-> | ->]] by lia; done.
Qed.

Lemma appendSubscriptions_bytes v subs body body' : appendSubscriptions v subs body = Ok body' ->
  Forall (fun s => exists b, subscribeOptionsByte v (sub_Options s) = Ok b) subs.
Proof. intros (enc & _ & H)%appendSubscriptions_inv. apply Forall_forall. intros s Hs. destruct (H s Hs) as (_ & b & Hb & _). by exists b. Qed.

Definition canon_subscription (v : Z) (s : Subscription) : Subscription := mkSubscription (sub_Filter s) (canon_options v (sub_Options s)).

Lemma mock_reads_subscribe p w w' : in_u16 (sp_PacketID p) -> wf_optprops (sp_Properties p) ->
  Forall (fun s => wf_options (sub_Options s)) (sp_Subscriptions p) -> SubscribePacket_Encode p w = Ok w' ->
  exists body, len body <= maxVarint /\ w' = w ++ packet_bytes 0x82 body /\
    decodeMockSubscribe (sp_Version p) body = inr (mkSubscribeInfo (sp_PacketID p) (canon_subscription (sp_Version p) <$> sp_Subscriptions p)).
Proof.
  intros Hid Hp Ho He. assert (Hb : Forall (fun s => exists b, subscribeOptionsByte (sp_Version p) (sub_Options s) = Ok b) (sp_Subscriptions p)).
  { unfold SubscribePacket_Encode in He. do 3 (case_match; [done|]). next_write He Hpr. next_write He Hs. by eapply appendSubscriptions_bytes. }
  apply SubscribePacket_Encode_body in He as (body & Hl & -> & Hpos & Hne & Hdec); [|done..]. exists body. split_and!; [done..|].
  assert (Hne' : canon_subscription (sp_Version p) <$> sp_Subscriptions p <> []) by (by destruct (sp_Subscriptions p)).
  etrans; [exact (lenient_filters _ _ _ _ _ subscribeNoFilters _ _ _ _ _ mkSubscribeInfo (lenient_subscription (sp_Version p)) Hne' Hdec)|].
  do 2 f_equal. rewrite <- list_fmap_compose. apply list_fmap_ext. intros i s Hs%list_elem_of_lookup_2. rewrite Forall_forall in Ho, Hb.
  destruct (Hb s Hs) as [b Hsb]. exact (mock_subscription_canon _ s b (Ho s Hs) Hsb).
Qed.

Lemma mock_reads_unsubscribe p w w' : in_u16 (up_PacketID p) -> wf_optprops (up_Properties p) -> UnsubscribePacket_Encode p w = Ok w' ->
  exists body, len body <= maxVarint /\ w' = w ++ packet_bytes 0xA2 body /\
    decodeMockUnsubscribe (up_Version p) body = inr (mkUnsubscribeInfo (up_PacketID p) (up_Filters p)).
Proof.
  intros Hid Hp (body & Hl & -> & Hpos & Hne & Hdec)%UnsubscribePacket_Encode_body; [|done..]. exists body. split_and!; [done..|].
  etrans; [exact (lenient_filters _ _ _ _ _ unsubscribeNoFilters _ _ _ _ _ mkUnsubscribeInfo lenient_readString Hne Hdec)|]. by rewrite list_fmap_id.
Qed.

(** * The answers, as the client reads them *)

Lemma encodeMockVarint_spec n : encodeMockVarint n = vbytes (u32 n).
Proof.
  unfold encodeMockVarint, vbytes, appendVarint. generalize (@nil Z) as out. generalize (u32 n) as v. generalize 5%nat as fuel.
  induction fuel as [|fuel IH]; intros v out; [done|]. cbn [encodeMockVarint_loop appendVarint_loop]. destruct (_ =? 0); [done|apply IH].
Qed.

Lemma writeMockFrame_spec h body w : len body <= maxVarint -> writeMockFrame h body w = Ok (w ++ packet_bytes h body).
Proof.
  intros Hl. unfold writeMockFrame, packet_bytes, maxVarint in *. rewrite encodeMockVarint_spec, u32_id by (unfold in_u32; lia).
  destruct (len body =? 0) eqn:E; [|by rewrite <- app_assoc]. destruct body; [|cbn in E; lia]. by rewrite app_nil_r.
Qed.

(** The decoding loop takes the bytes of properties not seen before, in any
    order. *)
Definition takes (target : Z) (bs : list Z) (ids : list Z) (p p' : Properties) : Prop :=
  forall fuel seen pre rest, (length (bs ++ rest) <= fuel)%nat -> 0 <= seen -> (forall i, i ∈ ids -> Z.testbit seen i = false) ->
  exists fuel' seen', (length rest <= fuel')%nat /\ 0 <= seen' /\ (forall i, Z.testbit seen' i = true -> Z.testbit seen i = true \/ i ∈ ids) /\
    decodeProperties_loop fuel target p seen (at_pos pre (bs ++ rest)) = decodeProperties_loop fuel' target p' seen' (at_pos (pre ++ bs) rest).

Lemma takes_nil target p : takes target [] [] p p.
Proof. intros fuel seen pre rest Hf Hs _. exists fuel, seen. rewrite app_nil_r. split_and!; [done..|by left|done]. Qed.

Lemma takes_app target b1 b2 i1 i2 p p1 p2 : (forall i, i ∈ i1 -> i ∉ i2) ->
  takes target b1 i1 p p1 -> takes target b2 i2 p1 p2 -> takes target (b1 ++ b2) (i1 ++ i2) p p2.
Proof.
  intros Hd H1 H2 fuel seen pre rest Hf Hs Hi. rewrite <- app_assoc in *. setoid_rewrite elem_of_app in Hi.
  destruct (H1 fuel seen pre (b2 ++ rest) Hf Hs) as (f1 & s1 & Hf1 & Hs1 & Hi1 & ->); [by intros i ?; apply Hi; left|].
  destruct (H2 f1 s1 (pre ++ b1) rest Hf1 Hs1) as (f2 & s2 & Hf2 & Hs2 & Hi2 & ->).
  { intros i Hx. apply not_true_iff_false. intros [H|H]%Hi1; [by rewrite (Hi i (or_intror Hx)) in H|]. by destruct (Hd i H). }
  exists f2, s2. rewrite <- app_assoc. split_and!; [done..| |done]. intros i [H|H]%Hi2; [apply Hi1 in H as [?|?]|]; rewrite ?elem_of_app; auto.
Qed.

Lemma takes_one target id vb p p' allowed : 0 <= id < 64 -> propertySpec !! id = Some allowed -> (Z.land allowed target =? 0) = false ->
  repeatableProperty id target = false -> parses (Properties_decodeOne p id) vb p' -> takes target (id :: vb) [id] p p'.
Proof.
  intros Hid Ha Hl Hr Hp fuel seen pre rest Hf Hs Hi. destruct fuel as [|fuel]; [simpl in Hf; lia|].
  cbn [decodeProperties_loop]. rewrite parser_bind_eq, get_remaining_at. replace (len ((id :: vb) ++ rest) >? 0) with true by (simpl length; lia).
  rewrite parser_bind_eq. cbn [app]. rewrite (parses_readByte id pre (vb ++ rest) : readByte (at_pos pre (id :: _)) = _). rewrite Ha, Hl, Hr. cbn [negb].
  rewrite has_bits_pow2 by done. rewrite (Hi id) by apply list_elem_of_here. rewrite parser_bind_eq, Hp, <- app_assoc.
  exists fuel, (Z.lor seen (u64 (Z.shiftl 1 id))). cbn [app] in Hf. simpl in Hf. rewrite length_app in Hf.
  assert (Hb : u64 (Z.shiftl 1 id) = 2 ^ id).
  { rewrite Z.shiftl_mul_pow2, Z.mul_1_l by lia. apply u64_id. unfold in_u64. pose proof (Z.pow_lt_mono_r 2 id 64). pose proof (Z.pow_pos_nonneg 2 id). lia. }
  rewrite Hb. split_and!; [lia|apply Z.lor_nonneg; split; [done|]; apply Z.pow_nonneg; lia| |done].
  intros i. rewrite Z.lor_spec, orb_true_iff. intros [H|H]; [by left|right]. rewrite list_elem_of_singleton. destruct (Z.eq_dec i id) as [|Hne]; [done|].
  by rewrite Z.pow2_bits_false in H by lia.
Qed.

(** A block of such properties. *)
Lemma block_parses target bs ids p : len bs <= maxVarint -> takes target bs ids emptyProperties p ->
  parses (decodeProperties target) (vbytes (len bs) ++ bs) (if len bs =? 0 then None else Some p).
Proof.
  intros Hl Ht. unfold decodeProperties. eapply parses_bind; [apply parses_readVarint; lia|].
  intros pre rest. rewrite parser_bind_eq, get_remaining_at, Zlength_app. replace (len bs >? len bs + len rest) with false by lia.
  rewrite parser_bind_eq, (parses_next_bytes (len bs) bs eq_refl). destruct (len bs =? 0); [done|].
  destruct (Ht (length bs) 0 [] []) as (fuel & seen & _ & _ & _ & H); [by rewrite app_nil_r|lia|intros; apply Z.bits_0|].
  rewrite app_nil_r in H. rewrite Nat2Z.id, parser_bind_eq. unfold on_sub. by rewrite newCursor_at, H, decodeProperties_loop_end.
Qed.

Lemma takes_mono target bs ids ids' p p' : ids ⊆ ids' -> takes target bs ids p p' -> takes target bs ids' p p'.
Proof.
  intros Hi Ht fuel seen pre rest Hf Hs Hs'. destruct (Ht fuel seen pre rest Hf Hs) as (f1 & s1 & H1 & H2 & H3 & H4); [by intros i Hx; apply Hs', Hi|].
  exists f1, s1. split_and!; [done..| |done]. intros i [?|?]%H3; [by left|right; by apply Hi].
Qed.

(** ** CONNACK *)

Lemma parses_checked (r : parser Z) bs x (bad : Z -> bool) e (k : Z -> parser Properties) q : parses r bs x -> bad x = false -> parses (k x) [] q ->
  parses ((v ← r; if bad v then fail e else mret v) ≫= k) bs q.
Proof.
  intros Hr Hb Hk. rewrite <- (app_nil_r bs). eapply parses_bind; [|exact Hk]. rewrite <- (app_nil_r bs). eapply parses_bind; [exact Hr|rewrite Hb; apply parses_ret].
Qed.

Section connack.
Abbreviation legal id := (fun v => propertyValueViolation id v = false).

(** Values a broker may announce. *)
Record announceable (p : Properties) : Prop := {
  an_wf : wf_props p;
  an_receive : opt_in (legal 0x21) (ReceiveMaximum p);
  an_qos : opt_in (legal 0x24) (MaximumQoS p);
  an_retain : opt_in (legal 0x25) (RetainAvailable p);
  an_size : opt_in (legal 0x27) (MaximumPacketSize p);
  an_id : AssignedClientID p = [] \/ valid_str (AssignedClientID p)
}.

(** The scriptable subset. *)
Definition announced (p : Properties) : Properties :=
  set_MaximumPacketSize (MaximumPacketSize p) (set_RetainAvailable (RetainAvailable p) (set_MaximumQoS (MaximumQoS p)
    (set_TopicAliasMaximum (TopicAliasMaximum p) (set_AssignedClientID (AssignedClientID p) (set_ServerKeepAlive (ServerKeepAlive p)
      (set_ReceiveMaximum (ReceiveMaximum p) emptyProperties)))))).

Definition piece (id : Z) (enc : Z -> list Z) (v : option Z) : list Z := match v with Some x => id :: enc x | None => [] end.
Definition piece_str (id : Z) (s : list Z) : list Z := if nonempty s then id :: str_bytes s else [].

Definition announced_bytes (p : Properties) : list Z :=
  piece 0x21 PutUint16 (ReceiveMaximum p) ++ piece 0x13 PutUint16 (ServerKeepAlive p) ++ piece_str 0x12 (AssignedClientID p) ++
  piece 0x22 PutUint16 (TopicAliasMaximum p) ++ piece 0x24 (fun v => [v]) (MaximumQoS p) ++ piece 0x25 (fun v => [v]) (RetainAvailable p) ++
  piece 0x27 PutUint32 (MaximumPacketSize p).

Lemma takes_piece id enc v acc f allowed : 0 <= id < 64 -> propertySpec !! id = Some allowed -> (Z.land allowed tgConnack =? 0) = false ->
  repeatableProperty id tgConnack = false -> f None acc = acc ->
  (forall x, v = Some x -> parses (Properties_decodeOne acc id) (enc x) (f (Some x) acc)) -> takes tgConnack (piece id enc v) [id] acc (f v acc).
Proof.
  intros Hid Ha Hl Hr Hn Hp. destruct v as [x|]; cbn [piece]; [by eapply takes_one; eauto|]. rewrite Hn.
  eapply takes_mono; [|apply takes_nil]. apply list_subseteq_nil.
Qed.

Lemma takes_announced p : announceable p -> takes tgConnack (announced_bytes p) [0x21; 0x13; 0x12; 0x22; 0x24; 0x25; 0x27] emptyProperties (announced p).
Proof.
  intros [(_ & _ & Hka & _ & Hrm & Hta & _ & Hmp & _) Hr Hq Hre Hs Hi]. unfold announced_bytes, announced.
  assert (Hone : forall id bs rest ids acc acc' q, id ∉ ids -> takes tgConnack bs [id] acc acc' -> takes tgConnack rest ids acc' q ->
    takes tgConnack (bs ++ rest) (id :: ids) acc q).
  { intros id bs rest ids acc acc' q Hn. apply (takes_app _ _ _ [id]). by intros i ->%list_elem_of_singleton. }
  eapply Hone; [by_decide|eapply (takes_piece 0x21 PutUint16 _ _ set_ReceiveMaximum); [done..|vm_compute; reflexivity|]; intros x Hx;
    apply (parses_checked _ _ x (propertyValueViolation _)); [by apply parses_readUint16, Hrm|by apply Hr|apply parses_ret]|].
  eapply Hone; [by_decide|eapply (takes_piece 0x13 PutUint16 _ _ set_ServerKeepAlive); [done..|vm_compute; reflexivity|]; intros x Hx;
    apply (parses_checked _ _ x (propertyValueViolation _)); [by apply parses_readUint16, Hka|done|apply parses_ret]|].
  eapply Hone with (acc' := set_AssignedClientID (AssignedClientID p) (set_ServerKeepAlive (ServerKeepAlive p) (set_ReceiveMaximum (ReceiveMaximum p) emptyProperties)));
    [by_decide| |].
  { unfold piece_str, nonempty. destruct Hi as [->|Hi]; [eapply takes_mono; [|apply takes_nil]; apply list_subseteq_nil|].
    case_bool_decide as E; cbn [negb]; [rewrite E; eapply takes_mono; [|apply takes_nil]; apply list_subseteq_nil|].
    eapply takes_one; [by_decide|done|done|done|]. rewrite <- (app_nil_r (str_bytes _)). eapply parses_bind; [by apply parses_readString|apply parses_ret]. }
  eapply Hone; [by_decide|eapply (takes_piece 0x22 PutUint16 _ _ set_TopicAliasMaximum); [done..|vm_compute; reflexivity|]; intros x Hx;
    apply (parses_checked _ _ x (propertyValueViolation _)); [by apply parses_readUint16, Hta|done|apply parses_ret]|].
  eapply Hone; [by_decide|eapply (takes_piece 0x24 (fun v => [v]) _ _ set_MaximumQoS); [done..|vm_compute; reflexivity|]; intros x Hx;
    apply (parses_checked _ _ x (propertyValueViolation _)); [by apply parses_readByte|by apply Hq|apply parses_ret]|].
  eapply Hone; [by_decide|eapply (takes_piece 0x25 (fun v => [v]) _ _ set_RetainAvailable); [done..|vm_compute; reflexivity|]; intros x Hx;
    apply (parses_checked _ _ x (propertyValueViolation _)); [by apply parses_readByte|by apply Hre|apply parses_ret]|].
  eapply (takes_piece 0x27 PutUint32 _ _ set_MaximumPacketSize); [done..|vm_compute; reflexivity|]. intros x Hx.
  apply (parses_checked _ _ x (propertyValueViolation _)); [by apply parses_readUint32, Hmp|by apply Hs|apply parses_ret].
Qed.

Lemma announced_len p : announceable p -> 0 <= len (announced_bytes p) <= 70000.
Proof.
  intros [_ _ _ _ _ Hi]. assert (H : forall id enc v n, (forall x, (length (enc x) <= n)%nat) -> (length (piece id enc v) <= S n)%nat).
  { intros id enc [x|] n Hx; cbn; [specialize (Hx x)|]; lia. }
  unfold announced_bytes. rewrite !length_app.
  pose proof (H 0x21 PutUint16 (ReceiveMaximum p) 2%nat ltac:(done)). pose proof (H 0x13 PutUint16 (ServerKeepAlive p) 2%nat ltac:(done)).
  pose proof (H 0x22 PutUint16 (TopicAliasMaximum p) 2%nat ltac:(done)). pose proof (H 0x24 (fun v => [v]) (MaximumQoS p) 1%nat ltac:(done)).
  pose proof (H 0x25 (fun v => [v]) (RetainAvailable p) 1%nat ltac:(done)). pose proof (H 0x27 PutUint32 (MaximumPacketSize p) 4%nat ltac:(done)).
  assert (len (piece_str 0x12 (AssignedClientID p)) <= 3 + maxStringLen); [|unfold maxStringLen in *; lia].
  unfold piece_str. destruct Hi as [->|(Hl & _)]; [done|]. destruct (nonempty _); [|cbn; unfold maxStringLen; lia]. cbn. unfold maxStringLen in *. lia.
Qed.

Lemma appendMockConnackProps_spec body p : announceable p ->
  appendMockConnackProps body (Some p) = body ++ vbytes (len (announced_bytes p)) ++ announced_bytes p.
Proof.
  intros Ha. unfold appendMockConnackProps. rewrite encodeMockVarint_spec.
  match goal with |- (body ++ vbytes (u32 (len ?x))) ++ _ = _ => assert (E : x = announced_bytes p) end.
  { assert (Hw : forall id enc v b, when_set v (fun v b => (b ++ [id]) ++ enc v) b = b ++ piece id enc v).
    { intros id enc [x|] b; cbn; [by rewrite <- app_assoc|by rewrite app_nil_r]. }
    unfold writeMockU16, writeMockU32. rewrite !Hw. assert (Hs : forall b, (if nonempty (AssignedClientID p) then writeMockString (b ++ [0x12]) (AssignedClientID p) else b) =
      b ++ piece_str 0x12 (AssignedClientID p)).
    { intros b. unfold piece_str, writeMockString, writeMockU16, str_bytes. destruct (an_id p Ha) as [->|(Hl & _)]; [cbn; by rewrite app_nil_r|]. unfold maxStringLen in Hl.
      rewrite u16_id by (unfold in_u16; lia). destruct (nonempty _); [by rewrite <- !app_assoc|by rewrite app_nil_r]. }
    rewrite Hs. unfold announced_bytes. by rewrite <- !app_assoc. }
  rewrite E. pose proof (announced_len p Ha). rewrite u32_id by (unfold in_u32; lia). by rewrite <- app_assoc.
Qed.

Lemma announced_empty p : len (announced_bytes p) = 0 <-> announced p = emptyProperties.
Proof.
  assert (Hn : forall id enc v, length (piece id enc v) = 0%nat -> v = None) by (by intros id enc [x|]).
  assert (Hs : forall id s, length (piece_str id s) = 0%nat -> s = []).
  { intros id str. unfold piece_str, nonempty. by case_bool_decide. }
  unfold announced_bytes, announced. rewrite !length_app. split.
  - intros H. rewrite (Hn 0x21 PutUint16 (ReceiveMaximum p)), (Hn 0x13 PutUint16 (ServerKeepAlive p)), (Hs 0x12 (AssignedClientID p)),
      (Hn 0x22 PutUint16 (TopicAliasMaximum p)), (Hn 0x24 (fun v => [v]) (MaximumQoS p)), (Hn 0x25 (fun v => [v]) (RetainAvailable p)),
      (Hn 0x27 PutUint32 (MaximumPacketSize p)) by lia. done.
  - by intros [= -> -> -> -> -> -> ->].
Qed.

Lemma parses_announced p : announceable p ->
  parses (decodeProperties tgConnack) (vbytes (len (announced_bytes p)) ++ announced_bytes p) (normProps (Some (announced p))).
Proof.
  intros Ha. pose proof (announced_len p Ha) as Hl.
  assert (H := block_parses tgConnack (announced_bytes p) _ _ ltac:(unfold maxVarint; lia) (takes_announced p Ha)). cbn [normProps].
  destruct (len (announced_bytes p) =? 0) eqn:E.
  - by rewrite decide_True by (apply announced_empty; lia).
  - rewrite decide_False; [done|]. rewrite <- announced_empty. lia.
Qed.
End connack.

(** The CONNACK the script stands for, as the client sees it. *)
Definition scripted_reason (b : mockBroker) : Z := if (mb_rejectConnect b).1 then (mb_rejectConnect b).2 else Success.
Definition scripted_connack (v : Z) (b : mockBroker) : ConnackPacket :=
  let r := scripted_reason b in
  mkConnack (mb_sessionPresent b)
    (if v =? V311 then if r =? 0 then Success else default UnspecifiedError (v3ConnackReason !! r) else r)
    (if v =? V50 then p ← mb_connackProps b; normProps (Some (announced p)) else None).

Lemma buildConnack_read v b : Version_Valid v = true -> (forall p, mb_connackProps b = Some p -> announceable p) ->
  (mb_sessionPresent b = true -> scripted_reason b = Success) ->
  let '(body, b') := buildConnack v b in
  len body <= maxVarint /\ DecodeConnack v body = Ok (scripted_connack v b) /\ b' = set_mb_rejectConnect (false, (mb_rejectConnect b).2) b.
Proof.
  intros Hv Hp Hs. unfold buildConnack, mbind, broker_bind, bgets, bupd, mret, broker_ret. unfold scripted_connack, scripted_reason in *.
  destruct (mb_rejectConnect b) as [armed value]. cbn [fst snd] in *. set (r := if armed then value else Success) in *.
  assert (Hbits : has_bits (if mb_sessionPresent b then 1 else 0) 0xFE = false /\ has_bits (if mb_sessionPresent b then 1 else 0) 0x01 = mb_sessionPresent b)
    by (by destruct (mb_sessionPresent b)).
  destruct Hbits as [Hb1 Hb2]. assert (Hok : mb_sessionPresent b && negb (r =? 0) = false) by (destruct (mb_sessionPresent b); [by rewrite Hs|done]).
  apply Version_Valid_spec in Hv as [-> | ->]; cbn [Z.eqb Pos.eqb V311 V50].
  - split_and!; [done| |done]. apply parses_end_run. eapply (parses_end_bind _ _ [_]); [apply parses_readByte|]. rewrite Hb1, Hb2.
    eapply (parses_end_bind _ _ [_] []); [apply parses_readByte|]. rewrite Hok. cbn [Z.eqb Pos.eqb V311].
    apply parses_end_remaining. cbn [length Z.of_nat Z.eqb negb]. destruct (r =? 0); [apply parses_end_ret|]. destruct (v3ConnackReason !! r); apply parses_end_ret.
  - set (block := match mb_connackProps b with Some p => vbytes (len (announced_bytes p)) ++ announced_bytes p | None => [0] end).
    assert (E : appendMockConnackProps ([if mb_sessionPresent b then 1 else 0] ++ [r]) (mb_connackProps b) = [if mb_sessionPresent b then 1 else 0] ++ [r] ++ block).
    { subst block. destruct (mb_connackProps b) as [p|]; [by rewrite appendMockConnackProps_spec by auto|done]. }
    assert (Hpar : parses (decodeProperties tgConnack) block (p ← mb_connackProps b; normProps (Some (announced p)))).
    { subst block. destruct (mb_connackProps b) as [p|]; [by apply parses_announced, Hp|].
      destruct (Properties_encode_parses None [] tgConnack [0] I eq_refl) as (bs & E0 & _ & H). cbn in E0. by rewrite E0. }
    change (mb_connackProps (set_mb_rejectConnect (false, value) b)) with (mb_connackProps b). rewrite E. split_and!; [|apply parses_end_run|done].
    + subst block. rewrite !length_app. destruct (mb_connackProps b) as [p|]; cbn [length]; [|unfold maxVarint; lia]. rewrite length_app.
      pose proof (announced_len p (Hp p eq_refl)). pose proof (length_vbytes (len (announced_bytes p)) ltac:(unfold maxVarint; lia)). pose proof (varintLen_range (len (announced_bytes p))). unfold maxVarint. lia.
    + eapply parses_end_bind; [apply parses_readByte|]. rewrite Hb1, Hb2. eapply parses_end_bind; [apply parses_readByte|]. rewrite Hok. cbn [Z.eqb Pos.eqb V311 V50].
      rewrite <- (app_nil_r block). eapply parses_end_bind; [exact Hpar|]. apply parses_end_remaining, parses_end_ret.
Qed.

(** ** SUBACK and UNSUBACK *)

Lemma buildSuback_read v pid subs b : Version_Valid v = true -> 0 < pid < 65536 -> subs <> [] ->
  let codes := (fun s => policy_resolve (so_QoS (sub_Options s)) (mb_subAck b)) <$> subs in
  Forall (fun rc => (if v =? V311 then subackReasonV311 else subackReasonV50) !! rc = Some true) codes ->
  DecodeSuback v (buildSuback v pid subs b).1 = Ok (mkSuback pid codes None).
Proof.
  intros Hv Hid Hne codes Hc. unfold buildSuback, mbind, broker_bind, bgets, mret, broker_ret. cbn [fst]. fold codes.
  assert (E : DecodeSuback v (PutUint16 pid ++ (if v =? V50 then [0] else []) ++ codes) =
    if negb (len codes =? 0) && forallb (fun rc => default false ((if v =? V311 then subackReasonV311 else subackReasonV50) !! rc)) codes
    then Ok (mkSuback pid codes (canon_props v None)) else Err ErrMalformedPacket).
  { apply suback_exact; try done. by destruct (v =? V50). }
  replace (canon_props v None) with (@None Properties) in E by (unfold canon_props; by destruct (v =? V50)).
  replace (forallb _ codes) with true in E.
  - destruct subs; [done|]. cbn [length Z.of_nat] in E. rewrite andb_true_r in E. replace (len codes =? 0) with false in E by (subst codes; cbn; lia).
    cbn [negb] in E. rewrite <- E. unfold writeMockU16. f_equal. destruct (v =? V50); by rewrite <- ?app_assoc.
  - symmetry. apply forallb_forall. intros rc Hrc%list_elem_of_In. rewrite Forall_forall in Hc. by rewrite Hc.
Qed.

Lemma buildMockUnsuback_read v pid n : Version_Valid v = true -> 0 < pid < 65536 ->
  DecodeUnsuback v (buildMockUnsuback v pid (S n)) = Ok (mkUnsuback pid (if v =? V50 then replicate (S n) Success else []) None).
Proof.
  intros Hv Hid. unfold DecodeUnsuback, buildMockUnsuback, run, writeMockU16. rewrite newCursor_at.
  apply Version_Valid_spec in Hv as [-> | ->]; cbn [Z.eqb Pos.eqb V311 V50 app].
  - rewrite parser_bind_eq, <- (app_nil_r (PutUint16 pid)), parses_readUint16 by (unfold in_u16; lia). by replace (pid =? 0) with false by lia.
  - rewrite parser_bind_eq, <- app_assoc, parses_readUint16 by (unfold in_u16; lia). replace (pid =? 0) with false by lia.
    destruct (Properties_encode_parses None [] tgUnsuback [0] I eq_refl) as (bs & E0 & _ & H). cbn in E0. subst bs.
    rewrite parser_bind_eq, H, parser_bind_eq, get_remaining_at. replace (len (replicate (S n) Success) =? 0) with false by (cbn; lia).
    rewrite parser_bind_eq, readReasonCodes_at. replace (forallb _ _) with true; [done|]. symmetry. apply forallb_forall.
    intros rc Hrc%list_elem_of_In. by apply elem_of_replicate in Hrc as [-> _].
Qed.

Lemma body_shorter h body : len body <= maxVarint -> len body <= len (packet_bytes h body).
Proof. intros Hl. rewrite length_packet_bytes by done. pose proof (varintLen_range (len body)). lia. Qed.

(** A request has fewer filters than bytes. *)
Lemma concat_count {A} (enc : A -> list Z) xs : (forall x, x ∈ xs -> enc x <> []) -> (length xs <= length (concat (enc <$> xs)))%nat.
Proof.
  induction xs as [|x xs IH]; intros Hx; [done|]. rewrite fmap_cons. cbn [concat length]. rewrite length_app.
  specialize (IH (fun y Hy => Hx y (list_elem_of_further _ _ _ Hy))). assert (enc x <> []) by apply Hx, list_elem_of_here. destruct (enc x); [done|cbn; lia].
Qed.

Lemma subscribe_count p f : SubscribePacket_Encode p [] = Ok f -> len (sp_Subscriptions p) <= len f.
Proof.
  intros H. unfold SubscribePacket_Encode in H. do 3 (case_match; [done|]). next_write H Hp. next_write H Hs.
  apply appendSubscriptions_inv in Hs as (enc & -> & Henc). apply writePacket_inv in H as [Hl ->]. cbn [app].
  etrans; [|by apply body_shorter]. rewrite length_app.
  assert (length (sp_Subscriptions p) <= length (concat (enc <$> sp_Subscriptions p)))%nat; [|lia].
  apply concat_count. intros s Hs. destruct (Henc s Hs) as (_ & b & _ & ->). by destruct (str_bytes _).
Qed.

Lemma unsubscribe_count p f : UnsubscribePacket_Encode p [] = Ok f -> len (up_Filters p) <= len f.
Proof.
  intros H. unfold UnsubscribePacket_Encode in H. do 3 (case_match; [done|]). next_write H Hp. next_write H Hs.
  apply appendFilters_inv in Hs as [-> _]. apply writePacket_inv in H as [Hl ->]. cbn [app].
  etrans; [|by apply body_shorter]. rewrite length_app.
  assert (length (up_Filters p) <= length (concat (str_bytes <$> up_Filters p)))%nat; [|lia]. by apply concat_count.
Qed.

(** * Serving a client *)

Inductive client_packet : Type :=
| CConnect (p : ConnectPacket)
| CSubscribe (p : SubscribePacket)
| CUnsubscribe (p : UnsubscribePacket)
| CPublish (p : PublishPacket)
| CAck (p : AckPacket)
| CPingreq
| CDisconnect (p : DisconnectPacket).

Definition packet_encode (x : client_packet) : res (list Z) :=
  match x with
  | CConnect p => ConnectPacket_Encode p []
  | CSubscribe p => SubscribePacket_Encode p []
  | CUnsubscribe p => UnsubscribePacket_Encode p []
  | CPublish p => PublishPacket_Encode p []
  | CAck p => AckPacket_EncodeAck p []
  | CPingreq => EncodePingReq []
  | CDisconnect p => DisconnectPacket_Encode p []
  end.

(** Packets of a connection with version [v], with fields of their Go types. *)
Definition wf_packet (v : Z) (x : client_packet) : Prop :=
  match x with
  | CConnect p => con_Version p = v /\ wf_connect p
  | CSubscribe p => sp_Version p = v /\ in_u16 (sp_PacketID p) /\ wf_optprops (sp_Properties p) /\
      Forall (fun s => wf_options (sub_Options s)) (sp_Subscriptions p)
  | CUnsubscribe p => up_Version p = v /\ in_u16 (up_PacketID p) /\ wf_optprops (up_Properties p)
  | CPublish p => pub_Version p = v /\ wf_publish p /\ publishable p
  | CAck p => ack_Version p = v /\ wf_ack p
  | CPingreq => True
  | CDisconnect p => dis_Version p = v /\ wf_disconnect p
  end.

(** What the broker has noted down about its clients. *)
Record ledger : Type := mkLedger {
  lg_connect : mockConnectInfo;
  lg_subs : list Subscription;
  lg_published : list mockPublished;
  lg_acks : list mockAck;
  lg_pings : Z;
  lg_disconnects : Z
}.
Definition ledger_of (b : mockBroker) : ledger :=
  mkLedger (mb_lastConnect b) (mb_subs b) (mb_published b) (mb_acks b) (mb_pingCount b) (mb_disconnectCount b).

Definition published_of (p : PublishPacket) : mockPublished :=
  mkMockPublished (pub_Topic p) (pub_Payload p) (pub_QoS p) (pub_Retain p) (pub_Dup p) (canon_props (pub_Version p) (pub_Properties p)).
Definition acked_of (p : AckPacket) : mockAck :=
  mkMockAck (ack_Type p) (ack_PacketID p) (if ack_Version p =? V50 then ack_ReasonCode p else Success).

Definition enter (g : ledger) (x : client_packet) : ledger :=
  match g with mkLedger c s p a n d =>
    match x with
    | CConnect q => mkLedger (connect_info (canon_connect q)) s p a n d
    | CSubscribe q => mkLedger c (s ++ (canon_subscription (sp_Version q) <$> sp_Subscriptions q)) p a n d
    | CUnsubscribe _ => g
    | CPublish q => mkLedger c s (p ++ [published_of q]) a n d
    | CAck q => mkLedger c s p (a ++ [acked_of q]) n d
    | CPingreq => mkLedger c s p a (n + 1) d
    | CDisconnect _ => mkLedger c s p a n (d + 1)
    end
  end.

Definition is_disconnect (x : client_packet) : bool := match x with CDisconnect _ => true | _ => false end.
Definition is_connect (x : client_packet) : bool := match x with CConnect _ => true | _ => false end.

(** serve reads until the client's DISCONNECT. *)
Fixpoint served (xs : list client_packet) : list client_packet :=
  match xs with [] => [] | x :: xs => x :: if is_disconnect x then [] else served xs end.

Section serving.
Context {HN : MockNet} (Hnet : forall out f, mock_net out f = true).
Variable l : nat.

(** The broker writes and follows its script. *)
Record stay (b b' : mockBroker) : Prop := {
  sy_ledger : ledger_of b' = ledger_of b;
  sy_reports : mb_reports b' = mb_reports b;
  sy_link lk : mb_links b !! l = Some lk -> exists lk', mb_links b' !! l = Some lk' /\ ml_in lk' = ml_in lk /\ ml_closed lk' = ml_closed lk /\
    ml_connected lk' = ml_connected lk /\ ml_version lk' = ml_version lk
}.
#[local] Instance stay_refl : Reflexive stay.
Proof using Type. split; [done..|]. intros lk Hlk. by exists lk. Qed.
#[local] Instance stay_trans : Transitive stay.
Proof using Type.
  intros b b1 b2 [L1 R1 K1] [L2 R2 K2]. split; [congruence..|]. intros lk Hlk. destruct (K1 lk Hlk) as (lk1 & Hlk1 & ? & ? & ? & ?).
  destruct (K2 lk1 Hlk1) as (lk2 & Hlk2 & ? & ? & ? & ?). exists lk2. split_and!; congruence.
Qed.

Definition stays {A} (m : broker A) : Prop := forall b, stay b (m b).2.
Lemma stays_ret {A} (a : A) : stays (mret a).
Proof using Type. intros b. apply stay_refl. Qed.
Lemma stays_gets {A} (f : mockBroker -> A) : stays (bgets f).
Proof using Type. intros b. apply stay_refl. Qed.
Lemma stays_bind {A B} (m : broker A) (f : A -> broker B) : stays m -> (forall a, stays (f a)) -> stays (m ≫= f).
Proof using Type. intros Hm Hf b. unfold mbind, broker_bind. specialize (Hm b). destruct (m b) as [a b1]. etrans; [exact Hm|apply Hf]. Qed.
Lemma stays_upd f : (forall b, ledger_of (f b) = ledger_of b /\ mb_reports (f b) = mb_reports b /\ mb_links (f b) = mb_links b) -> stays (bupd f).
Proof using Type. intros Hf b. destruct (Hf b) as (E1 & E2 & E3). split; [done..|]. intros lk Hlk. exists lk. cbn [bupd snd]. by rewrite E3. Qed.
Lemma stays_link f : (forall lk, ml_in (f lk) = ml_in lk /\ ml_closed (f lk) = ml_closed lk /\ ml_connected (f lk) = ml_connected lk /\ ml_version (f lk) = ml_version lk) ->
  stays (bupd (upd_ml l f)).
Proof using Type.
  intros Hf b. split; [done..|]. intros lk Hlk. exists (f lk). split_and!; try apply Hf.
  change (alter f l (mb_links b) !! l = Some (f lk)). by rewrite list_lookup_alter_eq, Hlk.
Qed.

Lemma stays_send fn : stays (link_send l fn).
Proof using Type.
  unfold link_send. destruct (fn []); [|apply stays_ret]. apply stays_bind; [apply stays_gets|]. intros lk. destruct (_ && _); [|apply stays_ret].
  apply stays_bind; [|intros; apply stays_ret]. by apply stays_link.
Qed.

Lemma sends fn f b lk : fn [] = Ok f -> mb_links b !! l = Some lk -> ml_closed lk = false -> (link_send l fn b).1 = true.
Proof using Hnet.
  intros Hf Hlk Hc. assert (Hl : link_of l b = lk) by (unfold link_of; by rewrite Hlk).
  unfold link_send, mbind, broker_bind, bgets. rewrite Hf, Hl, Hc. by rewrite Hnet.
Qed.

Lemma stays_take get set : (forall n b, ledger_of (set n b) = ledger_of b /\ mb_reports (set n b) = mb_reports b /\ mb_links (set n b) = mb_links b) ->
  stays (mockTakeCounter get set).
Proof using Type.
  intros Hs. unfold mockTakeCounter. apply stays_bind; [apply stays_gets|]. intros n. destruct (n <=? 0); [apply stays_ret|].
  apply stays_bind; [|intros; apply stays_ret]. apply stays_upd. intros b. apply Hs.
Qed.

Lemma stays_reply t id : stays (mockReply l t id).
Proof using Type. unfold mockReply. apply stays_bind; [apply stays_gets|]. intros v. apply stays_send. Qed.

Lemma stays_puback id : stays (replyPuback l id).
Proof using Type.
  unfold replyPuback. apply stays_bind; [by apply stays_take|]. intros [|]; [apply stays_ret|]. apply stays_bind; [apply stays_reply|]. intros _.
  apply stays_bind; [apply stays_gets|]. intros [|]; [|apply stays_ret]. apply stays_bind; [by apply stays_upd|]. intros _.
  apply stays_bind; [apply stays_reply|]. intros _. apply stays_ret.
Qed.

Lemma stays_dropped get set t id : (forall n b, ledger_of (set n b) = ledger_of b /\ mb_reports (set n b) = mb_reports b /\ mb_links (set n b) = mb_links b) ->
  stays (drop ← mockTakeCounter get set; if (drop : bool) then mret tt else _ ← mockReply l t id; mret tt).
Proof using Type.
  intros Hs. apply stays_bind; [by apply stays_take|]. intros [|]; [apply stays_ret|]. apply stays_bind; [apply stays_reply|]. intros _. apply stays_ret.
Qed.

Lemma stays_resolve get set id : (forall m lk, ml_in (set m lk) = ml_in lk /\ ml_closed (set m lk) = ml_closed lk /\
    ml_connected (set m lk) = ml_connected lk /\ ml_version (set m lk) = ml_version lk) -> stays (link_resolve l get set id).
Proof using Type.
  intros Hs. unfold link_resolve. apply stays_bind; [apply stays_gets|]. intros m. apply stays_bind; [apply stays_link; intros lk; apply Hs|]. intros _.
  destruct (m !! id); [by apply stays_upd|apply stays_ret].
Qed.

(** * One packet *)

(** The link after a turn. *)
Definition still (v : Z) (rest : list Z) (b : mockBroker) : Prop := exists lk, mb_links b !! l = Some lk /\ ml_in lk = rest /\
  ml_closed lk = false /\ ml_connected lk = true /\ ml_version lk = v.

Lemma still_stay v rest b b' : stay b b' -> still v rest b -> still v rest b'.
Proof using Type. intros [_ _ Hk] (lk & Hlk & H1 & H2 & H3 & H4). destruct (Hk lk Hlk) as (lk' & ? & ? & ? & ? & ?). exists lk'. split_and!; congruence. Qed.

Definition turns (g : ledger) (x : client_packet) (v : Z) (rest : list Z) (rs : list mockReport) (r : bool * mockBroker) : Prop :=
  r.1 = negb (is_disconnect x) /\ ledger_of r.2 = enter g x /\ mb_reports r.2 = rs /\ still v rest r.2.

Lemma link_version v rest b : still v rest b -> ml_version (link_of l b) = v.
Proof using Type. intros (lk & Hlk & _ & _ & _ & Hv). unfold link_of. by rewrite Hlk. Qed.

Lemma broker_bind_eq {A B} (m : broker A) (f : A -> broker B) b : (m ≫= f) b = let '(a, b1) := m b in f a b1.
Proof using Type. done. Qed.

Lemma bupd_bind_eq {B} (f : mockBroker -> mockBroker) (k : unit -> broker B) b : (bupd f ≫= k) b = k tt (f b).
Proof using Type. done. Qed.
Lemma bgets_bind_eq {A B} (f : mockBroker -> A) (k : A -> broker B) b : (bgets f ≫= k) b = k (f b) b.
Proof using Type. done. Qed.

(** Note the packet down, then answer. *)
Lemma turns_answer {A} g x v rest rs (m : broker A) b : is_disconnect x = false -> ledger_of b = enter g x -> mb_reports b = rs -> still v rest b ->
  stays m -> turns g x v rest rs ((_ ← m; mret true) b).
Proof using Type.
  intros Hd Hg Hr Hs Hm. rewrite broker_bind_eq. specialize (Hm b). destruct (m b) as [a b1]. cbn [snd] in Hm.
  unfold turns. rewrite Hd. cbn [fst snd mret broker_ret negb]. split_and!; [done|by rewrite (sy_ledger _ _ Hm)|by rewrite (sy_reports _ _ Hm)|by eapply still_stay].
Qed.

Lemma turns_send g x v rest rs fn f b : is_disconnect x = false -> ledger_of b = enter g x -> mb_reports b = rs -> still v rest b ->
  fn [] = Ok f -> turns g x v rest rs (link_send l fn b).
Proof using Hnet.
  intros Hd Hg Hr Hs Hf. pose proof Hs as (lk & Hlk & _ & Hc & _). pose proof (stays_send fn b) as Hm. unfold turns. rewrite Hd.
  split_and!; [by eapply sends|by rewrite (sy_ledger _ _ Hm)|by rewrite (sy_reports _ _ Hm)|by eapply still_stay].
Qed.

Lemma frame_written h body : exists f, writeMockFrame h body [] = Ok f.
Proof using Type. unfold writeMockFrame. destruct (_ =? 0); eauto. Qed.

(** The branch of a packet type. *)
Ltac open_frame Ht :=
  unfold serve_frame; rewrite Ht, bgets_bind_eq;
  cbn [Z.eqb Pos.eqb Connect Connack Publish Puback Pubrec Pubrel Pubcomp Subscribe Suback Unsubscribe Unsuback Pingreq Pingresp Disconnect Auth Body Header].

Lemma serve_connect p body b lk : decodeMockConnect body = inr (connect_info (canon_connect p)) ->
  mb_links b !! l = Some lk -> ml_closed lk = false ->
  turns (ledger_of b) (CConnect p) (con_Version p) (ml_in lk) (mb_reports b) (serve_frame l (mkFrame (u8 (Z.shiftl Connect 4)) body) b).
Proof using Hnet.
  intros Hdec Hlk Hc. assert (Ht : Frame_PacketType (mkFrame (u8 (Z.shiftl Connect 4)) body) = Connect) by done.
  open_frame Ht. rewrite Hdec. unfold recordConnect. rewrite !bupd_bind_eq, broker_bind_eq.
  match goal with |- context [buildConnack ?v ?b1] => set (b2 := b1) end. cbn [mi_version connect_info canon_connect con_Version] in *.
  assert (Hs : still (con_Version p) (ml_in lk) b2).
  { exists (set_ml_connected true (set_ml_version (con_Version p) lk)). split_and!; try done.
    change (alter (set_ml_connected true) l (alter (set_ml_version (con_Version p)) l (mb_links b)) !! l = Some (set_ml_connected true (set_ml_version (con_Version p) lk))).
    by rewrite !list_lookup_alter_eq, Hlk. }
  assert (Hk : stays (buildConnack (con_Version p))).
  { unfold buildConnack. apply stays_bind; [apply stays_gets|]. intros present. apply stays_bind; [apply stays_gets|]. intros [armed value].
    apply stays_bind; [by apply stays_upd|]. intros _. apply stays_bind; [apply stays_gets|]. intros props. apply stays_ret. }
  specialize (Hk b2). destruct (buildConnack (con_Version p) b2) as [bs b3]. cbn [snd] in Hk. destruct (frame_written (u8 (Z.shiftl Connack 4)) bs) as [f Hf].
  eapply turns_send; [done|by rewrite (sy_ledger _ _ Hk)|by rewrite (sy_reports _ _ Hk)|by eapply still_stay|exact Hf].
Qed.

Lemma still_noted v rest b b' : mb_links b' = mb_links b -> still v rest b -> still v rest b'.
Proof using Type. intros E (lk & Hlk & H). exists lk. by rewrite E. Qed.

Lemma serve_subscribe p body v rest b : sp_Version p = v -> still v rest b ->
  decodeMockSubscribe v body = inr (mkSubscribeInfo (sp_PacketID p) (canon_subscription v <$> sp_Subscriptions p)) ->
  turns (ledger_of b) (CSubscribe p) v rest (mb_reports b) (serve_frame l (mkFrame 0x82 body) b).
Proof using Hnet.
  intros Hv Hs Hdec. assert (Ht : Frame_PacketType (mkFrame 0x82 body) = Subscribe) by done. open_frame Ht.
  rewrite (link_version v rest b Hs), Hdec. cbn [ms_subs ms_packetID]. unfold recordSubscriptions, buildSuback. rewrite bupd_bind_eq, broker_bind_eq, bgets_bind_eq. cbn [mret broker_ret]. match goal with |- context [link_sendRaw l ?h ?bs] => destruct (frame_written h bs) as [f Hf] end.
  eapply turns_send; [done| |done|by eapply still_noted, Hs|exact Hf]. subst v. done.
Qed.

Lemma serve_unsubscribe p body v rest b : up_Version p = v -> still v rest b ->
  decodeMockUnsubscribe v body = inr (mkUnsubscribeInfo (up_PacketID p) (up_Filters p)) ->
  turns (ledger_of b) (CUnsubscribe p) v rest (mb_reports b) (serve_frame l (mkFrame 0xA2 body) b).
Proof using Hnet.
  intros Hv Hs Hdec. assert (Ht : Frame_PacketType (mkFrame 0xA2 body) = Unsubscribe) by done. open_frame Ht.
  rewrite (link_version v rest b Hs), Hdec. match goal with |- context [link_sendRaw l ?h ?bs] => destruct (frame_written h bs) as [f Hf] end.
  by eapply turns_send.
Qed.

Lemma serve_publish p body v rest b : pub_Version p = v -> still v rest b -> 0 <= pub_QoS p <= 2 -> (pub_QoS p =? 0) && pub_Dup p = false ->
  DecodePublish v (publish_header (pub_Dup p) (pub_Retain p) (pub_QoS p)) body = Ok (canon_publish p) ->
  turns (ledger_of b) (CPublish p) v rest (mb_reports b) (serve_frame l (mkFrame (publish_header (pub_Dup p) (pub_Retain p) (pub_QoS p)) body) b).
Proof using Hnet.
  intros Hv Hs Hq Hd Hdec. destruct (publish_header_flags (pub_Dup p) (pub_Retain p) _ Hq Hd) as (_ & _ & _ & _ & Ht). specialize (Ht body). open_frame Ht.
  rewrite (link_version v rest b Hs), Hdec. unfold recordPublished. rewrite bupd_bind_eq. apply turns_answer; [done| |done|by eapply still_noted, Hs|].
  - subst v. unfold enter, ledger_of, published_of, canon_props, canon_publish. cbn. done.
  - destruct (_ =? 1); [apply stays_puback|]. destruct (_ =? 2); [by apply stays_dropped|apply stays_ret].
Qed.

Lemma serve_ack p body v rest b target : ack_Version p = v -> still v rest b -> Version_Valid v = true -> wf_ack p -> 0 < ack_PacketID p ->
  ackTarget (ack_Type p) = Some target -> DecodeAck v (ack_Type p) body = Ok (canon_ack p) ->
  turns (ledger_of b) (CAck p) v rest (mb_reports b) (serve_frame l (mkFrame (ack_header (ack_Type p)) body) b).
Proof using Hnet.
  intros Hv Hs Hvalid (Hid & _) Hpos Htg Hdec. destruct (ack_header_flags _ _ body Htg) as [_ Ht].
  assert (Hg : forall b1, b1 = set_mb_acks (mb_acks b ++ [mkMockAck (ack_Type (canon_ack p)) (ack_PacketID (canon_ack p)) (ack_ReasonCode (canon_ack p))]) b ->
    ledger_of b1 = enter (ledger_of b) (CAck p) /\ mb_reports b1 = mb_reports b /\ still v rest b1).
  { intros b1 ->. split_and!; [done..|]. by eapply still_noted, Hs. }
  destruct (Hg _ eq_refl) as (G1 & G2 & G3).
  apply ackTarget_cases in Htg as [E | [E | [E | E]]]; rewrite E in *; open_frame Ht; rewrite (link_version v rest b Hs), Hdec; unfold recordAck; rewrite bupd_bind_eq.
  - apply turns_answer; try done. by apply stays_resolve.
  - destruct (AckPacket_EncodeAck (mkAck v Pubrel (ack_PacketID (canon_ack p)) Success None) []) as [f|e] eqn:Ef; [by eapply turns_send|].
    exfalso. cbn [ack_PacketID canon_ack] in Ef. unfold AckPacket_EncodeAck in Ef. cbn [ack_Version ack_Type ack_PacketID ack_ReasonCode ack_Properties] in Ef.
    rewrite Hvalid in Ef. cbn [negb ackTarget Pubrel Z.eqb Pos.eqb] in Ef. replace (ack_PacketID p =? 0) with false in Ef by lia.
    by apply Version_Valid_spec in Hvalid as [-> | ->].
  - apply turns_answer; try done. by apply stays_dropped.
  - apply turns_answer; try done. by apply stays_resolve.
Qed.

Lemma serve_ping v rest b : still v rest b ->
  turns (ledger_of b) CPingreq v rest (mb_reports b) (serve_frame l (mkFrame (u8 (Z.shiftl Pingreq 4)) []) b).
Proof using Hnet.
  intros Hs. assert (Ht : Frame_PacketType (mkFrame (u8 (Z.shiftl Pingreq 4)) []) = Pingreq) by done. open_frame Ht. rewrite bupd_bind_eq, bgets_bind_eq.
  set (b1 := set_mb_pingCount (mb_pingCount b + 1) b). assert (Hs1 : still v rest b1) by (by eapply still_noted, Hs).
  assert (Hm : stays (if mb_dropPings b1 then mret true else mockTakeCounter mb_dropNextPings set_mb_dropNextPings)).
  { destruct (mb_dropPings b1); [apply stays_ret|by apply stays_take]. }
  rewrite broker_bind_eq. specialize (Hm b1). match type of Hm with stay _ (?r).2 => destruct r as [drop b2] end. cbn [snd] in Hm.
  assert (Hs2 : still v rest b2) by (by eapply still_stay). pose proof (sy_ledger _ _ Hm) as Hg. pose proof (sy_reports _ _ Hm) as Hr.
  destruct drop; [|by eapply turns_send]. split_and!; [done| |done..]. by cbn [snd mret broker_ret]; rewrite Hg.
Qed.

Lemma serve_disconnect p body v rest b : still v rest b ->
  turns (ledger_of b) (CDisconnect p) v rest (mb_reports b) (serve_frame l (mkFrame (u8 (Z.shiftl Disconnect 4)) body) b).
Proof using Type.
  intros Hs. assert (Ht : Frame_PacketType (mkFrame (u8 (Z.shiftl Disconnect 4)) body) = Disconnect) by done. open_frame Ht. rewrite bupd_bind_eq.
  unfold turns. cbn [fst snd mret broker_ret]. split_and!; [done..|]. by eapply still_noted, Hs.
Qed.

(** The frame at the head of what the client has sent. *)
Lemma serve_reads h body rest b lk : mb_links b !! l = Some lk -> ml_in lk = packet_bytes h body ++ rest -> len body <= maxVarint ->
  len (packet_bytes h body) <= mockMaxRemainingLength -> ml_connected lk = true \/ Frame_PacketType (mkFrame h body) = Connect ->
  serve_turn l b = serve_frame l (mkFrame h body) (upd_ml l (set_ml_in rest) b).
Proof using Type.
  intros Hlk Hin Hb Hl Hc. assert (Hlof : link_of l b = lk) by (unfold link_of; by rewrite Hlk). unfold serve_turn. rewrite bgets_bind_eq, Hlof, Hin.
  rewrite ReadFrame_packet by (done || by_decide). rewrite bupd_bind_eq, bgets_bind_eq.
  assert (Hlof' : link_of l (upd_ml l (set_ml_in rest) b) = set_ml_in rest lk).
  { unfold link_of. change (mb_links (upd_ml l (set_ml_in rest) b)) with (alter (set_ml_in rest) l (mb_links b)). by rewrite list_lookup_alter_eq, Hlk. }
  rewrite Hlof'. change (ml_connected (set_ml_in rest lk)) with (ml_connected lk). destruct Hc as [-> | ->]; [done|]. by rewrite andb_false_r.
Qed.

Lemma serve_packet v x f rest b lk : Version_Valid v = true -> mb_links b !! l = Some lk -> ml_closed lk = false ->
  ml_connected lk = true /\ ml_version lk = v \/ is_connect x = true -> wf_packet v x -> packet_encode x = Ok f -> len f <= mockMaxRemainingLength ->
  ml_in lk = f ++ rest -> turns (ledger_of b) x v rest (mb_reports b) (serve_turn l b).
Proof using Hnet.
  intros Hv Hlk Hc Hx Hwf He Hl Hin.
  assert (Hlk1 : mb_links (upd_ml l (set_ml_in rest) b) !! l = Some (set_ml_in rest lk)).
  { change (alter (set_ml_in rest) l (mb_links b) !! l = Some (set_ml_in rest lk)). by rewrite list_lookup_alter_eq, Hlk. }
  assert (Hs : is_connect x = false -> still v rest (upd_ml l (set_ml_in rest) b)).
  { intros Hn. destruct Hx as [[H1 H2]|H]; [|congruence]. by exists (set_ml_in rest lk). }
  assert (Hcon : is_connect x = false -> ml_connected lk = true) by (intros Hn; destruct Hx as [[H1 _]|H]; congruence).
  destruct x as [p|p|p|p|p| |p]; cbn [packet_encode wf_packet is_connect] in *.
  - destruct Hwf as [<- Hwf]. apply mock_reads_connect in He as (body & Hb & -> & Hdec); [|done]. rewrite (serve_reads _ body rest b lk Hlk Hin Hb Hl (or_intror eq_refl)).
    exact (serve_connect p body _ _ Hdec Hlk1 Hc).
  - destruct Hwf as (Hver & Hid & Hp & Ho). apply mock_reads_subscribe in He as (body & Hb & -> & Hdec); [|done..]. rewrite (serve_reads _ body rest b lk Hlk Hin Hb Hl (or_introl (Hcon eq_refl))).
    rewrite Hver in Hdec. by apply (serve_subscribe p body v rest (upd_ml l (set_ml_in rest) b) Hver (Hs eq_refl)).
  - destruct Hwf as (Hver & Hid & Hp). apply mock_reads_unsubscribe in He as (body & Hb & -> & Hdec); [|done..]. rewrite (serve_reads _ body rest b lk Hlk Hin Hb Hl (or_introl (Hcon eq_refl))).
    rewrite Hver in Hdec. by apply (serve_unsubscribe p body v rest (upd_ml l (set_ml_in rest) b) Hver (Hs eq_refl)).
  - destruct Hwf as (Hver & Hp & Hpub). apply PublishPacket_Encode_body in He as (body & Hb & -> & Hq & Hd & Hdec); [|done..]. rewrite (serve_reads _ body rest b lk Hlk Hin Hb Hl (or_introl (Hcon eq_refl))).
    rewrite Hver in Hdec. destruct Hp as (Hq0 & _). by apply (serve_publish p body v rest (upd_ml l (set_ml_in rest) b) Hver (Hs eq_refl) ltac:(unfold in_u8 in *; lia)).
  - destruct Hwf as (Hver & Hp). assert (Hpos : 0 < ack_PacketID p).
    { unfold AckPacket_EncodeAck in He. destruct (negb _); [done|]. destruct (ackTarget _); [|done]. destruct (ack_PacketID p =? 0) eqn:E; [done|].
      destruct Hp as [Hp _]. unfold in_u16 in Hp. lia. }
    apply AckPacket_EncodeAck_body in He as (body & target & Hb & Htg & -> & Hdec); [|done]. rewrite (serve_reads _ body rest b lk Hlk Hin Hb Hl (or_introl (Hcon eq_refl))).
    rewrite Hver in Hdec. by apply (serve_ack p body v rest (upd_ml l (set_ml_in rest) b) target Hver (Hs eq_refl)).
  - unfold EncodePingReq in He. apply writePacket_inv in He as [Hb ->]. rewrite (serve_reads _ [] rest b lk Hlk Hin Hb Hl (or_introl (Hcon eq_refl))). exact (serve_ping v rest _ (Hs eq_refl)).
  - destruct Hwf as [_ Hp]. apply DisconnectPacket_Encode_body in He as (body & Hb & -> & _); [|done]. rewrite (serve_reads _ body rest b lk Hlk Hin Hb Hl (or_introl (Hcon eq_refl))).
    exact (serve_disconnect p body v rest _ (Hs eq_refl)).
Qed.

(** * All packets *)

Definition sends_frames (v : Z) : list client_packet -> list (list Z) -> Prop :=
  Forall2 (fun x f => wf_packet v x /\ packet_encode x = Ok f /\ len f <= mockMaxRemainingLength).

Lemma exit_keeps b : ledger_of (serve_exit l b) = ledger_of b /\ mb_reports (serve_exit l b) = mb_reports b.
Proof using Type. unfold serve_exit. by case_bool_decide. Qed.

Lemma serve_packets v xs frames b lk : Version_Valid v = true -> sends_frames v xs frames -> mb_links b !! l = Some lk -> ml_closed lk = false ->
  ml_in lk = concat frames -> (ml_connected lk = true /\ ml_version lk = v \/ exists p ys, xs = CConnect p :: ys) ->
  let b' := (serve_loop (S (length xs)) l b).2 in
  mb_reports b' = mb_reports b /\ ledger_of b' = fold_left enter (served xs) (ledger_of b).
Proof using Hnet.
  intros Hv. revert b lk frames. induction xs as [|x xs IH]; intros b lk frames Hx Hlk Hc Hin Hcon.
  - apply Forall2_nil_inv_l in Hx as ->. cbn [serve_loop length]. rewrite broker_bind_eq. unfold serve_turn. rewrite bgets_bind_eq.
    unfold link_of. rewrite Hlk. cbn [default from_option]. unfold id. rewrite Hin. split; apply exit_keeps.
  - apply Forall2_cons_inv_l in Hx as (f & fs & (Hwf & He & Hl) & Hx & ->). cbn [concat] in Hin. cbn [length]. cbn [serve_loop]. rewrite broker_bind_eq.
    assert (Ht : turns (ledger_of b) x v (concat fs) (mb_reports b) (serve_turn l b)).
    { eapply (serve_packet v x f); try done. destruct Hcon as [?|(p & ys & [= -> ->])]; [by left|by right]. }
    destruct (serve_turn l b) as [on b1]. destruct Ht as (Hon & Hg & Hr & (lk1 & Hlk1 & Hi1 & Hc1 & Hn1 & Hv1)). cbn [fst snd] in *. subst on.
    cbn [served fold_left]. rewrite <- Hg, <- Hr. destruct (is_disconnect x); cbn [negb fold_left].
    + split; apply exit_keeps.
    + by apply (IH b1 lk1 fs); auto.
Qed.

(** ** Answers on the wire *)

Lemma send_out fn f b lk : fn [] = Ok f -> mb_links b !! l = Some lk -> ml_closed lk = false ->
  mb_links (link_send l fn b).2 !! l = Some (set_ml_out (ml_out lk ++ [f]) lk).
Proof using Hnet.
  intros Hf Hlk Hc. assert (Hl : link_of l b = lk) by (unfold link_of; by rewrite Hlk). unfold link_send. rewrite Hf, bgets_bind_eq, Hl, Hc, Hnet. cbn [negb andb].
  rewrite bupd_bind_eq. cbn [mret broker_ret snd]. change (alter (set_ml_out (ml_out lk ++ [f])) l (mb_links b) !! l = Some (set_ml_out (ml_out lk ++ [f]) lk)).
  by rewrite list_lookup_alter_eq, Hlk.
Qed.

(** The script has no answer that the protocol forbids. *)
Record sane_script (v : Z) (b : mockBroker) : Prop := {
  ss_props p : mb_connackProps b = Some p -> announceable p;
  ss_present : mb_sessionPresent b = true -> scripted_reason b = Success;
  ss_codes q : q <= 2 -> 0 <= q -> (if v =? V311 then subackReasonV311 else subackReasonV50) !! policy_resolve q (mb_subAck b) = Some true
}.

(** What the client makes of the answer to a request. *)
Definition answer_of (v : Z) (b : mockBroker) (x : client_packet) (answer : Frame) : Prop :=
  match x with
  | CConnect p => Frame_PacketType answer = Connack /\ DecodeConnack v (Body answer) = Ok (scripted_connack v b)
  | CSubscribe p => Frame_PacketType answer = Suback /\ DecodeSuback v (Body answer) =
      Ok (mkSuback (sp_PacketID p) ((fun s => policy_resolve (so_QoS (sub_Options s)) (mb_subAck b)) <$> sp_Subscriptions p) None)
  | CUnsubscribe p => Frame_PacketType answer = Unsuback /\ DecodeUnsuback v (Body answer) =
      Ok (mkUnsuback (up_PacketID p) (if v =? V50 then replicate (length (up_Filters p)) Success else []) None)
  | _ => True
  end.

Definition is_request (x : client_packet) : bool := match x with CConnect _ | CSubscribe _ | CUnsubscribe _ => true | _ => false end.

(** The frame of an answer is the only one written. *)
Definition answers (v : Z) (b : mockBroker) (x : client_packet) (lk : mockLink) (b' : mockBroker) : Prop :=
  exists h body lk', len body <= maxVarint /\ answer_of v b x (mkFrame h body) /\ mb_links b' !! l = Some lk' /\ ml_out lk' = ml_out lk ++ [packet_bytes h body].

Lemma answers_sent v b x lk h body b1 lk1 : len body <= maxVarint -> answer_of v b x (mkFrame h body) -> mb_links b1 !! l = Some lk1 ->
  ml_out lk1 = ml_out lk -> ml_closed lk1 = false -> answers v b x lk (link_sendRaw l h body b1).2.
Proof using Hnet.
  intros Hl Ha Hlk Ho Hc. exists h, body. eexists. split_and!; [done..|apply (send_out _ _ _ _ (writeMockFrame_spec h body [] Hl) Hlk Hc)|]. by rewrite <- Ho.
Qed.

Lemma connect_answers p body b lk : sane_script (con_Version p) b -> Version_Valid (con_Version p) = true ->
  decodeMockConnect body = inr (connect_info (canon_connect p)) -> mb_links b !! l = Some lk -> ml_closed lk = false ->
  answers (con_Version p) b (CConnect p) lk (serve_frame l (mkFrame (u8 (Z.shiftl Connect 4)) body) b).2.
Proof using Hnet.
  intros [H1 H2 _] Hv Hdec Hlk Hc. assert (Ht : Frame_PacketType (mkFrame (u8 (Z.shiftl Connect 4)) body) = Connect) by done.
  open_frame Ht. rewrite Hdec. unfold recordConnect. rewrite !bupd_bind_eq, broker_bind_eq.
  match goal with |- context [buildConnack ?v ?b1] => set (b2 := b1) end. cbn [mi_version connect_info canon_connect con_Version] in *.
  pose proof (buildConnack_read (con_Version p) b2 Hv H1 H2) as Hb. destruct (buildConnack (con_Version p) b2) as [bs b3]. destruct Hb as (Hl & Hd & ->).
  eapply (answers_sent _ _ _ _ _ _ _ (set_ml_connected true (set_ml_version (con_Version p) lk))); [done|by split| |done|done].
  change (alter (set_ml_connected true) l (alter (set_ml_version (con_Version p)) l (mb_links b)) !! l = Some (set_ml_connected true (set_ml_version (con_Version p) lk))).
  by rewrite !list_lookup_alter_eq, Hlk.
Qed.

Lemma subscribe_answers p body f v b lk : sp_Version p = v -> sane_script v b -> Version_Valid v = true -> mb_links b !! l = Some lk -> ml_closed lk = false ->
  ml_version lk = v -> in_u16 (sp_PacketID p) -> Forall (fun s => wf_options (sub_Options s)) (sp_Subscriptions p) ->
  SubscribePacket_Encode p [] = Ok f -> len f <= mockMaxRemainingLength ->
  decodeMockSubscribe v body = inr (mkSubscribeInfo (sp_PacketID p) (canon_subscription v <$> sp_Subscriptions p)) ->
  answers v b (CSubscribe p) lk (serve_frame l (mkFrame 0x82 body) b).2.
Proof using Hnet.
  intros Ev [_ _ H3] Hv Hlk Hc Hver Hid Ho He Hf Hdec. assert (Ht : Frame_PacketType (mkFrame 0x82 body) = Subscribe) by done. open_frame Ht.
  assert (Hlof : link_of l b = lk) by (unfold link_of; by rewrite Hlk). rewrite Hlof, Hver, Hdec. cbn [ms_subs ms_packetID]. unfold recordSubscriptions. rewrite bupd_bind_eq, broker_bind_eq.
  pose proof (subscribe_count p f He) as Hn. assert (Hq : 0 < sp_PacketID p /\ sp_Subscriptions p <> [] /\ Forall (fun s => so_QoS (sub_Options s) <= 2) (sp_Subscriptions p)).
  { unfold SubscribePacket_Encode in He. destruct (negb _); [done|]. destruct (sp_PacketID p =? 0) eqn:E0; [done|]. destruct (len _ =? 0) eqn:E1; [done|].
    unfold in_u16 in Hid. split_and!; [lia|by intros E; rewrite E in E1|]. next_write He Hp. next_write He Hs. apply appendSubscriptions_bytes in Hs.
    apply (Forall_impl _ _ _ Hs). intros s [bt Hb]. unfold subscribeOptionsByte in Hb. destruct (_ >? 2) eqn:E2; [done|]. lia. }
  destruct Hq as (Hpos & Hne & Hq). unfold in_u16 in Hid.
  pose proof (buildSuback_read v (sp_PacketID p) (canon_subscription v <$> sp_Subscriptions p)
    (set_mb_subs (mb_subs b ++ (canon_subscription v <$> sp_Subscriptions p)) (set_mb_subFrames (mb_subFrames b + 1) b)) Hv ltac:(lia)) as Hb.
  match type of Hb with context [buildSuback _ _ _ ?x] => set (b1 := x) in * end. change (mb_subAck b1) with (mb_subAck b) in Hb. rewrite <- list_fmap_compose in Hb.
  assert (Ec : (((fun s => policy_resolve (so_QoS (sub_Options s)) (mb_subAck b)) ∘ canon_subscription v) <$> sp_Subscriptions p) =
    ((fun s => policy_resolve (so_QoS (sub_Options s)) (mb_subAck b)) <$> sp_Subscriptions p)).
  { apply list_fmap_ext. intros i s _. unfold compose, canon_subscription, canon_options. by destruct (v =? V50). }
  rewrite Ec in Hb. cbv zeta in Hb. assert (Hbs : buildSuback v (sp_PacketID p) (canon_subscription v <$> sp_Subscriptions p) b1 =
    ((buildSuback v (sp_PacketID p) (canon_subscription v <$> sp_Subscriptions p) b1).1, b1)) by done.
  rewrite Hbs. eapply answers_sent; [| |exact Hlk|done|done].
  - unfold buildSuback. rewrite bgets_bind_eq. cbn [fst mret broker_ret]. rewrite length_app, !length_fmap. unfold mockMaxRemainingLength, maxVarint in *.
    destruct (v =? V50); rewrite ?length_app; cbn [length writeMockU16 PutUint16 app]; lia.
  - split; [done|]. apply Hb; [by destruct (sp_Subscriptions p)|]. apply Forall_fmap. rewrite Forall_forall in Hq, Ho |- *. intros s Hs. apply H3; [by apply Hq|].
    destruct (Ho s Hs) as [[? _] _]. done.
Qed.

Lemma unsubscribe_answers p body f v b lk : up_Version p = v -> Version_Valid v = true -> mb_links b !! l = Some lk -> ml_closed lk = false ->
  ml_version lk = v -> in_u16 (up_PacketID p) -> UnsubscribePacket_Encode p [] = Ok f -> len f <= mockMaxRemainingLength ->
  decodeMockUnsubscribe v body = inr (mkUnsubscribeInfo (up_PacketID p) (up_Filters p)) ->
  answers v b (CUnsubscribe p) lk (serve_frame l (mkFrame 0xA2 body) b).2.
Proof using Hnet.
  intros Ev Hv Hlk Hc Hver Hid He Hf Hdec. assert (Ht : Frame_PacketType (mkFrame 0xA2 body) = Unsubscribe) by done. open_frame Ht.
  assert (Hlof : link_of l b = lk) by (unfold link_of; by rewrite Hlk). rewrite Hlof, Hver, Hdec. cbn [mu_filters mu_packetID].
  pose proof (unsubscribe_count p f He) as Hn. assert (Hq : 0 < up_PacketID p /\ up_Filters p <> []).
  { unfold UnsubscribePacket_Encode in He. destruct (negb _); [done|]. destruct (up_PacketID p =? 0) eqn:E0; [done|]. destruct (len _ =? 0) eqn:E1; [done|].
    unfold in_u16 in Hid. split; [lia|by intros E; rewrite E in E1]. }
  destruct Hq as [Hpos Hne]. unfold in_u16 in Hid. eapply answers_sent; [| |exact Hlk|done|done].
  - unfold buildMockUnsuback, mockMaxRemainingLength, maxVarint, writeMockU16 in *. destruct (v =? V50); rewrite ?length_app, ?length_replicate; cbn [length PutUint16]; lia.
  - split; [done|]. cbn [Body]. destruct (up_Filters p) as [|x xs]; [done|]. apply buildMockUnsuback_read; [done|lia].
Qed.

Lemma serve_answers v x f rest b lk : Version_Valid v = true -> mb_links b !! l = Some lk -> ml_closed lk = false ->
  ml_connected lk = true /\ ml_version lk = v \/ is_connect x = true -> wf_packet v x -> packet_encode x = Ok f -> len f <= mockMaxRemainingLength ->
  ml_in lk = f ++ rest -> is_request x = true -> sane_script v b -> answers v b x lk (serve_turn l b).2.
Proof using Hnet.
  intros Hv Hlk Hc Hx Hwf He Hl Hin Hreq Hs.
  assert (Hlk1 : mb_links (upd_ml l (set_ml_in rest) b) !! l = Some (set_ml_in rest lk)).
  { change (alter (set_ml_in rest) l (mb_links b) !! l = Some (set_ml_in rest lk)). by rewrite list_lookup_alter_eq, Hlk. }
  assert (Hs1 : sane_script v (upd_ml l (set_ml_in rest) b)) by (destruct Hs; by split).
  assert (Hcon : is_connect x = false -> ml_connected lk = true /\ ml_version lk = v) by (intros Hn; destruct Hx as [?|H]; [done|congruence]).
  destruct x as [p|p|p|p|p| |p]; cbn [packet_encode wf_packet is_connect is_request] in *; try done.
  - destruct Hwf as [<- Hwf]. apply mock_reads_connect in He as (body & Hb & -> & Hdec); [|done].
    rewrite (serve_reads _ body rest b lk Hlk Hin Hb Hl (or_intror eq_refl)). exact (connect_answers p body _ _ Hs1 Hv Hdec Hlk1 Hc).
  - destruct Hwf as (Hver & Hid & Hp & Ho). destruct (Hcon eq_refl) as [Hc1 Hv1]. pose proof He as He'.
    apply mock_reads_subscribe in He' as (body & Hb & Ef & Hdec); [|done..]. rewrite Hver in Hdec. rewrite Ef in Hin.
    rewrite (serve_reads _ body rest b lk Hlk Hin Hb ltac:(by rewrite Ef in Hl) (or_introl Hc1)).
    exact (subscribe_answers p body f v (upd_ml l (set_ml_in rest) b) (set_ml_in rest lk) Hver Hs1 Hv Hlk1 Hc Hv1 Hid Ho He Hl Hdec).
  - destruct Hwf as (Hver & Hid & Hp). destruct (Hcon eq_refl) as [Hc1 Hv1]. pose proof He as He'.
    apply mock_reads_unsubscribe in He' as (body & Hb & Ef & Hdec); [|done..]. rewrite Hver in Hdec. rewrite Ef in Hin.
    rewrite (serve_reads _ body rest b lk Hlk Hin Hb ltac:(by rewrite Ef in Hl) (or_introl Hc1)).
    exact (unsubscribe_answers p body f v (upd_ml l (set_ml_in rest) b) (set_ml_in rest lk) Hver Hv Hlk1 Hc Hv1 Hid He Hl Hdec).
Qed.
End serving.

(** * Theorems *)

(** C33.  The broker double blames no client that keeps to the protocol and notes
    down exactly what it did.  A connection carries a CONNECT and then any
    packets that the client's encoders produce for its version, in frames of at
    most 16 MiB and with topics a PUBLISH may carry (the encoder would also write
    wildcards, which the double reports), and every write of the broker succeeds:
    serve reports nothing to the test, and its records grow, in order, by the version, clean
    start flag and properties of each CONNECT, every filter with its options,
    every message, every acknowledgement with its reason code, every PINGREQ
    and the DISCONNECT, after which it stops reading. *)
Theorem mock_blames_no_client {HN : MockNet} (l : nat) (p : ConnectPacket) (xs : list client_packet) (frames : list (list Z)) (b : mockBroker) (lk : mockLink) :
  (forall out f, mock_net out f = true) -> mb_links b !! l = Some lk -> ml_closed lk = false -> ml_in lk = concat frames ->
  sends_frames (con_Version p) (CConnect p :: xs) frames ->
  let b' := (serve_loop (S (S (length xs))) l b).2 in
  mb_reports b' = mb_reports b /\ ledger_of b' = fold_left enter (served (CConnect p :: xs)) (ledger_of b).
Proof.
  intros Hnet Hlk Hc Hin Hx. assert (Hv : Version_Valid (con_Version p) = true).
  { pose proof Hx as (f & fs & (_ & He & _) & _)%Forall2_cons_inv_l. by apply Version_Valid_spec, (ConnectPacket_Encode_steps p [] f). }
  eapply (serve_packets Hnet l _ (CConnect p :: xs) frames b lk Hv Hx Hlk Hc Hin). right. by eexists _, _.
Qed.

#[export] Instance open_net : MockNet := fun _ _ => true.

(** A visit: connect, subscribe, publish, acknowledge, ping, leave. *)
Definition visit : list client_packet :=
  [CSubscribe (mkSubscribe V50 3 [mkSubscription (gostr "a/+") (mkSubscribeOptions 1 true false 2)] None);
   CPublish (mkPublish V50 (gostr "t") [1; 2] 2 false false 4 None); CAck (mkAck V50 Pubrel 4 Success None); CPingreq;
   CDisconnect (mkDisconnect V50 NormalDisconnection None)].
Definition visitor : ConnectPacket := mkConnect V50 (gostr "id") 30 [] [] true None (Some (set_ReceiveMaximum (Some 10) emptyProperties)).
Definition visit_frames : list (list Z) := (fun x => match packet_encode x with Ok f => f | Err _ => [] end) <$> CConnect visitor :: visit.
Definition visited : mockBroker := acceptLoop_turn (concat visit_frames) newMockBroker.

Lemma visit_sends : sends_frames V50 (CConnect visitor :: visit) visit_frames.
Proof.
  unfold sends_frames, visit_frames, visit. rewrite !fmap_cons, fmap_nil.
  repeat (apply Forall2_cons; split; [split; [|split; [vm_compute; reflexivity|by_decide]]|]); [..|constructor]; cbn [wf_packet]; unfold wf_connect, wf_ack, wf_disconnect.
  - split; [done|]. split; [by_decide|]. split; [|done]. unfold wf_optprops, wf_props. cbn. split_and!; try done. by intros v [= <-].
  - split; [done|]. split; [by_decide|]. split; [done|]. apply Forall_singleton. split; by_decide.
  - split; [done|]. split; [|split; [by vm_compute|by left]]. split; [by_decide|]. split; [by_decide|done].
  - split_and!; [done|by_decide|by_decide|done].
  - done.
  - split_and!; [done|by_decide|done].
Qed.

Lemma mock_blames_no_client_witness : let b' := (serve_loop 7 0 visited).2 in
  mb_reports b' = [] /\ length (lg_subs (ledger_of b')) = 1%nat /\ length (lg_published (ledger_of b')) = 1%nat /\
  ledger_of b' = fold_left enter (CConnect visitor :: visit) (ledger_of visited).
Proof.
  destruct (mock_blames_no_client 0 visitor visit visit_frames visited (newMockLink (concat visit_frames))) as [H1 H2]; [done|done|done|done|exact visit_sends|].
  split; [exact H1|]. split; [vm_compute; reflexivity|]. split; [vm_compute; reflexivity|]. exact H2.
Defined.
