(* ===== verification/Topic.v ===== *)
(** Topic names, topic filters and matching (protocol/topic.go), with the
    matching rules of MQTT section 4.7 as an inductive relation on levels. *)

From S2P Require Import Prelude GoStrings Codes Wire.
From stdpp Require Import options.

Definition maxTopicLen : Z := 0xFFFF.
Definition sharedPrefix : list Z := gostr "$share/".

(** [None] is Go's [ok == false]. *)
Definition splitShared (s : list Z) : option (list Z * list Z) :=
  match CutPrefix s sharedPrefix with
  | None => None
  | Some rest =>
    let '(shareName, filter, found) := Cut rest SLASH in
    if negb found || bool_decide (shareName = []) || bool_decide (filter = []) ||
       ContainsAny shareName (gostr "+#")
    then None
    else Some (shareName, filter)
  end.

(** The loop of [matchLevels] over the filter levels; [i] is the loop index and
    [n] is [len(filterLevels)].  A topic level is looked up only below
    [len(topicLevels)]. *)
Fixpoint matchLevels_loop (i n : nat) (fls topicLevels : list (list Z)) : bool :=
  match fls with
  | [] => (n =? length topicLevels)%nat
  | fl :: fls' =>
    if bool_decide (fl = [HASH]) then true
    else match topicLevels !! i with
    | None => false
    | Some tl =>
      if bool_decide (fl = [PLUS]) then matchLevels_loop (S i) n fls' topicLevels
      else if bool_decide (fl <> tl) then false
      else matchLevels_loop (S i) n fls' topicLevels
    end
  end.

Definition matchLevels (filterLevels topicLevels : list (list Z)) : bool :=
  matchLevels_loop 0 (length filterLevels) filterLevels topicLevels.

(** [s != "" && p(s[0])]. *)
Definition first_is (p : Z -> bool) (s : list Z) : bool :=
  match s with [] => false | c :: _ => p c end.

Definition MatchTopic (filter topic : list Z) : bool :=
  let filter := match splitShared filter with Some (_, wrapped) => wrapped | None => filter end in
  if first_is (Z.eqb DOLLAR) topic && first_is (fun c => (c =? HASH) || (c =? PLUS)) filter then false
  else matchLevels (Split filter SLASH) (Split topic SLASH).

Definition ValidateTopicName (s : list Z) : res unit :=
  if bool_decide (s = []) then Err ErrProtocolViolation
  else if len s >? maxTopicLen then Err ErrProtocolViolation
  else if negb (ValidString s) then Err ErrProtocolViolation
  else if contains_byte s 0 then Err ErrProtocolViolation
  else if ContainsAny s (gostr "+#") then Err ErrProtocolViolation
  else Ok tt.

(** The loop of [validateFilterLevels]: [i] is the index, [n] the number of
    levels. *)
Fixpoint validateFilterLevels_loop (i n : nat) (levels : list (list Z)) : res unit :=
  match levels with
  | [] => Ok tt
  | level :: levels' =>
    if contains_byte level HASH && (bool_decide (level <> [HASH]) || negb (i =? n - 1)%nat)
    then Err ErrProtocolViolation
    else if contains_byte level PLUS && bool_decide (level <> [PLUS])
    then Err ErrProtocolViolation
    else validateFilterLevels_loop (S i) n levels'
  end.

Definition validateFilterLevels (s : list Z) : res unit :=
  let levels := Split s SLASH in validateFilterLevels_loop 0 (length levels) levels.

Definition ValidateTopicFilter (s : list Z) : res unit :=
  if bool_decide (s = []) then Err ErrProtocolViolation
  else if len s >? maxTopicLen then Err ErrProtocolViolation
  else if negb (ValidString s) then Err ErrProtocolViolation
  else if contains_byte s 0 then Err ErrProtocolViolation
  else match CutPrefix s sharedPrefix with
  | Some rest =>
    let '(shareName, wrapped, split) := Cut rest SLASH in
    if negb split then Err ErrProtocolViolation
    else if bool_decide (shareName = []) then Err ErrProtocolViolation
    else if ContainsAny shareName (gostr "+#") then Err ErrProtocolViolation
    else if bool_decide (wrapped = []) then Err ErrProtocolViolation
    else validateFilterLevels wrapped
  | None => validateFilterLevels s
  end.

(** * The matching rules *)

(** A level of a filter that stands for itself. *)
Definition literal (l : list Z) : Prop := (HASH ∉ l) /\ (PLUS ∉ l).

(** Where wildcards may stand: ['+'] in any level but alone there, ['#']
    alone in the last level. *)
Inductive filter_levels : list (list Z) -> Prop :=
| FL_nil : filter_levels []
| FL_hash : filter_levels [[HASH]]
| FL_plus ls : filter_levels ls -> filter_levels ([PLUS] :: ls)
| FL_lit l ls : literal l -> filter_levels ls -> filter_levels (l :: ls).

(** MQTT 4.7.1: ['#'] stands for any number of levels, none included, ['+'] for
    exactly one, any other level for itself. *)
Inductive levels_match : list (list Z) -> list (list Z) -> Prop :=
| LM_nil : levels_match [] []
| LM_hash ts : levels_match [[HASH]] ts
| LM_plus fs t ts : levels_match fs ts -> levels_match ([PLUS] :: fs) (t :: ts)
| LM_lit fs l ts : literal l -> levels_match fs ts -> levels_match (l :: fs) (l :: ts).

(** MQTT 4.7.2: a filter that begins with a wildcard does not see the topics
    that begin with ['$']. *)
Definition hidden (filter topic : list Z) : Prop :=
  head topic = Some DOLLAR /\ (head filter = Some HASH \/ head filter = Some PLUS).

(** MQTT 4.8.2, stated without the code's splitting functions: of a shared
    subscription "$share/{name}/{filter}", whose name is at least one character
    and has no '/', '+' or '#', the filter takes part in matching; of a filter
    that does not start with "$share/", all of it does. *)
Inductive effective : list Z -> list Z -> Prop :=
| Eff_shared name f : name <> [] -> SLASH ∉ name -> PLUS ∉ name -> HASH ∉ name -> f <> [] ->
    effective (gostr "$share/" ++ name ++ [SLASH] ++ f) f
| Eff_plain f : ~ gostr "$share/" `prefix_of` f -> effective f f.

(** The filter [MatchTopic] splits into levels. *)
Definition unshared (filter : list Z) : list Z :=
  match splitShared filter with Some (_, wrapped) => wrapped | None => filter end.

Definition topic_matches (filter topic : list Z) : Prop :=
  ~ hidden filter topic /\ levels_match (Split filter SLASH) (Split topic SLASH).

(** * Lemmas *)

Lemma not_wild_char c : c ∈ gostr "+#" <-> c = PLUS \/ c = HASH.
Proof.
  change (gostr "+#") with [PLUS; HASH]. rewrite !elem_of_cons, elem_of_nil. tauto.
Qed.

Lemma no_wildcards s : ContainsAny s (gostr "+#") = false <-> literal s.
Proof.
  rewrite ContainsAny_false. unfold literal. split.
  - intros H. split; apply H; rewrite not_wild_char; auto.
  - intros [H1 H2] c [->| ->]%not_wild_char; done.
Qed.

Lemma literal_not_wild l : literal l -> l <> [HASH] /\ l <> [PLUS].
Proof. intros [H1 H2]. split; intros ->; [apply H1|apply H2]; apply list_elem_of_here. Qed.

(** Matching without indices: the filter and the topic are walked in step. *)
Fixpoint match_in_step (fls tls : list (list Z)) : bool :=
  match fls, tls with
  | [], [] => true
  | [], _ :: _ => false
  | fl :: fls', _ =>
    if bool_decide (fl = [HASH]) then true
    else match tls with
    | [] => false
    | tl :: tls' => (bool_decide (fl = [PLUS]) || bool_decide (fl = tl)) && match_in_step fls' tls'
    end
  end.

Lemma matchLevels_loop_eq fls i tls : (i <= length tls)%nat ->
  matchLevels_loop i (i + length fls) fls tls = match_in_step fls (drop i tls).
Proof.
  revert i. induction fls as [|fl fls IH]; intros i Hi; cbn [matchLevels_loop match_in_step length].
  - rewrite Nat.add_0_r. destruct (drop i tls) eqn:E; apply (f_equal length) in E; rewrite length_drop in E;
      simpl in E; [apply Nat.eqb_eq|apply Nat.eqb_neq]; lia.
  - destruct (bool_decide (fl = [HASH])); [by destruct (drop i tls)|].
    destruct (tls !! i) as [tl|] eqn:E.
    + rewrite (drop_S tls tl i E). apply lookup_lt_Some in E.
      replace (i + S (length fls))%nat with (S i + length fls)%nat by lia. rewrite IH by lia.
      destruct (bool_decide (fl = [PLUS])); [done|]. by repeat case_bool_decide.
    + by rewrite drop_ge by (by apply lookup_ge_None).
Qed.

Lemma matchLevels_eq fls tls : matchLevels fls tls = match_in_step fls tls.
Proof. unfold matchLevels. apply (matchLevels_loop_eq fls 0 tls). lia. Qed.

Lemma match_in_step_spec fls tls : filter_levels fls -> match_in_step fls tls = true <-> levels_match fls tls.
Proof.
  intros Hf. revert tls. induction Hf as [| |ls Hls IH|l ls Hl Hls IH]; intros tls; simpl.
  - destruct tls; split; [constructor|done|done|by inversion 1].
  - split; [constructor|done].
  - destruct tls as [|t ts]; simpl.
    + split; [done|]. inversion 1.
    + rewrite IH. split; [by constructor|]. inversion 1 as [| |?|? ? ? [_ Hp]]; subst; [done|].
      exfalso. apply Hp, list_elem_of_here.
  - destruct (literal_not_wild l Hl) as [H1 H2]. rewrite bool_decide_false by done.
    destruct tls as [|t ts].
    + split; [done|]. inversion 1; by subst.
    + rewrite (bool_decide_false (l = [PLUS])) by done. simpl.
      rewrite andb_true_iff, bool_decide_eq_true, IH. split.
      * intros [<- ?]. by constructor.
      * inversion 1; by subst.
Qed.

Lemma filter_levels_cons l ls : filter_levels (l :: ls) <->
  (l = [HASH] /\ ls = []) \/ ((l = [PLUS] \/ literal l) /\ filter_levels ls).
Proof.
  split; [inversion 1; tauto|]. intros [[-> ->]|[[->|?] ?]]; by constructor.
Qed.

(** [validateFilterLevels] accepts the filters whose wildcards are well placed. *)
Lemma validateFilterLevels_loop_spec levels i n : (i + length levels = n)%nat ->
  validateFilterLevels_loop i n levels = Ok tt <-> filter_levels levels.
Proof.
  revert i. induction levels as [|l ls IH]; intros i Hi; cbn [validateFilterLevels_loop].
  { split; [constructor|done]. }
  simpl in Hi. rewrite filter_levels_cons. unfold literal.
  assert (Hls : ls = [] <-> (i = n - 1)%nat) by (destruct ls; simpl in *; split; intros; done || lia).
  specialize (IH (S i) ltac:(lia)).
  destruct (contains_byte l HASH) eqn:Eh; [apply contains_byte_spec in Eh|apply contains_byte_false in Eh]; cbn [andb].
  - destruct (decide (l = [HASH])) as [->|Hl].
    + rewrite bool_decide_false by naive_solver. cbn [orb].
      destruct (Nat.eqb_spec i (n - 1)); simpl; [|naive_solver]. rewrite IH. naive_solver (try constructor).
    + rewrite bool_decide_true by done. simpl. split; [done|]. intros [[? _]|[[->|[? _]] _]]; try done.
      by apply list_elem_of_singleton in Eh.
  - assert (l <> [HASH]) by (intros ->; apply Eh, list_elem_of_here).
    destruct (contains_byte l PLUS) eqn:Ep; [apply contains_byte_spec in Ep|apply contains_byte_false in Ep]; cbn [andb].
    + case_bool_decide; rewrite ?IH; naive_solver.
    + rewrite IH. naive_solver.
Qed.

Lemma validateFilterLevels_spec s : validateFilterLevels s = Ok tt <-> filter_levels (Split s SLASH).
Proof. unfold validateFilterLevels. by apply validateFilterLevels_loop_spec. Qed.

Lemma first_is_hidden filter topic :
  first_is (Z.eqb DOLLAR) topic && first_is (fun c => (c =? HASH) || (c =? PLUS)) filter = true <->
  hidden filter topic.
Proof.
  unfold hidden. rewrite andb_true_iff. destruct topic as [|t ts]; cbn [first_is head]; [naive_solver|].
  rewrite Z.eqb_eq. destruct filter as [|f fs]; cbn [first_is head]; [naive_solver|].
  rewrite orb_true_iff, !Z.eqb_eq. naive_solver.
Qed.

(** [MatchTopic] follows the rules on the part of the filter that matches. *)
Lemma MatchTopic_unshared filter topic : filter_levels (Split (unshared filter) SLASH) ->
  MatchTopic filter topic = true <-> topic_matches (unshared filter) topic.
Proof.
  intros Hf. unfold MatchTopic, topic_matches. fold (unshared filter).
  rewrite matchLevels_eq, <- (match_in_step_spec _ _ Hf).
  destruct (_ && _) eqn:E.
  - apply first_is_hidden in E. naive_solver.
  - assert (~ hidden (unshared filter) topic) by (rewrite <- first_is_hidden, E; done). naive_solver.
Qed.

Lemma splitShared_Some s name f : splitShared s = Some (name, f) <->
  s = sharedPrefix ++ name ++ SLASH :: f /\ SLASH ∉ name /\ name <> [] /\ f <> [] /\ literal name.
Proof.
  unfold splitShared. split.
  - destruct (CutPrefix s sharedPrefix) as [rest|] eqn:Ec; [|done]. apply CutPrefix_Some in Ec as ->.
    destruct (Cut rest SLASH) as [[a b] []] eqn:E; simpl; [|done].
    destruct (bool_decide (a = []) || _ || _) eqn:Eb; [done|]. intros [= <- <-]. bool_prop.
    apply Cut_true in E as [-> ?]. by rewrite <- no_wildcards.
  - intros (-> & Hs & Hn & Hf & Hl). rewrite (proj2 (CutPrefix_Some _ _ _) eq_refl).
    rewrite (proj2 (Cut_true _ _ _ _) (conj eq_refl Hs)).
    rewrite !bool_decide_false by done. by rewrite (proj2 (no_wildcards name) Hl).
Qed.

Lemma splitShared_None s : CutPrefix s sharedPrefix = None -> splitShared s = None.
Proof. unfold splitShared. by intros ->. Qed.

(** What the validator of a filter decides, in the terms of the standard. *)
Definition valid_filter (s : list Z) : Prop :=
  s <> [] /\ len s <= maxTopicLen /\ ValidString s = true /\ (0 ∉ s) /\
  match CutPrefix s sharedPrefix with
  | None => filter_levels (Split s SLASH)
  | Some _ => exists name f, s = sharedPrefix ++ name ++ SLASH :: f /\
      (SLASH ∉ name) /\ name <> [] /\ literal name /\ f <> [] /\ filter_levels (Split f SLASH)
  end.

Lemma ValidateTopicFilter_spec s : ValidateTopicFilter s = Ok tt <-> valid_filter s.
Proof.
  unfold ValidateTopicFilter, valid_filter, maxTopicLen.
  case_bool_decide; [naive_solver|]. destruct (len s >? 65535) eqn:El; [split; [done|intros (_ & ? & _); lia]|].
  destruct (ValidString s); cbn [negb]; [|naive_solver].
  destruct (contains_byte s 0) eqn:E0; [apply contains_byte_spec in E0; naive_solver|].
  apply contains_byte_false in E0. split.
  - intros Hv. split; [done|]. split; [lia|]. split; [done|]. split; [done|].
    destruct (CutPrefix s sharedPrefix) as [rest|] eqn:Ec; [|by apply validateFilterLevels_spec].
    apply CutPrefix_Some in Ec as ->. destruct (Cut rest SLASH) as [[a b] []] eqn:Ecut; [|done].
    apply Cut_true in Ecut as [-> ?]. cbn [negb] in Hv. case_bool_decide; [done|].
    destruct (ContainsAny a _) eqn:Ea; [done|]. case_bool_decide; [done|].
    exists a, b. rewrite <- no_wildcards, <- validateFilterLevels_spec. done.
  - intros (_ & _ & _ & _ & Hv). destruct (CutPrefix s sharedPrefix) eqn:Ec; [|by apply validateFilterLevels_spec].
    destruct Hv as (a & b & -> & Hs & Ha & Hl & Hb & Hf).
    rewrite (proj2 (CutPrefix_Some _ _ _) eq_refl) in Ec. injection Ec as <-.
    rewrite (proj2 (Cut_true _ _ _ _) (conj eq_refl Hs)). cbn [negb].
    rewrite !bool_decide_false by done. rewrite (proj2 (no_wildcards a) Hl). by apply validateFilterLevels_spec.
Qed.

(** The part of a valid filter that [MatchTopic] matches has well-placed wildcards. *)
Lemma valid_filter_unshared s : valid_filter s -> filter_levels (Split (unshared s) SLASH).
Proof.
  intros (_ & _ & _ & _ & H). unfold unshared. destruct (CutPrefix s sharedPrefix) eqn:Ec.
  - destruct H as (a & b & Hs & ? & ? & ? & ? & ?).
    assert (splitShared s = Some (a, b)) as -> by (by apply splitShared_Some). done.
  - by rewrite splitShared_None.
Qed.

(** The code's split is the split of the standard. *)
Lemma effective_unshared filter f : effective filter f -> unshared filter = f.
Proof.
  unfold unshared. intros [name f' Hn Hs Hp Hh Hf|f' Hp].
  - assert (splitShared (gostr "$share/" ++ name ++ [SLASH] ++ f') = Some (name, f')) as -> by (by apply splitShared_Some).
    done.
  - rewrite splitShared_None; [done|]. by apply CutPrefix_None.
Qed.

Lemma effective_unshared_valid s : valid_filter s -> effective s (unshared s).
Proof.
  intros (_ & _ & _ & _ & H). destruct (CutPrefix s sharedPrefix) eqn:Ec.
  - destruct H as (name & f & -> & Hs & Hn & [Hp Hh] & Hf & _).
    assert (effective (sharedPrefix ++ name ++ SLASH :: f) f) as He by (by apply Eff_shared).
    by rewrite (effective_unshared _ _ He).
  - unfold unshared. rewrite splitShared_None by done. apply Eff_plain. by apply CutPrefix_None.
Qed.

Lemma literal_Split s l : literal s -> l ∈ Split s SLASH -> literal l.
Proof.
  intros [H1 H2] Hl. split; intros Hin; [apply H1|apply H2];
    (eapply (Split_elem s SLASH); [done|]; eauto).
Qed.

Lemma literal_levels ls : (forall l, l ∈ ls -> literal l) -> filter_levels ls.
Proof.
  induction ls as [|l ls IH]; intros H; [constructor|]. apply FL_lit; [apply H, list_elem_of_here|].
  apply IH. intros l' Hl'. apply H. by right.
Qed.

Lemma literal_levels_match ls ts : (forall l, l ∈ ls -> literal l) -> levels_match ls ts <-> ls = ts.
Proof.
  revert ts. induction ls as [|l ls IH]; intros ts H.
  - split; [by inversion 1|intros <-; constructor].
  - assert (Hl : literal l) by (apply H, list_elem_of_here). destruct (literal_not_wild l Hl).
    assert (IH' : forall ts, levels_match ls ts <-> ls = ts) by (intros; apply IH; intros; apply H; by right).
    split.
    + inversion 1; subst; [done..|]. by f_equal; apply IH'.
    + intros <-. constructor; [done|]. by apply IH'.
Qed.

(** Levels under a literal prefix: the prefix itself and everything below it. *)
Lemma subtree_levels_match ls ts : (forall l, l ∈ ls -> literal l) ->
  levels_match (ls ++ [[HASH]]) ts <-> ls `prefix_of` ts.
Proof.
  revert ts. induction ls as [|l ls IH]; intros ts H; simpl.
  - split; [intros _; apply prefix_nil|constructor].
  - assert (Hl : literal l) by (apply H, list_elem_of_here). destruct (literal_not_wild l Hl).
    assert (IH' : forall ts, levels_match (ls ++ [[HASH]]) ts <-> ls `prefix_of` ts) by (intros; apply IH; intros; apply H; by right).
    split.
    + inversion 1; subst; [by destruct ls|done|]. apply prefix_cons. by apply IH'.
    + intros [k ->]. simpl. constructor; [done|]. apply IH'. by exists k.
Qed.

Lemma Split_join s t sep : Split (s ++ sep :: t) sep = Split s sep ++ Split t sep.
Proof.
  induction s as [|c s IH]; simpl; [by rewrite Z.eqb_refl|]. destruct (c =? sep); [by rewrite IH|].
  rewrite IH. pose proof (Split_nonempty s sep). by destruct (Split s sep).
Qed.

Lemma Join_app ls ks sep : ls <> [] -> ks <> [] -> Join (ls ++ ks) sep = Join ls sep ++ sep :: Join ks sep.
Proof.
  intros Hl Hk. induction ls as [|l ls IH]; [done|]. destruct ls as [|l' ls]; [by destruct ks|].
  change (Join ((l :: l' :: ls) ++ ks) sep) with (l ++ sep :: Join ((l' :: ls) ++ ks) sep).
  change (Join (l :: l' :: ls) sep) with (l ++ sep :: Join (l' :: ls) sep).
  rewrite IH by done. by rewrite <- app_assoc.
Qed.

Lemma Split_prefix s t sep : Split s sep `prefix_of` Split t sep <-> t = s \/ exists u, t = s ++ sep :: u.
Proof.
  split.
  - intros [k Hk]. destruct k as [|k ks].
    + left. rewrite app_nil_r in Hk. by apply Split_inj in Hk.
    + right. exists (Join (k :: ks) sep). apply (f_equal (fun ls => Join ls sep)) in Hk.
      rewrite Join_Split, Join_app, Join_Split in Hk by (done || apply Split_nonempty). done.
  - intros [->|[u ->]]; [done|]. rewrite Split_join. by eexists.
Qed.

Lemma literal_hash_levels ls : (forall l, l ∈ ls -> literal l) -> filter_levels (ls ++ [[HASH]]).
Proof.
  induction ls as [|l ls IH]; intros H; simpl; [constructor|]. apply FL_lit; [apply H, list_elem_of_here|].
  apply IH. intros l' Hl'. apply H. by right.
Qed.

Lemma splitShared_below prefix : CutPrefix prefix sharedPrefix = None ->
  splitShared (prefix ++ SLASH :: [HASH]) = None.
Proof.
  intros Hc. destruct (splitShared _) as [[name f]|] eqn:E; [|done]. exfalso.
  apply splitShared_Some in E as (E & _ & Hn & Hf & _). apply CutPrefix_None in Hc. apply Hc.
  exists (drop (length sharedPrefix) prefix).
  assert (length sharedPrefix <= length prefix)%nat.
  { apply (f_equal length) in E. rewrite !length_app in E. simpl length in E.
    destruct name, f; try done. simpl length in E. change (length sharedPrefix) with 7%nat. lia. }
  apply (f_equal (take (length sharedPrefix))) in E.
  rewrite take_app_le, take_app_length in E by done. by rewrite <- E at 1; rewrite take_drop.
Qed.

(** * Theorems *)

(** [ValidateTopicFilter] decides exactly the filters the standard allows:
    non-empty, at most 65535 bytes of UTF-8 without NUL, '#' only alone in the
    last level and '+' only alone in a level; and a filter that starts with
    "$share/" must be "$share/{name}/{filter}" with a non-empty name without
    wildcards and a non-empty inner filter that obeys the same rules. *)
Theorem filter_validation_exact s : ValidateTopicFilter s = Ok tt <-> valid_filter s.
Proof. apply ValidateTopicFilter_spec. Qed.

(** C30.  On a validated filter, [MatchTopic] is the matching relation of the
    standard on the part of the filter that takes part in matching ([effective],
    the inner filter of a shared subscription "$share/{name}/{filter}" and
    otherwise the filter itself): '#' stands for any number of levels, '+' for
    one, other levels for themselves, and a leading wildcard hides the '$'
    topics. *)
Theorem match_topic_correct filter topic : ValidateTopicFilter filter = Ok tt ->
  MatchTopic filter topic = true <-> exists f, effective filter f /\ topic_matches f topic.
Proof.
  rewrite ValidateTopicFilter_spec. intros Hv.
  rewrite (MatchTopic_unshared _ _ (valid_filter_unshared _ Hv)). split.
  - intros Hm. exists (unshared filter). split; [by apply effective_unshared_valid|done].
  - intros (f & He & Hm). by rewrite (effective_unshared _ _ He).
Qed.

Lemma match_topic_correct_witness :
  MatchTopic (gostr "$share/g/a/+/#") (gostr "a/b") = true <->
  exists f, effective (gostr "$share/g/a/+/#") f /\ topic_matches f (gostr "a/b").
Proof. apply match_topic_correct. vm_compute. reflexivity. Defined.

(** A filter without wildcards (and outside "$share/") matches one topic,
    itself. *)
Theorem match_literal filter topic :
  ContainsAny filter (gostr "+#") = false -> CutPrefix filter sharedPrefix = None ->
  MatchTopic filter topic = true <-> topic = filter.
Proof.
  intros Hl Hc. apply no_wildcards in Hl. assert (He : unshared filter = filter).
  { unfold unshared. by rewrite splitShared_None. }
  assert (Hlv : forall l, l ∈ Split filter SLASH -> literal l) by (intros l; by apply literal_Split).
  rewrite MatchTopic_unshared; rewrite He; [|by apply literal_levels].
  unfold topic_matches. rewrite literal_levels_match by done. split.
  - intros [_ H]. by apply Split_inj in H.
  - intros ->. split; [|done]. intros [_ [H|H]]; destruct filter as [|c f]; simplify_eq/=;
      [destruct Hl as [H _]|destruct Hl as [_ H]]; apply H, list_elem_of_here.
Qed.

Lemma match_literal_witness :
  MatchTopic (gostr "a/b") (gostr "a/b") = true <-> gostr "a/b" = gostr "a/b".
Proof. apply match_literal; vm_compute; reflexivity. Defined.

(** A filter "prefix/#" over a literal prefix matches the prefix itself and
    every topic below it, and nothing else. *)
Theorem match_subtree prefix topic :
  ContainsAny prefix (gostr "+#") = false -> CutPrefix prefix sharedPrefix = None ->
  MatchTopic (prefix ++ gostr "/#") topic = true <->
  topic = prefix \/ exists below, topic = prefix ++ SLASH :: below.
Proof.
  intros Hl Hc. apply no_wildcards in Hl. change (gostr "/#") with (SLASH :: [HASH]).
  assert (He : unshared (prefix ++ SLASH :: [HASH]) = prefix ++ SLASH :: [HASH]).
  { unfold unshared. by rewrite splitShared_below. }
  assert (Hlv : forall l, l ∈ Split prefix SLASH -> literal l) by (intros l; by apply literal_Split).
  assert (Hs : Split (prefix ++ SLASH :: [HASH]) SLASH = Split prefix SLASH ++ [[HASH]]) by apply Split_join.
  rewrite MatchTopic_unshared; rewrite He; [|rewrite Hs; by apply literal_hash_levels].
  unfold topic_matches. rewrite Hs, subtree_levels_match, Split_prefix by done.
  split; [tauto|]. intros Ht. split; [|done]. intros [Hd Hw].
  destruct prefix as [|c p]; [by destruct Hw|]. destruct Hl as [Hl1 Hl2].
  destruct Hw as [[= ->]|[= ->]]; [apply Hl1|apply Hl2]; apply list_elem_of_here.
Qed.

Lemma match_subtree_witness :
  MatchTopic (gostr "a/b" ++ gostr "/#") (gostr "a/b/c") = true <->
  gostr "a/b/c" = gostr "a/b" \/ exists below, gostr "a/b/c" = gostr "a/b" ++ SLASH :: below.
Proof. apply match_subtree; vm_compute; reflexivity. Defined.

(** A shared subscription "$share/{name}/{filter}" matches what its inner
    filter matches; the name takes no part. *)
Theorem match_shared name filter topic :
  name <> [] -> (SLASH ∉ name) -> ContainsAny name (gostr "+#") = false ->
  filter <> [] -> CutPrefix filter sharedPrefix = None ->
  MatchTopic (sharedPrefix ++ name ++ SLASH :: filter) topic = MatchTopic filter topic.
Proof.
  intros Hn Hs Hl Hf Hc. apply no_wildcards in Hl. unfold MatchTopic.
  assert (splitShared (sharedPrefix ++ name ++ SLASH :: filter) = Some (name, filter)) as ->
    by (by apply splitShared_Some).
  by rewrite (splitShared_None filter Hc).
Qed.

Lemma match_shared_witness :
  MatchTopic (sharedPrefix ++ gostr "grp" ++ SLASH :: gostr "#") (gostr "$SYS/x") =
  MatchTopic (gostr "#") (gostr "$SYS/x").
Proof. apply match_shared; try (vm_compute; reflexivity); by_decide. Defined.
