(* ===== verification/SessionStore.v ===== *)
(** The session store (session.go): the [SessionStore] contract as a class, the
    in-memory implementation [memStore], and the proof that it implements the
    contract: an ordered list of entries, in the order they were first saved. *)

From stdpp Require Import pretty.
From S2P Require Import Prelude GoStrings Codes Wire WireFacts Props PropsFacts PublishPackets.
From stdpp Require Import options.

(** * Stored messages *)

Definition StoredPublish : Z := 1.
Definition StoredPubrel : Z := 2.
Definition StoredInboundID : Z := 3.

Definition StoredKind_String (k : Z) : string :=
  if k =? StoredPublish then "publish"
  else if k =? StoredPubrel then "pubrel"
  else if k =? StoredInboundID then "inbound-id"
  else "StoredKind(" +:+ pretty k +:+ ")".

Record StoredMessage : Type := mkStored {
  sm_Publish : option PublishPacket;
  sm_Seq : Z;
  sm_ID : Z;
  sm_Kind : Z
}.

#[export] Instance PublishPacket_eq_dec : EqDecision PublishPacket.
Proof. solve_decision. Defined.
#[export] Instance StoredMessage_eq_dec : EqDecision StoredMessage.
Proof. solve_decision. Defined.

(** [storeKey{id, kind}]. *)
Definition storeKey : Type := Z * Z.
Definition key_of (m : StoredMessage) : storeKey := (sm_ID m, sm_Kind m).
Definition with_Seq (m : StoredMessage) (seq : Z) : StoredMessage :=
  mkStored (sm_Publish m) seq (sm_ID m) (sm_Kind m).

(** * The contract

    An entry is its key and its packet; the contents of a store are the entries
    in replay order. *)

Definition entry : Type := storeKey * option PublishPacket.
Definition entry_of (m : StoredMessage) : entry := (key_of m, sm_Publish m).

(** Insert at the end, or replace in place. *)
Definition save_entry (e : entry) (es : list entry) : list entry :=
  if decide (e.1 ∈ es.*1)
  then (fun e' : entry => if decide (e'.1 = e.1) then e else e') <$> es
  else es ++ [e].

Definition delete_entry (k : storeKey) (es : list entry) : list entry :=
  filter (fun e : entry => e.1 <> k) es.

(** The operations of the Go interface; [None] is a non-nil error. *)
Class SessionStore (S : Type) : Type := {
  Save : StoredMessage -> S -> option S;
  Delete : Z -> Z -> S -> option S;
  All : S -> option (list StoredMessage);
  Reset : S -> option S
}.

(** What a store promises.  [store_room] says that the store can number one more
    entry. *)
Class SessionStoreLaws (S : Type) `{SessionStore S} : Type := {
  store_ok : S -> Prop;
  store_room : S -> Prop;
  contents : S -> list entry;
  contents_NoDup s : store_ok s -> NoDup (contents s).*1;
  Save_law m s s' : store_ok s -> store_room s -> Save m s = Some s' ->
    store_ok s' /\ contents s' = save_entry (entry_of m) (contents s);
  Delete_law id kind s s' : store_ok s -> Delete id kind s = Some s' ->
    store_ok s' /\ contents s' = delete_entry (id, kind) (contents s);
  All_law s out : store_ok s -> All s = Some out -> entry_of <$> out = contents s;
  Reset_law s s' : Reset s = Some s' -> store_ok s' /\ contents s' = []
}.

(** * memStore *)

Record memStore : Type := mkMemStore {
  msgs : gmap storeKey StoredMessage;
  seq : Z
}.

Definition newMemStore : memStore := mkMemStore ∅ 0.

Definition memStore_Save (m : StoredMessage) (s : memStore) : memStore :=
  let k := key_of m in
  match msgs s !! k with
  | Some prev => mkMemStore (<[k := with_Seq m (sm_Seq prev)]> (msgs s)) (seq s)
  | None =>
    let seq' := u64 (seq s + 1) in
    mkMemStore (<[k := with_Seq m seq']> (msgs s)) seq'
  end.

Definition memStore_Delete (id kind : Z) (s : memStore) : memStore :=
  mkMemStore (delete (id, kind) (msgs s)) (seq s).

Definition memStore_Contains (id kind : Z) (s : memStore) : bool :=
  bool_decide (is_Some (msgs s !! (id, kind))).

(** cmp.Compare on Seq. *)
Definition seq_le (a b : StoredMessage) : Prop := sm_Seq a <= sm_Seq b.
#[export] Instance seq_le_dec : RelDecision seq_le.
Proof. intros a b. unfold seq_le. apply _. Defined.

(** [All] collects the values in the iteration order of the map, which Go does
    not define, and sorts them.  [memStore_All_from] takes that order as an
    argument; [memStore_All] is the instance for the order of [map_to_list]. *)
Definition memStore_All_from (order : list StoredMessage) : list StoredMessage :=
  merge_sort seq_le order.
Definition memStore_All (s : memStore) : list StoredMessage :=
  memStore_All_from (map_to_list (msgs s)).*2.

Definition memStore_Reset (s : memStore) : memStore := mkMemStore ∅ 0.

#[export] Instance memStore_SessionStore : SessionStore memStore := {
  Save m s := Some (memStore_Save m s);
  Delete id kind s := Some (memStore_Delete id kind s);
  All s := Some (memStore_All s);
  Reset s := Some (memStore_Reset s)
}.

(** * The invariant *)

(** Entries sit under their own key with distinct numbers up to [seq]. *)
Record wf_store (s : memStore) : Prop := {
  wf_seq : in_u64 (seq s);
  wf_key k m : msgs s !! k = Some m -> key_of m = k;
  wf_range k m : msgs s !! k = Some m -> 1 <= sm_Seq m <= seq s;
  wf_inj k1 k2 m1 m2 : msgs s !! k1 = Some m1 -> msgs s !! k2 = Some m2 -> sm_Seq m1 = sm_Seq m2 -> k1 = k2
}.

Lemma wf_newMemStore : wf_store newMemStore.
Proof. split; unfold in_u64; simpl; [lia|..]; intros *; rewrite lookup_empty; done. Qed.

Lemma wf_Reset s : wf_store (memStore_Reset s).
Proof. apply wf_newMemStore. Qed.

Lemma wf_Delete id kind s : wf_store s -> wf_store (memStore_Delete id kind s).
Proof.
  intros [H1 H2 H3 H4]. split; simpl; [done|..]; intros *; rewrite ?lookup_delete_Some; naive_solver.
Qed.

Lemma wf_Save m s : wf_store s -> in_u64 (seq s + 1) -> wf_store (memStore_Save m s).
Proof.
  intros [H1 H2 H3 H4] Hr. unfold memStore_Save. destruct (msgs s !! key_of m) as [prev|] eqn:E.
  - split; simpl; [done|..].
    + intros k x [[<- <-]|[? ?]]%lookup_insert_Some; [done|eauto].
    + intros k x [[<- <-]|[? ?]]%lookup_insert_Some; simpl; eauto.
    + intros k1 k2 x1 x2 [[<- <-]|[? ?]]%lookup_insert_Some [[<- <-]|[? ?]]%lookup_insert_Some; simpl; eauto.
  - rewrite u64_id by done. split; simpl; [done|..].
    + intros k x [[<- <-]|[? ?]]%lookup_insert_Some; [done|eauto].
    + intros k x [[<- <-]|[? Hx]]%lookup_insert_Some; simpl; [unfold in_u64 in *; lia|].
      specialize (H3 _ _ Hx). lia.
    + intros k1 k2 x1 x2 [[<- <-]|[? Hx1]]%lookup_insert_Some [[<- <-]|[? Hx2]]%lookup_insert_Some; simpl; eauto.
      * specialize (H3 _ _ Hx2). lia.
      * specialize (H3 _ _ Hx1). lia.
Qed.

(** * Replay order *)

#[export] Instance seq_le_trans : Transitive seq_le.
Proof. intros a b c. unfold seq_le. lia. Qed.
#[export] Instance seq_le_total : Total seq_le.
Proof. intros a b. unfold seq_le. lia. Qed.

Lemma elem_of_values s m : wf_store s -> m ∈ (map_to_list (msgs s)).*2 <-> msgs s !! key_of m = Some m.
Proof.
  intros Hs. rewrite list_elem_of_fmap. split.
  - intros ([k x] & -> & Hx). apply elem_of_map_to_list in Hx. simpl. by rewrite (wf_key s Hs _ _ Hx).
  - intros H. exists (key_of m, m). split; [done|]. by apply elem_of_map_to_list.
Qed.

Lemma NoDup_values s : wf_store s -> NoDup (map_to_list (msgs s)).*2.
Proof.
  intros Hs. apply NoDup_fmap_2_strong; [|apply NoDup_map_to_list].
  intros [k1 m1] [k2 m2] H1%elem_of_map_to_list H2%elem_of_map_to_list. simpl. intros ->.
  f_equal. eapply wf_inj; eauto.
Qed.

(** A sorted list without duplicates that has the store's entries is the
    snapshot: whatever the map iteration and the sort did. *)
Lemma All_unique s l : wf_store s -> StronglySorted seq_le l -> NoDup l ->
  (forall m, m ∈ l <-> msgs s !! key_of m = Some m) -> memStore_All s = l.
Proof.
  intros Hs Hl Hd Hin. unfold memStore_All, memStore_All_from.
  assert (Hp : l ≡ₚ (map_to_list (msgs s)).*2).
  { apply NoDup_Permutation; [done|by apply NoDup_values|]. intros m. by rewrite Hin, elem_of_values. }
  apply (StronglySorted_unique_strong seq_le); [| |done|by rewrite merge_sort_Permutation].
  - intros x1 x2 H1 H2 Ha Hb. rewrite merge_sort_Permutation in H1. apply elem_of_values in H1; [|done].
    apply Hin in H2. assert (He : key_of x1 = key_of x2).
    { eapply (wf_inj s Hs); eauto. unfold seq_le in *. lia. }
    rewrite He in H1. congruence.
  - apply StronglySorted_merge_sort; apply _.
Qed.

Lemma All_sorted s : StronglySorted seq_le (memStore_All s).
Proof. apply StronglySorted_merge_sort; apply _. Qed.

Lemma All_NoDup s : wf_store s -> NoDup (memStore_All s).
Proof. intros Hs. unfold memStore_All, memStore_All_from. rewrite merge_sort_Permutation. by apply NoDup_values. Qed.

Lemma elem_of_All s m : wf_store s -> m ∈ memStore_All s <-> msgs s !! key_of m = Some m.
Proof.
  intros Hs. unfold memStore_All, memStore_All_from. rewrite merge_sort_Permutation. by apply elem_of_values.
Qed.

(** * memStore implements the contract *)

Definition memStore_contents (s : memStore) : list entry := entry_of <$> memStore_All s.

Lemma contents_keys s k : wf_store s -> k ∈ (memStore_contents s).*1 <-> is_Some (msgs s !! k).
Proof.
  intros Hs. unfold memStore_contents. rewrite <- list_fmap_compose, list_elem_of_fmap. split.
  - intros (m & -> & Hm). apply elem_of_All in Hm; [|done]. by eexists.
  - intros [m Hm]. exists m. pose proof (wf_key s Hs _ _ Hm) as Hk. split; [done|].
    apply elem_of_All; [done|]. by rewrite Hk.
Qed.

Lemma contents_keys_NoDup s : wf_store s -> NoDup (memStore_contents s).*1.
Proof.
  intros Hs. unfold memStore_contents. rewrite <- list_fmap_compose. apply NoDup_fmap_2_strong; [|by apply All_NoDup].
  intros m1 m2 H1%elem_of_All H2%elem_of_All Hk; [|done..]. simpl in Hk. rewrite Hk in H1. congruence.
Qed.

(** The snapshot after a save of a new key, of a known key, and after a
    delete. *)
Lemma All_Save_new m s : wf_store s -> in_u64 (seq s + 1) -> msgs s !! key_of m = None ->
  memStore_All (memStore_Save m s) = memStore_All s ++ [with_Seq m (seq s + 1)].
Proof.
  intros Hs Hr Hn. pose proof (wf_Save m s Hs Hr) as Hs'. apply All_unique; [done|..].
  - apply StronglySorted_app_2; [|apply All_sorted|by repeat constructor].
    intros x y Hx%elem_of_All ->%list_elem_of_singleton; [|done].
    pose proof (wf_range s Hs _ _ Hx). unfold seq_le. simpl. lia.
  - apply NoDup_app. split; [by apply All_NoDup|]. split; [|apply NoDup_singleton].
    intros x Hx%elem_of_All ->%list_elem_of_singleton; [|done].
    change (key_of (with_Seq m (seq s + 1))) with (key_of m) in Hx. congruence.
  - intros x. rewrite elem_of_app, list_elem_of_singleton, elem_of_All by done.
    unfold memStore_Save. rewrite Hn, u64_id by done. simpl. rewrite lookup_insert_Some. split.
    + intros [H|H]; [right|left]; [|by subst]. split; [|done]. intros He. rewrite He in Hn. congruence.
    + intros [[_ H]|[_ H]]; [by right|by left].
Qed.

(** The entry that a re-save puts in place of the stored one. *)
Definition replace_by (m : StoredMessage) (x : StoredMessage) : StoredMessage :=
  if decide (key_of x = key_of m) then with_Seq m (sm_Seq x) else x.

Lemma replace_by_key m x : key_of (replace_by m x) = key_of x.
Proof. unfold replace_by. by case_decide as H. Qed.

Lemma replace_by_Seq m x : sm_Seq (replace_by m x) = sm_Seq x.
Proof. unfold replace_by. by case_decide. Qed.

Lemma All_Save_known m s prev : wf_store s -> in_u64 (seq s + 1) -> msgs s !! key_of m = Some prev ->
  memStore_All (memStore_Save m s) = replace_by m <$> memStore_All s.
Proof.
  intros Hs Hr Hp. pose proof (wf_Save m s Hs Hr) as Hs'. apply All_unique; [done|..].
  - apply (StronglySorted_fmap (replace_by m) seq_le seq_le); [|apply All_sorted].
    intros x y. unfold seq_le. by rewrite !replace_by_Seq.
  - apply NoDup_fmap_2_strong; [|by apply All_NoDup]. intros x y Hx%elem_of_All Hy%elem_of_All He; [|done..].
    apply (f_equal key_of) in He. rewrite !replace_by_key in He. rewrite He in Hx. congruence.
  - intros x. rewrite list_elem_of_fmap. unfold memStore_Save. rewrite Hp. simpl. rewrite lookup_insert_Some. split.
    + intros (y & -> & Hy%elem_of_All); [|done]. rewrite replace_by_key. unfold replace_by. case_decide as Hk.
      * left. split; [done|]. rewrite Hk, Hp in Hy. by injection Hy as <-.
      * right. split; [done|]. done.
    + intros [[Hk Hx]|[Hk Hx]].
      * exists prev. split.
        -- unfold replace_by. rewrite (wf_key s Hs _ _ Hp). by rewrite decide_True.
        -- apply elem_of_All; [done|]. by rewrite (wf_key s Hs _ _ Hp).
      * exists x. split; [|by apply elem_of_All]. unfold replace_by. by rewrite decide_False.
Qed.

Lemma All_Delete id kind s : wf_store s ->
  memStore_All (memStore_Delete id kind s) = filter (fun m => key_of m <> (id, kind)) (memStore_All s).
Proof.
  intros Hs. apply All_unique; [by apply wf_Delete|..].
  - generalize (All_sorted s). induction (memStore_All s) as [|x l IH]; intros Hl; [constructor|].
    apply StronglySorted_inv in Hl as [Hl Hx]. rewrite filter_cons. case_decide; [|auto].
    constructor; [auto|]. rewrite Forall_forall in *. intros y [_ Hy]%list_elem_of_filter. auto.
  - by apply NoDup_filter, All_NoDup.
  - intros x. rewrite list_elem_of_filter, elem_of_All by done. simpl. rewrite lookup_delete_Some. naive_solver.
Qed.

Lemma All_Reset s : memStore_All (memStore_Reset s) = [].
Proof. reflexivity. Qed.

Lemma memStore_Save_contents m s : wf_store s -> in_u64 (seq s + 1) ->
  memStore_contents (memStore_Save m s) = save_entry (entry_of m) (memStore_contents s).
Proof.
  intros Hs Hr. unfold save_entry. destruct (msgs s !! key_of m) as [prev|] eqn:E.
  - rewrite decide_True by (apply contents_keys; eauto). unfold memStore_contents.
    rewrite (All_Save_known _ _ prev) by done. rewrite <- !list_fmap_compose. apply list_fmap_ext.
    intros i x _. unfold compose, entry_of, replace_by. simpl. by repeat case_decide.
  - rewrite decide_False by (rewrite contents_keys by done; simpl; rewrite E; by intros [? ?]).
    unfold memStore_contents. by rewrite All_Save_new, fmap_app.
Qed.

Lemma memStore_Delete_contents id kind s : wf_store s ->
  memStore_contents (memStore_Delete id kind s) = delete_entry (id, kind) (memStore_contents s).
Proof.
  intros Hs. unfold memStore_contents, delete_entry. rewrite All_Delete by done.
  induction (memStore_All s) as [|x l IH]; [done|]. rewrite fmap_cons, !filter_cons. simpl.
  case_decide; rewrite <- IH; done.
Qed.

#[export] Instance memStore_laws : SessionStoreLaws memStore.
Proof.
  refine {| store_ok := wf_store; store_room s := in_u64 (seq s + 1); contents := memStore_contents |}.
  - apply contents_keys_NoDup.
  - intros m s s' Hs Hr [= <-]. split; [by apply wf_Save|by apply memStore_Save_contents].
  - intros id kind s s' Hs [= <-]. split; [by apply wf_Delete|by apply memStore_Delete_contents].
  - by intros s out Hs [= <-].
  - intros s s' [= <-]. split; [apply wf_Reset|done].
Defined.

(** * Runs of the store *)

Inductive store_op : Type :=
| OpSave (m : StoredMessage)
| OpDelete (id kind : Z)
| OpReset.

Definition run_op (o : store_op) (s : memStore) : memStore :=
  match o with
  | OpSave m => memStore_Save m s
  | OpDelete id kind => memStore_Delete id kind s
  | OpReset => memStore_Reset s
  end.

Definition spec_op (o : store_op) (es : list entry) : list entry :=
  match o with
  | OpSave m => save_entry (entry_of m) es
  | OpDelete id kind => delete_entry (id, kind) es
  | OpReset => []
  end.

Definition run_ops (ops : list store_op) (s : memStore) : memStore := fold_left (fun s o => run_op o s) ops s.
Definition spec_ops (ops : list store_op) (es : list entry) : list entry := fold_left (fun es o => spec_op o es) ops es.

Lemma run_op_seq o s : in_u64 (seq s + 1) -> wf_store s -> 0 <= seq (run_op o s) <= seq s + 1.
Proof.
  intros Hr [Hq _ _ _]. unfold in_u64 in *. destruct o; simpl; unfold memStore_Save; repeat case_match; simpl; try lia.
  rewrite u64_id; unfold in_u64; lia.
Qed.

Lemma run_ops_refines ops s : wf_store s -> seq s + Z.of_nat (length ops) < 18446744073709551616 ->
  wf_store (run_ops ops s) /\ memStore_contents (run_ops ops s) = spec_ops ops (memStore_contents s).
Proof.
  revert s. induction ops as [|o ops IH]; intros s Hs Hl; [done|]. simpl in *.
  assert (Hr : in_u64 (seq s + 1)) by (destruct Hs as [Hq _ _ _]; unfold in_u64 in *; lia).
  pose proof (run_op_seq o s Hr Hs). destruct (IH (run_op o s)) as [Hw Hc].
  - destruct o; [by apply wf_Save|by apply wf_Delete|apply wf_Reset].
  - lia.
  - split; [done|]. rewrite Hc. f_equal. destruct o; simpl;
      [by apply memStore_Save_contents|by apply memStore_Delete_contents|done].
Qed.

(** * Theorems *)

(** C25.  After any sequence of saves, deletes and resets, the snapshot that is
    replayed on a resumed session is the abstract session: the live entries, each
    once, in the order they were first saved, a re-save keeping its place; and
    [Contains] answers membership in it. *)
Theorem store_refines ops : Z.of_nat (length ops) < 18446744073709551616 ->
  let s := run_ops ops newMemStore in
  entry_of <$> memStore_All s = spec_ops ops [] /\
  NoDup (spec_ops ops []).*1 /\
  forall id kind, memStore_Contains id kind s = bool_decide ((id, kind) ∈ (spec_ops ops []).*1).
Proof.
  intros Hl s. destruct (run_ops_refines ops newMemStore wf_newMemStore) as [Hw Hc]; [simpl; lia|].
  change (memStore_contents newMemStore) with (@nil entry) in Hc. fold s in Hw, Hc.
  split; [exact Hc|]. rewrite <- Hc. split; [by apply contents_keys_NoDup|].
  intros id kind. unfold memStore_Contains. apply bool_decide_ext. by rewrite contents_keys.
Qed.

Lemma store_refines_witness :
  let ops := [OpSave (mkStored None 0 5 StoredPublish); OpSave (mkStored None 0 6 StoredPubrel);
              OpSave (mkStored None 9 5 StoredPublish); OpDelete 6 StoredPubrel] in
  let s := run_ops ops newMemStore in
  entry_of <$> memStore_All s = spec_ops ops [] /\
  NoDup (spec_ops ops []).*1 /\
  forall id kind, memStore_Contains id kind s = bool_decide ((id, kind) ∈ (spec_ops ops []).*1).
Proof. apply store_refines. simpl length. lia. Defined.

(** The snapshot does not depend on Go's map iteration order: from whatever
    order the values are collected, sorting gives the same list. *)
Theorem store_snapshot_deterministic ops order : Z.of_nat (length ops) < 18446744073709551616 ->
  let s := run_ops ops newMemStore in
  order ≡ₚ (map_to_list (msgs s)).*2 -> memStore_All_from order = memStore_All s.
Proof.
  intros Hl s Ho. destruct (run_ops_refines ops newMemStore wf_newMemStore) as [Hw _]; [simpl; lia|].
  symmetry. apply All_unique; [done|apply StronglySorted_merge_sort; apply _|..].
  - unfold memStore_All_from. rewrite merge_sort_Permutation, Ho. by apply NoDup_values.
  - intros m. unfold memStore_All_from. rewrite merge_sort_Permutation, Ho. by apply elem_of_values.
Qed.

Lemma store_snapshot_deterministic_witness :
  let ops := [OpSave (mkStored None 0 5 1); OpSave (mkStored None 0 6 2); OpSave (mkStored None 0 4 1)] in
  let s := run_ops ops newMemStore in
  memStore_All_from (reverse (map_to_list (msgs s)).*2) = memStore_All s.
Proof.
  apply store_snapshot_deterministic; [simpl length; lia|]. apply reverse_Permutation.
Defined.
