(* ===== verification/Errors.v ===== *)
(** The client's errors (errors.go) as callers see them: through [errors.Is]
    and [errors.As]. *)

From stdpp Require Import pretty.
From S2P Require Import Prelude GoStrings Codes.
From stdpp Require Import options.

Record ReasonError : Type := mkReasonError { re_Packet : string; re_Code : Z; re_Reason : string }.

Definition ReasonError_Error (e : ReasonError) : string :=
  if negb (bool_decide (re_Reason e = ""%string)) then
    "mqtt: " +:+ re_Packet e +:+ " rejected: " +:+ ReasonCode_String (re_Code e) +:+
    " (0x" +:+ hex2 (re_Code e) +:+ "): " +:+ re_Reason e
  else
    "mqtt: " +:+ re_Packet e +:+ " rejected: " +:+ ReasonCode_String (re_Code e) +:+
    " (0x" +:+ hex2 (re_Code e) +:+ ")".

(** The distinguishable error values: the client's sentinels, the context's two
    errors, the codec's errors, a broker's reason code, and anything else (a
    network error, say). *)
Inductive sentinel : Type :=
| ErrNotConnected
| ErrAlreadyConnected
| ErrConnectionLost
| ErrPacketTooLarge
| ErrPacketIDExhausted
| errAckTimeout
| ErrCircuitOpen
| ContextCanceled
| ContextDeadlineExceeded
| ProtocolErr (e : error)
| ReasonErr (e : ReasonError)
| OtherErr (n : Z).

#[export] Instance ReasonError_eq_dec : EqDecision ReasonError.
Proof. solve_decision. Defined.
#[export] Instance sentinel_eq_dec : EqDecision sentinel.
Proof. solve_decision. Defined.

(** A Go error is the list of the values its [Unwrap] tree holds, in the order
    [errors.Is] and [errors.As] visit them. *)
Definition goerror : Type := list sentinel.

Definition errors_Is (err : goerror) (target : sentinel) : bool := bool_decide (target ∈ err).

(** errors.AsType[*ReasonError]. *)
Fixpoint errors_AsReason (err : goerror) : option ReasonError :=
  match err with
  | [] => None
  | ReasonErr e :: _ => Some e
  | _ :: err' => errors_AsReason err'
  end.
