(* ===== verification/IdAllocator.v ===== *)
(** The packet identifier allocator (idAllocator in session.go): a bitmap of
    65536 bits in 1024 words, a rotating cursor and a generation. *)

From S2P Require Import Prelude.
From stdpp Require Import options.

Definition packetIDSpace : Z := 65536.

(** [used] is the array [[1024]uint64]. *)
Record idAllocator : Type := mkIds { used : list Z; next : Z; gen : Z }.

(** [[1024]uint64{}]. *)
Definition emptyUsed : list Z := replicate 1024 0.

(** The zero value. *)
Definition newIds : idAllocator := mkIds emptyUsed 0 0.

(** The array access [a.used[i]]. *)
Definition word_at (used : list Z) (i : nat) : Z := default 0 (used !! i).

(** [id>>6] and [uint64(1)<<(id&63)]; the array index of a [uint16] is below
    1024, so no access panics. *)
Definition word_of (id : Z) : nat := Z.to_nat (Z.shiftr id 6).
Definition bit_of (id : Z) : Z := u64 (Z.shiftl 1 (Z.land id 63)).

(** The results [(id, gen, nil)] and [(0, gen, ErrPacketIDExhausted)]. *)
Inductive acquired : Type :=
| Acquired (id g : Z)
| PacketIDExhausted (g : Z).

(** The loop [for range packetIDSpace], [k] iterations left. *)
Fixpoint Acquire_loop (k : nat) (a : idAllocator) : acquired * idAllocator :=
  match k with
  | O => (PacketIDExhausted (gen a), a)
  | S k' =>
    let id := next a in
    let a := mkIds (used a) (u16 (next a + 1)) (gen a) in
    if id =? 0 then Acquire_loop k' a
    else
      let word := word_of id in
      let bit := bit_of id in
      if has_bits (word_at (used a) word) bit then Acquire_loop k' a
      else (Acquired id (gen a), mkIds (<[word := Z.lor (word_at (used a) word) bit]> (used a)) (next a) (gen a))
  end.

Definition idAllocator_Acquire (a : idAllocator) : acquired * idAllocator :=
  Acquire_loop (Z.to_nat packetIDSpace) a.

Definition idAllocator_ReleaseAt (id g : Z) (a : idAllocator) : idAllocator :=
  if id =? 0 then a
  else if g =? gen a then
    mkIds (<[word_of id := Z.ldiff (word_at (used a) (word_of id)) (bit_of id)]> (used a)) (next a) (gen a)
  else a.

Definition idAllocator_generation (a : idAllocator) : Z := gen a.

Definition idAllocator_Reset (a : idAllocator) : idAllocator :=
  mkIds emptyUsed 0 (u64 (gen a + 1)).

Lemma gen_ReleaseAt id g a : gen (idAllocator_ReleaseAt id g a) = gen a.
Proof. unfold idAllocator_ReleaseAt. by repeat case_match. Qed.

(** * The set of identifiers in use *)

Definition in_use (a : idAllocator) (id : Z) : bool :=
  Z.testbit (word_at (used a) (word_of id)) (Z.land id 63).

Record wf_ids (a : idAllocator) : Prop := {
  wf_used_len : length (used a) = 1024%nat;
  wf_used_nonneg : Forall (fun w => 0 <= w) (used a);
  wf_next : in_u16 (next a);
  wf_zero : in_use a 0 = false
}.

Lemma land_63 id : Z.land id 63 = id mod 64.
Proof. apply (Z.land_ones id 6). lia. Qed.

Lemma shiftr_6 id : Z.shiftr id 6 = id / 64.
Proof. rewrite Z.shiftr_div_pow2 by lia. reflexivity. Qed.

Lemma bit_of_pow id : bit_of id = 2 ^ (id mod 64).
Proof.
  unfold bit_of. rewrite land_63. pose proof (Z.mod_pos_bound id 64 ltac:(lia)).
  rewrite Z.shiftl_mul_pow2, Z.mul_1_l by lia. apply u64_id. unfold in_u64.
  pose proof (Z.pow_lt_mono_r 2 (id mod 64) 64). pose proof (Z.pow_pos_nonneg 2 (id mod 64)). lia.
Qed.

Lemma word_of_lt id : in_u16 id -> (word_of id < 1024)%nat.
Proof. unfold in_u16, word_of. rewrite shiftr_6. intros H. pose proof (Z.div_lt_upper_bound id 64 1024). lia. Qed.

(** Word and bit determine the identifier. *)
Lemma word_bit_inj id id' : in_u16 id -> in_u16 id' ->
  word_of id = word_of id' -> id mod 64 = id' mod 64 -> id = id'.
Proof.
  unfold in_u16, word_of. rewrite !shiftr_6. intros H1 H2 Hw Hb.
  pose proof (Z.div_pos id 64). pose proof (Z.div_pos id' 64).
  rewrite (Z.div_mod id 64), (Z.div_mod id' 64), Hb by lia. f_equal. f_equal. lia.
Qed.

Lemma word_nonneg a id : wf_ids a -> 0 <= word_at (used a) (word_of id).
Proof.
  intros [_ Hn _ _]. unfold word_at. destruct (used a !! word_of id) as [w|] eqn:E; simpl; [|lia].
  rewrite Forall_forall in Hn. apply Hn. by eapply list_elem_of_lookup_2.
Qed.

(** The test of the loop is the membership test. *)
Lemma has_bits_in_use a id : wf_ids a -> has_bits (word_at (used a) (word_of id)) (bit_of id) = in_use a id.
Proof.
  intros Ha. unfold bit_of, in_use. apply has_bits_pow2; [|by apply word_nonneg].
  rewrite land_63. apply Z.mod_pos_bound. lia.
Qed.

Lemma in_use_update a id id' f : wf_ids a -> in_u16 id -> in_u16 id' ->
  in_use (mkIds (<[word_of id := f]> (used a)) (next a) (gen a)) id' =
  if decide (word_of id = word_of id') then Z.testbit f (id' mod 64) else in_use a id'.
Proof.
  intros [Hl _ _ _] Hi Hi'. unfold in_use. simpl. rewrite land_63. case_decide as Hw.
  - unfold word_at. rewrite <- Hw, list_lookup_insert_eq; [done|]. rewrite Hl. by apply word_of_lt.
  - unfold word_at. by rewrite list_lookup_insert_ne.
Qed.

(** Marking and clearing a bit adds and removes one identifier. *)
Lemma in_use_mark a id id' n g : wf_ids a -> in_u16 id -> in_u16 id' ->
  in_use (mkIds (<[word_of id := Z.lor (word_at (used a) (word_of id)) (bit_of id)]> (used a)) n g) id' =
  bool_decide (id' = id) || in_use a id'.
Proof.
  intros Ha Hi Hi'. pose proof (Z.mod_pos_bound id' 64 ltac:(lia)). pose proof (Z.mod_pos_bound id 64 ltac:(lia)).
  transitivity (in_use (mkIds (<[word_of id := Z.lor (word_at (used a) (word_of id)) (bit_of id)]> (used a)) (next a) (gen a)) id');
    [done|]. rewrite in_use_update by done. case_decide as Hw.
  - unfold in_use at 1. rewrite Z.lor_spec, bit_of_pow, Z.pow2_bits_eqb by lia.
    unfold in_use. rewrite Hw, land_63. destruct (Z.eqb_spec (id mod 64) (id' mod 64)) as [He|He].
    + rewrite (word_bit_inj id id') by done. rewrite bool_decide_true by done. apply orb_true_r.
    + rewrite bool_decide_false by congruence. apply orb_false_r.
  - by rewrite bool_decide_false by congruence.
Qed.

Lemma in_use_clear a id id' : wf_ids a -> in_u16 id -> in_u16 id' ->
  in_use (mkIds (<[word_of id := Z.ldiff (word_at (used a) (word_of id)) (bit_of id)]> (used a)) (next a) (gen a)) id' =
  negb (bool_decide (id' = id)) && in_use a id'.
Proof.
  intros Ha Hi Hi'. pose proof (Z.mod_pos_bound id' 64 ltac:(lia)). pose proof (Z.mod_pos_bound id 64 ltac:(lia)).
  rewrite in_use_update by done. case_decide as Hw.
  - unfold in_use. rewrite Z.ldiff_spec, bit_of_pow, Z.pow2_bits_eqb by lia. rewrite Hw, land_63.
    destruct (Z.eqb_spec (id mod 64) (id' mod 64)) as [He|He].
    + rewrite (word_bit_inj id id') by done. rewrite bool_decide_true by done. apply andb_false_r.
    + rewrite bool_decide_false by congruence. apply andb_true_r.
  - by rewrite bool_decide_false by congruence.
Qed.

Lemma wf_update a id w n g : wf_ids a -> in_u16 id -> 0 < id -> 0 <= w -> in_u16 n ->
  in_use (mkIds (<[word_of id := w]> (used a)) n g) 0 = false ->
  wf_ids (mkIds (<[word_of id := w]> (used a)) n g).
Proof.
  intros [Hl Hn Hx Hz] Hi Hp Hw Hin H0. split; simpl; [by rewrite length_insert| |done|done].
  by apply Forall_insert.
Qed.

Lemma in_use_fresh n g id : in_use (mkIds emptyUsed n g) id = false.
Proof.
  unfold in_use, word_at. cbn [used]. unfold emptyUsed. destruct (_ !! _) as [w|] eqn:E; [|apply Z.bits_0].
  apply lookup_replicate in E as [-> _]. apply Z.bits_0.
Qed.

Lemma wf_fresh n g : in_u16 n -> wf_ids (mkIds emptyUsed n g).
Proof.
  intros Hn. split; cbn [used next]; [apply length_replicate|apply Forall_replicate; lia|done|apply in_use_fresh].
Qed.

Lemma wf_newIds : wf_ids newIds.
Proof. apply wf_fresh. unfold in_u16. lia. Qed.

Lemma wf_Reset_ids a : wf_ids (idAllocator_Reset a).
Proof. apply wf_fresh. unfold in_u16. lia. Qed.

Lemma wf_ids_next a n : wf_ids a -> in_u16 n -> wf_ids (mkIds (used a) n (gen a)).
Proof. intros [Hl Hn Hx Hz] H. by split. Qed.

Lemma in_use_next a n g id : in_use (mkIds (used a) n g) id = in_use a id.
Proof. done. Qed.

(** Marking a free identifier. *)
Definition marked (a : idAllocator) (id : Z) : idAllocator :=
  mkIds (<[word_of id := Z.lor (word_at (used a) (word_of id)) (bit_of id)]> (used a)) (u16 (id + 1)) (gen a).

Lemma wf_marked a id : wf_ids a -> in_u16 id -> 0 < id -> wf_ids (marked a id).
Proof.
  intros Ha Hi Hp. apply wf_update; try done; [|apply u16_range|].
  - apply Z.lor_nonneg. split; [by apply word_nonneg|]. rewrite bit_of_pow. apply Z.pow_nonneg. lia.
  - rewrite in_use_mark by (done || unfold in_u16; lia). rewrite (wf_zero a Ha).
    by rewrite bool_decide_false by lia.
Qed.

(** [taken a n j]: the [j] candidates from [n] on, wrapping around, are 0 or in
    use. *)
Definition taken (a : idAllocator) (n j : Z) : Prop :=
  forall i, 0 <= i < j -> u16 (n + i) = 0 \/ in_use a (u16 (n + i)) = true.

Lemma taken_S a n j : (u16 n = 0 \/ in_use a (u16 n) = true) -> taken a (u16 (n + 1)) j -> 0 <= j -> taken a n (j + 1).
Proof.
  intros H0 H Hj i Hi. destruct (Z.eq_dec i 0) as [->|]; [by rewrite Z.add_0_r|].
  specialize (H (i - 1) ltac:(lia)). unfold u16 in *. rewrite Z.add_mod_idemp_l in H by lia.
  by replace (n + 1 + (i - 1)) with (n + i) in H by lia.
Qed.

(** The loop takes the first free identifier at or after the cursor, or finds
    every candidate taken. *)
Lemma Acquire_loop_spec k a : wf_ids a ->
  match Acquire_loop k a with
  | (Acquired id g, a') => g = gen a /\ a' = marked a id /\ 0 < id < 65536 /\ in_use a id = false /\
      exists j, 0 <= j < Z.of_nat k /\ id = u16 (next a + j) /\ taken a (next a) j
  | (PacketIDExhausted g, a') => g = gen a /\ taken a (next a) (Z.of_nat k) /\
      wf_ids a' /\ used a' = used a /\ gen a' = gen a
  end.
Proof.
  revert a. induction k as [|k IH]; intros a Ha.
  { simpl. split; [done|]. split; [intros i Hi; lia|done]. }
  assert (Hn : u16 (next a) = next a) by apply u16_id, (wf_next a Ha).
  pose proof (wf_ids_next a (u16 (next a + 1)) Ha (u16_range _)) as Ha'.
  assert (Hskip : next a = 0 \/ in_use a (next a) = true ->
    match Acquire_loop k (mkIds (used a) (u16 (next a + 1)) (gen a)) with
    | (Acquired id g, a') => g = gen a /\ a' = marked a id /\ 0 < id < 65536 /\ in_use a id = false /\
        exists j, 0 <= j < Z.of_nat (S k) /\ id = u16 (next a + j) /\ taken a (next a) j
    | (PacketIDExhausted g, a') => g = gen a /\ taken a (next a) (Z.of_nat (S k)) /\
        wf_ids a' /\ used a' = used a /\ gen a' = gen a
    end).
  { intros Hs. specialize (IH _ Ha'). destruct (Acquire_loop k _) as [[id g|g] a']; simpl in IH.
    - destruct IH as (-> & -> & Hid & Hu & j & Hj & He & Ht). repeat split; try done; try lia.
      exists (j + 1). split; [lia|]. split.
      + rewrite He. unfold u16. rewrite Z.add_mod_idemp_l by lia. f_equal. lia.
      + apply taken_S; [by rewrite Hn|done|lia].
    - destruct IH as (-> & Ht & Hw & Hu & Hg). repeat split; try done; try apply Hw.
      rewrite Nat2Z.inj_succ. apply taken_S; [by rewrite Hn|done|lia]. }
  cbn [Acquire_loop]. simpl next in *. simpl used in *. simpl gen in *. destruct (Z.eqb_spec (next a) 0) as [H0|H0].
  - apply Hskip. by left.
  - rewrite (has_bits_in_use a (next a) Ha). destruct (in_use a (next a)) eqn:Eu; [apply Hskip; by right|].
    pose proof (wf_next a Ha) as Hx. unfold in_u16 in Hx. split; [done|]. split; [done|]. split; [lia|]. split; [done|].
    exists 0. rewrite Z.add_0_r. split; [lia|]. split; [done|]. intros i Hi; lia.
Qed.

(** A full turn meets every identifier. *)
Lemma taken_all a id : taken a (next a) 65536 -> wf_ids a -> 0 < id < 65536 -> in_use a id = true.
Proof.
  intros Ht Ha Hid. pose proof (wf_next a Ha) as Hx. unfold in_u16 in Hx.
  destruct (Ht ((id - next a) mod 65536)) as [H|H]; [apply Z.mod_pos_bound; lia|..];
    unfold u16 in H; rewrite Z.add_mod_idemp_r in H by lia;
    replace (next a + (id - next a)) with id in H by lia; rewrite Z.mod_small in H by lia; [lia|done].
Qed.

Lemma Acquire_spec a : wf_ids a ->
  match idAllocator_Acquire a with
  | (Acquired id g, a') => g = gen a /\ a' = marked a id /\ 0 < id < 65536 /\ in_use a id = false /\
      exists j, 0 <= j < 65536 /\ id = u16 (next a + j) /\ taken a (next a) j
  | (PacketIDExhausted g, a') => g = gen a /\ (forall id, 0 < id < 65536 -> in_use a id = true) /\
      wf_ids a' /\ used a' = used a /\ gen a' = gen a
  end.
Proof.
  intros Ha. pose proof (Acquire_loop_spec (Z.to_nat packetIDSpace) a Ha) as H.
  unfold idAllocator_Acquire. rewrite Z2Nat.id in H by (unfold packetIDSpace; lia).
  destruct (Acquire_loop _ a) as [[id g|g] a']; [done|]. destruct H as (? & Ht & ?).
  split; [done|]. split; [|done]. intros id Hid. by apply taken_all.
Qed.

Lemma wf_ReleaseAt id g a : wf_ids a -> in_u16 id -> wf_ids (idAllocator_ReleaseAt id g a).
Proof.
  intros Ha Hi. unfold idAllocator_ReleaseAt. destruct (Z.eqb_spec id 0); [done|].
  destruct (g =? gen a); [|done]. unfold in_u16 in Hi. apply wf_update; try done; try apply Ha.
  - lia.
  - apply Z.ldiff_nonneg. left. by apply word_nonneg.
  - rewrite in_use_clear by (done || unfold in_u16; lia). rewrite (wf_zero a Ha). apply andb_false_r.
Qed.

Lemma in_use_ReleaseAt id g a id' : wf_ids a -> in_u16 id -> in_u16 id' ->
  in_use (idAllocator_ReleaseAt id g a) id' =
  negb (bool_decide (id' = id /\ g = gen a)) && in_use a id'.
Proof.
  intros Ha Hi Hi'. unfold idAllocator_ReleaseAt. destruct (Z.eqb_spec id 0) as [->|].
  - destruct (decide (id' = 0)) as [->|]; [rewrite (wf_zero a Ha), andb_false_r; done|].
    by rewrite bool_decide_false by naive_solver.
  - destruct (Z.eqb_spec g (gen a)) as [->|].
    + rewrite in_use_clear by done. f_equal. f_equal. apply bool_decide_ext. naive_solver.
    + by rewrite bool_decide_false by naive_solver.
Qed.

(** * Exchanges holding identifiers

    Any number of goroutines hold identifiers, each remembering the generation
    it acquired under; a reset discards the session while they still hold them,
    and their releases arrive later in any order. *)

Record id_system : Type := mkSystem { ids : idAllocator; held : list (Z * Z) }.

Inductive id_step : id_system -> id_system -> Prop :=
| Step_acquire a h id g a' : idAllocator_Acquire a = (Acquired id g, a') ->
    id_step (mkSystem a h) (mkSystem a' ((id, g) :: h))
| Step_exhausted a h g a' : idAllocator_Acquire a = (PacketIDExhausted g, a') ->
    id_step (mkSystem a h) (mkSystem a' h)
| Step_release a h1 id g h2 :
    id_step (mkSystem a (h1 ++ (id, g) :: h2)) (mkSystem (idAllocator_ReleaseAt id g a) (h1 ++ h2))
| Step_reset a h : in_u64 (gen a + 1) ->
    id_step (mkSystem a h) (mkSystem (idAllocator_Reset a) h).

(** The identifiers held by exchanges of the current session. *)
Definition live (s : id_system) : list Z :=
  (filter (fun t : Z * Z => t.2 = gen (ids s)) (held s)).*1.

Record id_inv (s : id_system) : Prop := {
  inv_wf : wf_ids (ids s);
  inv_gen : 0 <= gen (ids s);
  inv_held t : t ∈ held s -> 0 < t.1 < 65536 /\ t.2 <= gen (ids s);
  inv_NoDup : NoDup (live s);
  inv_use id : 0 < id < 65536 -> in_use (ids s) id = true <-> id ∈ live s
}.

Lemma elem_of_live s id : id ∈ live s <-> (id, gen (ids s)) ∈ held s.
Proof.
  unfold live. rewrite list_elem_of_fmap. split.
  - intros ([i g] & -> & [Hg Hh]%list_elem_of_filter). simpl in *. by subst.
  - intros H. exists (id, gen (ids s)). split; [done|]. by apply list_elem_of_filter.
Qed.

Lemma live_cons a id h : live (mkSystem a ((id, gen a) :: h)) = id :: live (mkSystem a h).
Proof. unfold live. cbn [ids held]. rewrite filter_cons_True by done. done. Qed.

Lemma live_app_cons a h1 id g h2 :
  live (mkSystem a (h1 ++ (id, g) :: h2)) =
  live (mkSystem a h1) ++ (if decide (g = gen a) then [id] else []) ++ live (mkSystem a h2).
Proof.
  unfold live. cbn [ids held]. rewrite filter_app, fmap_app, filter_cons. simpl.
  case_decide; done.
Qed.

Lemma live_app a h1 h2 : live (mkSystem a (h1 ++ h2)) = live (mkSystem a h1) ++ live (mkSystem a h2).
Proof. unfold live. cbn [ids held]. by rewrite filter_app, fmap_app. Qed.

(** The live identifiers depend on the generation only. *)
Lemma live_gen a a' h : gen a' = gen a -> live (mkSystem a' h) = live (mkSystem a h).
Proof. unfold live. cbn [ids held]. by intros ->. Qed.

Lemma id_inv_init : id_inv (mkSystem newIds []).
Proof.
  split; cbn [ids held]; [apply wf_newIds|simpl; lia|by intros t ?%elem_of_nil|constructor|].
  intros id _. split; [|by intros ?%elem_of_nil]. unfold newIds. by rewrite in_use_fresh.
Qed.

Lemma id_inv_acquire a h id g a' : id_inv (mkSystem a h) -> idAllocator_Acquire a = (Acquired id g, a') ->
  id_inv (mkSystem a' ((id, g) :: h)).
Proof.
  intros [Hw Hg Hh Hn Hu] Ea. cbn [ids held] in *. pose proof (Acquire_spec a Hw) as H. rewrite Ea in H.
  destruct H as (-> & -> & Hid & Hfree & _). assert (Hi16 : in_u16 id) by (unfold in_u16; lia).
  assert (Hl : live (mkSystem (marked a id) ((id, gen a) :: h)) = id :: live (mkSystem a h)).
  { rewrite <- live_cons. by apply live_gen. }
  split; cbn [ids held].
  - apply wf_marked; done || lia.
  - done.
  - intros t [->|Ht]%elem_of_cons; [simpl; lia|]. by apply Hh.
  - rewrite Hl. constructor; [|done]. rewrite <- Hu by lia. by rewrite Hfree.
  - intros id' Hid'. rewrite Hl, elem_of_cons, <- Hu by done. unfold marked.
    rewrite in_use_mark by (done || unfold in_u16; lia). by rewrite orb_true_iff, bool_decide_eq_true.
Qed.

Lemma id_inv_release a h1 id g h2 : id_inv (mkSystem a (h1 ++ (id, g) :: h2)) ->
  id_inv (mkSystem (idAllocator_ReleaseAt id g a) (h1 ++ h2)).
Proof.
  intros [Hw Hg Hh Hn Hu]. cbn [ids held] in *.
  destruct (Hh (id, g)) as [Hid _]; [set_solver|]. cbn [fst] in Hid.
  assert (Hi16 : in_u16 id) by (unfold in_u16; lia).
  pose proof (gen_ReleaseAt id g a) as Hgen.
  assert (Hl : live (mkSystem (idAllocator_ReleaseAt id g a) (h1 ++ h2)) = live (mkSystem a h1) ++ live (mkSystem a h2)).
  { rewrite <- live_app. by apply live_gen. }
  rewrite live_app_cons in Hn, Hu. split; cbn [ids held].
  - by apply wf_ReleaseAt.
  - by rewrite Hgen.
  - intros t Ht. rewrite Hgen. apply Hh. set_solver.
  - rewrite Hl. apply NoDup_app in Hn as (? & Hd & (_ & _ & ?)%NoDup_app). apply NoDup_app. set_solver.
  - intros id' Hid'. rewrite Hl, in_use_ReleaseAt by (done || unfold in_u16; lia).
    rewrite andb_true_iff, negb_true_iff, bool_decide_eq_false, Hu by done.
    apply NoDup_app in Hn as (_ & Hd1 & (_ & Hd2 & _)%NoDup_app).
    case_decide as Eg; [|set_solver]. set_solver.
Qed.

Lemma id_inv_reset a h : id_inv (mkSystem a h) -> in_u64 (gen a + 1) -> id_inv (mkSystem (idAllocator_Reset a) h).
Proof.
  intros [Hw Hg Hh Hn Hu] Hr. cbn [ids held] in *.
  assert (Hgen : gen (idAllocator_Reset a) = gen a + 1) by (by apply u64_id).
  assert (Hl : live (mkSystem (idAllocator_Reset a) h) = []).
  { apply elem_of_nil_inv. intros x Hx. apply elem_of_live in Hx. cbn [ids held] in Hx.
    apply Hh in Hx. rewrite Hgen in Hx. simpl in Hx. lia. }
  split; cbn [ids held].
  - apply wf_Reset_ids.
  - lia.
  - intros t Ht. rewrite Hgen. specialize (Hh t Ht). lia.
  - rewrite Hl. constructor.
  - intros id' _. rewrite Hl. split; [|by intros ?%elem_of_nil]. unfold idAllocator_Reset. by rewrite in_use_fresh.
Qed.

Lemma id_inv_step s s' : id_step s s' -> id_inv s -> id_inv s'.
Proof.
  intros [a h id g a' Ha|a h g a' Ha|a h1 id g h2|a h Hr] Hi.
  - by eapply id_inv_acquire.
  - destruct Hi as [Hw Hg Hh Hn Hu]. cbn [ids held] in *. pose proof (Acquire_spec a Hw) as H. rewrite Ha in H.
    destruct H as (_ & _ & Hw' & Hused & Hgen). pose proof (live_gen a a' h Hgen) as Hl.
    split; cbn [ids held]; rewrite ?Hgen, ?Hl; try done. intros id Hid. unfold in_use. rewrite Hused. by apply Hu.
  - by apply id_inv_release.
  - by apply id_inv_reset.
Qed.

Lemma id_inv_reachable s : rtc id_step (mkSystem newIds []) s -> id_inv s.
Proof.
  intros H. remember (mkSystem newIds []) as s0 eqn:E. assert (H0 : id_inv s0) by (subst; apply id_inv_init).
  clear E. induction H as [|s1 s2 s3 Hs _ IH]; [done|]. apply IH. by eapply id_inv_step.
Qed.

(** * Theorems *)

(** [Acquire] returns the first free non-zero identifier at or after the
    cursor, wrapping around, marks that one and no other, and moves the cursor
    past it; it reports exhaustion only when all 65535 identifiers are in use,
    and then changes nothing but the cursor. *)
Theorem acquire_first_free a : wf_ids a ->
  match idAllocator_Acquire a with
  | (Acquired id g, a') => g = gen a /\ gen a' = gen a /\ next a' = u16 (id + 1) /\
      0 < id < 65536 /\ in_use a id = false /\ wf_ids a' /\
      (forall id', in_u16 id' -> in_use a' id' = bool_decide (id' = id) || in_use a id') /\
      exists j, 0 <= j < 65536 /\ id = u16 (next a + j) /\
        forall i, 0 <= i < j -> u16 (next a + i) = 0 \/ in_use a (u16 (next a + i)) = true
  | (PacketIDExhausted g, a') => g = gen a /\ (forall id, 0 < id < 65536 -> in_use a id = true) /\
      wf_ids a' /\ used a' = used a /\ gen a' = gen a
  end.
Proof.
  intros Ha. pose proof (Acquire_spec a Ha) as H. destruct (idAllocator_Acquire a) as [[id g|g] a']; [|exact H].
  destruct H as (-> & -> & Hid & Hfree & Hj). assert (Hi : in_u16 id) by (unfold in_u16; lia).
  split; [done|]. split; [done|]. split; [done|]. split; [done|]. split; [done|].
  split; [apply wf_marked; done || lia|]. split; [|exact Hj]. intros id' Hid'. by apply in_use_mark.
Qed.

Lemma acquire_first_free_witness :
  let a := idAllocator_ReleaseAt 1 0 (snd (idAllocator_Acquire (snd (idAllocator_Acquire newIds)))) in
  match idAllocator_Acquire a with
  | (Acquired id g, a') => g = gen a /\ gen a' = gen a /\ next a' = u16 (id + 1) /\
      0 < id < 65536 /\ in_use a id = false /\ wf_ids a' /\
      (forall id', in_u16 id' -> in_use a' id' = bool_decide (id' = id) || in_use a id') /\
      exists j, 0 <= j < 65536 /\ id = u16 (next a + j) /\
        forall i, 0 <= i < j -> u16 (next a + i) = 0 \/ in_use a (u16 (next a + i)) = true
  | (PacketIDExhausted g, a') => g = gen a /\ (forall id, 0 < id < 65536 -> in_use a id = true) /\
      wf_ids a' /\ used a' = used a /\ gen a' = gen a
  end.
Proof.
  apply acquire_first_free. split; [vm_compute; reflexivity| |split; vm_compute; done|vm_compute; reflexivity].
  apply (bool_decide_unpack _). vm_compute. exact I.
Defined.

(** C22.  However acquisitions, releases and session resets interleave, no two
    exchanges of the current session ever share an identifier, a release that
    outlived its session frees nothing, and an identifier is in use exactly while
    an exchange of the current session holds it: none is handed out twice and
    none leaks. *)
Theorem ids_exclusive s : rtc id_step (mkSystem newIds []) s ->
  NoDup (live s) /\ forall id, 0 < id < 65536 -> in_use (ids s) id = true <-> id ∈ live s.
Proof. intros H. apply id_inv_reachable in H as [_ _ _ Hn Hu]. done. Qed.

Lemma ids_exclusive_witness :
  let a1 := snd (idAllocator_Acquire newIds) in
  let a2 := snd (idAllocator_Acquire (idAllocator_Reset a1)) in
  let s := mkSystem (idAllocator_ReleaseAt 1 0 a2) [(1, 1)] in
  NoDup (live s) /\ forall id, 0 < id < 65536 -> in_use (ids s) id = true <-> id ∈ live s.
Proof.
  apply ids_exclusive.
  eapply rtc_l; [apply Step_acquire; vm_compute; reflexivity|].
  eapply rtc_l; [apply Step_reset; vm_compute; split; [intros [=]|reflexivity]|].
  eapply rtc_l; [apply Step_acquire; vm_compute; reflexivity|].
  eapply rtc_l; [apply (Step_release _ [(1, 1)] 1 0 [])|]. vm_compute. apply rtc_refl.
Defined.
