(* ===== verification/Quota.v ===== *)
(** The send quota (quota in session.go): a counting semaphore over the broker's
    Receive Maximum that a reconnect re-seeds and a lost connection fails, with
    goroutines that park on its wake channel. *)

From S2P Require Import Prelude.
From stdpp Require Import options.

(** Channels are numbered in the order they are made; a channel is closed by
    the broadcast that replaces it, so exactly the channels before the current
    one are closed. *)
Record quota : Type := mkQuota { wake : nat; avail : Z; qgen : Z; failed : bool }.

Definition newQuota (n : Z) : quota := mkQuota 0 n 0 false.

Definition quota_broadcast (q : quota) : quota := mkQuota (S (wake q)) (avail q) (qgen q) (failed q).

(** One turn of the loop of [acquire]: the part under the mutex, which returns
    or goes on to wait on the captured channel. *)
Inductive acquire_turn : Type :=
| Granted (g : Z)
| ConnectionLost (g : Z)
| WaitOn (w : nat).

Definition quota_acquire_turn (q : quota) : acquire_turn * quota :=
  if failed q then (ConnectionLost (qgen q), q)
  else if avail q >? 0 then (Granted (qgen q), mkQuota (wake q) (i64 (avail q - 1)) (qgen q) (failed q))
  else (WaitOn (wake q), q).

(** The select: woken once the captured channel is closed. *)
Definition woken (q : quota) (w : nat) : bool := (w <? wake q)%nat.

Definition quota_releaseAt (g : Z) (q : quota) : quota :=
  if g =? qgen q then quota_broadcast (mkQuota (wake q) (i64 (avail q + 1)) (qgen q) (failed q))
  else q.

Definition quota_reset (n : Z) (q : quota) : quota :=
  quota_broadcast (mkQuota (wake q) n (u64 (qgen q + 1)) false).

Definition quota_generation (q : quota) : Z := qgen q.

Definition quota_fail (q : quota) : quota :=
  quota_broadcast (mkQuota (wake q) (avail q) (qgen q) true).

(** * Goroutines on a quota

    [permits] are the generations under which permits are held, [parked] the
    channels goroutines wait on inside [acquire]; [ceil] is the Receive Maximum
    of the last connect and [replayed] the number of stored messages it counted.

    A connect seeds the quota as applySession does, with the Receive Maximum less
    the messages it is about to replay, and not below zero.  Each of these
    messages holds a permit of the new generation, which its acknowledgement on
    the new link gives back (completeOutbound).  The store holds at most two
    entries for each of the 65535 identifiers. *)

Record quota_system : Type := mkQS {
  sem : quota;
  permits : list Z;
  parked : list nat;
  ceil : Z;
  replayed : nat
}.

Inductive quota_step : quota_system -> quota_system -> Prop :=
| QS_grant q h p n k g q' : quota_acquire_turn q = (Granted g, q') ->
    quota_step (mkQS q h p n k) (mkQS q' (g :: h) p n k)
| QS_lost q h p n k g q' : quota_acquire_turn q = (ConnectionLost g, q') ->
    quota_step (mkQS q h p n k) (mkQS q' h p n k)
| QS_park q h p n k w q' : quota_acquire_turn q = (WaitOn w, q') ->
    quota_step (mkQS q h p n k) (mkQS q' h (w :: p) n k)
| QS_wake q h p1 w p2 n k : woken q w = true ->
    quota_step (mkQS q h (p1 ++ w :: p2) n k) (mkQS q h (p1 ++ p2) n k)
| QS_cancel q h p1 w p2 n k :
    quota_step (mkQS q h (p1 ++ w :: p2) n k) (mkQS q h (p1 ++ p2) n k)
| QS_release q h1 g h2 p n k :
    quota_step (mkQS q (h1 ++ g :: h2) p n k) (mkQS (quota_releaseAt g q) (h1 ++ h2) p n k)
| QS_reset q h p n k rm k' : 0 <= rm <= 65535 -> Z.of_nat k' <= 131070 -> in_u64 (qgen q + 1) ->
    quota_step (mkQS q h p n k)
      (mkQS (quota_reset (Z.max (rm - Z.of_nat k') 0) q) (replicate k' (qgen q + 1) ++ h) p rm k')
| QS_fail q h p n k :
    quota_step (mkQS q h p n k) (mkQS (quota_fail q) h p n k).

(** The permits held on the current connection. *)
Definition current (s : quota_system) : nat := length (filter (fun g => g = qgen (sem s)) (permits s)).

(** The permits there are on the current connection: its Receive Maximum, or the
    messages it replays where these are more. *)
Definition limit (s : quota_system) : Z := Z.max (ceil s) (Z.of_nat (replayed s)).

Record quota_inv (s : quota_system) : Prop := {
  qi_gen : 0 <= qgen (sem s);
  qi_permits g : g ∈ permits s -> g <= qgen (sem s);
  qi_limit : 0 <= limit s <= 131070;
  qi_avail : 0 <= avail (sem s);
  qi_sum : avail (sem s) + Z.of_nat (current s) = limit s;
  qi_parked w : w ∈ parked s -> (w <= wake (sem s))%nat;
  qi_waiting : wake (sem s) ∈ parked s -> avail (sem s) <= 0 /\ failed (sem s) = false
}.

Lemma quota_inv_init n : 0 <= n <= 65535 -> quota_inv (mkQS (newQuota n) [] [] n 0).
Proof. intros Hn. split; simpl; try set_solver; unfold limit, current; simpl; lia. Qed.

(** [current] as a function of the generation and the permits. *)
Definition count (g : Z) (h : list Z) : nat := length (filter (fun x => x = g) h).

Lemma current_count q h p n k : current (mkQS q h p n k) = count (qgen q) h.
Proof. done. Qed.

Lemma count_cons g x h : count g (x :: h) = ((if decide (x = g) then 1 else 0) + count g h)%nat.
Proof. unfold count. rewrite filter_cons. by case_decide. Qed.

Lemma count_app g h1 h2 : count g (h1 ++ h2) = (count g h1 + count g h2)%nat.
Proof. unfold count. by rewrite filter_app, length_app. Qed.

Lemma count_replicate g m : count g (replicate m g) = m.
Proof. induction m as [|m IH]; [done|]. simpl replicate. rewrite count_cons, IH. by rewrite decide_True. Qed.

Lemma count_above g h : (forall x, x ∈ h -> x < g) -> count g h = 0%nat.
Proof.
  intros H. induction h as [|x h IH]; [done|]. rewrite count_cons.
  pose proof (H x ltac:(apply list_elem_of_here)). rewrite decide_False by lia.
  apply IH. intros y Hy. apply H. by right.
Qed.

(** The side conditions of [quota_inv], with [limit] written out. *)
Ltac quota_side := unfold limit in *; simpl in *; try done; try lia.

Lemma quota_inv_turn q h p n k : quota_inv (mkQS q h p n k) ->
  match quota_acquire_turn q with
  | (Granted g, q') => quota_inv (mkQS q' (g :: h) p n k)
  | (ConnectionLost g, q') => quota_inv (mkQS q' h p n k)
  | (WaitOn w, q') => quota_inv (mkQS q' h (w :: p) n k)
  end.
Proof.
  intros [Hg Hh Hl Ha Hs Hp Hw]. unfold quota_acquire_turn. rewrite current_count in Hs. cbn [sem permits parked ceil replayed] in *.
  destruct (failed q) eqn:Ef; [split; cbn [sem permits parked ceil replayed]; rewrite ?Ef; done|]. destruct (avail q >? 0) eqn:Ea.
  - assert (avail q <= 131070) by lia. rewrite i64_id by lia.
    split; rewrite ?current_count, ?count_cons; quota_side.
    + intros x [->|Hx]%elem_of_cons; [lia|auto].
    + rewrite decide_True by done. lia.
    + intros H1. destruct (Hw H1). lia.
  - split; quota_side.
    intros x [->|Hx]%elem_of_cons; [lia|auto].
Qed.

Lemma quota_inv_release q h1 g h2 p n k : quota_inv (mkQS q (h1 ++ g :: h2) p n k) ->
  quota_inv (mkQS (quota_releaseAt g q) (h1 ++ h2) p n k).
Proof.
  intros [Hg Hh Hl Ha Hs Hp Hw]. rewrite current_count, count_app, count_cons in Hs. cbn [sem permits parked ceil replayed] in *.
  assert (Hh' : forall x, x ∈ h1 ++ h2 -> x <= qgen q) by (intros x Hx; apply Hh; set_solver).
  unfold quota_releaseAt. destruct (Z.eqb_spec g (qgen q)) as [->|Hne].
  - rewrite decide_True in Hs by done. rewrite i64_id by lia.
    split; rewrite ?current_count, ?count_app; quota_side.
    + intros w Hx. specialize (Hp w Hx). lia.
    + intros Hx. specialize (Hp _ Hx). lia.
  - rewrite decide_False in Hs by done. split; rewrite ?current_count, ?count_app; quota_side.
Qed.

Lemma quota_inv_step s s' : quota_step s s' -> quota_inv s -> quota_inv s'.
Proof.
  intros Hs Hi. destruct Hs as [q h p n k g q' Ht|q h p n k g q' Ht|q h p n k w q' Ht|q h p1 w p2 n k _|q h p1 w p2 n k
    |q h1 g h2 p n k|q h p n k rm k' Hn Hk Hr|q h p n k].
  - pose proof (quota_inv_turn q h p n k Hi) as H. by rewrite Ht in H.
  - pose proof (quota_inv_turn q h p n k Hi) as H. by rewrite Ht in H.
  - pose proof (quota_inv_turn q h p n k Hi) as H. by rewrite Ht in H.
  - destruct Hi as [? ? ? ? ? Hp Hw]. split; try done; simpl in *; [intros x Hx; apply Hp; set_solver|].
    intros Hx. apply Hw. set_solver.
  - destruct Hi as [? ? ? ? ? Hp Hw]. split; try done; simpl in *; [intros x Hx; apply Hp; set_solver|].
    intros Hx. apply Hw. set_solver.
  - by apply quota_inv_release.
  - destruct Hi as [Hg Hh Hl Ha Hs Hp Hw]. unfold quota_reset. rewrite u64_id by done. cbn [sem permits parked ceil replayed] in *.
    split; rewrite ?current_count, ?count_app, ?count_replicate; quota_side.
    + intros x [Hx|Hx]%elem_of_app; [apply elem_of_replicate in Hx as [-> _]; lia|]. specialize (Hh x Hx). lia.
    + rewrite (count_above _ h); [lia|]. intros x Hx. specialize (Hh x Hx). lia.
    + intros w Hx. specialize (Hp w Hx). lia.
    + intros Hx. specialize (Hp _ Hx). lia.
  - destruct Hi as [Hg Hh Hl Ha Hs Hp Hw]. split; simpl in *; try done.
    + intros w Hx. specialize (Hp w Hx). lia.
    + intros Hx. specialize (Hp _ Hx). lia.
Qed.

Lemma quota_inv_reachable n s : 0 <= n <= 65535 -> rtc quota_step (mkQS (newQuota n) [] [] n 0) s -> quota_inv s.
Proof.
  intros Hn H. pose proof (quota_inv_init n Hn) as H0. revert H0.
  induction H as [|s1 s2 s3 Hs _ IH]; [done|]. intros H1. apply IH. by eapply quota_inv_step.
Qed.

(** * Theorems *)

(** C23.  Whatever acquisitions, releases, reconnects and connection losses
    interleave, the free permits and those held on the current connection, by
    publishes of this connection and by the messages it replays, add up to
    [limit], the Receive Maximum or, where that is more, the number of replayed
    messages: a permit of an earlier connection that is returned late is not
    credited.  So as long as the replay fits the Receive Maximum, no more permits
    than that are ever held, and from then on the permits above the seed are
    exactly those the replayed messages have given back. *)
Theorem quota_conserved n s : 0 <= n <= 65535 -> rtc quota_step (mkQS (newQuota n) [] [] n 0) s ->
  avail (sem s) + Z.of_nat (current s) = Z.max (ceil s) (Z.of_nat (replayed s)) /\
  0 <= avail (sem s) /\
  (Z.of_nat (replayed s) <= ceil s -> Z.of_nat (current s) <= ceil s /\ avail (sem s) <= ceil s).
Proof. intros Hn H. apply quota_inv_reachable in H as [? ? ? ? Hs ? ?]; [|done]. unfold limit in Hs. lia. Qed.

(** A permit of the first connection returned after a reconnect that replays one
    message, and then the acknowledgement of that message. *)
Lemma quota_conserved_witness :
  let s := mkQS (mkQuota 3 2 1 false) [] [] 2 1 in
  avail (sem s) + Z.of_nat (current s) = Z.max (ceil s) (Z.of_nat (replayed s)) /\
  0 <= avail (sem s) /\
  (Z.of_nat (replayed s) <= ceil s -> Z.of_nat (current s) <= ceil s /\ avail (sem s) <= ceil s).
Proof.
  apply (quota_conserved 1); [lia|].
  eapply rtc_l; [apply QS_grant; vm_compute; reflexivity|].
  eapply rtc_l; [apply QS_fail|].
  eapply rtc_l; [apply (QS_reset _ _ _ _ _ 2 1); [lia|lia|vm_compute; split; [intros [=]|reflexivity]]|].
  eapply rtc_l; [apply (QS_release _ [1] 0 [])|].
  eapply rtc_l; [apply (QS_release _ [] 1 [])|]. vm_compute. apply rtc_refl.
Defined.

(** C39.  No wakeup is lost: as soon as a permit is free or the connection has
    failed, every goroutine parked in [acquire] has been woken; the ones still
    asleep wait on a connection that is up and has no free permit. *)
Theorem quota_no_lost_wakeup n s : 0 <= n <= 65535 -> rtc quota_step (mkQS (newQuota n) [] [] n 0) s ->
  forall w, w ∈ parked s ->
  woken (sem s) w = true \/ (avail (sem s) = 0 /\ failed (sem s) = false).
Proof.
  intros Hn H w Hw. apply quota_inv_reachable in H as [? ? ? ? ? Hp Hwait]; [|done].
  specialize (Hp w Hw). unfold woken. destruct (Nat.ltb_spec w (wake (sem s))); [by left|right].
  assert (w = wake (sem s)) as -> by lia. destruct (Hwait Hw). split; [lia|done].
Qed.

Lemma quota_no_lost_wakeup_witness :
  let s := mkQS (mkQuota 1 1 0 false) [] [0%nat] 1 0 in
  woken (sem s) 0%nat = true \/ (avail (sem s) = 0 /\ failed (sem s) = false).
Proof.
  apply (quota_no_lost_wakeup 1 (mkQS (mkQuota 1 1 0 false) [] [0%nat] 1 0)); [lia| |apply list_elem_of_here].
  eapply rtc_l; [apply QS_grant; vm_compute; reflexivity|].
  eapply rtc_l; [apply QS_park; vm_compute; reflexivity|].
  eapply rtc_l; [apply (QS_release _ [] 0 [])|]. vm_compute. apply rtc_refl.
Defined.
