(* ===== verification/Breaker.v ===== *)
(** The circuit breaker (breaker.go): a Publisher decorator that fails fast
    after consecutive broker-side failures, probes for recovery, and reports its
    transitions in order.  Each critical section under the breaker's mutex is one
    function; the goroutines that run them are interleaved by a step relation. *)

From S2P Require Import Prelude GoStrings Codes Errors.
From stdpp Require Import options.

Inductive BreakerState : Type := BreakerClosed | BreakerOpen | BreakerHalfOpen.

#[export] Instance BreakerState_eq_dec : EqDecision BreakerState.
Proof. solve_decision. Defined.

Definition BreakerState_String (s : BreakerState) : string :=
  match s with
  | BreakerClosed => "closed"
  | BreakerOpen => "open"
  | BreakerHalfOpen => "half-open"
  end.

(** Durations are in nanoseconds; of the callback only its presence matters
    here. *)
Record BreakerConfig : Type := mkBreakerConfig {
  FailureThreshold : Z;
  RecoveryTimeout : Z;
  HalfOpenMax : Z;
  OnStateChange : bool
}.

Record stateChange : Type := mkChange { from : BreakerState; to : BreakerState }.

(** The fields of [Breaker] without the wrapped publisher; times are instants in
    nanoseconds. *)
Record Breaker : Type := mkBreaker {
  cfg : BreakerConfig;
  state : BreakerState;
  epoch : Z;
  failures : Z;
  openedAt : Z;
  probes : Z;
  pending : list stateChange;
  draining : bool
}.

Definition Breaker_eta (b : Breaker) : Breaker :=
  mkBreaker (cfg b) (state b) (epoch b) (failures b) (openedAt b) (probes b) (pending b) (draining b).
Definition set_failures : Z -> Breaker -> Breaker := ltac:(record_setter Breaker_eta failures).
Definition set_openedAt : Z -> Breaker -> Breaker := ltac:(record_setter Breaker_eta openedAt).
Definition set_probes : Z -> Breaker -> Breaker := ltac:(record_setter Breaker_eta probes).
Definition set_pending : list stateChange -> Breaker -> Breaker := ltac:(record_setter Breaker_eta pending).
Definition set_draining : bool -> Breaker -> Breaker := ltac:(record_setter Breaker_eta draining).

Record admission : Type := mkAdmission { adm_epoch : Z; adm_probe : bool }.

Definition NewBreaker (c : BreakerConfig) : Breaker :=
  let c := mkBreakerConfig
    (if FailureThreshold c <=? 0 then 5 else FailureThreshold c)
    (if RecoveryTimeout c <=? 0 then 30 * 1000000000 else RecoveryTimeout c)
    (if HalfOpenMax c <=? 0 then 1 else HalfOpenMax c)
    (OnStateChange c) in
  mkBreaker c BreakerClosed 0 0 0 0 [] false.

Definition Breaker_State (b : Breaker) : BreakerState := state b.

(** The boolean result says whether the caller is handed [fireStateChanges] to
    run once the lock is released. *)
Definition transitionLocked (to : BreakerState) (b : Breaker) : bool * Breaker :=
  let from := state b in
  if bool_decide (from = to) then (false, b)
  else
    let b := mkBreaker (cfg b) to (u64 (epoch b + 1)) (failures b) (openedAt b) (probes b) (pending b) (draining b) in
    if negb (OnStateChange (cfg b)) then (false, b)
    else (true, set_pending (pending b ++ [mkChange from to]) b).

(** [now] is the instant [time.Since] reads; the admission is [None] when the
    publish is turned away. *)
Definition Breaker_admit (now : Z) (b : Breaker) : option admission * bool * Breaker :=
  match state b with
  | BreakerClosed => (Some (mkAdmission (epoch b) false), false, b)
  | BreakerOpen =>
    if now - openedAt b <? RecoveryTimeout (cfg b) then (None, false, b)
    else
      let '(fire, b) := transitionLocked BreakerHalfOpen b in
      let b := set_probes 1 b in
      (Some (mkAdmission (epoch b) true), fire, b)
  | BreakerHalfOpen =>
    if probes b >=? HalfOpenMax (cfg b) then (None, false, b)
    else
      let b := set_probes (i64 (probes b + 1)) b in
      (Some (mkAdmission (epoch b) true), false, b)
  end.

Definition recordSuccess (adm : admission) (b : Breaker) : bool * Breaker :=
  if negb (adm_epoch adm =? epoch b) then (false, b)
  else
    let b := set_failures 0 b in
    match state b with
    | BreakerHalfOpen =>
      let '(fire, b) := transitionLocked BreakerClosed b in
      (fire, set_probes 0 b)
    | _ => (false, b)
    end.

Definition recordFailure (now : Z) (adm : admission) (b : Breaker) : bool * Breaker :=
  if negb (adm_epoch adm =? epoch b) then (false, b)
  else
    match state b with
    | BreakerHalfOpen =>
      let '(fire, b) := transitionLocked BreakerOpen b in
      (fire, set_failures 0 (set_probes 0 (set_openedAt now b)))
    | BreakerClosed =>
      let b := set_failures (i64 (failures b + 1)) b in
      if failures b >=? FailureThreshold (cfg b) then
        let '(fire, b) := transitionLocked BreakerOpen b in
        (fire, set_failures 0 (set_openedAt now b))
      else (false, b)
    | BreakerOpen => (false, b)
    end.

(** The default arm of [record]: a local condition releases the probe slot. *)
Definition recordNeutral (adm : admission) (b : Breaker) : bool * Breaker :=
  if negb (adm_epoch adm =? epoch b) then (false, b)
  else if adm_probe adm && bool_decide (state b = BreakerHalfOpen) && (probes b >? 0)
  then (false, set_probes (i64 (probes b - 1)) b)
  else (false, b).

(** [ctxErr] is [ctx.Err()]. *)
Definition countableFailure (ctxErr : option sentinel) (err : goerror) : bool :=
  if errors_Is err errAckTimeout || errors_Is err ErrConnectionLost || errors_Is err ErrNotConnected then true
  else if errors_Is err ErrPacketTooLarge || errors_Is err ErrPacketIDExhausted then false
  else if errors_Is err (ProtocolErr ErrProtocolViolation) || errors_Is err (ProtocolErr ErrMalformedPacket) ||
          errors_Is err (ProtocolErr ErrStringTooLong) then false
  else if match ctxErr with Some e => errors_Is err e | None => false end then false
  else match errors_AsReason err with
  | Some re => ReasonCode_IsError (re_Code re)
  | None => true
  end.

(** [err] is [None] for nil. *)
Definition record (now : Z) (ctxErr : option sentinel) (adm : admission) (err : option goerror) (b : Breaker)
    : bool * Breaker :=
  match err with
  | None => recordSuccess adm b
  | Some err => if countableFailure ctxErr err then recordFailure now adm b else recordNeutral adm b
  end.

(** The critical sections of [fireStateChanges]: the entry, which reports
    whether this goroutine becomes the one that delivers; one turn of the loop,
    which takes the next transition or ends the delivery; and the deferred
    cleanup after a callback that panicked. *)
Definition fire_enter (b : Breaker) : bool * Breaker :=
  if draining b then (false, b) else (true, set_draining true b).

Definition fire_turn (b : Breaker) : option stateChange * Breaker :=
  match pending b with
  | [] => (None, set_draining false b)
  | next :: rest => (Some next, set_pending rest b)
  end.

Definition fire_panicked (b : Breaker) : Breaker := set_draining false b.

(** [fireStateChanges] run by a single goroutine: the transitions it reports. *)
Fixpoint fire_loop (fuel : nat) (b : Breaker) (told : list stateChange) : list stateChange * Breaker :=
  match fuel with
  | O => (told, b)
  | S fuel' =>
    match fire_turn b with
    | (None, b) => (told, b)
    | (Some next, b) => fire_loop fuel' b (told ++ [next])
    end
  end.
Definition fireStateChanges (b : Breaker) : list stateChange * Breaker :=
  match fire_enter b with
  | (false, b) => ([], b)
  | (true, b) => fire_loop (S (length (pending b))) b []
  end.

(** [Publish] on its own goroutine with nothing else running: [outcome] is what
    the wrapped publisher returns, [t0] and [t1] the instants before and after.
    The result is the returned error and the transitions reported. *)
Definition Breaker_Publish (t0 t1 : Z) (ctxErr : option sentinel) (outcome : option goerror) (b : Breaker)
    : option goerror * list stateChange * Breaker :=
  match Breaker_admit t0 b with
  | (None, _, b) => (Some [ErrCircuitOpen], [], b)
  | (Some adm, fire, b) =>
    let '(told, b) := if (fire : bool) then fireStateChanges b else ([], b) in
    let '(fire, b) := record t1 ctxErr adm outcome b in
    let '(told', b) := if (fire : bool) then fireStateChanges b else ([], b) in
    (outcome, told ++ told', b)
  end.

(** * Goroutines on a breaker

    [inflight] are the publishes between [Breaker_admit] and [record]; [firing] counts
    the goroutines that were handed [fireStateChanges] and have not entered it;
    [looping] and [calling] count the delivering goroutines before their next
    turn and inside a callback; [told] are the transitions reported so far;
    [panicked] remembers that a callback panicked. *)

Record breaker_system : Type := mkBS {
  br : Breaker;
  inflight : list admission;
  firing : nat;
  looping : nat;
  calling : nat;
  told : list stateChange;
  panicked : bool
}.

Inductive breaker_step : breaker_system -> breaker_system -> Prop :=
| BS_admit now b l f k c t p adm fire b' : Breaker_admit now b = (Some adm, fire, b') -> in_u64 (epoch b + 1) ->
    breaker_step (mkBS b l f k c t p) (mkBS b' (adm :: l) (Nat.b2n fire + f) k c t p)
| BS_reject now b l f k c t p fire b' : Breaker_admit now b = (None, fire, b') ->
    breaker_step (mkBS b l f k c t p) (mkBS b' l f k c t p)
| BS_record now ctxErr err b l1 adm l2 f k c t p fire b' :
    record now ctxErr adm err b = (fire, b') -> in_u64 (epoch b + 1) ->
    breaker_step (mkBS b (l1 ++ adm :: l2) f k c t p) (mkBS b' (l1 ++ l2) (Nat.b2n fire + f) k c t p)
| BS_enter b l f k c t p b' : fire_enter b = (true, b') ->
    breaker_step (mkBS b l (S f) k c t p) (mkBS b' l f (S k) c t p)
| BS_busy b l f k c t p b' : fire_enter b = (false, b') ->
    breaker_step (mkBS b l (S f) k c t p) (mkBS b' l f k c t p)
| BS_tell b l f k c t p next b' : fire_turn b = (Some next, b') ->
    breaker_step (mkBS b l f (S k) c t p) (mkBS b' l f k (S c) (t ++ [next]) p)
| BS_drained b l f k c t p b' : fire_turn b = (None, b') ->
    breaker_step (mkBS b l f (S k) c t p) (mkBS b' l f k c t p)
| BS_return b l f k c t p :
    breaker_step (mkBS b l f k (S c) t p) (mkBS b l f (S k) c t p)
| BS_panic b l f k c t p :
    breaker_step (mkBS b l f k (S c) t p) (mkBS (fire_panicked b) l f k c t true).

Definition breaker_init (c : BreakerConfig) : breaker_system := mkBS (NewBreaker c) [] 0 0 0 [] false.

(** The transitions of [l] lead from [s] to [e] without a gap, and each changes
    the state. *)
Fixpoint chain (s : BreakerState) (l : list stateChange) (e : BreakerState) : Prop :=
  match l with
  | [] => s = e
  | c :: l => from c = s /\ from c <> to c /\ chain (to c) l e
  end.

(** The publishes of the current epoch. *)
Definition in_epoch (e : Z) (l : list admission) : list admission := filter (fun a => adm_epoch a = e) l.

(** The accounting of a breaker state against the publishes in flight. *)
Definition accounted (b : Breaker) (l : list admission) : Prop :=
  0 <= failures b < FailureThreshold (cfg b) /\
  match state b with
  | BreakerClosed => Forall (fun a => adm_probe a = false) (in_epoch (epoch b) l)
  | BreakerOpen => in_epoch (epoch b) l = []
  | BreakerHalfOpen => Forall (fun a => adm_probe a = true) (in_epoch (epoch b) l) /\
      probes b = Z.of_nat (length (in_epoch (epoch b) l)) /\ probes b <= HalfOpenMax (cfg b)
  end.

Definition wf_cfg (c : BreakerConfig) : Prop :=
  0 < FailureThreshold c < 9223372036854775808 /\ 0 < HalfOpenMax c < 9223372036854775808.

Record breaker_inv (s : breaker_system) : Prop := {
  bi_cfg : wf_cfg (cfg (br s));
  bi_epoch : 0 <= epoch (br s);
  bi_old a : a ∈ inflight s -> adm_epoch a <= epoch (br s);
  bi_acc : accounted (br s) (inflight s);
  bi_drain : (looping s + calling s)%nat = Nat.b2n (draining (br s));
  bi_chain : if OnStateChange (cfg (br s)) then chain BreakerClosed (told s ++ pending (br s)) (state (br s))
             else told s = [] /\ pending (br s) = [];
  bi_live : pending (br s) <> [] -> draining (br s) = true \/ (0 < firing s)%nat \/ panicked s = true
}.

(** * Lemmas *)

Lemma chain_app s l1 l2 e : chain s (l1 ++ l2) e <-> exists m, chain s l1 m /\ chain m l2 e.
Proof.
  revert s. induction l1 as [|c l1 IH]; intros s; simpl; [naive_solver|]. rewrite IH. naive_solver.
Qed.

Lemma in_epoch_app e l1 l2 : in_epoch e (l1 ++ l2) = in_epoch e l1 ++ in_epoch e l2.
Proof. apply filter_app. Qed.

Lemma in_epoch_cons_eq e a l : adm_epoch a = e -> in_epoch e (a :: l) = a :: in_epoch e l.
Proof. intros H. unfold in_epoch. by rewrite filter_cons_True. Qed.

Lemma in_epoch_cons_ne e a l : adm_epoch a <> e -> in_epoch e (a :: l) = in_epoch e l.
Proof. intros H. unfold in_epoch. by rewrite filter_cons_False. Qed.

Lemma in_epoch_above e l : (forall a, a ∈ l -> adm_epoch a < e) -> in_epoch e l = [].
Proof.
  intros H. induction l as [|a l IH]; [done|]. rewrite in_epoch_cons_ne.
  - apply IH. intros x Hx. apply H. by right.
  - specialize (H a ltac:(apply list_elem_of_here)). lia.
Qed.

(** A transition to another state: the epoch moves on, and the change is queued
    when someone listens. *)
Lemma transitionLocked_ne s b : state b <> s -> in_u64 (epoch b + 1) ->
  transitionLocked s b =
  (OnStateChange (cfg b),
   mkBreaker (cfg b) s (epoch b + 1) (failures b) (openedAt b) (probes b)
     (pending b ++ if OnStateChange (cfg b) then [mkChange (state b) s] else []) (draining b)).
Proof.
  intros Hs He. unfold transitionLocked. rewrite bool_decide_false by done. rewrite u64_id by done. simpl.
  destruct (OnStateChange (cfg b)); [done|]. by rewrite app_nil_r.
Qed.

(** What [Breaker_admit] and [record] do to the queue: nothing without a transition, and
    one change appended with a caller told to deliver it otherwise. *)
Definition queues (b : Breaker) (fire : bool) (b' : Breaker) : Prop :=
  cfg b' = cfg b /\ draining b' = draining b /\
  ((epoch b' = epoch b /\ state b' = state b /\ pending b' = pending b /\ fire = false) \/
   (epoch b' = epoch b + 1 /\ state b' <> state b /\ fire = OnStateChange (cfg b) /\
    pending b' = pending b ++ if OnStateChange (cfg b) then [mkChange (state b) (state b')] else [])).

Lemma admit_queues now b adm fire b' : in_u64 (epoch b + 1) -> Breaker_admit now b = (adm, fire, b') -> queues b fire b'.
Proof.
  intros He. unfold Breaker_admit. destruct (state b) eqn:Es.
  - intros [= <- <- <-]. unfold queues. auto 10.
  - destruct (now - openedAt b <? _); [intros [= <- <- <-]; unfold queues; auto 10|].
    rewrite transitionLocked_ne by congruence. intros [= <- <- <-]. unfold queues. simpl. rewrite Es.
    split; [done|]. split; [done|]. right. done.
  - destruct (probes b >=? _); intros [= <- <- <-]; unfold queues; simpl; rewrite ?Es; auto 10.
Qed.

Lemma record_queues now ctxErr adm err b fire b' : in_u64 (epoch b + 1) ->
  record now ctxErr adm err b = (fire, b') -> queues b fire b'.
Proof.
  intros He. assert (H0 : queues b false b) by (unfold queues; auto 10).
  unfold record. destruct err as [err|]; [destruct (countableFailure ctxErr err)|].
  - unfold recordFailure. destruct (negb _); [by intros [= <- <-]|]. destruct (state b) eqn:Es; simpl.
    + destruct (_ >=? _); [|intros [= <- <-]; unfold queues; simpl; auto 10].
      rewrite transitionLocked_ne by (simpl; congruence). intros [= <- <-]. unfold queues. simpl. rewrite Es.
      split; [done|]. split; [done|]. right. done.
    + by intros [= <- <-].
    + rewrite transitionLocked_ne by (simpl; congruence). intros [= <- <-]. unfold queues. simpl. rewrite Es.
      split; [done|]. split; [done|]. right. done.
  - unfold recordNeutral. destruct (negb _); [by intros [= <- <-]|].
    destruct (_ && _); intros [= <- <-]; unfold queues; simpl; auto 10.
  - unfold recordSuccess. destruct (negb _); [by intros [= <- <-]|]. simpl. destruct (state b) eqn:Es.
    + intros [= <- <-]. unfold queues. simpl. auto 10.
    + intros [= <- <-]. unfold queues. simpl. auto 10.
    + rewrite transitionLocked_ne by (simpl; congruence). intros [= <- <-]. unfold queues. simpl. rewrite Es.
      split; [done|]. split; [done|]. right. done.
Qed.

Lemma admit_none now b fire b' : Breaker_admit now b = (None, fire, b') -> b' = b.
Proof.
  unfold Breaker_admit. destruct (state b); [done|..].
  - destruct (_ <? _); [by intros [= <- <-]|]. by destruct (transitionLocked _ _).
  - destruct (_ >=? _); [by intros [= <- <-]|done].
Qed.

Lemma admit_accounted now b l adm fire b' : wf_cfg (cfg b) -> in_u64 (epoch b + 1) ->
  (forall a, a ∈ l -> adm_epoch a <= epoch b) -> accounted b l ->
  Breaker_admit now b = (Some adm, fire, b') -> accounted b' (adm :: l) /\ adm_epoch adm = epoch b'.
Proof.
  intros [Hc1 Hc2] He Hl [Hf Ha]. unfold Breaker_admit, accounted. destruct (state b) eqn:Es.
  - intros [= <- <- <-]. rewrite Es. split; [|done]. split; [done|]. rewrite in_epoch_cons_eq by done. by constructor.
  - destruct (_ <? _); [done|]. rewrite transitionLocked_ne by congruence. intros [= <- <- <-]. simpl.
    split; [|done]. split; [done|]. rewrite in_epoch_cons_eq by done.
    rewrite in_epoch_above by (intros a Hin; specialize (Hl a Hin); lia). simpl. split; [by constructor|lia].
  - destruct (Z.geb_spec (probes b) (HalfOpenMax (cfg b))) as [|Hlt]; [done|].
    destruct Ha as (Hp & Hn & Hm). rewrite i64_id by lia. intros [= <- <- <-]. simpl. rewrite Es.
    split; [|done]. split; [done|]. rewrite in_epoch_cons_eq by done. simpl length.
    split; [by constructor|lia].
Qed.

(** Taking one publish out of flight. *)
Lemma in_epoch_remove e l1 adm l2 : adm_epoch adm = e ->
  in_epoch e (l1 ++ adm :: l2) ≡ₚ adm :: in_epoch e (l1 ++ l2).
Proof.
  intros H. rewrite !in_epoch_app, in_epoch_cons_eq by done. symmetry. apply Permutation_middle.
Qed.

(** A publish of an earlier epoch does not count. *)
Lemma accounted_stale b l1 adm l2 : adm_epoch adm <> epoch b ->
  accounted b (l1 ++ adm :: l2) -> accounted b (l1 ++ l2).
Proof. intros H. unfold accounted. by rewrite !in_epoch_app, in_epoch_cons_ne. Qed.

(** Entering a new epoch, whatever is in flight is of an earlier one. *)
Lemma in_epoch_next e l : (forall a, a ∈ l -> adm_epoch a <= e) -> in_epoch (e + 1) l = [].
Proof. intros H. apply in_epoch_above. intros a Ha. specialize (H a Ha). lia. Qed.

Lemma record_accounted now ctxErr adm err b l1 l2 fire b' : wf_cfg (cfg b) -> in_u64 (epoch b + 1) ->
  (forall a, a ∈ l1 ++ adm :: l2 -> adm_epoch a <= epoch b) -> accounted b (l1 ++ adm :: l2) ->
  record now ctxErr adm err b = (fire, b') -> accounted b' (l1 ++ l2).
Proof.
  intros [Hc1 Hc2] He Hl Ha Hr. destruct (decide (adm_epoch adm = epoch b)) as [Heq|Hne].
  2: { apply (accounted_stale b l1 adm l2 Hne) in Ha. unfold record, recordFailure, recordNeutral, recordSuccess in Hr.
       replace (adm_epoch adm =? epoch b) with false in Hr by (symmetry; by apply Z.eqb_neq). simpl in Hr.
       destruct err; [destruct (countableFailure _ _)|]; by injection Hr as <- <-. }
  assert (Hl' : in_epoch (epoch b + 1) (l1 ++ l2) = []).
  { apply in_epoch_next. intros a Hin. apply Hl. set_solver. }
  pose proof (in_epoch_remove (epoch b) l1 adm l2 Heq) as Hperm. destruct Ha as [Hf Ha].
  unfold record, recordFailure, recordNeutral, recordSuccess in Hr. rewrite Heq, Z.eqb_refl in Hr. cbn [negb] in Hr.
  destruct err as [err|]; [destruct (countableFailure ctxErr err)|]; simpl in Hr; destruct (state b) eqn:Es.
  - rewrite Hperm, Forall_cons in Ha. rewrite i64_id in Hr by lia.
    destruct (Z.geb_spec (failures b + 1) (FailureThreshold (cfg b))).
    + rewrite transitionLocked_ne in Hr by (simpl; congruence). injection Hr as <- <-. unfold accounted. simpl.
      split; [lia|done].
    + injection Hr as <- <-. unfold accounted. simpl. rewrite Es. split; [lia|tauto].
  - rewrite Ha in Hperm. by apply Permutation_nil_cons in Hperm.
  - rewrite transitionLocked_ne in Hr by (simpl; congruence). injection Hr as <- <-. unfold accounted. simpl. split; [lia|done].
  - rewrite bool_decide_false, andb_false_r in Hr by done. injection Hr as <- <-. unfold accounted. rewrite Es.
    rewrite Hperm, Forall_cons in Ha. split; [done|tauto].
  - rewrite Ha in Hperm. by apply Permutation_nil_cons in Hperm.
  - destruct Ha as (Hp & Hn & Hm). rewrite Hperm, Forall_cons in Hp. rewrite Hperm in Hn. simpl in Hn.
    destruct Hp as [Hp Hps]. rewrite Hp, bool_decide_true in Hr by done.
    replace (probes b >? 0) with true in Hr by lia. simpl in Hr. rewrite i64_id in Hr by lia.
    injection Hr as <- <-. unfold accounted. simpl. rewrite Es. split; [done|]. split; [done|lia].
  - injection Hr as <- <-. unfold accounted. simpl. rewrite Es. rewrite Hperm, Forall_cons in Ha. split; [lia|tauto].
  - rewrite Ha in Hperm. by apply Permutation_nil_cons in Hperm.
  - rewrite transitionLocked_ne in Hr by (simpl; congruence). injection Hr as <- <-. unfold accounted. simpl.
    split; [lia|]. rewrite Hl'. constructor.
Qed.

(** The queue, the reports and the delivering goroutine stay consistent across
    a critical section that may queue a change. *)
Lemma queues_inv b fire b' f k c t p :
  queues b fire b' -> (k + c)%nat = Nat.b2n (draining b) ->
  (if OnStateChange (cfg b) then chain BreakerClosed (t ++ pending b) (state b) else t = [] /\ pending b = []) ->
  (pending b <> [] -> draining b = true \/ (0 < f)%nat \/ p = true) ->
  (k + c)%nat = Nat.b2n (draining b') /\
  (if OnStateChange (cfg b') then chain BreakerClosed (t ++ pending b') (state b') else t = [] /\ pending b' = []) /\
  (pending b' <> [] -> draining b' = true \/ (0 < Nat.b2n fire + f)%nat \/ p = true).
Proof.
  intros (Hc & Hd & Hq) Hk Hch Hlv. rewrite Hc, Hd. split; [done|].
  destruct Hq as [(_ & Hs & Hp & ->)|(_ & Hs & -> & Hp)]; rewrite Hp; [by rewrite Hs|].
  destruct (OnStateChange (cfg b)).
  - rewrite app_assoc, chain_app. split; [|simpl; lia]. exists (state b). split; [done|]. simpl. auto.
  - destruct Hch as [-> ->]. split; [done|]. simpl. done.
Qed.

Lemma breaker_inv_init c : FailureThreshold c < 9223372036854775808 -> HalfOpenMax c < 9223372036854775808 ->
  breaker_inv (breaker_init c).
Proof.
  intros H1 H2. assert (Hc : wf_cfg (cfg (NewBreaker c))).
  { unfold wf_cfg, NewBreaker. simpl. repeat case_match; bool_prop; lia. }
  split; simpl; try done.
  - by intros a ?%elem_of_nil.
  - destruct Hc as [Hc _]. unfold accounted. split; [exact (conj (Z.le_refl 0) (proj1 Hc))|]. constructor.
  - by destruct (OnStateChange c).
Qed.

(** The epoch never moves back. *)
Lemma queues_epoch b fire b' : queues b fire b' -> epoch b <= epoch b'.
Proof. intros (_ & _ & [(H & _)|(H & _)]); lia. Qed.

Lemma breaker_inv_step s s' : breaker_step s s' -> breaker_inv s -> breaker_inv s'.
Proof.
  intros Hs [Hc He Ho Ha Hd Hch Hlv]. destruct Hs as [now b l f k c t p adm fire b' H Hu|now b l f k c t p fire b' H
    |now ctxErr err b l1 adm l2 f k c t p fire b' H Hu|b l f k c t p b' H|b l f k c t p b' H|b l f k c t p nx b' H
    |b l f k c t p b' H|b l f k c t p|b l f k c t p]; cbn [br inflight firing looping calling told panicked] in *.
  - pose proof (admit_queues _ _ _ _ _ Hu H) as Hq. pose proof (queues_epoch _ _ _ Hq).
    destruct (admit_accounted _ _ _ _ _ _ Hc Hu Ho Ha H) as [Ha' Hadm].
    destruct (queues_inv _ _ _ _ _ _ _ _ Hq Hd Hch Hlv) as (Hd' & Hch' & Hlv').
    split; cbn [br inflight firing looping calling told panicked]; try done.
    + by rewrite (proj1 Hq).
    + lia.
    + intros a [->|Hin]%elem_of_cons; [lia|]. specialize (Ho a Hin). lia.
  - apply admit_none in H as ->. by split.
  - pose proof (record_queues _ _ _ _ _ _ _ Hu H) as Hq. pose proof (queues_epoch _ _ _ Hq).
    pose proof (record_accounted _ _ _ _ _ _ _ _ _ Hc Hu Ho Ha H) as Ha'.
    destruct (queues_inv _ _ _ _ _ _ _ _ Hq Hd Hch Hlv) as (Hd' & Hch' & Hlv').
    split; cbn [br inflight firing looping calling told panicked]; try done.
    + by rewrite (proj1 Hq).
    + lia.
    + intros a Hin. specialize (Ho a ltac:(set_solver)). lia.
  - unfold fire_enter in H. destruct (draining b) eqn:Ed; [done|]. injection H as <-.
    split; simpl in *; auto; lia.
  - unfold fire_enter in H. destruct (draining b) eqn:Ed; [|done]. injection H as <-.
    split; simpl in *; auto; try lia; rewrite Ed; auto.
  - unfold fire_turn in H. destruct (pending b) as [|x rest] eqn:Ep; [done|]. injection H as <- <-.
    split; simpl in *; auto; try lia; rewrite ?Ep in *.
    destruct (OnStateChange (cfg b)); [by rewrite <- app_assoc|by destruct Hch].
  - unfold fire_turn in H. destruct (pending b) as [|x rest] eqn:Ep; [|done]. injection H as <-.
    split; simpl in *; rewrite ?Ep in *; auto; try done. destruct (draining b); simpl in *; lia.
  - split; simpl in *; auto; lia.
  - split; simpl in *; auto. destruct (draining b); simpl in *; lia.
Qed.

(** No step touches the configuration. *)
Lemma breaker_step_cfg s s' : breaker_step s s' -> cfg (br s') = cfg (br s).
Proof.
  intros Hs. destruct Hs as [now b l f k c t p adm fire b' H Hu|now b l f k c t p fire b' H
    |now ctxErr err b l1 adm l2 f k c t p fire b' H Hu|b l f k c t p b' H|b l f k c t p b' H|b l f k c t p nx b' H
    |b l f k c t p b' H|b l f k c t p|b l f k c t p]; simpl.
  - by destruct (admit_queues _ _ _ _ _ Hu H).
  - by apply admit_none in H as ->.
  - by destruct (record_queues _ _ _ _ _ _ _ Hu H).
  - unfold fire_enter in H. destruct (draining b); by simplify_eq.
  - unfold fire_enter in H. destruct (draining b); by simplify_eq.
  - unfold fire_turn in H. destruct (pending b); by simplify_eq.
  - unfold fire_turn in H. destruct (pending b); by simplify_eq.
  - done.
  - done.
Qed.

Lemma breaker_inv_reachable c s : FailureThreshold c < 9223372036854775808 -> HalfOpenMax c < 9223372036854775808 ->
  rtc breaker_step (breaker_init c) s -> breaker_inv s.
Proof.
  intros H1 H2 H. pose proof (breaker_inv_init c H1 H2) as H0. revert H0.
  induction H as [|s1 s2 s3 Hs _ IH]; [done|]. intros Hi. apply IH. by eapply breaker_inv_step.
Qed.

(** [n] countable failures recorded one after the other, at the instants
    [times], for publishes admitted while the circuit was closed. *)
Definition fail_run (adm : admission) (times : list Z) (b : Breaker) : Breaker :=
  fold_left (fun b now => snd (recordFailure now adm b)) times b.

Lemma fail_run_below adm times b : state b = BreakerClosed -> adm_epoch adm = epoch b ->
  0 <= failures b -> failures b + Z.of_nat (length times) < FailureThreshold (cfg b) ->
  FailureThreshold (cfg b) < 9223372036854775808 ->
  fail_run adm times b = set_failures (failures b + Z.of_nat (length times)) b.
Proof.
  revert b. induction times as [|now times IH]; intros b Hs He Hf Hn Hm.
  - simpl. rewrite Z.add_0_r. by destruct b.
  - simpl length in Hn. simpl fail_run. unfold recordFailure. rewrite He, Z.eqb_refl, Hs. cbn [negb].
    rewrite i64_id by lia. simpl failures. simpl cfg.
    replace (failures b + 1 >=? FailureThreshold (cfg b)) with false by lia. simpl snd.
    fold (fail_run adm times (set_failures (failures b + 1) b)). rewrite IH; simpl; try done; try lia.
    unfold set_failures. simpl. f_equal. lia.
Qed.

(** Outcomes of a superseded epoch change nothing. *)
Lemma fail_run_stale adm times b : adm_epoch adm <> epoch b -> fail_run adm times b = b.
Proof.
  intros He. induction times as [|now times IH]; [done|]. simpl. unfold recordFailure.
  replace (adm_epoch adm =? epoch b) with false by (symmetry; by apply Z.eqb_neq). exact IH.
Qed.

(** A goroutine that finds nobody delivering reports the whole queue. *)
Lemma fire_loop_all q fuel b told : pending b = q -> (length q < fuel)%nat ->
  fire_loop fuel b told = (told ++ q, set_draining false (set_pending [] b)).
Proof.
  revert fuel b told. induction q as [|x q IH]; intros [|fuel] b told Hp Hl; simpl in Hl; try lia;
    simpl; unfold fire_turn; rewrite Hp.
  - rewrite app_nil_r. by destruct b; simplify_eq/=.
  - rewrite (IH fuel) by (done || lia). by rewrite <- app_assoc.
Qed.

Lemma fireStateChanges_all b : draining b = false -> fireStateChanges b = (pending b, set_pending [] b).
Proof.
  intros Hd. unfold fireStateChanges, fire_enter. rewrite Hd. erewrite fire_loop_all; [|done..|simpl; lia].
  destruct b; by simplify_eq/=.
Qed.

(** * Theorems *)

(** C26.  However publishes, outcomes and callbacks interleave, a half-open
    breaker admits at most HalfOpenMax probes at a time: the probes in flight
    that were admitted since it became half-open number exactly [probes], and
    that is at most HalfOpenMax.  Publishes admitted before neither count nor
    release a slot, so probes left over from an earlier half-open period are in
    flight on top of the bound ([stale_probe_exceeds_bound]). *)
Theorem breaker_probe_bound c s :
  FailureThreshold c < 9223372036854775808 -> HalfOpenMax c < 9223372036854775808 ->
  rtc breaker_step (breaker_init c) s -> state (br s) = BreakerHalfOpen ->
  Forall (fun a => adm_probe a = true) (in_epoch (epoch (br s)) (inflight s)) /\
  probes (br s) = Z.of_nat (length (in_epoch (epoch (br s)) (inflight s))) /\
  probes (br s) <= HalfOpenMax (cfg (br s)).
Proof.
  intros H1 H2 Hr Hs. apply breaker_inv_reachable in Hr as [_ _ _ [_ Ha] _ _ _]; [|done..]. by rewrite Hs in Ha.
Qed.

(** With HalfOpenMax 2 three probes can be in flight at once: a probe of the
    first half-open period whose sibling's failure re-opened the circuit is
    still running when the next period admits two more. *)
Theorem stale_probe_exceeds_bound : exists s,
  rtc breaker_step (breaker_init (mkBreakerConfig 1 100 2 true)) s /\
  state (br s) = BreakerHalfOpen /\ HalfOpenMax (cfg (br s)) = 2 /\
  length (filter (fun a => adm_probe a = true) (inflight s)) = 3%nat.
Proof.
  exists (mkBS (mkBreaker (mkBreakerConfig 1 100 2 true) BreakerHalfOpen 4 0 201 2
                 [mkChange BreakerClosed BreakerOpen; mkChange BreakerOpen BreakerHalfOpen;
                  mkChange BreakerHalfOpen BreakerOpen; mkChange BreakerOpen BreakerHalfOpen] false)
            [mkAdmission 4 true; mkAdmission 4 true; mkAdmission 2 true] 4 0 0 [] false).
  split; [|by_decide].
  eapply rtc_l; [apply (BS_admit 0); [reflexivity|by_decide]|].
  eapply rtc_l; [apply (BS_record 1 None (Some [errAckTimeout]) _ []); [reflexivity|by_decide]|].
  eapply rtc_l; [apply (BS_admit 200); [reflexivity|by_decide]|].
  eapply rtc_l; [apply (BS_admit 200); [reflexivity|by_decide]|].
  eapply rtc_l; [apply (BS_record 201 None (Some [errAckTimeout]) _ []); [reflexivity|by_decide]|].
  eapply rtc_l; [apply (BS_admit 400); [reflexivity|by_decide]|].
  eapply rtc_l; [apply (BS_admit 400); [reflexivity|by_decide]|]. apply rtc_refl.
Qed.

(** C27.  State changes are reported faithfully: the transitions told to the
    callback, followed by the queued ones, lead from closed to the current state
    without a gap; at most one goroutine delivers at a time, exactly when
    [draining] is set; a queued change is not stranded (someone is delivering or
    about to) unless a callback panicked, and even then nobody holds the
    delivery: whenever no goroutine delivers, the next one to run
    [fireStateChanges] reports the whole queue in order and leaves it empty. *)
Theorem breaker_reports_in_order c s :
  FailureThreshold c < 9223372036854775808 -> HalfOpenMax c < 9223372036854775808 -> OnStateChange c = true ->
  rtc breaker_step (breaker_init c) s ->
  chain BreakerClosed (told s ++ pending (br s)) (state (br s)) /\
  (looping s + calling s)%nat = Nat.b2n (draining (br s)) /\
  (pending (br s) <> [] -> (0 < looping s + calling s + firing s)%nat \/ panicked s = true) /\
  ((looping s + calling s)%nat = 0%nat ->
   fireStateChanges (br s) = (pending (br s), set_pending [] (br s))).
Proof.
  intros H1 H2 Hc Hr. assert (Hcfg : OnStateChange (cfg (br s)) = true).
  { assert (cfg (br s) = cfg (NewBreaker c)) as ->; [|done].
    clear H1 H2 Hc. remember (breaker_init c) as s0 eqn:E0. assert (E : cfg (br s0) = cfg (NewBreaker c)) by (by subst).
    clear E0. induction Hr as [|s1 s2 s3 Hs _ IH]; [done|]. apply IH. rewrite <- E. by eapply breaker_step_cfg. }
  apply breaker_inv_reachable in Hr as [_ _ _ _ Hd Hch Hlv]; [|done..]. rewrite Hcfg in Hch.
  split; [done|]. split; [done|]. split.
  - intros Hp. destruct (Hlv Hp) as [Ht|[?|?]]; [left; rewrite Hd, Ht; simpl; lia|left; lia|by right].
  - intros H0. apply fireStateChanges_all. rewrite Hd in H0. by destruct (draining (br s)).
Qed.

(** The circuit opens after exactly FailureThreshold consecutive countable
    failures: one failure fewer leaves it closed with the streak counted, and at
    the threshold it is open since the instant of the last failure, whatever
    outcomes of the same epoch still arrive. *)
Theorem breaker_opens_at_threshold b adm times now more :
  state b = BreakerClosed -> adm_epoch adm = epoch b -> failures b = 0 -> in_u64 (epoch b + 1) ->
  Z.of_nat (length times) + 1 = FailureThreshold (cfg b) -> FailureThreshold (cfg b) < 9223372036854775808 ->
  state (fail_run adm times b) = BreakerClosed /\
  failures (fail_run adm times b) = Z.of_nat (length times) /\
  let b' := fail_run adm (times ++ now :: more) b in
  state b' = BreakerOpen /\ openedAt b' = now /\ failures b' = 0 /\ epoch b' = epoch b + 1.
Proof.
  intros Hs He Hf Hu Hn Hm. rewrite fail_run_below by (done || lia). simpl. split; [done|]. split; [lia|].
  unfold fail_run at 1 2 3 4. rewrite fold_left_app. fold (fail_run adm times b).
  rewrite fail_run_below by (done || lia). cbn [fold_left].
  set (b1 := snd (recordFailure now adm _)).
  assert (Hb1 : state b1 = BreakerOpen /\ openedAt b1 = now /\ failures b1 = 0 /\ epoch b1 = epoch b + 1).
  { unfold b1, recordFailure. simpl epoch. simpl state. rewrite He, Z.eqb_refl, Hs. cbn [negb].
    simpl failures. simpl cfg. rewrite i64_id by lia.
    replace (failures b + Z.of_nat (length times) + 1 >=? FailureThreshold (cfg b)) with true by lia.
    rewrite transitionLocked_ne by (simpl; congruence || done). simpl. done. }
  change (fold_left _ more b1) with (fail_run adm more b1). rewrite fail_run_stale; [done|].
  destruct Hb1 as (_ & _ & _ & ->). lia.
Qed.

(** A publish on an open circuit, with nothing else running: before the
    recovery timeout it fails fast with [ErrCircuitOpen] and changes nothing;
    from then on it goes through as the single probe, and its outcome decides:
    success closes the circuit, a countable failure re-opens it from that
    instant, a local error leaves it half-open with the probe slot free. *)
Theorem breaker_recovery b t0 t1 ctxErr outcome :
  state b = BreakerOpen -> pending b = [] -> draining b = false -> OnStateChange (cfg b) = true ->
  0 <= epoch b -> in_u64 (epoch b + 2) ->
  let '(err, reports, b') := Breaker_Publish t0 t1 ctxErr outcome b in
  if t0 - openedAt b <? RecoveryTimeout (cfg b)
  then err = Some [ErrCircuitOpen] /\ reports = [] /\ b' = b
  else err = outcome /\ pending b' = [] /\ draining b' = false /\ probes b' = 0 /\
    match outcome with
    | None => state b' = BreakerClosed /\ failures b' = 0 /\
        reports = [mkChange BreakerOpen BreakerHalfOpen; mkChange BreakerHalfOpen BreakerClosed]
    | Some e => if countableFailure ctxErr e
        then state b' = BreakerOpen /\ openedAt b' = t1 /\
          reports = [mkChange BreakerOpen BreakerHalfOpen; mkChange BreakerHalfOpen BreakerOpen]
        else state b' = BreakerHalfOpen /\ reports = [mkChange BreakerOpen BreakerHalfOpen]
    end.
Proof.
  intros Hs Hp Hd Hc H0 Hu. assert (Hu1 : in_u64 (epoch b + 1)) by (unfold in_u64 in *; lia).
  unfold Breaker_Publish, Breaker_admit. rewrite Hs. destruct (_ <? _); [done|].
  rewrite transitionLocked_ne by (done || congruence). rewrite Hs, Hc, Hp. cbn [app set_probes epoch].
  unfold fireStateChanges, fire_enter. cbn [draining]. rewrite Hd. simpl.
  unfold record. destruct outcome as [e|]; [destruct (countableFailure ctxErr e)|].
  - unfold recordFailure. simpl. rewrite Z.eqb_refl. cbn [negb].
    rewrite transitionLocked_ne by (simpl; done || (unfold in_u64 in *; lia)). simpl. rewrite Hc. simpl. auto 10.
  - unfold recordNeutral. simpl. rewrite Z.eqb_refl. simpl. auto 10.
  - unfold recordSuccess. simpl. rewrite Z.eqb_refl. cbn [negb]. simpl.
    rewrite transitionLocked_ne by (simpl; done || (unfold in_u64 in *; lia)). simpl. rewrite Hc. simpl. auto 10.
Qed.

(** Local conditions never trip the circuit: an error that carries a
    packet-size, identifier, encoding or validation error, or the caller's own
    cancellation, and no broker-side symptom, leaves state, epoch, failure streak
    and recovery window as they are. *)
Theorem breaker_local_neutral now ctxErr adm err b local :
  local ∈ [ErrPacketTooLarge; ErrPacketIDExhausted; ProtocolErr ErrProtocolViolation;
           ProtocolErr ErrMalformedPacket; ProtocolErr ErrStringTooLong] ++ option_list ctxErr ->
  local ∈ err -> (errAckTimeout ∉ err) -> (ErrConnectionLost ∉ err) -> (ErrNotConnected ∉ err) ->
  let b' := snd (record now ctxErr adm (Some err) b) in
  state b' = state b /\ epoch b' = epoch b /\ failures b' = failures b /\ openedAt b' = openedAt b /\
  pending b' = pending b.
Proof.
  intros Hl Hin H1 H2 H3. assert (Hc : countableFailure ctxErr err = false).
  { unfold countableFailure, errors_Is. rewrite !(bool_decide_false _ H1), !(bool_decide_false _ H2), !(bool_decide_false _ H3).
    simpl orb. apply elem_of_app in Hl as [Hl|Hl].
    - repeat (apply elem_of_cons in Hl as [->|Hl]); [..|by apply elem_of_nil in Hl];
        rewrite (bool_decide_true _ Hin), ?orb_true_r; repeat (case_match; [done|]); done.
    - destruct ctxErr as [e|]; simpl in Hl; [|by apply elem_of_nil in Hl].
      apply list_elem_of_singleton in Hl as ->. rewrite (bool_decide_true _ Hin). by repeat case_match. }
  unfold record. rewrite Hc. unfold recordNeutral. destruct (negb _); [done|]. by destruct (_ && _).
Qed.

(** Witnesses. *)

Definition cfg3 : BreakerConfig := mkBreakerConfig 2 100 1 true.

Lemma breaker_probe_bound_witness :
  let b := mkBreaker (mkBreakerConfig 2 100 1 true) BreakerHalfOpen 2 0 5 1
             [mkChange BreakerClosed BreakerOpen; mkChange BreakerOpen BreakerHalfOpen] false in
  let s := mkBS b [mkAdmission 2 true; mkAdmission 0 false] 2 0 0 [] false in
  Forall (fun a => adm_probe a = true) (in_epoch (epoch (br s)) (inflight s)) /\
  probes (br s) = Z.of_nat (length (in_epoch (epoch (br s)) (inflight s))) /\
  probes (br s) <= HalfOpenMax (cfg (br s)).
Proof.
  apply (breaker_probe_bound cfg3); [reflexivity|reflexivity| |reflexivity].
  eapply rtc_l; [apply (BS_admit 0); [reflexivity|by_decide]|].
  eapply rtc_l; [apply (BS_admit 0); [reflexivity|by_decide]|].
  eapply rtc_l; [apply (BS_admit 0); [reflexivity|by_decide]|].
  eapply rtc_l; [apply (BS_record 4 None (Some [errAckTimeout]) _ []); [reflexivity|by_decide]|].
  eapply rtc_l; [apply (BS_record 5 None (Some [errAckTimeout]) _ []); [reflexivity|by_decide]|].
  eapply rtc_l; [apply (BS_admit 200); [reflexivity|by_decide]|]. apply rtc_refl.
Defined.

(** A change queued behind a callback that panicked. *)
Lemma breaker_reports_in_order_witness :
  let b := mkBreaker (mkBreakerConfig 1 100 1 true) BreakerHalfOpen 2 0 5 1
             [mkChange BreakerOpen BreakerHalfOpen] false in
  let s := mkBS b [mkAdmission 2 true] 0 0 0 [mkChange BreakerClosed BreakerOpen] true in
  chain BreakerClosed (told s ++ pending (br s)) (state (br s)) /\
  (looping s + calling s)%nat = Nat.b2n (draining (br s)) /\
  (pending (br s) <> [] -> (0 < looping s + calling s + firing s)%nat \/ panicked s = true) /\
  ((looping s + calling s)%nat = 0%nat ->
   fireStateChanges (br s) = (pending (br s), set_pending [] (br s))).
Proof.
  apply (breaker_reports_in_order (mkBreakerConfig 1 100 1 true)); [reflexivity..|].
  eapply rtc_l; [apply (BS_admit 0); [reflexivity|by_decide]|].
  eapply rtc_l; [apply (BS_record 5 None (Some [ErrConnectionLost]) _ []); [reflexivity|by_decide]|].
  eapply rtc_l; [apply BS_enter; reflexivity|].
  eapply rtc_l; [apply BS_tell; reflexivity|].
  eapply rtc_l; [apply (BS_admit 200); [reflexivity|by_decide]|].
  eapply rtc_l; [apply BS_busy; reflexivity|].
  eapply rtc_l; [apply BS_panic|]. apply rtc_refl.
Defined.

Lemma breaker_opens_at_threshold_witness :
  let b := NewBreaker cfg3 in let adm := mkAdmission 0 false in
  state (fail_run adm [10] b) = BreakerClosed /\
  failures (fail_run adm [10] b) = Z.of_nat (length [10]) /\
  let b' := fail_run adm ([10] ++ 20 :: [30]) b in
  state b' = BreakerOpen /\ openedAt b' = 20 /\ failures b' = 0 /\ epoch b' = epoch b + 1.
Proof.
  apply breaker_opens_at_threshold; try reflexivity. unfold in_u64. simpl. lia.
Defined.

Lemma breaker_recovery_witness :
  let b := mkBreaker cfg3 BreakerOpen 1 0 5 0 [] false in
  let '(err, reports, b') := Breaker_Publish 105 106 None None b in
  if 105 - openedAt b <? RecoveryTimeout (cfg b)
  then err = Some [ErrCircuitOpen] /\ reports = [] /\ b' = b
  else err = None /\ pending b' = [] /\ draining b' = false /\ probes b' = 0 /\
    (state b' = BreakerClosed /\ failures b' = 0 /\
     reports = [mkChange BreakerOpen BreakerHalfOpen; mkChange BreakerHalfOpen BreakerClosed]).
Proof.
  apply (breaker_recovery (mkBreaker cfg3 BreakerOpen 1 0 5 0 [] false) 105 106 None None);
    try reflexivity; unfold in_u64; simpl; lia.
Defined.

Lemma breaker_local_neutral_witness :
  let b := NewBreaker cfg3 in
  let b' := snd (record 3 (Some ContextCanceled) (mkAdmission 0 false) (Some [OtherErr 1; ContextCanceled]) b) in
  state b' = state b /\ epoch b' = epoch b /\ failures b' = failures b /\ openedAt b' = openedAt b /\
  pending b' = pending b.
Proof.
  apply (breaker_local_neutral 3 (Some ContextCanceled) (mkAdmission 0 false) [OtherErr 1; ContextCanceled]
           (NewBreaker cfg3) ContextCanceled); by_decide.
Defined.
