(* ===== verification/Subscriptions.v ===== *)
(** The subscription table of the client and the routing of inbound messages
    (addSubscription, snapshotSubscription, restoreSubscription and
    removeSubscriptionIfCurrent in adapter_tcp.go; dispatch, containsID and
    toMessage in pump.go; Message in client.go). *)

From S2P Require Import Prelude GoStrings Codes Wire WireFacts Props PropsFacts PublishPackets ControlPackets.
From S2P Require Import SubscribePackets Topic.
From stdpp Require Import options.

(** * Messages *)

Record Message : Type := mkMessage {
  msg_Topic : list Z;
  msg_Payload : list Z;
  msg_QoS : Z;
  msg_Retain : bool;
  msg_Dup : bool;
  msg_ContentType : list Z;
  msg_ResponseTopic : list Z;
  msg_CorrelationData : list Z;
  msg_MessageExpirySeconds : Z;
  msg_PayloadFormatUTF8 : bool;
  msg_SubscriptionIdentifiers : list Z;
  msg_UserProperties : list UserProperty
}.

Definition toMessage (p : PublishPacket) : Message :=
  match pub_Properties p with
  | None => mkMessage (pub_Topic p) (pub_Payload p) (pub_QoS p) (pub_Retain p) (pub_Dup p) [] [] [] 0 false [] []
  | Some pr =>
    mkMessage (pub_Topic p) (pub_Payload p) (pub_QoS p) (pub_Retain p) (pub_Dup p)
      (ContentType pr) (ResponseTopic pr) (CorrelationData pr)
      (match MessageExpiryInterval pr with Some v => v | None => 0 end)
      (match PayloadFormat pr with Some v => v =? 1 | None => false end)
      (SubscriptionIdentifiers pr) (UserProperties pr)
  end.

(** * The table *)

(** Handlers are Go closures; a number stands for each. *)
Record subscription : Type := mkSub {
  s_filter : list Z;
  s_handler : Z;
  s_options : SubscribeOptions;
  s_token : Z;
  s_subID : Z
}.

(** The fields [subs] and [subSeq] of [TCPClient]. *)
Record subTable : Type := mkTable { subs : list subscription; subSeq : Z }.

Definition emptyTable : subTable := mkTable [] 0.

(** The loop [for i := range c.subs] of [addSubscription]: replace in place the
    first entry for the filter, or append. *)
Fixpoint replace_or_append (e : subscription) (l : list subscription) : list subscription :=
  match l with
  | [] => [e]
  | s :: l' =>
    if negb (bool_decide (s_filter s = s_filter e)) then s :: replace_or_append e l'
    else mkSub (s_filter s) (s_handler e) (s_options e) (s_token e) (s_subID e) :: l'
  end.

Definition addSubscription (filter : list Z) (options : SubscribeOptions) (handler subID : Z) (t : subTable)
    : Z * subTable :=
  let token := u64 (subSeq t + 1) in
  (token, mkTable (replace_or_append (mkSub filter handler options token subID) (subs t)) token).

(** The first entry for the filter. *)
Fixpoint find_filter (filter : list Z) (l : list subscription) : option subscription :=
  match l with
  | [] => None
  | s :: l' => if bool_decide (s_filter s = filter) then Some s else find_filter filter l'
  end.

Definition snapshotSubscription (filter : list Z) (t : subTable) : option subscription :=
  find_filter filter (subs t).

(** Undo the registration [token]: put the previous one back, or remove the
    entry; nothing happens once another registration took its place. *)
Fixpoint restore_in (filter : list Z) (prev : option subscription) (token : Z) (l : list subscription)
    : list subscription :=
  match l with
  | [] => []
  | s :: l' =>
    if bool_decide (s_filter s = filter) then
      if negb (s_token s =? token) then s :: l'
      else match prev with
      | Some p => mkSub (s_filter s) (s_handler p) (s_options p) (s_token p) (s_subID s) :: l'
      | None => l'
      end
    else s :: restore_in filter prev token l'
  end.

Definition restoreSubscription (filter : list Z) (prev : option subscription) (token : Z) (t : subTable) : subTable :=
  mkTable (restore_in filter prev token (subs t)) (subSeq t).

Fixpoint remove_in (filter : list Z) (token : Z) (l : list subscription) : list subscription :=
  match l with
  | [] => []
  | s :: l' =>
    if bool_decide (s_filter s = filter) then (if negb (s_token s =? token) then s :: l' else l')
    else s :: remove_in filter token l'
  end.

Definition removeSubscriptionIfCurrent (filter : list Z) (token : Z) (t : subTable) : subTable :=
  mkTable (remove_in filter token (subs t)) (subSeq t).

(** * Routing *)

Definition containsID (ids : list Z) (id : Z) : bool := existsb (Z.eqb id) ids.

(** The two loops of [dispatch], over the entries left, with the handlers
    collected so far; the second also counts the stamped subscriptions. *)
Fixpoint collect_by_id (ids : list Z) (l : list subscription) (handlers : list Z) : list Z :=
  match l with
  | [] => handlers
  | s :: l' =>
    collect_by_id ids l'
      (if negb (s_subID s =? 0) && containsID ids (s_subID s) then handlers ++ [s_handler s] else handlers)
  end.

Fixpoint collect_by_topic (topic : list Z) (l : list subscription) (handlers : list Z) (stamped : Z) : list Z * Z :=
  match l with
  | [] => (handlers, stamped)
  | s :: l' =>
    if negb (s_subID s =? 0) then collect_by_topic topic l' handlers (stamped + 1)
    else collect_by_topic topic l'
      (if MatchTopic (s_filter s) topic then handlers ++ [s_handler s] else handlers) stamped
  end.

(** The handlers called, in order, and whether the drop of an unstamped message
    is logged. *)
Definition dispatch (msg : Message) (t : subTable) : list Z * bool :=
  let ids := msg_SubscriptionIdentifiers msg in
  let '(handlers, stamped) :=
    if len ids >? 0 then (collect_by_id ids (subs t) [], 0)
    else collect_by_topic (msg_Topic msg) (subs t) [] 0 in
  (handlers, (len handlers =? 0) && (stamped >? 0)).

(** * Lemmas *)

Definition wants_id (ids : list Z) (s : subscription) : Prop := s_subID s <> 0 /\ s_subID s ∈ ids.
Definition wants_topic (topic : list Z) (s : subscription) : Prop :=
  s_subID s = 0 /\ MatchTopic (s_filter s) topic = true.
#[export] Instance wants_id_dec ids s : Decision (wants_id ids s).
Proof. unfold wants_id. apply _. Defined.
#[export] Instance wants_topic_dec topic s : Decision (wants_topic topic s).
Proof. unfold wants_topic. apply _. Defined.

Lemma containsID_spec ids id : containsID ids id = bool_decide (id ∈ ids).
Proof. apply Bool.eq_iff_eq_true. rewrite bool_decide_eq_true. apply (contains_byte_spec ids id). Qed.

Lemma collect_by_id_spec ids l hs :
  collect_by_id ids l hs = hs ++ (s_handler <$> filter (wants_id ids) l).
Proof.
  revert hs. induction l as [|s l IH]; intros hs; simpl; [by rewrite app_nil_r|].
  rewrite IH, filter_cons, containsID_spec. destruct (Z.eqb_spec (s_subID s) 0) as [E|E]; cbn [negb andb].
  - by rewrite decide_False by (unfold wants_id; tauto).
  - case_bool_decide as Hi.
    + rewrite decide_True by done. by rewrite fmap_cons, <- app_assoc.
    + by rewrite decide_False by (unfold wants_id; tauto).
Qed.

Lemma collect_by_topic_spec topic l hs n :
  collect_by_topic topic l hs n =
  (hs ++ (s_handler <$> filter (wants_topic topic) l),
   n + Z.of_nat (length (filter (fun s => s_subID s <> 0) l))).
Proof.
  revert hs n. induction l as [|s l IH]; intros hs n; simpl; [by rewrite app_nil_r, Z.add_0_r|].
  rewrite !filter_cons. destruct (Z.eqb_spec (s_subID s) 0) as [E|E]; cbn [negb]; rewrite IH.
  - rewrite (decide_False (P := s_subID s <> 0)) by naive_solver. f_equal. destruct (MatchTopic _ _) eqn:Em.
    + rewrite decide_True by done. by rewrite fmap_cons, <- app_assoc.
    + rewrite decide_False; [done|]. intros [_ H]. congruence.
  - rewrite decide_False by (intros [H _]; done). rewrite decide_True by done. f_equal. simpl length. lia.
Qed.

(** The table has one entry per filter, and tokens up to [subSeq]. *)
Record wf_table (t : subTable) : Prop := {
  wt_seq : in_u64 (subSeq t);
  wt_filters : NoDup (s_filter <$> subs t);
  wt_tokens s : s ∈ subs t -> 0 < s_token s <= subSeq t
}.

Lemma wf_emptyTable : wf_table emptyTable.
Proof. split; simpl; [unfold in_u64; lia|constructor|by intros s ?%elem_of_nil]. Qed.

Lemma replace_or_append_elem e l s : s ∈ replace_or_append e l -> s = e \/ s ∈ l.
Proof.
  induction l as [|x l IH]; simpl; [set_solver|]. case_bool_decide as Hf; simpl; [|set_solver].
  intros [->|Hin]%elem_of_cons; [|set_solver]. left. destruct e. simpl in *. by subst.
Qed.

Lemma replace_or_append_filters e l :
  s_filter <$> replace_or_append e l =
  (s_filter <$> l) ++ (if decide (s_filter e ∈ s_filter <$> l) then [] else [s_filter e]).
Proof.
  induction l as [|x l IH]; [done|]. simpl replace_or_append. case_bool_decide as Hf; cbn [negb].
  - rewrite fmap_cons. simpl. rewrite decide_True by set_solver. by rewrite app_nil_r.
  - rewrite !fmap_cons, IH. simpl. f_equal. f_equal. by repeat case_decide; set_solver.
Qed.

Lemma wf_addSubscription f o h id t : wf_table t -> in_u64 (subSeq t + 1) ->
  wf_table (snd (addSubscription f o h id t)).
Proof.
  intros [Hs Hn Ht] Hu. unfold addSubscription. rewrite u64_id by done. split; simpl; [done|..].
  - rewrite replace_or_append_filters. simpl. case_decide; [by rewrite app_nil_r|].
    apply NoDup_app. split; [done|]. split; [set_solver|apply NoDup_singleton].
  - intros s [->|Hin]%replace_or_append_elem; simpl; [unfold in_u64 in *; lia|]. specialize (Ht s Hin). lia.
Qed.

(** Undoing and removing leave the other entries alone. *)
Lemma restore_in_other f prev tok l s : s_filter s <> f -> s ∈ restore_in f prev tok l <-> s ∈ l.
Proof.
  intros Hf. induction l as [|x l IH]; [done|]. simpl. case_bool_decide as Hx; [|set_solver].
  destruct (negb _); [done|]. destruct prev; rewrite ?elem_of_cons; split; try tauto.
  - intros [->|?]; [done|tauto].
  - intros [->|?]; [done|tauto].
  - intros [->|?]; [done|tauto].
Qed.

Lemma remove_in_other f tok l s : s_filter s <> f -> s ∈ remove_in f tok l <-> s ∈ l.
Proof.
  intros Hf. induction l as [|x l IH]; [done|]. simpl. case_bool_decide as Hx; [|set_solver].
  destruct (negb _); [done|]. rewrite elem_of_cons. split; [tauto|]. intros [->|?]; [done|tauto].
Qed.

Lemma restore_in_filters f prev tok l :
  s_filter <$> restore_in f prev tok l = s_filter <$> l \/
  exists l1 l2, s_filter <$> l = l1 ++ f :: l2 /\ s_filter <$> restore_in f prev tok l = l1 ++ l2.
Proof.
  induction l as [|x l IH]; [by left|]. cbn [restore_in]. case_bool_decide as Hx.
  - destruct (negb _); [by left|]. destruct prev; [by left|]. right. exists [], (s_filter <$> l). by subst.
  - rewrite !fmap_cons. destruct IH as [->|(l1 & l2 & -> & ->)]; [by left|]. right. by exists (s_filter x :: l1), l2.
Qed.

Lemma remove_in_restore f tok l : remove_in f tok l = restore_in f None tok l.
Proof. induction l as [|x l IH]; simpl; [done|]. by rewrite IH. Qed.

Lemma restore_in_elem f prev tok l s : s ∈ restore_in f prev tok l ->
  s ∈ l \/ exists p, prev = Some p /\ s_token s = s_token p.
Proof.
  induction l as [|x l IH]; simpl; [by left|]. case_bool_decide as Hx.
  - destruct (negb _); [by left|]. destruct prev as [p|]; [|set_solver].
    intros [->|?]%elem_of_cons; [right; eauto|set_solver].
  - intros [->|?]%elem_of_cons; [set_solver|]. destruct IH as [?|?]; [done|set_solver|by right].
Qed.

Lemma wf_restore f prev tok t : wf_table t ->
  (forall p, prev = Some p -> 0 < s_token p <= subSeq t) -> wf_table (restoreSubscription f prev tok t).
Proof.
  intros [Hs Hn Ht] Hp. split; simpl; [done|..].
  - destruct (restore_in_filters f prev tok (subs t)) as [->|(l1 & l2 & E & ->)]; [done|].
    rewrite E in Hn. apply NoDup_app in Hn as (? & Hd & Hc). apply NoDup_cons in Hc as [_ ?].
    apply NoDup_app. set_solver.
  - intros s [Hin|(p & Hpp & ->)]%restore_in_elem; auto.
Qed.

Lemma wf_remove f tok t : wf_table t -> wf_table (removeSubscriptionIfCurrent f tok t).
Proof.
  intros Ht. unfold removeSubscriptionIfCurrent. rewrite remove_in_restore.
  apply (wf_restore f None tok t Ht). done.
Qed.

Lemma find_filter_Some f l s : find_filter f l = Some s -> s ∈ l /\ s_filter s = f.
Proof.
  induction l as [|x l IH]; simpl; [done|]. case_bool_decide as Hx.
  - intros [= <-]. split; [apply list_elem_of_here|done].
  - intros H. destruct (IH H). split; [by right|done].
Qed.

Lemma find_filter_None f l : find_filter f l = None <-> f ∉ s_filter <$> l.
Proof.
  induction l as [|x l IH]; cbn [find_filter]; [split; [intros _; apply not_elem_of_nil|done]|].
  rewrite fmap_cons. case_bool_decide as Hx; rewrite not_elem_of_cons; [split; [done|intros [? _]; by subst]|]. rewrite IH. naive_solver.
Qed.

(** A registration that is undone at once: the entry of the filter gets the
    identifier of the failed request, everything else is as before. *)
Definition stamp (f : list Z) (id : Z) (s : subscription) : subscription :=
  if decide (s_filter s = f) then mkSub (s_filter s) (s_handler s) (s_options s) (s_token s) id else s.

Lemma stamp_others f id (l : list subscription) : (f ∉ s_filter <$> l) -> stamp f id <$> l = l.
Proof.
  induction l as [|x l IH]; [done|]. rewrite fmap_cons, not_elem_of_cons. intros [Hx Hl].
  rewrite fmap_cons, IH by done. unfold stamp. by rewrite decide_False by congruence.
Qed.

Lemma restore_new f prev tok e (l : list subscription) : (f ∉ s_filter <$> l) -> s_filter e = f -> s_token e = tok -> prev = None ->
  restore_in f prev tok (replace_or_append e l) = l.
Proof.
  intros Hl He Ht ->. induction l as [|x l IH]; simpl.
  - rewrite bool_decide_true by done. by rewrite Ht, Z.eqb_refl.
  - rewrite fmap_cons, not_elem_of_cons in Hl. destruct Hl as [Hx Hl]. rewrite (bool_decide_false (s_filter x = s_filter e)) by congruence.
    simpl. rewrite bool_decide_false by congruence. by rewrite IH.
Qed.

Lemma restore_known f p e l : NoDup (s_filter <$> l) -> find_filter f l = Some p -> s_filter e = f ->
  restore_in f (Some p) (s_token e) (replace_or_append e l) = stamp f (s_subID e) <$> l.
Proof.
  intros Hn Hf He. induction l as [|x l IH]; [done|]. rewrite fmap_cons, NoDup_cons in Hn. destruct Hn as [Hx Hn].
  simpl in Hf. simpl replace_or_append. rewrite He. rewrite fmap_cons. unfold stamp at 1.
  case_bool_decide as Hxf; cbn [negb].
  - injection Hf as <-. simpl. rewrite bool_decide_true by done. rewrite Z.eqb_refl. simpl.
    rewrite decide_True by done. f_equal. symmetry. apply stamp_others. by rewrite <- Hxf.
  - simpl. rewrite bool_decide_false by done. rewrite decide_False by done. f_equal. by apply IH.
Qed.

(** * Concurrent callers

    [snaps] are the snapshots callers hold, [regs] the registrations whose
    SUBSCRIBE is in flight, with the snapshot taken before.  Taking the snapshot
    and registering are two critical sections. *)

Record sub_system : Type := mkSS {
  table : subTable;
  snaps : list (list Z * option subscription);
  regs : list (list Z * option subscription * Z)
}.

Inductive sub_step : sub_system -> sub_system -> Prop :=
| SS_snapshot t sn rg f :
    sub_step (mkSS t sn rg) (mkSS t ((f, snapshotSubscription f t) :: sn) rg)
| SS_register t sn1 f prev sn2 rg o h id tok t' : in_u64 (subSeq t + 1) ->
    addSubscription f o h id t = (tok, t') ->
    sub_step (mkSS t (sn1 ++ (f, prev) :: sn2) rg) (mkSS t' (sn1 ++ sn2) ((f, prev, tok) :: rg))
| SS_acked t sn rg1 r rg2 :
    sub_step (mkSS t sn (rg1 ++ r :: rg2)) (mkSS t sn (rg1 ++ rg2))
| SS_failed t sn rg1 f prev tok rg2 :
    sub_step (mkSS t sn (rg1 ++ (f, prev, tok) :: rg2)) (mkSS (restoreSubscription f prev tok t) sn (rg1 ++ rg2))
| SS_unsubscribed t sn1 f p sn2 rg :
    sub_step (mkSS t (sn1 ++ (f, Some p) :: sn2) rg) (mkSS (removeSubscriptionIfCurrent f (s_token p) t) (sn1 ++ sn2) rg).

Record sub_inv (s : sub_system) : Prop := {
  si_table : wf_table (table s);
  si_snaps f p : (f, Some p) ∈ snaps s -> 0 < s_token p <= subSeq (table s);
  si_regs f p tok : (f, Some p, tok) ∈ regs s -> 0 < s_token p <= subSeq (table s)
}.

Lemma sub_inv_step s s' : sub_step s s' -> sub_inv s -> sub_inv s'.
Proof.
  intros Hs [Ht Hsn Hrg]. destruct Hs as [t sn rg f|t sn1 f prev sn2 rg o h id tok t' Hu Ha|t sn rg1 r rg2
    |t sn rg1 f prev tok rg2|t sn1 f p sn2 rg]; cbn [table snaps regs] in *.
  - split; cbn [table snaps regs]; [done| |done]. intros g p [[= -> Hp]|Hin]%elem_of_cons; [|by eapply Hsn].
    symmetry in Hp. apply find_filter_Some in Hp as [Hp _]. by apply (wt_tokens t Ht).
  - pose proof (wf_addSubscription f o h id t Ht Hu) as Hw. rewrite Ha in Hw.
    assert (Hq : subSeq t' = subSeq t + 1).
    { unfold addSubscription in Ha. rewrite u64_id in Ha by done. by injection Ha as <- <-. }
    split; cbn [table snaps regs]; [done|..]; rewrite Hq.
    + intros g p Hin. specialize (Hsn g p ltac:(set_solver)). lia.
    + intros g p tk [[= -> <- ->]|Hin]%elem_of_cons; [specialize (Hsn f p ltac:(set_solver)); lia|].
      specialize (Hrg _ _ _ Hin). lia.
  - split; cbn [table snaps regs]; [done|done|]. intros g p tk Hin. apply (Hrg g p tk). set_solver.
  - split; cbn [table snaps regs]; [|done|].
    + apply wf_restore; [done|]. intros p ->. apply (Hrg f p tok). set_solver.
    + intros g p tk Hin. apply (Hrg g p tk). set_solver.
  - split; cbn [table snaps regs]; [by apply wf_remove| |done]. intros g q Hin. apply (Hsn g q). set_solver.
Qed.

Lemma sub_inv_reachable s : rtc sub_step (mkSS emptyTable [] []) s -> sub_inv s.
Proof.
  intros H. assert (H0 : sub_inv (mkSS emptyTable [] [])).
  { split; cbn [table snaps regs]; [apply wf_emptyTable|..]; by intros * ?%elem_of_nil. }
  revert H0. induction H as [|s1 s2 s3 Hs _ IH]; [done|]. intros Hi. apply IH. by eapply sub_inv_step.
Qed.

(** * Theorems *)

(** C34.  Routing: a message that carries Subscription Identifiers goes to the
    subscriptions registered under one of them and to no other; a message
    without goes to the subscriptions that have no identifier and whose filter
    matches the topic.  Each subscription is called once, in registration order,
    and the drop of a message only stamped subscriptions could have wanted is
    logged. *)
Theorem dispatch_routes msg t :
  let chosen := if bool_decide (msg_SubscriptionIdentifiers msg = [])
                then filter (wants_topic (msg_Topic msg)) (subs t)
                else filter (wants_id (msg_SubscriptionIdentifiers msg)) (subs t) in
  (dispatch msg t).1 = s_handler <$> chosen /\ chosen `sublist_of` subs t /\
  ((dispatch msg t).2 = true <->
   msg_SubscriptionIdentifiers msg = [] /\ chosen = [] /\ exists s, s ∈ subs t /\ s_subID s <> 0).
Proof.
  intros chosen. unfold dispatch.
  assert (Hl : (len (msg_SubscriptionIdentifiers msg) >? 0) = negb (bool_decide (msg_SubscriptionIdentifiers msg = []))).
  { case_bool_decide as E; [by rewrite E|]. destruct (msg_SubscriptionIdentifiers msg); [done|]. simpl length. lia. }
  rewrite Hl. unfold chosen. case_bool_decide as E; cbn [negb].
  - rewrite collect_by_topic_spec. cbn [fst snd]. rewrite app_nil_l. split; [done|].
    split; [apply sublist_filter|]. rewrite andb_true_iff, length_fmap, Z.eqb_eq, Z.gtb_lt. split.
    + intros [H1 H2]. split; [done|]. split; [apply nil_length_inv; lia|].
      destruct (filter (fun s => s_subID s <> 0) (subs t)) as [|s l] eqn:Ef; [simpl in H2; lia|].
      assert (Hin : s ∈ filter (fun s => s_subID s <> 0) (subs t)) by (rewrite Ef; apply list_elem_of_here).
      apply list_elem_of_filter in Hin as [? ?]. by exists s.
    + intros (_ & Hc & s & Hs & Hid). rewrite Hc. split; [done|].
      assert (Hin : s ∈ filter (fun s => s_subID s <> 0) (subs t)) by (by apply list_elem_of_filter).
      destruct (filter (fun s => s_subID s <> 0) (subs t)); [by apply elem_of_nil in Hin|]. simpl length. lia.
  - rewrite collect_by_id_spec. cbn [fst snd]. rewrite app_nil_l. split; [done|].
    split; [apply sublist_filter|]. rewrite andb_false_r. split; [done|]. intros [? _]. done.
Qed.

(** However Subscribe and Unsubscribe calls interleave, with their
    snapshots, failures and late acknowledgements, the table holds at most one
    registration per filter and every registration carries a token already
    issued. *)
Theorem table_one_per_filter s : rtc sub_step (mkSS emptyTable [] []) s ->
  NoDup (s_filter <$> subs (table s)) /\
  forall e, e ∈ subs (table s) -> 0 < s_token e <= subSeq (table s).
Proof. intros H. apply sub_inv_reachable in H as [[_ Hn Ht] _ _]. done. Qed.

(** A late undo or removal never touches a newer registration: once another
    Subscribe re-registered the filter, rolling back or unsubscribing with an
    older token leaves the table as it is. *)
Theorem newer_registration_kept f o h id t old prev : wf_table t -> in_u64 (subSeq t + 1) -> old <= subSeq t ->
  let t' := snd (addSubscription f o h id t) in
  restoreSubscription f prev old t' = t' /\ removeSubscriptionIfCurrent f old t' = t' /\
  exists e, snapshotSubscription f t' = Some e /\ s_handler e = h /\ s_subID e = id.
Proof.
  intros Ht Hu Ho t'. unfold t', addSubscription. rewrite u64_id by done. cbn [snd].
  unfold restoreSubscription, removeSubscriptionIfCurrent, snapshotSubscription. cbn [subs subSeq].
  rewrite remove_in_restore.
  assert (H : forall prev', restore_in f prev' old (replace_or_append (mkSub f h o (subSeq t + 1) id) (subs t)) =
    replace_or_append (mkSub f h o (subSeq t + 1) id) (subs t)).
  { intros prev'. induction (subs t) as [|x l IH]; simpl.
    - rewrite bool_decide_true by done. replace (subSeq t + 1 =? old) with false by lia. done.
    - case_bool_decide as Hx; simpl; [|rewrite bool_decide_false by done; by rewrite IH].
      rewrite bool_decide_true by done. by replace (subSeq t + 1 =? old) with false by lia. }
  rewrite !H. split; [done|]. split; [done|].
  clear. induction (subs t) as [|x l IH]; simpl.
  - rewrite bool_decide_true by done. eauto.
  - case_bool_decide as Hx; simpl; [rewrite bool_decide_true by done; eauto|]. by rewrite bool_decide_false.
Qed.

(** A Subscribe that fails leaves no trace when it is undone before
    anything else registers: a filter that had no registration has none again,
    and a filter that had one keeps its handler, options and token.  Its
    subscription identifier is kept too if the failed request asked for the same
    one. *)
Theorem failed_subscribe_undone f o h id t : wf_table t -> in_u64 (subSeq t + 1) ->
  let prev := snapshotSubscription f t in
  let '(tok, t1) := addSubscription f o h id t in
  let t2 := restoreSubscription f prev tok t1 in
  subs t2 = stamp f id <$> subs t /\
  (prev = None -> subs t2 = subs t) /\
  (forall p, prev = Some p -> s_subID p = id -> subs t2 = subs t).
Proof.
  intros Ht Hu prev. unfold addSubscription. rewrite u64_id by done.
  unfold restoreSubscription. cbn [subs]. subst prev. unfold snapshotSubscription.
  destruct (find_filter f (subs t)) as [p|] eqn:Ef.
  - pose proof (restore_known f p (mkSub f h o (subSeq t + 1) id) (subs t) (wt_filters t Ht) Ef eq_refl) as Hk.
    cbn [s_subID s_token] in Hk. rewrite Hk. clear Hk. split; [done|]. split; [done|]. intros q [= <-] Hid.
    pose proof (wt_filters t Ht) as Hn. clear Ht Hu. induction (subs t) as [|x l IH]; [done|].
    rewrite fmap_cons, NoDup_cons in Hn. destruct Hn as [Hx Hn]. rewrite fmap_cons. simpl in Ef.
    case_bool_decide as Hxf.
    + injection Ef as ->. rewrite stamp_others by (by rewrite <- Hxf). unfold stamp. rewrite decide_True by done.
      rewrite <- Hid. by destruct p.
    + rewrite IH by done. unfold stamp. by rewrite decide_False.
  - apply find_filter_None in Ef. rewrite restore_new by done. rewrite stamp_others by done. done.
Qed.

(** The identifier of a failed re-subscription sticks: after a Subscribe
    for a registered filter fails, the old handler is back but under the new
    request's identifier, so the messages the broker stamps with the still valid
    old identifier reach no handler. *)
Theorem failed_resubscribe_drops_messages f h o id id' h' o' tok msg :
  id <> 0 -> id' <> id -> msg_SubscriptionIdentifiers msg = [id] -> 0 < tok -> in_u64 (tok + 1) ->
  let t := mkTable [mkSub f h o tok id] tok in
  let '(tok', t1) := addSubscription f o' h' id' t in
  let t2 := restoreSubscription f (snapshotSubscription f t) tok' t1 in
  (dispatch msg t).1 = [h] /\ (dispatch msg t2).1 = [].
Proof.
  intros Hid Hne Hm Htok Hu. unfold addSubscription. cbn [subSeq]. rewrite u64_id by done.
  unfold restoreSubscription, snapshotSubscription, dispatch. rewrite Hm. simpl.
  rewrite !bool_decide_true by done. simpl. rewrite Z.eqb_refl. simpl. rewrite bool_decide_true by done. simpl.
  rewrite Z.eqb_refl. simpl.
  replace (id =? 0) with false by lia. replace (id' =? id) with false by lia. simpl.
  by destruct (id' =? 0).
Qed.

(** Taking the snapshot and registering are two steps, and a Subscribe that
    lands between them is lost with the failure: an acknowledged registration of
    another caller is first replaced by the pending one and then, on its failure,
    removed with it, although nothing unsubscribed. *)
Theorem snapshot_race_loses_registration (f : list Z) (o : SubscribeOptions) (h h' : Z) :
  let t1 := mkTable [mkSub f h o 1 0] 1 in
  rtc sub_step (mkSS emptyTable [] []) (mkSS t1 [(f, None)] []) /\
  rtc sub_step (mkSS t1 [(f, None)] []) (mkSS (mkTable [mkSub f h' o 2 0] 2) [] [(f, None, 2)]) /\
  rtc sub_step (mkSS t1 [(f, None)] []) (mkSS (mkTable [] 2) [] []).
Proof.
  assert (Hreg : sub_step (mkSS (mkTable [mkSub f h o 1 0] 1) [(f, None)] [])
                   (mkSS (mkTable [mkSub f h' o 2 0] 2) [] [(f, None, 2)])).
  { apply (SS_register _ [] f None [] [] o h' 0); [by_decide|]. unfold addSubscription. simpl.
    by rewrite bool_decide_true. }
  split; [|split].
  - eapply rtc_l; [apply (SS_snapshot _ _ _ f)|]. eapply rtc_l; [apply (SS_snapshot _ _ _ f)|].
    eapply rtc_l; [apply (SS_register _ [] f _ [(f, None)] _ o h 0); [by_decide|reflexivity]|].
    eapply rtc_l; [apply (SS_acked _ _ [])|]. apply rtc_refl.
  - by apply rtc_once.
  - eapply rtc_l; [exact Hreg|]. eapply rtc_l; [apply (SS_failed _ _ [])|].
    unfold restoreSubscription. simpl. rewrite bool_decide_true by done. apply rtc_refl.
Qed.

(** Witnesses. *)

Definition opts0 : SubscribeOptions := mkSubscribeOptions 0 false false 0.

Lemma table_one_per_filter_witness :
  let s := mkSS (mkTable [mkSub (gostr "a") 1 opts0 1 0] 2) [] [] in
  NoDup (s_filter <$> subs (table s)) /\
  forall e, e ∈ subs (table s) -> 0 < s_token e <= subSeq (table s).
Proof.
  apply table_one_per_filter.
  eapply rtc_l; [apply (SS_snapshot _ _ _ (gostr "a"))|].
  eapply rtc_l; [apply (SS_register _ [] _ _ [] _ opts0 1 0); [by_decide|vm_compute; reflexivity]|].
  eapply rtc_l; [apply (SS_acked _ _ [])|].
  eapply rtc_l; [apply (SS_snapshot _ _ _ (gostr "a"))|].
  eapply rtc_l; [apply (SS_register _ [] _ _ [] _ opts0 2 0); [by_decide|vm_compute; reflexivity]|].
  eapply rtc_l; [apply (SS_failed _ _ [])|]. vm_compute. apply rtc_refl.
Defined.

Lemma wf_single f h o tok id : in_u64 tok -> 0 < tok -> wf_table (mkTable [mkSub f h o tok id] tok).
Proof.
  intros Hu Ht. split; simpl; [done|apply NoDup_singleton|]. intros s ->%list_elem_of_singleton. simpl. lia.
Qed.

Lemma newer_registration_kept_witness :
  let t := mkTable [mkSub (gostr "a") 1 opts0 3 0] 3 in
  let t' := snd (addSubscription (gostr "a") opts0 2 7 t) in
  restoreSubscription (gostr "a") None 3 t' = t' /\ removeSubscriptionIfCurrent (gostr "a") 3 t' = t' /\
  exists e, snapshotSubscription (gostr "a") t' = Some e /\ s_handler e = 2 /\ s_subID e = 7.
Proof.
  apply newer_registration_kept; [apply wf_single; [by_decide|lia]|by_decide|simpl; lia].
Defined.

Lemma failed_subscribe_undone_witness :
  let t := mkTable [mkSub (gostr "a") 1 opts0 3 9] 3 in
  let prev := snapshotSubscription (gostr "a") t in
  let '(tok, t1) := addSubscription (gostr "a") opts0 2 9 t in
  let t2 := restoreSubscription (gostr "a") prev tok t1 in
  subs t2 = stamp (gostr "a") 9 <$> subs t /\
  (prev = None -> subs t2 = subs t) /\
  (forall p, prev = Some p -> s_subID p = 9 -> subs t2 = subs t).
Proof.
  apply (failed_subscribe_undone (gostr "a") opts0 2 9 (mkTable [mkSub (gostr "a") 1 opts0 3 9] 3));
    [apply wf_single; [by_decide|lia]|by_decide].
Defined.

Lemma failed_resubscribe_drops_messages_witness :
  let msg := mkMessage (gostr "a") [] 0 false false [] [] [] 0 false [9] [] in
  let t := mkTable [mkSub (gostr "a") 1 opts0 3 9] 3 in
  let '(tok', t1) := addSubscription (gostr "a") opts0 2 4 t in
  let t2 := restoreSubscription (gostr "a") (snapshotSubscription (gostr "a") t) tok' t1 in
  (dispatch msg t).1 = [1] /\ (dispatch msg t2).1 = [].
Proof.
  apply (failed_resubscribe_drops_messages (gostr "a") 1 opts0 9 4 2 opts0 3); try reflexivity; try by_decide; lia.
Defined.
