(* ===== verification/Lifecycle.v ===== *)
(** The reconnect policy (lifecycle.go): normalisation of the configuration,
    exponential backoff with jitter, flap detection, the turns of the reconnect
    loop, and ConnectWithRetry.  Durations and instants are [int64] nanoseconds;
    the arithmetic that can overflow is wrapped. *)

From S2P Require Import Prelude Errors.
From stdpp Require Import options.

Definition Second : Z := 1000000000.
Definition Millisecond : Z := 1000000.
Definition MaxInt64 : Z := 9223372036854775807.

Record LifecycleConfig : Type := mkLC {
  InitialBackoff : Z;
  MaxBackoff : Z;
  Jitter : Z;
  FlapWindow : Z
}.

Definition DefaultLifecycle : LifecycleConfig := mkLC (1 * Second) (30 * Second) (500 * Millisecond) (10 * Second).

(** The configuration [NewLifecycle] runs with. *)
Definition NewLifecycle (c : LifecycleConfig) : LifecycleConfig :=
  let initial := if InitialBackoff c <=? 0 then InitialBackoff DefaultLifecycle else InitialBackoff c in
  let max := if MaxBackoff c <=? 0 then MaxBackoff DefaultLifecycle else MaxBackoff c in
  let flap := if FlapWindow c =? 0 then FlapWindow DefaultLifecycle else FlapWindow c in
  let max := if max <? initial then initial else max in
  mkLC initial max (Jitter c) flap.

(** [draw] is what [rand.Int63n(2j)] returns. *)
Definition jittered (c : LifecycleConfig) (draw d : Z) : Z :=
  let j := Jitter c in
  if (j <=? 0) || (j >? MaxInt64 / 2) then d
  else
    let out := i64 (i64 (d + draw) - j) in
    let floor := Z.quot d 2 in
    if out <? floor then floor else out.

(** The loop [for i := 1; i < flapStreak && delay < MaxBackoff; i++]. *)
Fixpoint flap_double (fuel : nat) (i flapStreak max delay : Z) : Z :=
  match fuel with
  | O => delay
  | S fuel' =>
    if (i <? flapStreak) && (delay <? max) then flap_double fuel' (i + 1) flapStreak max (i64 (delay * 2))
    else delay
  end.

Definition flap_delay (c : LifecycleConfig) (flapStreak : Z) : Z :=
  let delay := flap_double (Z.to_nat flapStreak) 1 flapStreak (MaxBackoff c) (InitialBackoff c) in
  if delay >? MaxBackoff c then MaxBackoff c else delay.

(** * The reconnect loop *)

(** The variables of [loop]. *)
Record loopState : Type := mkLoop { backoff : Z; lastSuccess : Z; flapStreak : Z }.

Definition loop_start (c : LifecycleConfig) (now : Z) : loopState := mkLoop (InitialBackoff c) now 0.

(** What wakes the select: the connector lost its session, or the timer. *)
Inductive wakeup : Type := Lost (now : Z) | Timer.

(** What [connectOnce] returned, and when. *)
Inductive attempt : Type := Connected (now : Z) | AlreadyConnected | ConnectFailed.

(** The part of a turn before the connect: the delay waited, before jitter, and
    the variables after it. *)
Definition loop_wait (c : LifecycleConfig) (w : wakeup) (s : loopState) : Z * loopState :=
  match w with
  | Lost now =>
    if (FlapWindow c >? 0) && (now - lastSuccess s <? FlapWindow c) then
      let streak := i64 (flapStreak s + 1) in
      (flap_delay c streak, mkLoop (backoff s) (lastSuccess s) streak)
    else (0, mkLoop (InitialBackoff c) (lastSuccess s) 0)
  | Timer => (backoff s, s)
  end.

(** The part of a turn after the connect. *)
Definition loop_attempt (c : LifecycleConfig) (a : attempt) (s : loopState) : loopState :=
  match a with
  | AlreadyConnected => mkLoop (MaxBackoff c) (lastSuccess s) (flapStreak s)
  | ConnectFailed =>
    let b := i64 (backoff s * 2) in
    let b := if b >? MaxBackoff c then MaxBackoff c else b in
    mkLoop b (lastSuccess s) (flapStreak s)
  | Connected now => mkLoop (InitialBackoff c) now (flapStreak s)
  end.

Definition loop_turn (c : LifecycleConfig) (w : wakeup) (a : attempt) (s : loopState) : Z * loopState :=
  let '(d, s) := loop_wait c w s in (d, loop_attempt c a s).

(** The delays of a run of turns, and the final variables. *)
Fixpoint loop_run (c : LifecycleConfig) (turns : list (wakeup * attempt)) (s : loopState) : list Z * loopState :=
  match turns with
  | [] => ([], s)
  | (w, a) :: turns' =>
    let '(d, s) := loop_turn c w a s in
    let '(ds, s) := loop_run c turns' s in
    (d :: ds, s)
  end.

(** * ConnectWithRetry *)

Record RetryConfig : Type := mkRetry { rc_InitialBackoff : Z; rc_MaxBackoff : Z; rc_MaxAttempts : Z }.

(** The environment of one attempt: the error of [s.Start] if it failed,
    [ctx.Err()] after it, and [ctx.Err()] when the wait was interrupted. *)
Record tryEnv : Type := mkTry { startErr : option goerror; ctxAfter : option sentinel; ctxWait : option sentinel }.

Inductive retryResult : Type :=
| RetryOk
| RetryCtx (e : sentinel)
| RetryGaveUp (attempts : Z) (err : goerror).

(** The loop; [env] lists the attempts that happen, [waits] the delays so far.
    [None] means the listed attempts are over and the loop still runs. *)
Fixpoint retry_loop (maxAttempts maxBackoff : Z) (env : list tryEnv) (attempt backoff : Z) (waits : list Z)
    : option retryResult * list Z :=
  match env with
  | [] => (None, waits)
  | e :: env' =>
    match startErr e with
    | None => (Some RetryOk, waits)
    | Some err =>
      match ctxAfter e with
      | Some ce => (Some (RetryCtx ce), waits)
      | None =>
        if (maxAttempts >? 0) && (attempt >=? maxAttempts) then (Some (RetryGaveUp attempt err), waits)
        else match ctxWait e with
        | Some ce => (Some (RetryCtx ce), waits ++ [backoff])
        | None => retry_loop maxAttempts maxBackoff env' (attempt + 1)
                    (Z.min (i64 (2 * backoff)) maxBackoff) (waits ++ [backoff])
        end
      end
    end
  end.

Definition ConnectWithRetry (c : RetryConfig) (env : list tryEnv) : option retryResult * list Z :=
  let initial := if rc_InitialBackoff c <=? 0 then Second else rc_InitialBackoff c in
  let maxBackoff := if rc_MaxBackoff c <=? 0 then 30 * Second else rc_MaxBackoff c in
  let maxBackoff := if maxBackoff <? initial then initial else maxBackoff in
  retry_loop (rc_MaxAttempts c) maxBackoff env 1 initial [].

(** * Lemmas *)

(** A configuration the loop may rely on.  The ceiling is below 2^62 ns (146
    years), so that doubling a delay below it stays in range. *)
Definition wf_lc (c : LifecycleConfig) : Prop :=
  0 < InitialBackoff c <= MaxBackoff c /\ MaxBackoff c < 4611686018427387904 /\ FlapWindow c <> 0.

Lemma NewLifecycle_wf c : InitialBackoff c < 4611686018427387904 -> MaxBackoff c < 4611686018427387904 ->
  wf_lc (NewLifecycle c).
Proof.
  intros H1 H2. unfold wf_lc, NewLifecycle, DefaultLifecycle, Second. simpl.
  destruct (Z.leb_spec (InitialBackoff c) 0), (Z.leb_spec (MaxBackoff c) 0), (Z.eqb_spec (FlapWindow c) 0);
    repeat case_match; bool_prop; repeat split; lia.
Qed.

(** Doubling [n] times from [d], capped at [max]. *)
Definition capped (max d n : Z) : Z := Z.min (d * 2 ^ n) max.

Lemma capped_S max d n : 0 <= n -> 0 < d -> 0 <= max -> Z.min (capped max d n * 2) max = capped max d (n + 1).
Proof.
  intros Hn Hd Hm. unfold capped. rewrite Z.pow_add_r by lia. pose proof (Z.pow_pos_nonneg 2 n). nia.
Qed.

Lemma capped_range max d n : 0 <= n -> 0 < d <= max -> d <= capped max d n <= max.
Proof. intros Hn Hd. unfold capped. pose proof (Z.pow_pos_nonneg 2 n). nia. Qed.

Lemma flap_double_capped fuel i streak max d : (streak - i <= Z.of_nat fuel) -> i <= streak -> 0 < d ->
  max < 4611686018427387904 -> d < 9223372036854775808 ->
  Z.min (flap_double fuel i streak max d) max = capped max d (streak - i).
Proof.
  revert i d. induction fuel as [|fuel IH]; intros i d Hf Hi Hd Hm Hd2; cbn [flap_double].
  - replace (streak - i) with 0 by lia. unfold capped. by rewrite Z.mul_1_r.
  - destruct (Z.ltb_spec i streak); cbn [andb].
    + destruct (Z.ltb_spec d max).
      * rewrite i64_id by lia. rewrite IH by lia. unfold capped.
        replace (streak - i) with (Z.succ (streak - (i + 1))) by lia. rewrite Z.pow_succ_r by lia. f_equal. lia.
      * unfold capped. pose proof (Z.pow_pos_nonneg 2 (streak - i)). nia.
    + replace (streak - i) with 0 by lia. unfold capped. by rewrite Z.mul_1_r.
Qed.

Lemma flap_delay_capped c streak : wf_lc c -> 1 <= streak ->
  flap_delay c streak = capped (MaxBackoff c) (InitialBackoff c) (streak - 1).
Proof.
  intros (Hi & Hm & _) Hs. unfold flap_delay. rewrite <- (flap_double_capped (Z.to_nat streak)) by lia.
  set (d := flap_double _ _ _ _ _). destruct (Z.gtb_spec d (MaxBackoff c)); lia.
Qed.

(** The backoff stays between its bounds, and a flap streak counts up. *)
Record wf_loop (c : LifecycleConfig) (s : loopState) : Prop := {
  wl_backoff : InitialBackoff c <= backoff s <= MaxBackoff c;
  wl_streak : 0 <= flapStreak s
}.

Lemma loop_wait_wf c w s : wf_lc c -> wf_loop c s -> flapStreak s + 1 < 9223372036854775808 ->
  let '(d, s') := loop_wait c w s in
  wf_loop c s' /\ (d = 0 \/ InitialBackoff c <= d <= MaxBackoff c) /\ 0 <= flapStreak s' <= flapStreak s + 1.
Proof.
  intros Hc [Hb Hs] Hr. pose proof Hc as (Hi & Hm & _). unfold loop_wait. destruct w as [now|].
  - destruct (_ && _); simpl.
    + rewrite i64_id by lia. rewrite flap_delay_capped by (done || lia).
      pose proof (capped_range (MaxBackoff c) (InitialBackoff c) (flapStreak s + 1 - 1)).
      split; [split; simpl; lia|]. lia.
    + split; [split; simpl; lia|]. lia.
  - split; [by split|]. lia.
Qed.

Lemma loop_attempt_wf c a s : wf_lc c -> wf_loop c s ->
  wf_loop c (loop_attempt c a s) /\ flapStreak (loop_attempt c a s) = flapStreak s.
Proof.
  intros (Hi & Hm & _) [Hb Hs]. destruct a; simpl; (split; [|done]); split; simpl; try lia.
  rewrite i64_id by lia. destruct (Z.gtb_spec (backoff s * 2) (MaxBackoff c)); lia.
Qed.

Lemma loop_run_wf c turns s : wf_lc c -> wf_loop c s ->
  flapStreak s + Z.of_nat (length turns) < 9223372036854775808 ->
  Forall (fun d => d = 0 \/ InitialBackoff c <= d <= MaxBackoff c) (fst (loop_run c turns s)) /\
  wf_loop c (snd (loop_run c turns s)).
Proof.
  intros Hc. revert s. induction turns as [|[w a] turns IH]; intros s Hs Hr; simpl; [split; [constructor|done]|].
  simpl length in Hr. unfold loop_turn. pose proof (loop_wait_wf c w s Hc Hs ltac:(lia)) as Hw.
  destruct (loop_wait c w s) as [d s1]. destruct Hw as (H1 & Hd & Hstreak).
  destruct (loop_attempt_wf c a s1 Hc H1) as [H2 H2s].
  specialize (IH _ H2 ltac:(lia)). destruct (loop_run c turns _) as [ds s2]. simpl in *.
  split; [constructor; [done|apply IH]|apply IH].
Qed.

(** [n] capped doublings of [d], from the [k]-th on. *)
Definition ladder (max d : Z) (k n : nat) : list Z := (fun i => capped max d (Z.of_nat i)) <$> seq k n.

Lemma failures_ladder c n k s : wf_lc c -> backoff s = capped (MaxBackoff c) (InitialBackoff c) (Z.of_nat k) ->
  fst (loop_run c (replicate n (Timer, ConnectFailed)) s) = ladder (MaxBackoff c) (InitialBackoff c) k n.
Proof.
  intros Hc. pose proof Hc as (Hi & Hm & _). revert k s. induction n as [|n IH]; intros k s Hb; [done|].
  cbn [replicate loop_run loop_turn loop_wait].
  set (s1 := loop_attempt c ConnectFailed s). specialize (IH (S k) s1).
  destruct (loop_run c _ s1) as [ds s2]. cbn [fst] in *. unfold ladder. cbn [seq]. rewrite fmap_cons, Hb. f_equal.
  apply IH. unfold s1. cbn [loop_attempt backoff]. rewrite Hb.
  pose proof (capped_range (MaxBackoff c) (InitialBackoff c) (Z.of_nat k)). rewrite i64_id by lia.
  rewrite Nat2Z.inj_succ, <- Z.add_1_r, <- capped_S by lia.
  destruct (Z.gtb_spec (capped (MaxBackoff c) (InitialBackoff c) (Z.of_nat k) * 2) (MaxBackoff c)); lia.
Qed.

(** A run of connections that each die within the flap window: [flaps] lists
    the instants of loss and of the reconnect that succeeds after it. *)
Fixpoint flapping (c : LifecycleConfig) (last : Z) (flaps : list (Z * Z)) : Prop :=
  match flaps with
  | [] => True
  | (lost, up) :: flaps' => lost - last < FlapWindow c /\ flapping c up flaps'
  end.

Lemma flaps_ladder c flaps k s : wf_lc c -> 0 < FlapWindow c -> flapStreak s = Z.of_nat k ->
  Z.of_nat k + Z.of_nat (length flaps) < 9223372036854775808 -> flapping c (lastSuccess s) flaps ->
  fst (loop_run c ((fun f => (Lost f.1, Connected f.2)) <$> flaps) s) =
  ladder (MaxBackoff c) (InitialBackoff c) k (length flaps).
Proof.
  intros Hc Hw. revert k s. induction flaps as [|[lost up] flaps IH]; intros k s Hk Hr Hf; [done|].
  destruct Hf as [Hl Hf]. simpl length in *. rewrite fmap_cons. cbn [loop_run fst snd].
  assert (Ht : loop_turn c (Lost lost) (Connected up) s =
    (flap_delay c (Z.of_nat k + 1), mkLoop (InitialBackoff c) up (Z.of_nat k + 1))).
  { unfold loop_turn, loop_wait. replace (FlapWindow c >? 0) with true by lia.
    replace (lost - lastSuccess s <? FlapWindow c) with true by lia. cbn [andb]. by rewrite Hk, i64_id by lia. }
  rewrite Ht.
  specialize (IH (S k) (mkLoop (InitialBackoff c) up (Z.of_nat k + 1)) ltac:(simpl; lia) ltac:(lia) Hf).
  destruct (loop_run c _ _) as [ds s2]. cbn [fst] in *. unfold ladder. cbn [seq]. rewrite fmap_cons.
  rewrite IH, flap_delay_capped by (done || lia). do 2 f_equal. lia.
Qed.

Lemma retry_gives_up maxAttempts max d err env a k waits :
  0 < d <= max -> max < 4611686018427387904 ->
  a = Z.of_nat k + 1 -> maxAttempts = Z.of_nat k + Z.of_nat (length env) -> env <> [] ->
  Forall (fun e => startErr e = Some err /\ ctxAfter e = None /\ ctxWait e = None) env ->
  retry_loop maxAttempts max env a (capped max d (Z.of_nat k)) waits =
  (Some (RetryGaveUp maxAttempts err), waits ++ ladder max d k (length env - 1)).
Proof.
  intros Hd Hm. revert a k waits. induction env as [|e env IH]; intros a k waits Ha Hn Hne Henv; [done|].
  apply Forall_cons in Henv as [(Hs & Hca & Hcw) Henv]. cbn [retry_loop]. rewrite Hs, Hca, Hcw.
  simpl length in *. replace (maxAttempts >? 0) with true by lia. cbn [andb].
  destruct env as [|e' env].
  - replace (a >=? maxAttempts) with true by (simpl length in *; lia).
    replace a with maxAttempts by (simpl length in *; lia). unfold ladder. simpl. by rewrite app_nil_r.
  - replace (a >=? maxAttempts) with false by (simpl length in *; lia).
    pose proof (capped_range max d (Z.of_nat k)). rewrite i64_id by lia.
    replace (Z.min (2 * capped max d (Z.of_nat k)) max) with (capped max d (Z.of_nat (S k)))
      by (rewrite Nat2Z.inj_succ, <- Z.add_1_r, <- capped_S by lia; f_equal; lia).
    rewrite IH by (done || (simpl length in *; lia)). rewrite <- app_assoc. simpl length.
    replace (S (S (length env)) - 1)%nat with (S (S (length env) - 1)) by lia. done.
Qed.

(** * Theorems *)

(** Reconnection never spins and never stalls: whatever the broker does, a
    delay before an attempt is either none, right after a stable session was
    lost, or lies between the normalised InitialBackoff and MaxBackoff. *)
Theorem reconnect_delays_bounded c turns now :
  InitialBackoff c < 4611686018427387904 -> MaxBackoff c < 4611686018427387904 ->
  Z.of_nat (length turns) < 9223372036854775808 ->
  let c' := NewLifecycle c in
  Forall (fun d => d = 0 \/ 0 < InitialBackoff c' <= d /\ d <= MaxBackoff c') (fst (loop_run c' turns (loop_start c' now))).
Proof.
  intros H1 H2 Hn c'. pose proof (NewLifecycle_wf c H1 H2) as Hc. pose proof Hc as (Hi & _). fold c' in Hc, Hi.
  destruct (loop_run_wf c' turns (loop_start c' now) Hc) as [H _];
    [split; cbn [loop_start backoff flapStreak]; lia|cbn [loop_start flapStreak]; lia|].
  eapply Forall_impl; [exact H|]. intros d. cbn beta. lia.
Qed.

Lemma reconnect_delays_bounded_witness :
  let c' := NewLifecycle (mkLC 0 (-5) 0 0) in
  Forall (fun d => d = 0 \/ 0 < InitialBackoff c' <= d /\ d <= MaxBackoff c')
    (fst (loop_run c' [(Timer, ConnectFailed); (Lost 7, Connected 9)] (loop_start c' 0))).
Proof. apply reconnect_delays_bounded; simpl; lia. Defined.

(** Exponential backoff: while attempts keep failing, the delays double
    from InitialBackoff and stay at MaxBackoff once they reach it. *)
Theorem failures_back_off c n now : wf_lc c ->
  fst (loop_run c (replicate n (Timer, ConnectFailed)) (loop_start c now)) =
  (fun i => Z.min (InitialBackoff c * 2 ^ Z.of_nat i) (MaxBackoff c)) <$> seq 0 n.
Proof.
  intros Hc. rewrite (failures_ladder c n 0); [done|done|]. destruct Hc as (Hi & _).
  simpl. unfold capped. rewrite Z.mul_1_r. lia.
Qed.

Lemma failures_back_off_witness :
  fst (loop_run DefaultLifecycle (replicate 6 (Timer, ConnectFailed)) (loop_start DefaultLifecycle 0)) =
  (fun i => Z.min (InitialBackoff DefaultLifecycle * 2 ^ Z.of_nat i) (MaxBackoff DefaultLifecycle)) <$> seq 0 6.
Proof. apply failures_back_off. unfold wf_lc, DefaultLifecycle, Second. simpl. lia. Defined.

(** A flapping broker is backed off too: when every connection is accepted
    and dies within FlapWindow, the delays before the reconnects double from
    InitialBackoff up to MaxBackoff although every connect succeeds. *)
Theorem flaps_back_off c flaps now : wf_lc c -> 0 < FlapWindow c ->
  Z.of_nat (length flaps) < 9223372036854775808 -> flapping c now flaps ->
  fst (loop_run c ((fun f => (Lost f.1, Connected f.2)) <$> flaps) (loop_start c now)) =
  (fun i => Z.min (InitialBackoff c * 2 ^ Z.of_nat i) (MaxBackoff c)) <$> seq 0 (length flaps).
Proof. intros Hc Hw Hn Hf. by rewrite (flaps_ladder c flaps 0). Qed.

Lemma flaps_back_off_witness :
  fst (loop_run DefaultLifecycle ((fun f => (Lost f.1, Connected f.2)) <$> [(5, 6); (7, 8); (9, 10)])
         (loop_start DefaultLifecycle 0)) =
  (fun i => Z.min (InitialBackoff DefaultLifecycle * 2 ^ Z.of_nat i) (MaxBackoff DefaultLifecycle))
    <$> seq 0 (length [(5, 6); (7, 8); (9, 10)]).
Proof.
  apply flaps_back_off; [unfold wf_lc, DefaultLifecycle, Second; simpl; lia|reflexivity|simpl; lia|].
  simpl. unfold FlapWindow, DefaultLifecycle, Second. lia.
Defined.

(** Jitter spreads a delay over [d-Jitter, d+Jitter) and never cuts it below
    half: the exponential growth survives any jitter. *)
Theorem jitter_bounds c d draw : 0 <= d < 4611686018427387904 -> 0 <= draw < 2 * Jitter c ->
  Z.quot d 2 <= jittered c draw d /\
  (Jitter c <= MaxInt64 / 2 -> d - Jitter c <= jittered c draw d < Z.max (d + Jitter c) (Z.quot d 2 + 1)) /\
  (MaxInt64 / 2 < Jitter c -> jittered c draw d = d).
Proof.
  intros Hd Hr. unfold jittered, MaxInt64. change (9223372036854775807 / 2) with 4611686018427387903.
  assert (Hq : Z.quot d 2 <= d) by (apply Z.quot_le_upper_bound; lia).
  assert (0 <= Z.quot d 2) by (apply Z.quot_pos; lia).
  destruct (Z.leb_spec (Jitter c) 0); [lia|]. destruct (Z.gtb_spec (Jitter c) 4611686018427387903); cbn [orb].
  - repeat split; lia.
  - assert (Hi : i64 (i64 (d + draw) - Jitter c) = d + draw - Jitter c).
    { unfold i64. set (m := 18446744073709551616). set (h := 9223372036854775808).
      replace ((d + draw + h) mod m - h - Jitter c + h) with ((d + draw + h) mod m - Jitter c) by lia.
      rewrite Zminus_mod_idemp_l. rewrite Z.mod_small by (unfold m, h; lia). lia. }
    rewrite Hi. destruct (Z.ltb_spec (d + draw - Jitter c) (Z.quot d 2)); repeat split; lia.
Qed.

Lemma jitter_bounds_witness :
  Z.quot Second 2 <= jittered DefaultLifecycle 3 Second /\
  (Jitter DefaultLifecycle <= MaxInt64 / 2 ->
     Second - Jitter DefaultLifecycle <= jittered DefaultLifecycle 3 Second <
       Z.max (Second + Jitter DefaultLifecycle) (Z.quot Second 2 + 1)) /\
  (MaxInt64 / 2 < Jitter DefaultLifecycle -> jittered DefaultLifecycle 3 Second = Second).
Proof. apply jitter_bounds; unfold DefaultLifecycle, Second, Millisecond; simpl; lia. Defined.

(** [ConnectWithRetry] with a bound makes exactly MaxAttempts attempts
    against a broker that is not there, waits between them on the capped
    exponential ladder, and returns the last error. *)
Theorem retry_attempts_exact c env err : 0 < rc_InitialBackoff c <= rc_MaxBackoff c ->
  rc_MaxBackoff c < 4611686018427387904 -> env <> [] -> rc_MaxAttempts c = Z.of_nat (length env) ->
  Forall (fun e => startErr e = Some err /\ ctxAfter e = None /\ ctxWait e = None) env ->
  ConnectWithRetry c env =
  (Some (RetryGaveUp (rc_MaxAttempts c) err),
   (fun i => Z.min (rc_InitialBackoff c * 2 ^ Z.of_nat i) (rc_MaxBackoff c)) <$> seq 0 (length env - 1)).
Proof.
  intros Hi Hm Hne Hn Henv. unfold ConnectWithRetry.
  replace (rc_InitialBackoff c <=? 0) with false by lia. replace (rc_MaxBackoff c <=? 0) with false by lia.
  replace (rc_MaxBackoff c <? rc_InitialBackoff c) with false by lia.
  pose proof (retry_gives_up (rc_MaxAttempts c) (rc_MaxBackoff c) (rc_InitialBackoff c) err env 1 0 []
    Hi Hm eq_refl ltac:(lia) Hne Henv) as H.
  unfold capped in H at 1. rewrite Z.mul_1_r, Z.min_l in H by lia. exact H.
Qed.

Lemma retry_attempts_exact_witness :
  let e := mkTry (Some [OtherErr 1]) None None in
  ConnectWithRetry (mkRetry 1 4 5) [e; e; e; e; e] =
  (Some (RetryGaveUp 5 [OtherErr 1]),
   (fun i => Z.min (1 * 2 ^ Z.of_nat i) 4) <$> seq 0 (length [e; e; e; e; e] - 1)).
Proof.
  apply (retry_attempts_exact (mkRetry 1 4 5)); simpl; try lia; try done. repeat constructor.
Defined.
