(* ===== verification/Client.v ===== *)
(** The state of the TCP client and the operations every path shares
    (adapter_tcp.go): the link of a connection, the waiters for
    acknowledgements, writing a frame, tearing a link down; and the
    acknowledgement and error replies of pump.go. *)

From Stdlib Require Import Ascii.
From S2P Require Import Prelude GoStrings Codes Wire WireFacts Props PropsFacts PublishPackets ControlPackets.
From S2P Require Import SubscribePackets Topic SessionStore Errors IdAllocator Quota Subscriptions Lifecycle.
From stdpp Require Import options.

(** * Configuration *)

Definition defaultMaxPacketSize : Z := 1048576.
Definition keepAliveFloor : Z := 30 * Second.
Definition defaultDialTimeout : Z := 10 * Second.
Definition defaultAckTimeout : Z := 20 * Second.
Definition defaultReceiveMaximum : Z := 65535.

(** The public [Will] of options.go; [ControlPackets.Will] is the wire form. *)
Record ClientWill : Type := mkClientWill {
  cw_Topic : list Z;
  cw_ContentType : list Z;
  cw_ResponseTopic : list Z;
  cw_Payload : list Z;
  cw_CorrelationData : list Z;
  cw_QoS : Z;
  cw_Retain : bool;
  cw_PayloadFormatUTF8 : bool;
  cw_DelayIntervalSeconds : Z;
  cw_MessageExpirySeconds : Z;
  cw_UserProperties : list UserProperty
}.

(** [BrokerURL], [TLSConfig] and [Logger] are used by dialling and logging only. *)
Record TCPConfig : Type := mkTCPConfig {
  cf_ClientID : list Z;
  cf_Username : list Z;
  cf_Password : list Z;
  cf_ProtocolVersion : Z;
  cf_CleanStart : bool;
  cf_SessionExpirySeconds : Z;
  cf_ReceiveMaximum : Z;
  cf_MaximumPacketSize : Z;
  cf_TopicAliasMaximum : Z;
  cf_UserProperties : list UserProperty;
  cf_KeepAlive : Z;
  cf_DialTimeout : Z;
  cf_AckTimeout : Z;
  cf_MaxInflight : Z;
  cf_Will : option ClientWill
}.

Record ConnectResult : Type := mkConnectResult {
  cr_AssignedClientID : list Z;
  cr_SessionPresent : bool;
  cr_ReasonCode : Z;
  cr_ServerKeepAlive : Z;
  cr_ServerKeepAliveSet : bool;
  cr_ReceiveMaximum : Z;
  cr_MaximumQoS : Z;
  cr_RetainAvailable : bool;
  cr_MaximumPacketSize : Z;
  cr_TopicAliasMaximum : Z;
  cr_UserProperties : list UserProperty
}.

(** * State *)

(** What [ackResult] carries to a waiter. *)
Record ackResult : Type := mkAckResult { ar_err : option goerror; ar_reason : list Z; ar_code : Z }.

Inductive ackClass : Type := ackClassPublish | ackClassSuback | ackClassUnsuback.
#[export] Instance ackClass_eq_dec : EqDecision ackClass.
Proof. solve_decision. Defined.

Definition ackClass_String (a : ackClass) : string :=
  match a with
  | ackClassPublish => "publish-ack"
  | ackClassSuback => "suback"
  | ackClassUnsuback => "unsuback"
  end.

(** A channel is a number; its one-element buffer is in [chans]. *)
Record waiter : Type := mkWaiter { w_ch : nat; w_want : ackClass }.

(** A socket with its buffered reader and writer: the bytes not yet read, the
    frames flushed so far, and whether it was closed. *)
Record conn : Type := mkConn { cn_r : list Z; cn_w : list (list Z); cn_closed : bool }.

Record link : Type := mkLink {
  l_conn : nat;
  l_stop : bool;
  l_graceful : bool;
  l_quotaGen : Z;
  l_idGen : Z;
  l_aliases : gmap Z (list Z);
  l_outboundMax : Z;
  l_inboundMax : Z;
  l_pingInterval : Z;
  l_outstandingPings : Z
}.

#[export] Instance conn_inhabited : Inhabited conn := populate (mkConn [] [] true).
#[export] Instance link_inhabited : Inhabited link := populate (mkLink 0 true false 0 0 ∅ 0 0 0 0).

Definition conn_eta (k : conn) : conn := mkConn (cn_r k) (cn_w k) (cn_closed k).
Definition set_cn_r : list Z -> conn -> conn := ltac:(record_setter conn_eta cn_r).
Definition set_cn_w : list (list Z) -> conn -> conn := ltac:(record_setter conn_eta cn_w).
Definition set_cn_closed : bool -> conn -> conn := ltac:(record_setter conn_eta cn_closed).

Definition link_eta (l : link) : link :=
  mkLink (l_conn l) (l_stop l) (l_graceful l) (l_quotaGen l) (l_idGen l) (l_aliases l)
    (l_outboundMax l) (l_inboundMax l) (l_pingInterval l) (l_outstandingPings l).
Definition set_l_stop : bool -> link -> link := ltac:(record_setter link_eta l_stop).
Definition set_l_graceful : bool -> link -> link := ltac:(record_setter link_eta l_graceful).
Definition set_l_quotaGen : Z -> link -> link := ltac:(record_setter link_eta l_quotaGen).
Definition set_l_idGen : Z -> link -> link := ltac:(record_setter link_eta l_idGen).
Definition set_l_aliases : gmap Z (list Z) -> link -> link := ltac:(record_setter link_eta l_aliases).
Definition set_l_outstandingPings : Z -> link -> link := ltac:(record_setter link_eta l_outstandingPings).

(** The optional fast membership test of a store. *)
Class ContainsStore (St : Type) : Type := { Contains : option (Z -> Z -> St -> bool) }.
#[export] Instance memStore_ContainsStore : ContainsStore memStore := { Contains := Some memStore_Contains }.

(** A [TCPClient].  The settings are fixed by [NewTCPClient]; links, sockets and
    channels are heap objects, referred to by number, so that goroutines of an
    old connection keep seeing the link they were started with.  [calls] records
    the handler invocations. *)
Record client (St : Type) : Type := mkClient {
  c_cfg : TCPConfig;
  c_version : Z;
  c_inboundMax : Z;
  c_pingInterval : Z;
  c_conns : gmap nat conn;
  c_links : gmap nat link;
  c_link : option nat;
  c_ids : idAllocator;
  c_store : St;
  c_quota : quota;
  c_table : subTable;
  c_waiters : gmap Z waiter;
  c_chans : gmap nat ackResult;
  c_nextCh : nat;
  c_lostCh : bool;
  c_result : option ConnectResult;
  c_connectedAt : option Z;
  c_calls : list (Z * Message)
}.
Arguments mkClient {St}.
Arguments c_cfg {St}.
Arguments c_version {St}.
Arguments c_inboundMax {St}.
Arguments c_pingInterval {St}.
Arguments c_conns {St}.
Arguments c_links {St}.
Arguments c_link {St}.
Arguments c_ids {St}.
Arguments c_store {St}.
Arguments c_quota {St}.
Arguments c_table {St}.
Arguments c_waiters {St}.
Arguments c_chans {St}.
Arguments c_nextCh {St}.
Arguments c_lostCh {St}.
Arguments c_result {St}.
Arguments c_connectedAt {St}.
Arguments c_calls {St}.

Section setters.
Context {St : Type}.
Implicit Types c : client St.

Definition client_eta c : client St :=
  mkClient (c_cfg c) (c_version c) (c_inboundMax c) (c_pingInterval c) (c_conns c) (c_links c) (c_link c)
    (c_ids c) (c_store c) (c_quota c) (c_table c) (c_waiters c) (c_chans c) (c_nextCh c) (c_lostCh c)
    (c_result c) (c_connectedAt c) (c_calls c).
Definition set_conns : gmap nat conn -> client St -> client St := ltac:(record_setter client_eta (@c_conns St)).
Definition set_links : gmap nat link -> client St -> client St := ltac:(record_setter client_eta (@c_links St)).
Definition set_link : option nat -> client St -> client St := ltac:(record_setter client_eta (@c_link St)).
Definition set_ids : idAllocator -> client St -> client St := ltac:(record_setter client_eta (@c_ids St)).
Definition set_store : St -> client St -> client St := ltac:(record_setter client_eta (@c_store St)).
Definition set_quota : quota -> client St -> client St := ltac:(record_setter client_eta (@c_quota St)).
Definition set_table : subTable -> client St -> client St := ltac:(record_setter client_eta (@c_table St)).
Definition set_waiters : gmap Z waiter -> client St -> client St := ltac:(record_setter client_eta (@c_waiters St)).
Definition set_chans : gmap nat ackResult -> client St -> client St := ltac:(record_setter client_eta (@c_chans St)).
Definition set_nextCh : nat -> client St -> client St := ltac:(record_setter client_eta (@c_nextCh St)).
Definition set_lostCh : bool -> client St -> client St := ltac:(record_setter client_eta (@c_lostCh St)).
Definition set_result : option ConnectResult -> client St -> client St := ltac:(record_setter client_eta (@c_result St)).
Definition set_connectedAt : option Z -> client St -> client St := ltac:(record_setter client_eta (@c_connectedAt St)).
Definition set_calls : list (Z * Message) -> client St -> client St := ltac:(record_setter client_eta (@c_calls St)).
End setters.

(** A statement sequence on the client. *)
Definition cmd (St A : Type) : Type := client St -> A * client St.
#[export] Instance cmd_ret {St} : MRet (cmd St) := fun A a c => (a, c).
#[export] Instance cmd_bind {St} : MBind (cmd St) := fun A B f m c => let '(a, c) := m c in f a c.
Definition upd {St} (f : client St -> client St) : cmd St unit := fun c => (tt, f c).
Definition gets {St A} (f : client St -> A) : cmd St A := fun c => (f c, c).
Definition skip {St} : cmd St unit := mret tt.

(** * The environment

    What the client calls and the repository does not contain: the network and
    the application's message handlers.  [net k sent frame] says whether writing
    and flushing [frame] on the socket [k] succeeds after [sent] went through:
    each success makes [sent] longer and each failure closes the socket, so the
    function describes any behaviour of a network.  [callback h m] is what
    happens to the client while the handler [h] runs on [m]: the handler's own
    calls, and everything other goroutines do until it returns. *)
Class Environment (St : Type) : Type := {
  net : nat -> list (list Z) -> list Z -> bool;
  callback : Z -> Message -> client St -> client St
}.

(** * Shared operations *)

Section operations.
Context {St : Type} `{!SessionStore St} `{!ContainsStore St} `{!Environment St}.
Implicit Types c : client St.

Definition the_link c (l : nat) : link := c_links c !!! l.
Definition the_conn c (l : nat) : conn := c_conns c !!! l_conn (the_link c l).

Definition upd_link (l : nat) (f : link -> link) c : client St :=
  set_links (<[l := f (the_link c l)]> (c_links c)) c.
Definition upd_conn (k : nat) (f : conn -> conn) c : client St :=
  set_conns (<[k := f (c_conns c !!! k)]> (c_conns c)) c.

Definition isStopping (l : nat) c : bool := l_stop (the_link c l).

(** [select { case ch <- res: default: }] on a channel of capacity one. *)
Definition chan_send (ch : nat) (r : ackResult) (chans : gmap nat ackResult) : gmap nat ackResult :=
  match chans !! ch with Some _ => chans | None => <[ch := r]> chans end.

Definition registerWaiter (id : Z) (want : ackClass) : cmd St nat := fun c =>
  let ch := c_nextCh c in
  (ch, set_waiters (<[id := mkWaiter ch want]> (c_waiters c)) (set_nextCh (S ch) c)).

Definition removeWaiter (id : Z) (ch : nat) c : client St :=
  match c_waiters c !! id with
  | Some w => if (w_ch w =? ch)%nat then set_waiters (delete id (c_waiters c)) c else c
  | None => c
  end.

Definition signalWaiter (id : Z) (got : ackClass) (r : ackResult) : cmd St bool := fun c =>
  match c_waiters c !! id with
  | None => (false, c)
  | Some w =>
    if bool_decide (w_want w = got)
    then (true, set_chans (chan_send (w_ch w) r (c_chans c)) (set_waiters (delete id (c_waiters c)) c))
    else (true, c)
  end.

Definition connectionLost : ackResult := mkAckResult (Some [ErrConnectionLost]) [] 0.

Definition failAllWaiters c : client St :=
  set_waiters ∅
    (set_chans (map_fold (fun (_ : Z) w chans => chan_send (w_ch w) connectionLost chans) (c_chans c) (c_waiters c)) c).

(** [closeOnce] runs the body for the call that closes [l.stop]. *)
Definition teardownLink (l : nat) (graceful : bool) c : client St :=
  if isStopping l c then c
  else
    let c := upd_link l (set_l_stop true) c in
    let c := upd_conn (l_conn (the_link c l)) (set_cn_closed true) c in
    if negb (bool_decide (c_link c = Some l)) then c
    else
      let c := failAllWaiters c in
      let c := set_quota (quota_fail (c_quota c)) c in
      let c := set_link None c in
      if negb graceful then set_lostCh true c else c.

(** The error a failing socket write returns. *)
Definition writeError : goerror := [OtherErr 0].

(** Write and flush on a socket. *)
Definition conn_write (k : nat) (frame : list Z) : cmd St bool := fun c =>
  let cn := c_conns c !!! k in
  if negb (cn_closed cn) && net k (cn_w cn) frame
  then (true, upd_conn k (set_cn_w (cn_w cn ++ [frame])) c)
  else (false, c).

Definition writeFrame (l : option nat) (encode : list Z -> res (list Z)) : cmd St (option goerror) :=
  match l with
  | None => mret (Some [ErrNotConnected])
  | Some l =>
    match encode [] with
    | Err e => mret (Some [ProtocolErr e])
    | Ok buf =>
      max ← gets (fun c => l_outboundMax (the_link c l));
      if negb (max =? 0) && (u32 (len buf) >? max) then mret (Some [ErrPacketTooLarge])
      else
        k ← gets (fun c => l_conn (the_link c l));
        ok ← conn_write k buf;
        if (ok : bool) then mret None
        else
          _ ← upd (fun c => teardownLink l (l_graceful (the_link c l)) c);
          mret (Some writeError)
    end
  end.

Definition sendAckReason (l : nat) (t id reason : Z) : cmd St unit :=
  v ← gets c_version;
  _ ← writeFrame (Some l) (AckPacket_EncodeAck (mkAck v t id reason None));
  skip.

Definition sendAck (l : nat) (t id : Z) : cmd St unit := sendAckReason l t id Success.

Definition protocolError (l : nat) (reason : Z) : cmd St unit :=
  v ← gets c_version;
  _ ← (if v =? V50 then writeFrame (Some l) (DisconnectPacket_Encode (mkDisconnect v reason None))
       else mret None);
  upd (fun c => teardownLink l (l_graceful (the_link c l)) c).

(** [_ = c.store.Save(...)] and the like: an error leaves the store as it was. *)
Definition store_Save (m : StoredMessage) c : client St := set_store (default (c_store c) (Save m (c_store c))) c.
Definition store_Delete (id kind : Z) c : client St := set_store (default (c_store c) (Delete id kind (c_store c))) c.

Definition storeContains (id kind : Z) c : bool :=
  match Contains with
  | Some f => f id kind (c_store c)
  | None =>
    match All (c_store c) with
    | None => false
    | Some msgs => existsb (fun m => (sm_ID m =? id) && (sm_Kind m =? kind)) msgs
    end
  end.

Definition ids_ReleaseAt (id g : Z) c : client St := set_ids (idAllocator_ReleaseAt id g (c_ids c)) c.
Definition quota_releaseAt' (g : Z) c : client St := set_quota (quota_releaseAt g (c_quota c)) c.

Definition reasonStringOf (p : option Properties) : list Z :=
  match p with None => [] | Some p => ReasonString p end.

End operations.

(** * NewTCPClient *)

Definition NewTCPClient (cfg : TCPConfig) : client memStore :=
  let version := if cf_ProtocolVersion cfg =? 0 then V50 else cf_ProtocolVersion cfg in
  let keepAlive := if cf_KeepAlive cfg <? keepAliveFloor then keepAliveFloor else cf_KeepAlive cfg in
  let dialTimeout := if cf_DialTimeout cfg =? 0 then defaultDialTimeout else cf_DialTimeout cfg in
  let ackTimeout := if cf_AckTimeout cfg =? 0 then defaultAckTimeout else cf_AckTimeout cfg in
  let inboundMax := if cf_MaximumPacketSize cfg =? 0 then defaultMaxPacketSize else cf_MaximumPacketSize cfg in
  let cfg := mkTCPConfig (cf_ClientID cfg) (cf_Username cfg) (cf_Password cfg) version (cf_CleanStart cfg)
    (cf_SessionExpirySeconds cfg) (cf_ReceiveMaximum cfg) (cf_MaximumPacketSize cfg) (cf_TopicAliasMaximum cfg)
    (cf_UserProperties cfg) keepAlive dialTimeout ackTimeout (cf_MaxInflight cfg) (cf_Will cfg) in
  mkClient cfg version inboundMax 0 ∅ ∅ None newIds newMemStore (newQuota 0) emptyTable ∅ ∅ 0 false None None [].
