(* ===== verification/Pump.v ===== *)
(** The two loops of a connection (pump.go): the read loop with a handler per
    inbound packet, and the keep-alive loop with its watchdog. *)

From S2P Require Import Prelude GoStrings Codes Wire WireFacts Props PropsFacts PublishPackets ControlPackets.
From S2P Require Import SubscribePackets Topic SessionStore Errors IdAllocator Quota Subscriptions Lifecycle.
From S2P Require Import Client.
From stdpp Require Import options.

Definition pingTimeoutThreshold : Z := 2.

Inductive keepAlive_event : Type := KaTick | KaStop.
#[export] Instance keepAlive_event_eq_dec : EqDecision keepAlive_event.
Proof. solve_decision. Defined.

Section pump.
Context {St : Type} `{!SessionStore St} `{!ContainsStore St} `{!Environment St}.
Implicit Types c : client St.

(** * Inbound PUBLISH *)

(** [for _, h := range handlers { h(msg) }]. *)
Definition call_handler (msg : Message) (h : Z) c : client St :=
  callback h msg (set_calls (c_calls c ++ [(h, msg)]) c).

Definition client_dispatch (msg : Message) c : client St :=
  fold_left (fun c h => call_handler msg h c) (dispatch msg (c_table c)).1 c.

(** [None] is a protocol violation. *)
Definition resolveTopicAlias (l : nat) (pub : PublishPacket) : cmd St (option (list Z)) :=
  match pub_Properties pub with
  | None => mret (Some (pub_Topic pub))
  | Some pr =>
    match TopicAlias pr with
    | None => mret (Some (pub_Topic pub))
    | Some alias =>
      max ← gets (fun c => cf_TopicAliasMaximum (c_cfg c));
      if (alias =? 0) || (alias >? max) then mret None
      else if bool_decide (pub_Topic pub = []) then gets (fun c => l_aliases (the_link c l) !! alias)
      else
        _ ← upd (upd_link l (fun k => set_l_aliases (<[alias := pub_Topic pub]> (l_aliases k)) k));
        mret (Some (pub_Topic pub))
    end
  end.

Definition with_Topic (topic : list Z) (p : PublishPacket) : PublishPacket :=
  mkPublish (pub_Version p) topic (pub_Payload p) (pub_QoS p) (pub_Retain p) (pub_Dup p) (pub_PacketID p)
    (pub_Properties p).

Definition handleInboundQoS2 (l : nat) (pub : PublishPacket) : cmd St bool :=
  seen ← gets (storeContains (pub_PacketID pub) StoredInboundID);
  if (seen : bool) then
    _ ← sendAck l Pubrec (pub_PacketID pub);
    mret true
  else
    _ ← upd (client_dispatch (toMessage pub));
    stopping ← gets (isStopping l);
    if (stopping : bool) then mret false
    else
      _ ← upd (store_Save (mkStored None 0 (pub_PacketID pub) StoredInboundID));
      _ ← sendAck l Pubrec (pub_PacketID pub);
      mret true.

Definition handlePublish (l : nat) (frame : Frame) : cmd St bool :=
  v ← gets c_version;
  match DecodePublish v (Header frame) (Body frame) with
  | Err _ =>
    _ ← protocolError l MalformedPacketReason;
    mret false
  | Ok pub =>
    topic ← resolveTopicAlias l pub;
    match topic with
    | None =>
      _ ← protocolError l TopicAliasInvalid;
      mret false
    | Some topic =>
      let pub := with_Topic topic pub in
      if pub_QoS pub =? 0 then
        _ ← upd (client_dispatch (toMessage pub));
        mret true
      else if pub_QoS pub =? 1 then
        _ ← upd (client_dispatch (toMessage pub));
        stopping ← gets (isStopping l);
        if (stopping : bool) then mret false
        else
          _ ← sendAck l Puback (pub_PacketID pub);
          mret true
      else if pub_QoS pub =? 2 then handleInboundQoS2 l pub
      else mret true
    end
  end.

Definition handleInboundPubrel (l : nat) (frame : Frame) : cmd St bool :=
  v ← gets c_version;
  match DecodeAck v Pubrel (Body frame) with
  | Err _ =>
    _ ← protocolError l MalformedPacketReason;
    mret false
  | Ok ack =>
    seen ← gets (storeContains (ack_PacketID ack) StoredInboundID);
    if negb seen then
      _ ← sendAckReason l Pubcomp (ack_PacketID ack) PacketIdentifierNotFound;
      mret true
    else
      _ ← upd (store_Delete (ack_PacketID ack) StoredInboundID);
      _ ← sendAck l Pubcomp (ack_PacketID ack);
      mret true
  end.

(** * Acknowledgements of outbound packets *)

Definition completeOutbound (l : nat) (id kind : Z) (r : ackResult) : cmd St unit :=
  known ← gets (storeContains id kind);
  if negb known then skip
  else
    _ ← upd (store_Delete id kind);
    _ ← upd (fun c => ids_ReleaseAt id (l_idGen (the_link c l)) c);
    _ ← upd (fun c => quota_releaseAt' (l_quotaGen (the_link c l)) c);
    _ ← signalWaiter id ackClassPublish r;
    skip.

Definition handlePubrec (l : nat) (ack : AckPacket) (reason : list Z) : cmd St unit :=
  let id := ack_PacketID ack in
  published ← gets (storeContains id StoredPublish);
  if (published : bool) then
    if ReasonCode_IsError (ack_ReasonCode ack) then
      _ ← upd (store_Delete id StoredPublish);
      _ ← upd (fun c => ids_ReleaseAt id (l_idGen (the_link c l)) c);
      _ ← upd (fun c => quota_releaseAt' (l_quotaGen (the_link c l)) c);
      _ ← signalWaiter id ackClassPublish (mkAckResult None reason (ack_ReasonCode ack));
      skip
    else
      _ ← upd (store_Save (mkStored None 0 id StoredPubrel));
      _ ← upd (store_Delete id StoredPublish);
      sendAck l Pubrel id
  else
    released ← gets (storeContains id StoredPubrel);
    if (released : bool) then sendAck l Pubrel id
    else sendAckReason l Pubrel id PacketIdentifierNotFound.

Definition handleAck (l : nat) (frame : Frame) (t : Z) : cmd St bool :=
  v ← gets c_version;
  match DecodeAck v t (Body frame) with
  | Err _ =>
    _ ← protocolError l MalformedPacketReason;
    mret false
  | Ok ack =>
    let reason := reasonStringOf (ack_Properties ack) in
    let r := mkAckResult None reason (ack_ReasonCode ack) in
    _ ← (if t =? Puback then completeOutbound l (ack_PacketID ack) StoredPublish r
         else if t =? Pubcomp then completeOutbound l (ack_PacketID ack) StoredPubrel r
         else if t =? Pubrec then handlePubrec l ack reason
         else skip);
    mret true
  end.

(** The first reason code of a SUBACK or UNSUBACK, the zero value without any. *)
Definition firstCode (codes : list Z) : Z := match codes with [] => 0 | rc :: _ => rc end.

Definition handleSuback (l : nat) (frame : Frame) : cmd St bool :=
  v ← gets c_version;
  match DecodeSuback v (Body frame) with
  | Err _ =>
    _ ← protocolError l MalformedPacketReason;
    mret false
  | Ok sp =>
    let r := mkAckResult None (reasonStringOf (sa_Properties sp)) (firstCode (sa_ReasonCodes sp)) in
    _ ← signalWaiter (sa_PacketID sp) ackClassSuback r;
    mret true
  end.

Definition handleUnsuback (l : nat) (frame : Frame) : cmd St bool :=
  v ← gets c_version;
  match DecodeUnsuback v (Body frame) with
  | Err _ =>
    _ ← protocolError l MalformedPacketReason;
    mret false
  | Ok up =>
    let r := mkAckResult None (reasonStringOf (ua_Properties up)) (firstCode (ua_ReasonCodes up)) in
    _ ← signalWaiter (ua_PacketID up) ackClassUnsuback r;
    mret true
  end.

(** The reason of the DISCONNECT is only logged. *)
Definition handleServerDisconnect (l : nat) (frame : Frame) : cmd St unit :=
  upd (fun c => teardownLink l (l_graceful (the_link c l)) c).

(** * The read loop *)

Definition handleFrame (l : nat) (frame : Frame) : cmd St bool :=
  let t := Frame_PacketType frame in
  if t =? Publish then handlePublish l frame
  else if t =? Puback then handleAck l frame Puback
  else if t =? Pubrec then handleAck l frame Pubrec
  else if t =? Pubrel then handleInboundPubrel l frame
  else if t =? Pubcomp then handleAck l frame Pubcomp
  else if t =? Suback then handleSuback l frame
  else if t =? Unsuback then handleUnsuback l frame
  else if t =? Pingresp then
    _ ← upd (upd_link l (set_l_outstandingPings 0));
    mret true
  else if t =? Disconnect then
    _ ← handleServerDisconnect l frame;
    mret false
  else if t =? Auth then
    _ ← protocolError l ProtocolErrorReason;
    mret false
  else
    _ ← protocolError l ProtocolErrorReason;
    mret false.

(** One turn; the result says whether the loop goes on. *)
Definition readLoop_turn (l : nat) : cmd St bool :=
  r ← gets (fun c => cn_r (the_conn c l));
  max ← gets (fun c => l_inboundMax (the_link c l));
  match ReadFrame r max with
  | Err _ =>
    _ ← upd (fun c => teardownLink l (l_graceful (the_link c l)) c);
    mret false
  | Ok (frame, r) =>
    _ ← upd (fun c => upd_conn (l_conn (the_link c l)) (set_cn_r r) c);
    stopping ← gets (isStopping l);
    if (stopping : bool) then mret false
    else match Frame_ValidateFlags frame with
    | Err _ =>
      _ ← protocolError l MalformedPacketReason;
      mret false
    | Ok _ => handleFrame l frame
    end
  end.

Fixpoint readLoop (fuel : nat) (l : nat) : cmd St unit :=
  match fuel with
  | O => skip
  | S fuel' =>
    more ← readLoop_turn l;
    if (more : bool) then readLoop fuel' l else skip
  end.

(** * The keep-alive loop *)

(** What a tick of the timer does; the result says whether the loop goes on. *)
Definition keepAliveLoop_tick (l : nat) : cmd St bool :=
  pings ← gets (fun c => l_outstandingPings (the_link c l));
  if pings >=? pingTimeoutThreshold then
    _ ← upd (fun c => teardownLink l (l_graceful (the_link c l)) c);
    mret false
  else
    _ ← upd (upd_link l (set_l_outstandingPings (pings + 1)));
    err ← writeFrame (Some l) EncodePingReq;
    match err with
    | Some _ =>
      _ ← upd (fun c => teardownLink l (l_graceful (the_link c l)) c);
      mret false
    | None => mret true
    end.

(** The loop over what its [select] receives, a tick or the end of the link; the
    result says whether it still runs.  Without an interval it only waits for
    the end of the link. *)
Fixpoint keepAliveLoop_run (l : nat) (evs : list keepAlive_event) : cmd St bool :=
  match evs with
  | [] => mret true
  | KaStop :: _ => mret false
  | KaTick :: evs =>
    more ← keepAliveLoop_tick l;
    if (more : bool) then keepAliveLoop_run l evs else mret false
  end.

Definition keepAliveLoop (l : nat) (evs : list keepAlive_event) : cmd St bool :=
  interval ← gets (fun c => l_pingInterval (the_link c l));
  if interval <=? 0 then mret (negb (bool_decide (KaStop ∈ evs))) else keepAliveLoop_run l evs.

End pump.
