(* ===== verification/Requests.v ===== *)
(** What callers of the client run (publish.go, options.go): Publish, Subscribe
    and Unsubscribe.  Each call that blocks is a goroutine: a program counter and
    a step function that runs one critical section, so that steps of several
    goroutines can be interleaved in any order. *)

From S2P Require Import Prelude GoStrings Codes Wire WireFacts Props PropsFacts PublishPackets ControlPackets.
From S2P Require Import SubscribePackets Topic SessionStore Errors IdAllocator Quota Subscriptions Lifecycle.
From S2P Require Import Client.
From Stdlib Require Import Ascii.
From stdpp Require Import options.

(** * Options *)

Record publishOptions : Type := mkPublishOptions {
  po_messageExpiry : option Z;
  po_contentType : list Z;
  po_responseTopic : list Z;
  po_correlationData : list Z;
  po_payloadFormatUTF8 : bool;
  po_userProperties : list UserProperty
}.
Definition PublishOption : Type := publishOptions -> publishOptions.

Definition noPublishOptions : publishOptions := mkPublishOptions None [] [] [] false [].

Definition publishOptions_eta (o : publishOptions) : publishOptions :=
  mkPublishOptions (po_messageExpiry o) (po_contentType o) (po_responseTopic o) (po_correlationData o)
    (po_payloadFormatUTF8 o) (po_userProperties o).
Definition set_messageExpiry : option Z -> PublishOption := ltac:(record_setter publishOptions_eta po_messageExpiry).
Definition set_contentType : list Z -> PublishOption := ltac:(record_setter publishOptions_eta po_contentType).
Definition set_responseTopic : list Z -> PublishOption := ltac:(record_setter publishOptions_eta po_responseTopic).
Definition set_correlationData : list Z -> PublishOption := ltac:(record_setter publishOptions_eta po_correlationData).
Definition set_payloadFormatUTF8 : bool -> PublishOption := ltac:(record_setter publishOptions_eta po_payloadFormatUTF8).
Definition set_userProperties : list UserProperty -> PublishOption :=
  ltac:(record_setter publishOptions_eta po_userProperties).

Definition WithMessageExpiry (seconds : Z) : PublishOption := set_messageExpiry (Some seconds).
Definition WithContentType (ct : list Z) : PublishOption := set_contentType ct.
Definition WithResponseTopic (topic : list Z) : PublishOption := set_responseTopic topic.
Definition WithCorrelationData (data : list Z) : PublishOption := set_correlationData data.
Definition WithPayloadFormatUTF8 : PublishOption := set_payloadFormatUTF8 true.
Definition WithUserProperties (props : list UserProperty) : PublishOption := fun o =>
  set_userProperties (po_userProperties o ++ props) o.

Record subscribeOptions : Type := mkSubscribeOpts {
  sub_noLocal : bool;
  sub_retainAsPublished : bool;
  sub_retainHandling : Z;
  sub_subscriptionID : Z
}.
Definition SubscribeOption : Type := subscribeOptions -> subscribeOptions.

Definition noSubscribeOptions : subscribeOptions := mkSubscribeOpts false false 0 0.
Definition WithNoLocal : SubscribeOption := fun o =>
  mkSubscribeOpts true (sub_retainAsPublished o) (sub_retainHandling o) (sub_subscriptionID o).
Definition WithRetainAsPublished : SubscribeOption := fun o =>
  mkSubscribeOpts (sub_noLocal o) true (sub_retainHandling o) (sub_subscriptionID o).
Definition WithRetainHandling (h : Z) : SubscribeOption := fun o =>
  mkSubscribeOpts (sub_noLocal o) (sub_retainAsPublished o) h (sub_subscriptionID o).
Definition WithSubscriptionID (id : Z) : SubscribeOption := fun o =>
  mkSubscribeOpts (sub_noLocal o) (sub_retainAsPublished o) (sub_retainHandling o) id.

Definition maxSubscriptionID : Z := 268435455.

Record SubscribeResult : Type := mkSubscribeResult { sr_GrantedQoS : Z; sr_ReasonCode : Z }.

Definition buildPublishProps (v : Z) (po : publishOptions) : option Properties :=
  if negb (v =? V50) then None
  else
    let p := set_UserProperties (po_userProperties po) (set_CorrelationData (po_correlationData po)
      (set_ResponseTopic (po_responseTopic po) (set_ContentType (po_contentType po) emptyProperties))) in
    let empty := bool_decide (po_contentType po = []) && bool_decide (po_responseTopic po = []) &&
      (len (po_correlationData po) =? 0) && (len (po_userProperties po) =? 0) in
    let '(p, empty) :=
      match po_messageExpiry po with
      | Some e => (set_MessageExpiryInterval (Some e) p, false)
      | None => (p, empty)
      end in
    let '(p, empty) :=
      if po_payloadFormatUTF8 po then (set_PayloadFormat (Some 1) p, false) else (p, empty) in
    if (empty : bool) then None else Some p.

(** The Go string of a byte list. *)
Definition go_string (s : list Z) : string :=
  foldr (fun b s => String (ascii_of_nat (Z.to_nat b)) s) EmptyString s.

Definition reasonError (packet : string) (r : ackResult) : goerror :=
  [ReasonErr (mkReasonError packet (ar_code r) (go_string (ar_reason r)))].

Definition with_PacketID (id : Z) (p : PublishPacket) : PublishPacket :=
  mkPublish (pub_Version p) (pub_Topic p) (pub_Payload p) (pub_QoS p) (pub_Retain p) (pub_Dup p) id (pub_Properties p).

(** What wakes a blocked goroutine: its own turn, its context, its timer, or the
    stop channel of its link. *)
Inductive wake_event : Type := Run | CtxDone (e : sentinel) | TimerFired | LinkStopped.

Section requests.
Context {St : Type} `{!SessionStore St} `{!ContainsStore St} `{!Environment St}.
Implicit Types c : client St.

(** * Publish *)

(** The part of [Publish] that does not block: the refusal, or the link and the
    packet to send. *)
Definition Publish_check (topic payload : list Z) (qos : Z) (retain : bool) (opts : list PublishOption) c
    : goerror + (nat * PublishPacket) :=
  match ValidateTopicName topic with
  | Err e => inl [ProtocolErr e]
  | Ok _ =>
    if qos >? 2 then inl [ProtocolErr ErrProtocolViolation]
    else
      let po := fold_left (fun o opt => opt o) opts noPublishOptions in
      match (if (c_version c =? V50) && negb (bool_decide (po_responseTopic po = []))
             then ValidateTopicName (po_responseTopic po) else Ok tt) with
      | Err e => inl [ProtocolErr e]
      | Ok _ =>
        match c_link c with
        | None => inl [ErrNotConnected]
        | Some l =>
          let refused := match c_result c with
            | Some r => (qos >? cr_MaximumQoS r) || (retain && negb (cr_RetainAvailable r))
            | None => false
            end in
          if refused then inl [ProtocolErr ErrProtocolViolation]
          else inr (l, mkPublish (c_version c) topic payload qos retain false 0 (buildPublishProps (c_version c) po))
        end
      end
  end.

(** Where a goroutine in [publishAcked] stands: which critical section it runs
    next.  [qg] and [ig] are the generations of its permit and identifier. *)
Inductive pub_pc : Type :=
| PQuota
| PPark (w : nat)
| PId (qg : Z)
| PSave (qg id ig : Z)
| PRegister (qg id ig : Z)
| PWrite (qg id ig : Z) (ch : nat)
| PUnregister (qg id ig : Z) (ch : nat) (err : goerror)
| PCheck (qg id ig : Z) (err : goerror)
| PDelete (qg id ig : Z) (err : goerror)
| PFree (qg id ig : Z) (err : goerror)
| PGiveBack (qg : Z) (err : goerror)
| PWait (id : Z) (ch : nat)
| PForget (id : Z) (ch : nat) (err : goerror)
| PDone (err : option goerror).

(** [storedCopy] clones the byte slices of the packet: as values, the packet. *)
Definition pub_step (l : nat) (pkt : PublishPacket) (ev : wake_event) (pc : pub_pc) : cmd St pub_pc := fun c =>
  match pc with
  | PQuota =>
    match quota_acquire_turn (c_quota c) with
    | (Granted g, q) => (PId g, set_quota q c)
    | (ConnectionLost _, q) => (PDone (Some [ErrConnectionLost]), set_quota q c)
    | (WaitOn w, q) => (PPark w, set_quota q c)
    end
  | PPark w =>
    match ev with
    | CtxDone e => (PDone (Some [e]), c)
    | _ => (if woken (c_quota c) w then PQuota else PPark w, c)
    end
  | PId qg =>
    match idAllocator_Acquire (c_ids c) with
    | (Acquired id ig, a) => (PSave qg id ig, set_ids a c)
    | (PacketIDExhausted _, a) => (PGiveBack qg [ErrPacketIDExhausted], set_ids a c)
    end
  | PSave qg id ig =>
    match Save (mkStored (Some (with_PacketID id pkt)) 0 id StoredPublish) (c_store c) with
    | Some s => (PRegister qg id ig, set_store s c)
    | None => (PFree qg id ig [OtherErr 1], c)
    end
  | PRegister qg id ig =>
    let '(ch, c) := registerWaiter id ackClassPublish c in (PWrite qg id ig ch, c)
  | PWrite qg id ig ch =>
    match writeFrame (Some l) (PublishPacket_Encode (with_PacketID id pkt)) c with
    | (None, c) => (PWait id ch, c)
    | (Some err, c) => (PUnregister qg id ig ch err, c)
    end
  | PUnregister qg id ig ch err => (PCheck qg id ig err, removeWaiter id ch c)
  | PCheck qg id ig err =>
    (if quota_generation (c_quota c) =? qg then PDelete qg id ig err else PDone (Some err), c)
  | PDelete qg id ig err => (PFree qg id ig err, store_Delete id StoredPublish c)
  | PFree qg id ig err => (PGiveBack qg err, ids_ReleaseAt id ig c)
  | PGiveBack qg err => (PDone (Some err), quota_releaseAt' qg c)
  | PWait id ch =>
    match ev with
    | CtxDone e => (PForget id ch [e], c)
    | TimerFired => (PForget id ch [errAckTimeout], c)
    | _ =>
      match c_chans c !! ch with
      | None => (PWait id ch, c)
      | Some r =>
        (PDone (match ar_err r with
                | Some e => Some e
                | None => if ReasonCode_IsError (ar_code r) then Some (reasonError "PUBLISH" r) else None
                end), set_chans (delete ch (c_chans c)) c)
      end
    end
  | PForget id ch err => (PDone (Some err), removeWaiter id ch c)
  | PDone e => (PDone e, c)
  end.

(** A goroutine with nothing else running: the events it sees, in order. *)
Definition publishAcked (l : nat) (pkt : PublishPacket) (evs : list wake_event) : cmd St pub_pc := fun c =>
  fold_left (fun '(pc, c) ev => pub_step l pkt ev pc c) evs (PQuota, c).

Definition client_Publish (topic payload : list Z) (qos : Z) (retain : bool) (opts : list PublishOption)
    (evs : list wake_event) : cmd St pub_pc := fun c =>
  match Publish_check topic payload qos retain opts c with
  | inl err => (PDone (Some err), c)
  | inr (l, pkt) =>
    if qos =? 0 then let '(err, c) := writeFrame (Some l) (PublishPacket_Encode pkt) c in (PDone err, c)
    else publishAcked l pkt evs c
  end.

(** * SUBSCRIBE and UNSUBSCRIBE requests *)

Inductive req_pc : Type :=
| RId
| RRegister (id g : Z)
| RWrite (id g : Z) (ch : nat)
| RWait (id g : Z) (ch : nat)
| RForget (id g : Z) (ch : nat) (err : goerror)
| RFree (id g : Z) (out : goerror + ackResult)
| RDone (out : goerror + ackResult).

Definition req_step (l : nat) (packet : string) (want : ackClass) (mk : Z -> list Z -> res (list Z))
    (ev : wake_event) (pc : req_pc) : cmd St req_pc := fun c =>
  match pc with
  | RId =>
    match idAllocator_Acquire (c_ids c) with
    | (Acquired id g, a) => (RRegister id g, set_ids a c)
    | (PacketIDExhausted _, a) => (RDone (inl [ErrPacketIDExhausted]), set_ids a c)
    end
  | RRegister id g => let '(ch, c) := registerWaiter id want c in (RWrite id g ch, c)
  | RWrite id g ch =>
    match writeFrame (Some l) (mk id) c with
    | (None, c) => (RWait id g ch, c)
    | (Some err, c) => (RForget id g ch err, c)
    end
  | RWait id g ch =>
    match ev with
    | CtxDone e => (RForget id g ch [e], c)
    | TimerFired => (RForget id g ch [errAckTimeout], c)
    | _ =>
      match c_chans c !! ch with
      | None => (RWait id g ch, c)
      | Some r =>
        (RFree id g (match ar_err r with
                     | Some e => inl e
                     | None => if ReasonCode_IsError (ar_code r) then inl (reasonError packet r) else inr r
                     end), set_chans (delete ch (c_chans c)) c)
      end
    end
  | RForget id g ch err => (RFree id g (inl err), removeWaiter id ch c)
  | RFree id g out => (RDone out, ids_ReleaseAt id g c)
  | RDone out => (RDone out, c)
  end.

(** * Subscribe *)

(** The refusal, or the link, the wire options and the identifier. *)
Definition Subscribe_check (filter : list Z) (qos : Z) (opts : list SubscribeOption) c
    : goerror + (nat * SubscribeOptions * Z) :=
  match ValidateTopicFilter filter with
  | Err e => inl [ProtocolErr e]
  | Ok _ =>
    if qos >? 2 then inl [ProtocolErr ErrProtocolViolation]
    else match c_link c with
    | None => inl [ErrNotConnected]
    | Some l =>
      let so := fold_left (fun o opt => opt o) opts noSubscribeOptions in
      let options := mkSubscribeOptions qos (sub_noLocal so) (sub_retainAsPublished so) (sub_retainHandling so) in
      let id := sub_subscriptionID so in
      if negb (id =? 0) && (id >? maxSubscriptionID) then inl [ProtocolErr ErrProtocolViolation]
      else if negb (id =? 0) && negb (c_version c =? V50) then inl [ProtocolErr ErrProtocolViolation]
      else inr (l, options, id)
    end
  end.

(** The SUBSCRIBE for one registration, as [Subscribe] and the replay build it. *)
Definition subscribePacket (v : Z) (filter : list Z) (options : SubscribeOptions) (subID id : Z) : SubscribePacket :=
  mkSubscribe v id [mkSubscription filter options]
    (if negb (subID =? 0) then Some (set_SubscriptionIdentifiers [subID] emptyProperties) else None).

Inductive sub_pc : Type :=
| SubSnapshot
| SubAdd (prev : option subscription)
| SubRequest (prev : option subscription) (token : Z) (pc : req_pc)
| SubRestore (prev : option subscription) (token : Z) (err : goerror)
| SubDone (out : goerror + SubscribeResult).

Definition subscribe_step (l : nat) (filter : list Z) (options : SubscribeOptions) (subID handler : Z)
    (ev : wake_event) (pc : sub_pc) : cmd St sub_pc := fun c =>
  match pc with
  | SubSnapshot => (SubAdd (snapshotSubscription filter (c_table c)), c)
  | SubAdd prev =>
    let '(token, t) := addSubscription filter options handler subID (c_table c) in
    (SubRequest prev token RId, set_table t c)
  | SubRequest prev token (RDone (inl err)) => (SubRestore prev token err, c)
  | SubRequest prev token (RDone (inr r)) => (SubDone (inr (mkSubscribeResult (ar_code r) (ar_code r))), c)
  | SubRequest prev token pc =>
    let '(pc, c) := req_step l "SUBSCRIBE" ackClassSuback
      (fun id => SubscribePacket_Encode (subscribePacket (c_version c) filter options subID id)) ev pc c in
    (SubRequest prev token pc, c)
  | SubRestore prev token err =>
    (SubDone (inl err), set_table (restoreSubscription filter prev token (c_table c)) c)
  | SubDone out => (SubDone out, c)
  end.

(** * Unsubscribe *)

Definition Unsubscribe_check (filter : list Z) c : goerror + nat :=
  match ValidateTopicFilter filter with
  | Err e => inl [ProtocolErr e]
  | Ok _ => match c_link c with None => inl [ErrNotConnected] | Some l => inr l end
  end.

Inductive uns_pc : Type :=
| UnsSnapshot
| UnsRequest (snap : option subscription) (pc : req_pc)
| UnsDone (err : option goerror).

Definition unsubscribe_step (l : nat) (filter : list Z) (ev : wake_event) (pc : uns_pc) : cmd St uns_pc := fun c =>
  match pc with
  | UnsSnapshot => (UnsRequest (snapshotSubscription filter (c_table c)) RId, c)
  | UnsRequest _ (RDone (inl err)) => (UnsDone (Some err), c)
  | UnsRequest None (RDone (inr _)) => (UnsDone None, c)
  | UnsRequest (Some snap) (RDone (inr _)) =>
    (UnsDone None, set_table (removeSubscriptionIfCurrent filter (s_token snap) (c_table c)) c)
  | UnsRequest snap pc =>
    let '(pc, c) := req_step l "UNSUBSCRIBE" ackClassUnsuback
      (fun id => UnsubscribePacket_Encode (mkUnsubscribe (c_version c) id [filter] None)) ev pc c in
    (UnsRequest snap pc, c)
  | UnsDone e => (UnsDone e, c)
  end.

End requests.
