(* ===== verification/Connection.v ===== *)
(** Connecting and disconnecting (adapter_tcp.go): the CONNECT packet, the limits
    negotiated in the CONNACK, the fate of the stored session, its replay, and
    [Connect] and [Disconnect] as wholes. *)

From S2P Require Import Prelude GoStrings Codes Wire WireFacts Props PropsFacts PublishPackets ControlPackets.
From S2P Require Import SubscribePackets Topic SessionStore Errors IdAllocator Quota Subscriptions Lifecycle.
From S2P Require Import Client Requests.
From stdpp Require Import options.

(** * The CONNECT packet *)

Definition buildWill (v : Z) (w : ClientWill) : Will :=
  if negb (v =? V50) then mkWill (cw_Topic w) (cw_Payload w) (cw_QoS w) (cw_Retain w) None
  else
    let props := set_UserProperties (cw_UserProperties w) (set_CorrelationData (cw_CorrelationData w)
      (set_ResponseTopic (cw_ResponseTopic w) (set_ContentType (cw_ContentType w) emptyProperties))) in
    let props := if cw_PayloadFormatUTF8 w then set_PayloadFormat (Some 1) props else props in
    let props := if negb (cw_MessageExpirySeconds w =? 0)
                 then set_MessageExpiryInterval (Some (cw_MessageExpirySeconds w)) props else props in
    let props := if negb (cw_DelayIntervalSeconds w =? 0)
                 then set_WillDelayInterval (Some (cw_DelayIntervalSeconds w)) props else props in
    mkWill (cw_Topic w) (cw_Payload w) (cw_QoS w) (cw_Retain w) (Some props).

Definition keepAliveSeconds (cfg : TCPConfig) : Z :=
  let s := Z.quot (cf_KeepAlive cfg) Second in
  if s >? 0xFFFF then 0xFFFF else u16 s.

Definition buildConnectPacket {St} (c : client St) : ConnectPacket :=
  let cfg := c_cfg c in
  let will := match cf_Will cfg with None => None | Some w => Some (buildWill (c_version c) w) end in
  let props :=
    if c_version c =? V50 then
      let props := emptyProperties in
      let props := if negb (cf_SessionExpirySeconds cfg =? 0)
                   then set_SessionExpiryInterval (Some (cf_SessionExpirySeconds cfg)) props else props in
      let props := if negb (cf_ReceiveMaximum cfg =? 0)
                   then set_ReceiveMaximum (Some (cf_ReceiveMaximum cfg)) props else props in
      let props := set_MaximumPacketSize (Some (c_inboundMax c)) props in
      let props := if negb (cf_TopicAliasMaximum cfg =? 0)
                   then set_TopicAliasMaximum (Some (cf_TopicAliasMaximum cfg)) props else props in
      Some (set_UserProperties (cf_UserProperties cfg) props)
    else None in
  mkConnect (c_version c) (cf_ClientID cfg) (keepAliveSeconds cfg) (cf_Username cfg) (cf_Password cfg)
    (cf_CleanStart cfg) will props.

(** * The negotiated limits *)

Definition validateConnackLimits (v : Z) (ack : ConnackPacket) : option goerror :=
  match ca_Properties ack with
  | None => None
  | Some p =>
    if negb (v =? V50) then None
    else if bool_decide (ReceiveMaximum p = Some 0) then Some [ProtocolErr ErrProtocolViolation]
    else if bool_decide (MaximumPacketSize p = Some 0) then Some [ProtocolErr ErrProtocolViolation]
    else None
  end.

Definition buildConnectResult (ack : ConnackPacket) : ConnectResult :=
  match ca_Properties ack with
  | None =>
    mkConnectResult [] (ca_SessionPresent ack) (ca_ReasonCode ack) 0 false defaultReceiveMaximum 2 true 0 0 []
  | Some p =>
    mkConnectResult (AssignedClientID p) (ca_SessionPresent ack) (ca_ReasonCode ack)
      (match ServerKeepAlive p with Some s => i64 (s * Second) | None => 0 end)
      (is_some (ServerKeepAlive p))
      (default defaultReceiveMaximum (ReceiveMaximum p))
      (default 2 (MaximumQoS p))
      (match RetainAvailable p with Some b => negb (b =? 0) | None => true end)
      (default 0 (MaximumPacketSize p))
      (default 0 (TopicAliasMaximum p))
      (UserProperties p)
  end.

Definition effectivePingInterval {St} (c : client St) (r : ConnectResult) : Z :=
  if cr_ServerKeepAliveSet r && (cr_ServerKeepAlive r =? 0) then 0
  else if c_pingInterval c >? 0 then c_pingInterval c
  else
    let ka := if cr_ServerKeepAlive r >? 0 then cr_ServerKeepAlive r else cf_KeepAlive (c_cfg c) in
    Z.quot ka 2.

(** The goroutines [replaySubscriptions] starts. *)
Inductive await_pc : Type :=
| AWait (id g : Z) (ch : nat)
| AForget (id g : Z) (ch : nat)
| AFree (id g : Z)
| ADone.

Section connection.
Context {St : Type} `{!SessionStore St} `{!ContainsStore St} `{!Environment St}.
Implicit Types c : client St.

(** * The stored session *)

Definition quotaSize (r : ConnectResult) c : Z :=
  if c_version c =? V50 then cr_ReceiveMaximum r
  else if negb (cf_MaxInflight (c_cfg c) =? 0) then cf_MaxInflight (c_cfg c)
  else defaultReceiveMaximum.

Definition outbound (m : StoredMessage) : bool := (sm_Kind m =? StoredPublish) || (sm_Kind m =? StoredPubrel).

Definition inflightPermits c : Z :=
  match All (c_store c) with
  | None => 0
  | Some msgs => Z.of_nat (length (filter (fun m => outbound m = true) msgs))
  end.

(** Whether this connect discards the session. *)
Definition resetsSession (r : ConnectResult) c : bool :=
  cf_CleanStart (c_cfg c) || ((c_version c =? V50) && (cf_SessionExpirySeconds (c_cfg c) =? 0)) ||
  negb (cr_SessionPresent r).

Definition applySession (r : ConnectResult) c : client St :=
  let c := if resetsSession r c
           then set_ids (idAllocator_Reset (c_ids c)) (set_store (default (c_store c) (Reset (c_store c))) c)
           else c in
  let size := Z.max (quotaSize r c - inflightPermits c) 0 in
  set_quota (quota_reset size (c_quota c)) c.

(** The frame that replays an entry, if it has one. *)
Definition with_Dup (p : PublishPacket) : PublishPacket :=
  mkPublish (pub_Version p) (pub_Topic p) (pub_Payload p) (pub_QoS p) (pub_Retain p) true (pub_PacketID p)
    (pub_Properties p).

Definition replay_encoder (v : Z) (m : StoredMessage) : option (list Z -> res (list Z)) :=
  if sm_Kind m =? StoredPublish then
    match sm_Publish m with
    | None => None
    | Some p => Some (PublishPacket_Encode (with_Dup p))
    end
  else if sm_Kind m =? StoredPubrel then Some (AckPacket_EncodeAck (mkAck v Pubrel (sm_ID m) 0 None))
  else None.

Fixpoint replaySession_loop (l : nat) (msgs : list StoredMessage) : cmd St unit :=
  match msgs with
  | [] => skip
  | m :: msgs =>
    v ← gets c_version;
    _ ← match replay_encoder v m with
        | None => mret None
        | Some encode => writeFrame (Some l) encode
        end;
    replaySession_loop l msgs
  end.

Definition replaySession (l : nat) : cmd St unit :=
  msgs ← gets (fun c => All (c_store c));
  match msgs with None => skip | Some msgs => replaySession_loop l msgs end.

Fixpoint replaySubscriptions_loop (l : nat) (subs : list subscription) : cmd St (list await_pc) :=
  match subs with
  | [] => mret []
  | s :: subs =>
    acq ← (fun c => let '(r, a) := idAllocator_Acquire (c_ids c) in (r, set_ids a c));
    match acq with
    | PacketIDExhausted _ => replaySubscriptions_loop l subs
    | Acquired id g =>
      ch ← registerWaiter id ackClassSuback;
      v ← gets c_version;
      err ← writeFrame (Some l) (SubscribePacket_Encode (subscribePacket v (s_filter s) (s_options s) (s_subID s) id));
      match err with
      | Some _ =>
        _ ← upd (removeWaiter id ch);
        _ ← upd (ids_ReleaseAt id g);
        replaySubscriptions_loop l subs
      | None =>
        rest ← replaySubscriptions_loop l subs;
        mret (AWait id g ch :: rest)
      end
    end
  end.

Definition replaySubscriptions (l : nat) : cmd St (list await_pc) :=
  subs ← gets (fun c => subs (c_table c));
  replaySubscriptions_loop l subs.

(** A rejection is only logged. *)
Definition awaitResubscribe_step (ev : wake_event) (pc : await_pc) : cmd St await_pc := fun c =>
  match pc with
  | AWait id g ch =>
    match ev with
    | LinkStopped => (AForget id g ch, c)
    | _ =>
      match c_chans c !! ch with
      | None => (AWait id g ch, c)
      | Some _ => (AFree id g, set_chans (delete ch (c_chans c)) c)
      end
    end
  | AForget id g ch => (AFree id g, removeWaiter id ch c)
  | AFree id g => (ADone, ids_ReleaseAt id g c)
  | ADone => (ADone, c)
  end.

(** * Connect *)

Definition close_conn (k : nat) c : client St := upd_conn k (set_cn_closed true) c.

Definition refuseConnack (k : nat) (err : goerror) : cmd St (option goerror) :=
  v ← gets c_version;
  _ ← (if v =? V50 then
         match DisconnectPacket_Encode (mkDisconnect v ProtocolErrorReason None) [] with
         | Ok frame => conn_write k frame
         | Err _ => mret false
         end
       else mret false);
  _ ← upd (close_conn k);
  mret (Some err).

Definition connectAbortCause (ctx : option goerror) (err : goerror) : goerror := default err ctx.

(** The checks on the configured will. *)
Definition validWill c : res unit :=
  match cf_Will (c_cfg c) with
  | None => Ok tt
  | Some w =>
    _ ← ValidateTopicName (cw_Topic w);
    if (c_version c =? V50) && negb (bool_decide (cw_ResponseTopic w = []))
    then ValidateTopicName (cw_ResponseTopic w) else Ok tt
  end.

(** Everything [Connect] needs from outside: the errors of parsing the URL and of
    dialling, the bytes the broker sends, the cause when the context ended
    before the CONNACK was accepted, and the clock. *)
Record dialling : Type := mkDialling {
  d_url : option goerror;
  d_dial : option goerror;
  d_bytes : list Z;
  d_ctx : option goerror;
  d_now : Z
}.

(** Up to the accepted CONNACK, on the socket [k]. *)
Definition handshake (d : dialling) (k : nat) : cmd St (goerror + ConnackPacket) :=
  let abandon (err : goerror) : cmd St (goerror + ConnackPacket) :=
    _ ← upd (close_conn k); mret (inl err) in
  pkt ← gets buildConnectPacket;
  match ConnectPacket_Encode pkt [] with
  | Err e => abandon [ProtocolErr e]
  | Ok frame =>
    sent ← conn_write k frame;
    if negb sent then abandon (connectAbortCause (d_ctx d) writeError)
    else
      max ← gets c_inboundMax;
      match ReadFrame (d_bytes d) max with
      | Err e => abandon (connectAbortCause (d_ctx d) [ProtocolErr e])
      | Ok (frame, rest) =>
        _ ← upd (upd_conn k (set_cn_r rest));
        if negb (Frame_PacketType frame =? Connack) then abandon [OtherErr 2]
        else
          v ← gets c_version;
          match DecodeConnack v (Body frame) with
          | Err e => abandon [ProtocolErr e]
          | Ok ack =>
            if ReasonCode_IsError (ca_ReasonCode ack) then
              abandon (reasonError "CONNECT" (mkAckResult None (reasonStringOf (ca_Properties ack)) (ca_ReasonCode ack)))
            else
              refusal ← (match validateConnackLimits v ack with
                         | Some err => refuseConnack k err
                         | None =>
                           clean ← gets (fun c => cf_CleanStart (c_cfg c));
                           if clean && ca_SessionPresent ack then refuseConnack k [ProtocolErr ErrProtocolViolation]
                           else mret None
                         end);
              match refusal with
              | Some err => mret (inl err)
              | None =>
                match d_ctx d with
                | Some cause => abandon cause
                | None => mret (inr ack)
                end
              end
          end
      end
  end.

(** The link of an accepted connection, before its generations are known. *)
Definition newLink (k : nat) (r : ConnectResult) c : link :=
  mkLink k false false 0 0 ∅ (cr_MaximumPacketSize r) (c_inboundMax c) (effectivePingInterval c r) 0.

(** [l.quotaGen = c.quota.generation(); l.idGen = c.ids.generation()]. *)
Definition captureGenerations (l : nat) c : client St :=
  upd_link l (fun k => set_l_idGen (idAllocator_generation (c_ids c))
    (set_l_quotaGen (quota_generation (c_quota c)) k)) c.

(** The session on an accepted connection; [None] is success. *)
Definition establish (k : nat) (now : Z) (ack : ConnackPacket) : cmd St (option goerror * list await_pc) :=
  let r := buildConnectResult ack in
  l ← gets (fun c => fresh (dom (c_links c)));
  _ ← upd (fun c => set_links (<[l := newLink k r c]> (c_links c)) c);
  _ ← upd (applySession r);
  _ ← upd (captureGenerations l);
  _ ← replaySession l;
  awaiting ← replaySubscriptions l;
  stopping ← gets (isStopping l);
  if (stopping : bool) then mret (Some [ErrConnectionLost], awaiting)
  else
    _ ← upd (fun c => set_connectedAt (Some now) (set_link (Some l) (set_result (Some r) c)));
    mret (None, awaiting).

Definition client_Connect (d : dialling) : cmd St (option goerror * list await_pc) :=
  current ← gets c_link;
  match current with
  | Some _ => mret (Some [ErrAlreadyConnected], [])
  | None =>
    match d_url d with
    | Some err => mret (Some err, [])
    | None =>
      will ← gets validWill;
      match will with
      | Err e => mret (Some [ProtocolErr e], [])
      | Ok _ =>
        match d_dial d with
        | Some err => mret (Some err, [])
        | None =>
          k ← gets (fun c => fresh (dom (c_conns c)));
          _ ← upd (fun c => set_conns (<[k := mkConn (d_bytes d) [] false]> (c_conns c)) c);
          hs ← handshake d k;
          match hs with
          | inl err => mret (Some err, [])
          | inr ack => establish k (d_now d) ack
          end
        end
      end
    end
  end.

(** * Disconnect *)

(** Waiting for the loops to exit is not modelled. *)
Definition client_Disconnect : cmd St unit :=
  current ← gets c_link;
  match current with
  | None => skip
  | Some l =>
    _ ← upd (upd_link l (set_l_graceful true));
    v ← gets c_version;
    _ ← writeFrame (Some l) (DisconnectPacket_Encode (mkDisconnect v NormalDisconnection None));
    upd (teardownLink l true)
  end.

Definition IsConnected c : bool := is_some (c_link c).

(** [None] is the zero time. *)
Definition LastConnectedAt c : option Z := c_connectedAt c.

(** The zero [ConnectResult] before the first connect. *)
Definition client_ConnectResult c : ConnectResult * bool :=
  match c_result c with
  | Some r => (r, true)
  | None => (mkConnectResult [] false 0 0 false 0 0 false 0 0 [], false)
  end.

(** Whether the channel of [ConnectionLost] holds a value. *)
Definition ConnectionLost_ready c : bool := c_lostCh c.

End connection.
