(* ===== verification/ClientFacts.v ===== *)
(** Facts about the shared operations of the client: what a write, a reply and a
    teardown leave alone, what a teardown does to every blocked caller, and the
    store seen through the interface of [SessionStore]. *)

From S2P Require Import Prelude GoStrings Codes Wire WireFacts Props PropsFacts PublishPackets ControlPackets.
From S2P Require Import SubscribePackets Topic SessionStore Errors IdAllocator Quota Subscriptions Lifecycle.
From S2P Require Import Client Pump Requests Connection.
From stdpp Require Import options.

(** Evaluate field updates of the client, its links and its sockets. *)
Ltac csimp := cbn [upd_link upd_conn failAllWaiters quota_releaseAt' ids_ReleaseAt store_Save store_Delete set_conns set_links set_link set_ids set_store set_quota set_table set_waiters set_chans set_nextCh
  set_lostCh set_result set_connectedAt set_calls c_cfg c_version c_inboundMax c_pingInterval c_conns c_links c_link
  c_ids c_store c_quota c_table c_waiters c_chans c_nextCh c_lostCh c_result c_connectedAt c_calls
  set_cn_r set_cn_w set_cn_closed cn_r cn_w cn_closed
  set_l_stop set_l_graceful set_l_quotaGen set_l_idGen set_l_aliases set_l_outstandingPings
  l_conn l_stop l_graceful l_quotaGen l_idGen l_aliases l_outboundMax l_inboundMax l_pingInterval l_outstandingPings] in *.

(** * Stores that do not fail *)

Class ReliableStore (St : Type) {HS : SessionStore St} {HL : SessionStoreLaws St} {HC : ContainsStore St} : Prop := {
  Save_total m s : is_Some (Save m s);
  Delete_total id kind s : is_Some (Delete id kind s);
  All_total s : is_Some (All s);
  Reset_total s : is_Some (Reset s);
  Contains_law f id kind s : Contains = Some f -> store_ok s -> f id kind s = bool_decide ((id, kind) ∈ (contents s).*1)
}.

#[export] Instance memStore_reliable : ReliableStore memStore.
Proof.
  split; try (intros; simpl; by eexists).
  intros f id kind s [= <-] Hs. unfold memStore_Contains. apply bool_decide_ext. symmetry. by apply contents_keys.
Qed.

Section facts.
Context {St : Type} {HS : SessionStore St} {HC : ContainsStore St} {HE : Environment St}.
Implicit Types c : client St.

(** * What replies and teardowns leave alone *)

Record same_session c c' : Prop := {
  ss_cfg : c_cfg c' = c_cfg c;
  ss_version : c_version c' = c_version c;
  ss_inboundMax : c_inboundMax c' = c_inboundMax c;
  ss_ids : c_ids c' = c_ids c;
  ss_store : c_store c' = c_store c;
  ss_table : c_table c' = c_table c;
  ss_result : c_result c' = c_result c;
  ss_calls : c_calls c' = c_calls c
}.

#[export] Instance same_session_refl : Reflexive same_session.
Proof. by split. Qed.
#[export] Instance same_session_trans : Transitive same_session.
Proof. intros c1 c2 c3 [] []. split; congruence. Qed.

Lemma cmd_bind_eq {A B} (m : cmd St A) (f : A -> cmd St B) c : (m ≫= f) c = let '(a, c) := m c in f a c.
Proof. done. Qed.

Lemma teardown_same l g c : same_session c (teardownLink l g c).
Proof.
  unfold teardownLink. destruct (isStopping l c); [done|].
  destruct (negb _); [by split|]. destruct (negb g); by split.
Qed.

Lemma conn_write_same k frame c : same_session c (conn_write k frame c).2.
Proof. unfold conn_write. destruct (negb _ && _); by split. Qed.

Lemma writeFrame_same l encode c : same_session c (writeFrame l encode c).2.
Proof.
  destruct l as [l|]; [|done]. simpl. destruct (encode []) as [buf|e]; [|done].
  rewrite cmd_bind_eq. unfold gets. destruct (negb _ && _); [done|]. rewrite !cmd_bind_eq.
  pose proof (conn_write_same (l_conn (the_link c l)) buf c) as H.
  destruct (conn_write _ _ _) as [[] c1]; simpl in *; [done|]. etrans; [exact H|]. apply teardown_same.
Qed.

Lemma sendAckReason_same l t id rc c : same_session c (sendAckReason l t id rc c).2.
Proof.
  unfold sendAckReason. rewrite !cmd_bind_eq. unfold gets. rewrite cmd_bind_eq.
  pose proof (writeFrame_same (Some l) (AckPacket_EncodeAck (mkAck (c_version c) t id rc None)) c) as H.
  by destruct (writeFrame _ _ c).
Qed.

Lemma protocolError_same l rc c : same_session c (protocolError l rc c).2.
Proof.
  unfold protocolError. rewrite cmd_bind_eq. unfold gets. rewrite cmd_bind_eq. destruct (_ =? V50).
  - pose proof (writeFrame_same (Some l) (DisconnectPacket_Encode (mkDisconnect (c_version c) rc None)) c) as H.
    destruct (writeFrame _ _ c) as [? c1]. simpl in *. etrans; [exact H|]. apply teardown_same.
  - apply teardown_same.
Qed.

(** * Teardown *)

Lemma the_link_upd l f c l' :
  the_link (upd_link l f c) l' = if decide (l = l') then f (the_link c l) else the_link c l'.
Proof.
  unfold the_link, upd_link. csimp. case_decide as E; [subst; by rewrite lookup_total_insert_eq|].
  by rewrite lookup_total_insert_ne.
Qed.

Lemma teardown_idem l g c : isStopping l c = true -> teardownLink l g c = c.
Proof. unfold teardownLink. by intros ->. Qed.

Lemma teardown_links l g c : isStopping l c = false ->
  c_links (teardownLink l g c) = <[l := set_l_stop true (the_link c l)]> (c_links c) /\
  c_conns (teardownLink l g c) =
    <[l_conn (the_link c l) := set_cn_closed true (the_conn c l)]> (c_conns c).
Proof.
  intros E. unfold teardownLink. rewrite E.
  destruct (negb _); [|destruct (negb g)]; csimp; rewrite the_link_upd, decide_True by done; done.
Qed.

Lemma teardown_wrote l g c : cn_w (the_conn (teardownLink l g c) l) = cn_w (the_conn c l).
Proof.
  destruct (isStopping l c) eqn:Hst; [by rewrite teardown_idem|]. destruct (teardown_links l g c Hst) as [Hl Hk].
  unfold the_conn at 1, the_link. rewrite Hl, Hk, lookup_total_insert_eq. csimp. by rewrite lookup_total_insert_eq.
Qed.

Lemma teardown_stops l g c : isStopping l (teardownLink l g c) = true.
Proof.
  destruct (isStopping l c) eqn:E; [by rewrite teardown_idem|].
  unfold isStopping, the_link. rewrite (proj1 (teardown_links l g c E)). by rewrite lookup_total_insert_eq.
Qed.

Lemma teardown_current l g c : isStopping l c = false -> c_link c = Some l ->
  let c' := teardownLink l g c in
  c_link c' = None /\ c_quota c' = quota_fail (c_quota c) /\ c_waiters c' = ∅ /\
  c_chans c' = c_chans (failAllWaiters c) /\ c_lostCh c' = negb g || c_lostCh c.
Proof.
  intros E Hl. unfold teardownLink. rewrite E. csimp. rewrite Hl, bool_decide_true by done. by destruct g.
Qed.

Lemma teardown_other l g c : c_link c <> Some l ->
  let c' := teardownLink l g c in
  c_link c' = c_link c /\ c_quota c' = c_quota c /\ c_waiters c' = c_waiters c /\
  c_chans c' = c_chans c /\ c_lostCh c' = c_lostCh c.
Proof.
  intros Hl. unfold teardownLink. destruct (isStopping l c); [done|]. csimp. by rewrite bool_decide_false by done.
Qed.

Lemma chan_send_spec ch r chans ch' :
  chan_send ch r chans !! ch' = if decide (ch = ch') then Some (default r (chans !! ch)) else chans !! ch'.
Proof.
  unfold chan_send. case_decide as E; [subst|]; destruct (chans !! _) eqn:Hc; simpl; try done.
  - by rewrite lookup_insert_eq.
  - by rewrite lookup_insert_ne.
Qed.

Lemma chan_send_cases ch r chans ch' r' : chan_send ch r chans !! ch' = Some r' -> chans !! ch' = Some r' \/ ch' = ch /\ r' = r.
Proof. unfold chan_send. destruct (chans !! ch); [by left|]. intros [[<- <-]|[_ ?]]%lookup_insert_Some; auto. Qed.

Lemma failAll_cases c ch r : c_chans (failAllWaiters c) !! ch = Some r -> c_chans c !! ch = Some r \/ r = connectionLost.
Proof.
  unfold failAllWaiters. csimp. revert ch r. generalize (c_waiters c) as ws. intros ws.
  apply (map_fold_weak_ind (fun chans (_ : gmap Z waiter) => forall ch r,
    chans !! ch = Some r -> c_chans c !! ch = Some r \/ r = connectionLost)); [by left|].
  intros i wt ws' chans _ IH ch r [Hc|[-> ->]]%chan_send_cases; [by apply IH|by right].
Qed.

(** Every registered waiter finds a result in its channel. *)
Lemma failAllWaiters_chans c id w : c_waiters c !! id = Some w ->
  c_chans (failAllWaiters c) !! w_ch w = Some (default connectionLost (c_chans c !! w_ch w)).
Proof.
  csimp. revert id w.
  enough (forall ch, (map_fold (fun (_ : Z) w chans => chan_send (w_ch w) connectionLost chans) (c_chans c)
    (c_waiters c) !! ch = c_chans c !! ch /\ forall id w, c_waiters c !! id = Some w -> w_ch w <> ch) \/
    map_fold (fun (_ : Z) w chans => chan_send (w_ch w) connectionLost chans) (c_chans c) (c_waiters c) !! ch =
      Some (default connectionLost (c_chans c !! ch))) as HP.
  { intros id w Hw. destruct (HP (w_ch w)) as [[_ Hn]|H]; [|done]. by destruct (Hn id w Hw). }
  apply (map_fold_weak_ind (fun r m => forall ch, (r !! ch = c_chans c !! ch /\
    forall id w, m !! id = Some w -> w_ch w <> ch) \/ r !! ch = Some (default connectionLost (c_chans c !! ch)))).
  - intros ch. left. split; [done|]. intros id w. by rewrite lookup_empty.
  - intros i x m r Hi IH ch. rewrite chan_send_spec. case_decide as E.
    + subst. right. destruct (IH (w_ch x)) as [[-> _]| ->]; done.
    + destruct (IH ch) as [[Hr Hn]|Hr]; [left|by right]. split; [done|].
      intros id w [[<- <-]|[_ Hw]]%lookup_insert_Some; [done|by apply (Hn id)].
Qed.

(** * The store *)

Context {HL : SessionStoreLaws St} {HR : ReliableStore St}.
Set Default Proof Using "Type*".

Definition stored (id kind : Z) c : Prop := (id, kind) ∈ (contents (c_store c)).*1.

Lemma storeContains_spec id kind c : store_ok (c_store c) ->
  storeContains id kind c = true <-> stored id kind c.
Proof.
  intros Hs. unfold storeContains, stored. destruct Contains as [f|] eqn:Hf.
  - rewrite (Contains_law f) by done. apply bool_decide_eq_true.
  - destruct (All_total (c_store c)) as [msgs Hm]. rewrite Hm, <- (All_law _ _ Hs Hm).
    rewrite existsb_exists, <- list_fmap_compose, list_elem_of_fmap. split.
    + intros (m & Hin%list_elem_of_In & [Hi Hk]%andb_prop). exists m. split; [|done].
      apply Z.eqb_eq in Hi, Hk. subst. done.
    + intros (m & [= -> ->] & Hin). exists m. split; [by apply list_elem_of_In|]. by rewrite !Z.eqb_refl.
Qed.

Lemma store_Save_spec m c : store_ok (c_store c) -> store_room (c_store c) ->
  store_ok (c_store (store_Save m c)) /\
  contents (c_store (store_Save m c)) = save_entry (entry_of m) (contents (c_store c)).
Proof. intros Hs Hr. csimp. destruct (Save_total m (c_store c)) as [s' Hs']. rewrite Hs'. by apply Save_law. Qed.

Lemma store_Delete_spec id kind c : store_ok (c_store c) ->
  store_ok (c_store (store_Delete id kind c)) /\
  contents (c_store (store_Delete id kind c)) = delete_entry (id, kind) (contents (c_store c)).
Proof. intros Hs. csimp. destruct (Delete_total id kind (c_store c)) as [s' Hs']. rewrite Hs'. by apply Delete_law. Qed.

Lemma save_entry_keys e es k : k ∈ (save_entry e es).*1 <-> k = e.1 \/ k ∈ es.*1.
Proof.
  unfold save_entry. case_decide as E.
  - assert (Hk : ((fun e' : entry => if decide (e'.1 = e.1) then e else e') <$> es).*1 = es.*1).
    { rewrite <- list_fmap_compose. apply list_fmap_ext. intros i x _. simpl. by case_decide. }
    rewrite Hk. split; [by right|]. by intros [->|].
  - rewrite fmap_app, elem_of_app. simpl. rewrite list_elem_of_singleton. tauto.
Qed.

Lemma delete_entry_keys k es k' : k' ∈ (delete_entry k es).*1 <-> k' <> k /\ k' ∈ es.*1.
Proof.
  unfold delete_entry. rewrite !list_elem_of_fmap. setoid_rewrite list_elem_of_filter. split.
  - intros (x & -> & Hn & Hx). eauto.
  - intros (Hn & x & -> & Hx). eauto.
Qed.

Lemma stored_Save m c id kind : store_ok (c_store c) -> store_room (c_store c) ->
  stored id kind (store_Save m c) <-> (id, kind) = key_of m \/ stored id kind c.
Proof.
  intros Hs Hr. destruct (store_Save_spec m c Hs Hr) as [_ H]. unfold stored. by rewrite H, save_entry_keys.
Qed.

Lemma stored_Delete id0 kind0 c id kind : store_ok (c_store c) ->
  stored id kind (store_Delete id0 kind0 c) <-> (id, kind) <> (id0, kind0) /\ stored id kind c.
Proof.
  intros Hs. destruct (store_Delete_spec id0 kind0 c Hs) as [_ H]. unfold stored. by rewrite H, delete_entry_keys.
Qed.

End facts.

(** * A connection to try things on

    A client connected to a broker that resumed the session, over a network that
    never fails; its handlers do nothing. *)

#[export] Instance quiet_env : Environment memStore := { net _ _ _ := true; callback _ _ c := c }.

Definition demo_cfg : TCPConfig := mkTCPConfig (gostr "me") [] [] 0 false 100 0 0 10 [] 0 0 0 0 None.
Definition demo_dial (bytes : list Z) : dialling := mkDialling None None bytes None 5.
(** CONNACK with Session Present and no properties. *)
Definition demo_connack : list Z := [0x20; 3; 1; 0; 0].
Definition demo : client memStore := (client_Connect (demo_dial demo_connack) (NewTCPClient demo_cfg)).2.
Definition demo_pkt : PublishPacket := mkPublish V50 (gostr "t") [1; 2] 1 false false 0 None.

(** * Tearing down a connection *)


