(* ===== verification/InboundFacts.v ===== *)
(** The receiving side of a connection: exactly-once delivery of QoS 2 messages,
    fatal protocol errors, topic aliases and the keep-alive watchdog. *)

From S2P Require Import Prelude GoStrings Codes Wire WireFacts Props PropsFacts PublishPackets ControlPackets.
From S2P Require Import SubscribePackets Topic SessionStore Errors IdAllocator Quota Subscriptions Lifecycle.
From S2P Require Import Client Pump Requests Connection ClientFacts.
From stdpp Require Import options.

(** * QoS 2: the abstract receiver

    The receiver remembers the identifiers it delivered and has not seen
    released. *)

Inductive qos2_event : Type :=
| Delivery (pub : PublishPacket)
| Release (id : Z).

Definition receiver_step (e : qos2_event) (R : gset Z) : gset Z * list Message :=
  match e with
  | Delivery pub =>
    if decide (pub_PacketID pub ∈ R) then (R, []) else ({[pub_PacketID pub]} ∪ R, [toMessage pub])
  | Release id => (R ∖ {[id]}, [])
  end.

Fixpoint receiver_run (es : list qos2_event) (R : gset Z) : gset Z * list Message :=
  match es with
  | [] => (R, [])
  | e :: es =>
    let '(R, ms) := receiver_step e R in
    let '(R, ms') := receiver_run es R in (R, ms ++ ms')
  end.

(** The frame that carries an event, for a connection without topic aliases. *)
Definition carries (v : Z) (frame : Frame) (e : qos2_event) : Prop :=
  match e with
  | Delivery pub =>
    Frame_PacketType frame = Publish /\ DecodePublish v (Header frame) (Body frame) = Ok pub /\
    pub_QoS pub = 2 /\ no_alias (pub_Properties pub) = true
  | Release id =>
    Frame_PacketType frame = Pubrel /\ exists ack, DecodeAck v Pubrel (Body frame) = Ok ack /\ ack_PacketID ack = id
  end.

(** The handler calls a message leads to. *)
Definition routed (t : subTable) (m : Message) : list (Z * Message) := (fun h => (h, m)) <$> (dispatch m t).1.

Section inbound.
Context {St : Type} {HS : SessionStore St} {HL : SessionStoreLaws St} {HC : ContainsStore St} {HR : ReliableStore St}.
Context {HE : Environment St}.
Implicit Types c : client St.

(** [passive calls c c']: the receiver state did not change from [c] to [c'],
    and [calls] are the handler calls in between. *)
Record passive (calls : list (Z * Message)) c c' : Prop := {
  pv_ok : store_ok (c_store c) -> store_ok (c_store c');
  pv_room : store_room (c_store c) -> store_room (c_store c');
  pv_stored id : stored id StoredInboundID c' <-> stored id StoredInboundID c;
  pv_table : c_table c' = c_table c;
  pv_version : c_version c' = c_version c;
  pv_calls : c_calls c' = c_calls c ++ calls;
  pv_stop l : isStopping l c' = isStopping l c
}.

(** Handlers that leave the receiver state alone: they may publish and use the
    client otherwise. *)
Class PassiveHandlers : Prop := callback_passive h m c : passive [] c (callback h m c).

(** What happens between the frames: anything that leaves the receiver state
    alone, such as a teardown followed by a connect that resumes the session. *)
Record undisturbed c c' : Prop := {
  ud_ok : store_ok (c_store c) -> store_ok (c_store c');
  ud_stored id : stored id StoredInboundID c' <-> stored id StoredInboundID c;
  ud_table : c_table c' = c_table c;
  ud_calls : c_calls c' = c_calls c
}.

Inductive inbound_run : client St -> list qos2_event -> client St -> Prop :=
| IR_end c : inbound_run c [] c
| IR_frame c l frame e b c1 es c2 :
    isStopping l c = false -> store_room (c_store c) -> carries (c_version c) frame e ->
    handleFrame l frame c = (b, c1) -> inbound_run c1 es c2 -> inbound_run c (e :: es) c2
| IR_other c c1 es c2 : undisturbed c c1 -> inbound_run c1 es c2 -> inbound_run c es c2.

Set Default Proof Using "Type*".

Lemma passive_trans k1 k2 c1 c2 c3 : passive k1 c1 c2 -> passive k2 c2 c3 -> passive (k1 ++ k2) c1 c3.
Proof.
  intros [] []. split; auto; try congruence; try (intros; by rewrite pv_stored1).
  by rewrite pv_calls1, pv_calls0, app_assoc.
Qed.

Lemma call_handler_passive {HP : PassiveHandlers} m h c : passive [(h, m)] c (call_handler m h c).
Proof.
  unfold call_handler. apply (passive_trans [(h, m)] [] c (set_calls (c_calls c ++ [(h, m)]) c)); [by split|].
  apply callback_passive.
Qed.

Lemma client_dispatch_passive {HP : PassiveHandlers} m c : passive (routed (c_table c) m) c (client_dispatch m c).
Proof.
  unfold client_dispatch, routed. generalize (dispatch m (c_table c)).1 as hs. intros hs.
  revert c. induction hs as [|h hs IH]; intros c; simpl; [split; auto; by rewrite app_nil_r|].
  apply (passive_trans [(h, m)] _ c (call_handler m h c)); [apply call_handler_passive|apply IH].
Qed.

Lemma same_session_undisturbed c c' : same_session c c' -> undisturbed c c'.
Proof.
  intros []. split; unfold stored; rewrite ?ss_store; intros; done.
Qed.

(** A frame leads from one abstract state to the next. *)
Record delivers (e : qos2_event) c c' : Prop := {
  dl_ok : store_ok (c_store c');
  dl_table : c_table c' = c_table c;
  dl_refines (R : gset Z) : (forall id, id ∈ R <-> stored id StoredInboundID c) ->
    (forall id, id ∈ (receiver_step e R).1 <-> stored id StoredInboundID c') /\
    c_calls c' = c_calls c ++ ((receiver_step e R).2 ≫= routed (c_table c))
}.

Lemma delivers_same e c c' c'' : delivers e c c' -> same_session c' c'' -> delivers e c c''.
Proof.
  intros [H1 H2 H3] []. split; [by rewrite ss_store|congruence|]. intros R HRs. destruct (H3 R HRs) as [Ha Hb].
  split; [|congruence]. intros id. rewrite Ha. unfold stored. by rewrite ss_store.
Qed.

Lemma sendAck_eq l t id c : exists c', sendAck l t id c = (tt, c') /\ same_session c c'.
Proof.
  pose proof (sendAckReason_same l t id Success c) as H. unfold sendAck.
  destruct (sendAckReason _ _ _ _ _) as [[] c']. eauto.
Qed.

Lemma handleInboundQoS2_delivers {HP : PassiveHandlers} l pub c b c' : store_ok (c_store c) -> store_room (c_store c) ->
  isStopping l c = false -> handleInboundQoS2 l pub c = (b, c') -> delivers (Delivery pub) c c'.
Proof.
  intros Hok Hroom Hst. unfold handleInboundQoS2. rewrite cmd_bind_eq. unfold gets.
  destruct (storeContains (pub_PacketID pub) StoredInboundID c) eqn:Hseen.
  - rewrite storeContains_spec in Hseen by done. rewrite cmd_bind_eq.
    destruct (sendAck_eq l Pubrec (pub_PacketID pub) c) as (c1 & -> & Hss). intros [= <- <-].
    refine (delivers_same _ _ c _ _ Hss). split; [done..|]. intros R HRs. unfold receiver_step.
    rewrite decide_True by (by apply HRs). split; [done|]. simpl. by rewrite app_nil_r.
  - assert (Hn : ~ stored (pub_PacketID pub) StoredInboundID c) by (rewrite <- storeContains_spec by done; congruence).
    rewrite cmd_bind_eq. unfold upd at 1.
    destruct (client_dispatch_passive (toMessage pub) c) as [Hok1 Hr1 Hs1 Ht1 _ Hc1 Hst1].
    rewrite cmd_bind_eq. unfold gets. rewrite Hst1, Hst. rewrite cmd_bind_eq. unfold upd. rewrite cmd_bind_eq.
    match goal with |- context [sendAck l Pubrec ?i ?x] =>
      destruct (sendAck_eq l Pubrec i x) as (c2 & -> & Hss) end.
    intros [= <- <-]. refine (delivers_same _ _ _ _ _ Hss). split.
    + by apply store_Save_spec; [apply Hok1|apply Hr1].
    + done.
    + intros R HRs. unfold receiver_step. rewrite decide_False by (by rewrite HRs). split.
      * intros id. rewrite stored_Save by auto. rewrite Hs1, <- HRs. cbn [fst]. rewrite elem_of_union, elem_of_singleton.
        apply or_iff_compat_r. split; [by intros ->|by intros [= ->]].
      * csimp. rewrite Hc1. simpl. by rewrite app_nil_r.
Qed.

Lemma handleInboundPubrel_delivers l frame ack c b c' : store_ok (c_store c) ->
  DecodeAck (c_version c) Pubrel (Body frame) = Ok ack ->
  handleInboundPubrel l frame c = (b, c') -> delivers (Release (ack_PacketID ack)) c c'.
Proof.
  intros Hok Hd. unfold handleInboundPubrel. rewrite cmd_bind_eq. unfold gets. rewrite Hd, cmd_bind_eq.
  destruct (storeContains (ack_PacketID ack) StoredInboundID c) eqn:Hseen; cbn [negb].
  - rewrite cmd_bind_eq. unfold upd. rewrite cmd_bind_eq.
    match goal with |- context [sendAck l Pubcomp ?i ?x] =>
      destruct (sendAck_eq l Pubcomp i x) as (c2 & -> & Hss) end.
    intros [= <- <-]. refine (delivers_same _ _ _ _ _ Hss). split; [by apply store_Delete_spec|done|].
    intros R HRs. split; [|csimp; simpl; by rewrite app_nil_r].
    intros id. rewrite stored_Delete, <- HRs by done. cbn [receiver_step fst]. rewrite elem_of_difference, elem_of_singleton.
    split; intros [H1 H2]; split; congruence.
  - assert (Hn : ~ stored (ack_PacketID ack) StoredInboundID c) by (rewrite <- storeContains_spec by done; congruence).
    rewrite cmd_bind_eq.
    match goal with |- context [sendAckReason l ?t ?i ?r c] =>
      pose proof (sendAckReason_same l t i r c) as Hss; destruct (sendAckReason l t i r c) as [[] c2] end.
    intros [= <- <-]. refine (delivers_same _ _ c _ _ Hss). split; [done..|]. intros R HRs. split.
    + intros id. rewrite <- HRs. rewrite <- HRs in Hn. cbn [receiver_step fst].
      rewrite elem_of_difference, elem_of_singleton. split; [tauto|]. intros Hi. split; [done|]. congruence.
    + simpl. by rewrite app_nil_r.
Qed.

Lemma handleFrame_delivers {HP : PassiveHandlers} l frame e c b c' : store_ok (c_store c) -> store_room (c_store c) ->
  isStopping l c = false -> carries (c_version c) frame e -> handleFrame l frame c = (b, c') -> delivers e c c'.
Proof.
  intros Hok Hroom Hst. destruct e as [pub|id]; simpl.
  - intros (Ht & Hd & Hq & Ha). unfold handleFrame. rewrite Ht. cbn [Z.eqb Publish Pos.eqb].
    unfold handlePublish. rewrite cmd_bind_eq. unfold gets. rewrite Hd, cmd_bind_eq. unfold resolveTopicAlias.
    assert (Hr : with_Topic (pub_Topic pub) pub = pub) by (by destruct pub).
    destruct (pub_Properties pub) as [pr|]; [simpl in Ha; destruct (TopicAlias pr); [done|]|];
      unfold mret, cmd_ret; rewrite Hr, Hq; by apply handleInboundQoS2_delivers.
  - intros (Ht & ack & Hd & <-). unfold handleFrame. rewrite Ht. cbn [Z.eqb Pubrel Publish Puback Pubrec Pos.eqb].
    by apply handleInboundPubrel_delivers.
Qed.

Lemma inbound_run_refines {HP : PassiveHandlers} c es c' : inbound_run c es c' -> store_ok (c_store c) ->
  forall R : gset Z, (forall id, id ∈ R <-> stored id StoredInboundID c) ->
  (forall id, id ∈ (receiver_run es R).1 <-> stored id StoredInboundID c') /\
  c_calls c' = c_calls c ++ ((receiver_run es R).2 ≫= routed (c_table c)).
Proof.
  induction 1 as [c|c l frame e b c1 es c2 Hst Hroom Hca Hh _ IH|c c1 es c2 Hu _ IH]; intros Hok R HRs.
  - split; [done|]. simpl. by rewrite app_nil_r.
  - destruct (handleFrame_delivers l frame e c b c1 Hok Hroom Hst Hca Hh) as [Hok1 Ht1 Hd1].
    destruct (Hd1 R HRs) as [HR1 Hc1]. simpl. destruct (receiver_step e R) as [R1 ms1]. simpl in HR1, Hc1.
    destruct (IH Hok1 R1 HR1) as [HR2 Hc2]. destruct (receiver_run es R1) as [R2 ms2]. simpl in *.
    split; [done|]. by rewrite Hc2, Hc1, Ht1, <- app_assoc, bind_app.
  - destruct Hu as [Hok1 Hs1 Ht1 Hc1]. destruct (IH (Hok1 Hok) R) as [HR2 Hc2].
    + intros id. by rewrite Hs1.
    + by rewrite Hc2, Hc1, Ht1.
Qed.

End inbound.

#[export] Instance quiet_passive : PassiveHandlers.
Proof. intros h m c. split; auto. by rewrite app_nil_r. Qed.

(** QoS 2 messages are delivered exactly once.  The client refines the
    abstract receiver: over any run of PUBLISH and PUBREL frames, interleaved
    with anything that keeps the receiver state (reconnects that resume the
    session included) and with handlers that do, the handlers called are exactly
    those of the first PUBLISH of each identifier since its last release, in
    order; duplicates are never delivered again, and the identifiers awaiting
    release are exactly the ones the abstract receiver remembers. *)
Theorem inbound_exactly_once {St} {HS : SessionStore St} {HL : SessionStoreLaws St} {HC : ContainsStore St}
    {HR : ReliableStore St} {HE : Environment St} {HP : PassiveHandlers}
    (c c' : client St) (es : list qos2_event) (R : gset Z) :
  store_ok (c_store c) -> (forall id, id ∈ R <-> stored id StoredInboundID c) -> inbound_run c es c' ->
  (forall id, id ∈ (receiver_run es R).1 <-> stored id StoredInboundID c') /\
  c_calls c' = c_calls c ++ ((receiver_run es R).2 ≫= routed (c_table c)).
Proof. intros Hok HRs Hrun. by apply (inbound_run_refines c es c'). Qed.

(** A subscriber with handler 7 on "a"; the same QoS 2 PUBLISH twice, then its
    PUBREL. *)
Definition demo_subscribed : client memStore :=
  set_table (addSubscription (gostr "a") (mkSubscribeOptions 2 false false 0) 7 0 (c_table demo)).2 demo.
Definition demo_publish2 : Frame := mkFrame 0x34 [0; 1; 97; 0; 9; 0; 55].
Definition demo_pubrel : Frame := mkFrame 0x62 [0; 9].
Definition demo_message2 : PublishPacket := mkPublish V50 (gostr "a") [55] 2 false false 9 None.

Lemma wf_demo : store_ok (c_store demo_subscribed).
Proof. replace (c_store demo_subscribed) with newMemStore by (vm_compute; reflexivity). exact wf_newMemStore. Qed.

Lemma demo_empty id kind : ~ stored id kind demo_subscribed.
Proof.
  unfold stored. replace (contents (c_store demo_subscribed)) with (@nil entry) by (vm_compute; reflexivity).
  apply not_elem_of_nil.
Qed.

Lemma inbound_exactly_once_witness :
  let c1 := (handleFrame 0 demo_publish2 demo_subscribed).2 in
  let c2 := (handleFrame 0 demo_publish2 c1).2 in
  let c3 := (handleFrame 0 demo_pubrel c2).2 in
  c_calls c3 = [(7, toMessage demo_message2)] /\ ~ stored 9 StoredInboundID c3.
Proof.
  intros c1 c2 c3.
  assert (Hrun : inbound_run demo_subscribed [Delivery demo_message2; Delivery demo_message2; Release 9] c3).
  { apply (IR_frame _ 0 demo_publish2 _ true c1); [vm_compute; reflexivity|by_decide|vm_compute; auto|
      vm_compute; reflexivity|].
    apply (IR_frame _ 0 demo_publish2 _ true c2); [vm_compute; reflexivity|by_decide|vm_compute; auto|
      vm_compute; reflexivity|].
    apply (IR_frame _ 0 demo_pubrel _ true c3); [vm_compute; reflexivity|by_decide| |vm_compute; reflexivity|constructor].
    split; [reflexivity|]. exists (mkAck V50 Pubrel 9 0 None). split; vm_compute; reflexivity. }
  destruct (inbound_exactly_once demo_subscribed c3 [Delivery demo_message2; Delivery demo_message2; Release 9] ∅)
    as [HRs Hc]; [exact wf_demo| |exact Hrun|].
  { intros id. split; [by intros ?%not_elem_of_empty|]. by intros ?%demo_empty. }
  split; [rewrite Hc; vm_compute; reflexivity|]. rewrite <- HRs. by_decide.
Defined.
