(* ===== verification/SessionFacts.v ===== *)
(** Connecting: what a connect that fails leaves behind, and what goes out, in
    which order, on one that succeeds. *)

From S2P Require Import Prelude GoStrings Codes Wire WireFacts Props PropsFacts PublishPackets ControlPackets.
From S2P Require Import SubscribePackets Topic SessionStore Errors IdAllocator Quota Subscriptions Lifecycle.
From S2P Require Import Client Pump Requests Connection ClientFacts.
From stdpp Require Import options.

(** The frame an encoder yields, if it fits the limit of the link. *)
Definition frame_of (max : Z) (encode : list Z -> res (list Z)) : option (list Z) :=
  match encode [] with
  | Err _ => None
  | Ok buf => if negb (max =? 0) && (u32 (len buf) >? max) then None else Some buf
  end.

(** The frames that replay stored messages. *)
Definition replay_frames (v max : Z) (msgs : list StoredMessage) : list (list Z) :=
  omap (fun m => replay_encoder v m ≫= frame_of max) msgs.

Section session.
Context {St : Type} {HS : SessionStore St} {HC : ContainsStore St} {HE : Environment St}.
Implicit Types c : client St.

(** What went out on the socket of a link. *)
Definition written c (l : nat) : list (list Z) := cn_w (the_conn c l).

(** The part of a link that never changes after it was set up. *)
Definition same_link (l : nat) c c' : Prop :=
  l_conn (the_link c' l) = l_conn (the_link c l) /\ l_outboundMax (the_link c' l) = l_outboundMax (the_link c l) /\
  l_quotaGen (the_link c' l) = l_quotaGen (the_link c l) /\ l_idGen (the_link c' l) = l_idGen (the_link c l).

(** What a connect in progress may do to the client. *)
Record progress (l : nat) c c' : Prop := {
  pg_link : c_link c' = c_link c;
  pg_version : c_version c' = c_version c;
  pg_same : same_link l c c';
  pg_table : c_table c' = c_table c;
  pg_result : c_result c' = c_result c;
  pg_stop : isStopping l c = true -> isStopping l c' = true;
  pg_closed : (isStopping l c = true -> cn_closed (the_conn c l) = true) ->
    isStopping l c' = true -> cn_closed (the_conn c' l) = true;
  pg_conns k : c_conns c !! k = None -> l_conn (the_link c l) <> k -> c_conns c' !! k = None;
  pg_unseen : c_quota c' = c_quota c /\ c_lostCh c' = c_lostCh c
}.

#[export] Instance progress_refl l : Reflexive (progress l).
Proof. by split. Qed.
#[export] Instance progress_trans l : Transitive (progress l).
Proof.
  intros c1 c2 c3 [H1 H2 (H3 & H4 & H5 & H6) HT HR H7 H8 H9 [HU HV]] [H1' H2' (H3' & H4' & H5' & H6') HT' HR' H7' H8' H9' [HU' HV']].
  split; [congruence..| |congruence|congruence|auto|auto| |split; congruence].
  - unfold same_link. split_and!; congruence.
  - intros k Hk Hn. apply H9'; [by apply H9|congruence].
Qed.

Lemma teardown_progress l g c : c_link c <> Some l -> progress l c (teardownLink l g c).
Proof.
  intros Hl. destruct (isStopping l c) eqn:Hst; [by rewrite teardown_idem|].
  pose proof (teardown_same l g c) as Hss. destruct (teardown_links l g c Hst) as [Hlk Hcn]. split; try apply Hss.
  - apply (teardown_other l g c Hl).
  - unfold same_link, the_link. rewrite Hlk, lookup_total_insert_eq. done.
  - congruence.
  - intros _ _. unfold the_conn, the_link. rewrite Hlk, Hcn, lookup_total_insert_eq. csimp. by rewrite lookup_total_insert_eq.
  - intros k Hk Hn. rewrite Hcn. by rewrite lookup_insert_ne.
  - by destruct (teardown_other l g c Hl) as (_ & ? & _ & _ & ?).
Qed.

Lemma conn_write_progress l buf c : progress l c
  (upd_conn (l_conn (the_link c l)) (set_cn_w (cn_w (c_conns c !!! l_conn (the_link c l)) ++ [buf])) c).
Proof.
  split; try done.
  - intros H Hst. specialize (H Hst). unfold the_conn, the_link, upd_conn in *. csimp.
    by rewrite lookup_total_insert_eq.
  - intros k Hk Hn. csimp. by rewrite lookup_insert_ne.
Qed.

Lemma writeFrame_progress l encode c : c_link c <> Some l ->
  progress l c (writeFrame (Some l) encode c).2 /\
  (isStopping l (writeFrame (Some l) encode c).2 = false ->
    written (writeFrame (Some l) encode c).2 l =
    written c l ++ option_list (frame_of (l_outboundMax (the_link c l)) encode)).
Proof.
  intros Hl. simpl. unfold frame_of. destruct (encode []) as [buf|e].
  2: { split; [done|]. intros _. simpl. by rewrite app_nil_r. }
  rewrite cmd_bind_eq. unfold gets. destruct (negb _ && _).
  { split; [done|]. intros _. simpl. by rewrite app_nil_r. }
  rewrite !cmd_bind_eq. unfold conn_write. destruct (negb (cn_closed _) && _).
  - split; [by apply conn_write_progress|]. intros _. cbn [mret cmd_ret snd]. unfold written, the_conn, the_link, upd_conn. csimp.
    by rewrite lookup_total_insert_eq.
  - rewrite cmd_bind_eq. unfold upd. cbn [snd mret cmd_ret]. split; [by apply teardown_progress|].
    by rewrite teardown_stops.
Qed.

Lemma replaySession_loop_progress l msgs c : c_link c <> Some l ->
  progress l c (replaySession_loop l msgs c).2 /\
  (isStopping l (replaySession_loop l msgs c).2 = false ->
    written (replaySession_loop l msgs c).2 l =
    written c l ++ replay_frames (c_version c) (l_outboundMax (the_link c l)) msgs).
Proof.
  revert c. induction msgs as [|m msgs IH]; intros c Hl; [split; [done|]; intros _; simpl; by rewrite app_nil_r|].
  cbn [replaySession_loop]. rewrite cmd_bind_eq. unfold gets. rewrite cmd_bind_eq.
  unfold replay_frames. cbn [omap list_omap]. fold (replay_frames (c_version c) (l_outboundMax (the_link c l)) msgs).
  destruct (replay_encoder (c_version c) m) as [encode|]; cbn [mbind option_bind].
  - pose proof (writeFrame_progress l encode c Hl) as [Hp Hw]. destruct (writeFrame _ _ c) as [err c1]. cbn [snd] in *.
    destruct (IH c1) as [Hp1 Hw1]; [by rewrite (pg_link _ _ _ Hp)|]. split; [by etrans|]. intros Hst.
    rewrite Hw1 by done. destruct (isStopping l c1) eqn:Hst1; [by rewrite (pg_stop _ _ _ Hp1) in Hst|].
    rewrite Hw, <- app_assoc by done. f_equal. rewrite (pg_version _ _ _ Hp).
    destruct (pg_same _ _ _ Hp) as (_ & -> & _). by destruct (frame_of _ _).
  - apply IH. done.
Qed.

(** The client progressed and, unless the link was torn down, only more frames
    went out. *)
Definition extends (l : nat) c c' : Prop :=
  progress l c c' /\ (isStopping l c' = false -> exists rest, written c' l = written c l ++ rest).

#[export] Instance extends_trans l : Transitive (extends l).
Proof.
  intros c1 c2 c3 [P1 E1] [P2 E2]. split; [by etrans|]. intros Hst. destruct (E2 Hst) as [r2 ->].
  destruct (isStopping l c2) eqn:Hs2; [by rewrite (pg_stop _ _ _ P2) in Hst|]. destruct (E1 eq_refl) as [r1 ->].
  exists (r1 ++ r2). by rewrite app_assoc.
Qed.

Lemma extends_same l c c' : c_links c' = c_links c -> c_conns c' = c_conns c -> c_link c' = c_link c ->
  c_version c' = c_version c -> c_table c' = c_table c -> c_result c' = c_result c ->
  c_quota c' = c_quota c -> c_lostCh c' = c_lostCh c -> extends l c c'.
Proof.
  intros Hl Hk Hc Hv Ht Hr Hq Hlo. assert (Htl : the_link c' l = the_link c l) by (unfold the_link; congruence). split.
  - split; unfold same_link, isStopping, the_conn; rewrite ?Htl, ?Hk; done.
  - intros _. exists []. unfold written, the_conn. by rewrite Htl, Hk, app_nil_r.
Qed.

Lemma writeFrame_extends l encode c : c_link c <> Some l -> extends l c (writeFrame (Some l) encode c).2.
Proof. intros Hl. destruct (writeFrame_progress l encode c Hl) as [Hp Hw]. split; [done|]. eauto. Qed.

Lemma removeWaiter_extends l id ch c : extends l c (removeWaiter id ch c).
Proof.
  unfold removeWaiter. destruct (c_waiters c !! id); [destruct (_ =? _)%nat|]; by apply extends_same.
Qed.

#[local] Strategy opaque [idAllocator_Acquire].

Lemma replaySubscriptions_loop_extends l subs c : c_link c <> Some l ->
  extends l c (replaySubscriptions_loop l subs c).2.
Proof.
  revert c. induction subs as [|s subs IH]; intros c Hl; [by apply extends_same|].
  cbn [replaySubscriptions_loop]. rewrite cmd_bind_eq. destruct (idAllocator_Acquire (c_ids c)) as [[id g|g] a].
  2: { etrans; [|by apply IH]. by apply extends_same. }
  rewrite cmd_bind_eq. unfold registerWaiter. rewrite cmd_bind_eq. unfold gets. rewrite cmd_bind_eq.
  match goal with |- context [writeFrame (Some l) ?e ?c1] =>
    assert (H1 : extends l c c1) by (by apply extends_same);
    pose proof (writeFrame_extends l e c1 Hl) as H2; destruct (writeFrame (Some l) e c1) as [err c2] end.
  cbn [snd] in H2. assert (H3 : extends l c c2) by (by etrans). assert (Hl2 : c_link c2 <> Some l) by (by destruct H3 as [[-> ]]).
  destruct err as [e|].
  - rewrite !cmd_bind_eq. unfold upd. etrans; [exact H3|]. etrans; [apply (removeWaiter_extends l id (c_nextCh c))|].
    etrans; [apply (extends_same l _ (ids_ReleaseAt id g (removeWaiter id (c_nextCh c) c2))); done|].
    apply IH. destruct (removeWaiter_extends l id (c_nextCh c) c2) as [[Hr]]. csimp. by rewrite Hr.
  - rewrite cmd_bind_eq. pose proof (IH c2 Hl2) as H4. destruct (replaySubscriptions_loop l subs c2) as [aw c3].
    cbn [snd mret cmd_ret] in *. by etrans.
Qed.
End session.

(** * The handshake touches one socket *)

Section handshake.
Context {St : Type} {HS : SessionStore St} {HC : ContainsStore St} {HE : Environment St}.
Implicit Types c : client St.

Definition only_conn (k : nat) c c' : Prop :=
  c' = set_conns (c_conns c') c /\ delete k (c_conns c') = delete k (c_conns c).

#[export] Instance only_conn_refl k : Reflexive (only_conn k).
Proof. intros []. by split. Qed.
#[export] Instance only_conn_trans k : Transitive (only_conn k).
Proof. intros c1 c2 c3 [H1 D1] [H2 D2]. split; [|congruence]. rewrite H2, H1. done. Qed.

Lemma upd_conn_only k f c : only_conn k c (upd_conn k f c).
Proof. split; [done|]. csimp. by rewrite delete_insert_eq. Qed.

Lemma conn_write_only k buf c : only_conn k c (conn_write k buf c).2.
Proof. unfold conn_write. destruct (negb _ && _); [apply upd_conn_only|done]. Qed.

Definition shut (k : nat) c : Prop := cn_closed (c_conns c !!! k) = true.

Lemma close_conn_shut k c : shut k (close_conn k c).
Proof. unfold shut, close_conn. csimp. by rewrite lookup_total_insert_eq. Qed.

Lemma refuseConnack_only k err c : exists c', refuseConnack k err c = (Some err, c') /\ only_conn k c c' /\ shut k c'.
Proof.
  unfold refuseConnack. rewrite cmd_bind_eq. unfold gets. rewrite cmd_bind_eq.
  destruct (_ =? V50); [destruct (DisconnectPacket_Encode _ _) as [f|]|].
  - pose proof (conn_write_only k f c) as H. destruct (conn_write k f c) as [b c1]. rewrite cmd_bind_eq. unfold upd.
    eexists. split_and!; [done|etrans; [exact H|apply upd_conn_only]|apply close_conn_shut].
  - eexists. split_and!; [done|apply upd_conn_only|apply close_conn_shut].
  - eexists. split_and!; [done|apply upd_conn_only|apply close_conn_shut].
Qed.

(** The outcome of a handshake: an accepted CONNACK, or an error and a closed
    socket. *)
Definition settled (k : nat) c (out : (goerror + ConnackPacket) * client St) : Prop :=
  only_conn k c out.2 /\ forall err, out.1 = inl err -> shut k out.2.

Lemma settled_abandon k c c1 err : only_conn k c c1 ->
  settled k c (inl err, close_conn k c1).
Proof.
  intros H. split; [etrans; [exact H|apply upd_conn_only]|]. intros. apply close_conn_shut.
Qed.

Ltac refused :=
  match goal with |- context [refuseConnack ?k ?e ?c] =>
    destruct (refuseConnack_only k e c) as (? & -> & ? & ?); split; [by etrans|done] end.

Lemma handshake_settled d k c : settled k c (handshake d k c).
Proof.
  unfold handshake. rewrite cmd_bind_eq. unfold gets at 1.
  destruct (ConnectPacket_Encode _ _) as [f|e]; [|by apply settled_abandon]. rewrite cmd_bind_eq.
  pose proof (conn_write_only k f c) as H1. destruct (conn_write k f c) as [sent c1]. cbn [snd] in H1.
  destruct (negb sent); [by apply settled_abandon|]. rewrite cmd_bind_eq. unfold gets at 1.
  destruct (ReadFrame _ _) as [[fr rest]|e]; [|by apply settled_abandon]. rewrite cmd_bind_eq. unfold upd at 1.
  assert (H2 : only_conn k c (upd_conn k (set_cn_r rest) c1)) by (etrans; [exact H1|apply upd_conn_only]).
  destruct (negb _); [by apply settled_abandon|]. rewrite cmd_bind_eq. unfold gets at 1.
  destruct (DecodeConnack _ _) as [ack|e]; [|by apply settled_abandon].
  destruct (ReasonCode_IsError _); [by apply settled_abandon|]. rewrite cmd_bind_eq.
  destruct (validateConnackLimits _ _) as [err|]; [by refused|]. rewrite cmd_bind_eq. unfold gets at 1.
  destruct (_ && _); [by refused|]. unfold mret at 1, cmd_ret at 1.
  destruct (d_ctx d); [by apply settled_abandon|]. by split.
Qed.
End handshake.

(** * Theorems *)

Section established.
Context {St : Type} {HS : SessionStore St} {HL : SessionStoreLaws St} {HC : ContainsStore St} {HR : ReliableStore St}.
Context {HE : Environment St}.
Implicit Types c : client St.
Set Default Proof Using "Type*".

(** The messages a connect keeps for replay. *)
Definition kept (r : ConnectResult) c : list StoredMessage :=
  if resetsSession r c then [] else default [] (All (c_store c)).

Lemma applySession_All r c : store_ok (c_store c) -> All (c_store (applySession r c)) = Some (kept r c).
Proof.
  intros Hok. unfold applySession, kept. destruct (resetsSession r c); csimp.
  - destruct (Reset_total (c_store c)) as [s Hs]. rewrite Hs. cbn [from_option id].
    destruct (Reset_law _ _ Hs) as [Hok' Hc]. destruct (All_total s) as [out Ho]. rewrite Ho.
    pose proof (All_law _ _ Hok' Ho) as He. rewrite Hc in He. by destruct out.
  - by destruct (All_total (c_store c)) as [out ->].
Qed.

(** The state in which [establish] starts the replay. *)
Definition ready (k : nat) (r : ConnectResult) c : client St :=
  let l := fresh (dom (c_links c)) in
  captureGenerations l (applySession r (set_links (<[l := newLink k r c]> (c_links c)) c)).

Lemma applySession_net r c : let c' := applySession r c in
  c_links c' = c_links c /\ c_conns c' = c_conns c /\ c_link c' = c_link c /\ c_version c' = c_version c.
Proof using Type. unfold applySession. by destruct (resetsSession r c). Qed.

Lemma ready_spec k r c : let l := fresh (dom (c_links c)) in let c' := ready k r c in
  c_link c' = c_link c /\ c_conns c' = c_conns c /\ c_version c' = c_version c /\
  l_conn (the_link c' l) = k /\ isStopping l c' = false /\ l_outboundMax (the_link c' l) = cr_MaximumPacketSize r /\
  l_quotaGen (the_link c' l) = qgen (c_quota c') /\ l_idGen (the_link c' l) = gen (c_ids c') /\
  c_store c' = c_store (applySession r c) /\ c_quota c' = c_quota (applySession r c).
Proof.
  intros l c'. subst c'. unfold ready, captureGenerations. fold l. set (c1 := set_links _ c).
  destruct (applySession_net r c1) as (H1 & H2 & H3 & H4).
  assert (Hlk : the_link (applySession r c1) l = newLink k r c).
  { unfold the_link. rewrite H1. unfold c1. csimp. by rewrite lookup_total_insert_eq. }
  unfold isStopping, the_link at 1 2 3 4 5. unfold upd_link. csimp. rewrite lookup_total_insert_eq, Hlk. csimp.
  split_and!; try done; unfold applySession, c1; by destruct (resetsSession _ _).
Qed.

Definition finish (l : nat) (now : Z) (r : ConnectResult) : cmd St (option goerror * list await_pc) :=
  _ ← replaySession l;
  awaiting ← replaySubscriptions l;
  stopping ← gets (isStopping l);
  if (stopping : bool) then mret (Some [ErrConnectionLost], awaiting)
  else
    _ ← upd (fun c => set_connectedAt (Some now) (set_link (Some l) (set_result (Some r) c)));
    mret (None, awaiting).

Lemma establish_eq k now ack c : establish k now ack c =
  finish (fresh (dom (c_links c))) now (buildConnectResult ack) (ready k (buildConnectResult ack) c).
Proof. done. Qed.

Lemma establish_writes k now ack c aw c' : c_link c = None -> store_ok (c_store c) ->
  establish k now ack c = ((None, aw), c') ->
  let r := buildConnectResult ack in
  let l := fresh (dom (c_links c)) in
  c_link c' = Some l /\ isStopping l c' = false /\ c_result c' = Some r /\ same_link l (ready k r c) c' /\
  exists rest, cn_w (c_conns c' !!! k) =
    cn_w (c_conns c !!! k) ++ replay_frames (c_version c) (cr_MaximumPacketSize r) (kept r c) ++ rest.
Proof.
  intros Hnone Hok. rewrite establish_eq.
  set (r := buildConnectResult ack). set (l := fresh (dom (c_links c))).
  destruct (ready_spec k r c) as (R1 & R2 & R3 & R4 & R5 & R6 & R7 & R8 & R9 & R10).
  fold l in R4, R5, R6, R7, R8. set (c1 := ready k r c) in *. unfold finish, replaySession. rewrite !cmd_bind_eq. unfold gets.
  rewrite R9, applySession_All by done.
  destruct (replaySession_loop_progress l (kept r c) c1) as [P1 W1]; [congruence|].
  destruct (replaySession_loop l (kept r c) c1) as [[] c2]. cbn [snd] in *.
  rewrite cmd_bind_eq. unfold replaySubscriptions. rewrite cmd_bind_eq. unfold gets.
  destruct (replaySubscriptions_loop_extends l (subs (c_table c2)) c2) as [P2 W2]; [rewrite (pg_link _ _ _ P1); congruence|].
  destruct (replaySubscriptions_loop l (subs (c_table c2)) c2) as [aw' c3]. cbn [snd] in *. rewrite cmd_bind_eq.
  destruct (isStopping l c3) eqn:Hst; [done|]. rewrite cmd_bind_eq. intros [= <- <-]. csimp.
  assert (P : progress l c1 c3) by (by etrans).
  split_and!; [done|exact Hst|done|exact (pg_same _ _ _ P)|].
  destruct (W2 eq_refl) as [rest Hw]. exists rest.
  destruct (isStopping l c2) eqn:Hst2; [by rewrite (pg_stop _ _ _ P2) in Hst|]. specialize (W1 eq_refl).
  rewrite W1 in Hw. unfold written, the_conn in Hw. destruct (pg_same _ _ _ P) as (Hk & _).
  rewrite Hk, R4, R2, R3, R6, <- app_assoc in Hw. exact Hw.
Qed.

Lemma finish_failed l now r c err aw c' : c_link c <> Some l -> finish l now r c = ((Some err, aw), c') ->
  progress l c c' /\ isStopping l c' = true /\ err = [ErrConnectionLost].
Proof.
  intros Hl. unfold finish. rewrite cmd_bind_eq.
  assert (P1 : progress l c (replaySession l c).2).
  { unfold replaySession. rewrite cmd_bind_eq. unfold gets. destruct (All (c_store c)); [|done].
    by apply replaySession_loop_progress. }
  destruct (replaySession l c) as [[] c1]. cbn [snd] in P1. rewrite cmd_bind_eq. unfold replaySubscriptions.
  rewrite cmd_bind_eq. unfold gets.
  destruct (replaySubscriptions_loop_extends l (subs (c_table c1)) c1) as [P2 _]; [by rewrite (pg_link _ _ _ P1)|].
  destruct (replaySubscriptions_loop l (subs (c_table c1)) c1) as [aw' c2]. cbn [snd] in P2. rewrite cmd_bind_eq.
  destruct (isStopping l c2) eqn:Hst; [|rewrite cmd_bind_eq; done]. intros [= <- <- <-].
  split_and!; [by etrans|done..].
Qed.

Lemma ready_fields k r c : c_table (ready k r c) = c_table c /\ c_result (ready k r c) = c_result c.
Proof. unfold ready, captureGenerations, applySession. by destruct (resetsSession _ _). Qed.

Lemma establish_failed k now ack c err aw c' : c_link c = None -> establish k now ack c = ((Some err, aw), c') ->
  c_link c' = None /\ c_result c' = c_result c /\ c_table c' = c_table c /\ shut k c' /\
  (forall k', k' <> k -> c_conns c !! k' = None -> c_conns c' !! k' = None) /\ err = [ErrConnectionLost].
Proof.
  intros Hnone. rewrite establish_eq. set (r := buildConnectResult ack). set (l := fresh (dom (c_links c))).
  destruct (ready_spec k r c) as (R1 & R2 & R3 & R4 & R5 & R6 & R7 & R8 & R9 & R10). fold l in R4, R5.
  destruct (ready_fields k r c) as [F1 F2].
  intros (P & Hst & ->)%finish_failed; [|congruence].
  pose proof (pg_closed _ _ _ P ltac:(congruence) Hst) as Hcl. destruct (pg_same _ _ _ P) as (Hk & _).
  unfold the_conn in Hcl. rewrite Hk, R4 in Hcl.
  split_and!; [rewrite (pg_link _ _ _ P); congruence|rewrite (pg_result _ _ _ P); done|rewrite (pg_table _ _ _ P); done|
    exact Hcl| |done].
  intros k' Hne Hk'. apply (pg_conns _ _ _ P); congruence.
Qed.

(** A connect that breaks during the replay has not been seen by anybody: no
    loss is signalled and the re-seeded quota is not failed. *)
Lemma establish_failed_unseen k now ack c err aw c' : c_link c = None -> establish k now ack c = ((Some err, aw), c') ->
  c_quota c' = c_quota (applySession (buildConnectResult ack) c) /\ c_lostCh c' = c_lostCh c.
Proof.
  intros Hnone. rewrite establish_eq. set (r := buildConnectResult ack). set (l := fresh (dom (c_links c))).
  destruct (ready_spec k r c) as (R1 & _ & _ & _ & _ & _ & _ & _ & _ & R10).
  intros (P & _ & _)%finish_failed; [|congruence]. destruct (pg_unseen _ _ _ P) as [Hq Hl]. split; [congruence|].
  rewrite Hl. unfold ready, captureGenerations, applySession. by destruct (resetsSession _ _).
Qed.

End established.

(** C16.  A connect that fails leaves the client as it was.  It publishes neither a
    link nor negotiated limits, keeps the registered subscriptions and closes
    every socket it opened; unless the connection broke while the session was
    being replayed, the stored session, the identifiers, the quota and the
    waiters are untouched. *)
Theorem failed_connect_keeps_session {St} {HS : SessionStore St} {HL : SessionStoreLaws St} {HC : ContainsStore St}
    {HR : ReliableStore St} {HE : Environment St} (c c' : client St) (d : dialling) (err : goerror) (aw : list await_pc) :
  client_Connect d c = ((Some err, aw), c') ->
  c_link c' = c_link c /\ c_result c' = c_result c /\ c_table c' = c_table c /\
  (forall k, c_conns c !! k = None -> cn_closed (c_conns c' !!! k) = true) /\
  (c_store c' = c_store c /\ c_ids c' = c_ids c /\ c_quota c' = c_quota c /\ c_waiters c' = c_waiters c \/
   err = [ErrConnectionLost]).
Proof.
  assert (Hnew : forall k, c_conns c !! k = None -> cn_closed (c_conns c !!! k) = true)
    by (intros k Hk; by rewrite lookup_total_alt, Hk).
  unfold client_Connect. rewrite cmd_bind_eq. unfold gets. destruct (c_link c) eqn:Hl.
  { intros [= <- <- <-]. rewrite Hl. split_and!; auto. }
  destruct (d_url d); [intros [= <- <- <-]; split_and!; auto|]. rewrite cmd_bind_eq.
  destruct (validWill c); [|intros [= <- <- <-]; split_and!; auto].
  destruct (d_dial d); [intros [= <- <- <-]; split_and!; auto|]. rewrite !cmd_bind_eq. unfold upd.
  set (k := fresh (dom (c_conns c))). set (c0 := set_conns (<[k := _]> _) c). rewrite cmd_bind_eq.
  assert (Hc0 : forall k', k' <> k -> c_conns c0 !! k' = c_conns c !! k') by (intros; by apply lookup_insert_ne).
  pose proof (handshake_settled d k c0) as [[Heq Hdel] Hshut]. destruct (handshake d k c0) as [[e|ack] c1]; cbn [fst snd] in *.
  - intros [= -> <- <-]. specialize (Hshut _ eq_refl). rewrite Heq. csimp. split_and!; auto.
    intros k' Hk'. destruct (decide (k' = k)) as [->|Hne]; [done|].
    rewrite lookup_total_alt, <- (lookup_delete_ne _ k), Hdel, lookup_delete_ne, Hc0, Hk' by done. done.
  - intros (H1 & H2 & H3 & H4 & H5 & H6)%establish_failed; [|by rewrite Heq].
    rewrite Heq in H2, H3. split_and!; auto. intros k' Hk'. destruct (decide (k' = k)) as [->|Hne]; [done|].
    rewrite lookup_total_alt, H5; [done|done|].
    by rewrite <- (lookup_delete_ne _ k), Hdel, lookup_delete_ne, Hc0 by done.
Qed.

(** The broker answers with a CONNACK that refuses the connection. *)
Lemma failed_connect_keeps_session_witness :
  let c := NewTCPClient demo_cfg in
  let c' := (client_Connect (demo_dial [0x20; 3; 0; 0x87; 0]) c).2 in
  c_link c' = c_link c /\ cn_closed (c_conns c' !!! 0%nat) = true.
Proof.
  intros c c'.
  destruct (failed_connect_keeps_session c c' (demo_dial [0x20; 3; 0; 0x87; 0])
    [ReasonErr (mkReasonError "CONNECT" 0x87 EmptyString)] []) as (H1 & _ & _ & H2 & _); [vm_compute; reflexivity|].
  split; [exact H1|]. apply H2. reflexivity.
Defined.


(** One QoS 1 publish in flight when the connection drops; a new socket. *)
Definition demo_lost : client memStore :=
  set_conns {[ 1%nat := mkConn [] [] false ]} (teardownLink 0 false (publishAcked 0 demo_pkt (replicate 5 Run) demo).2).

Lemma demo_lost_ok : store_ok (c_store demo_lost).
Proof.
  replace (c_store demo_lost)
    with (memStore_Save (mkStored (Some (with_PacketID 1 demo_pkt)) 0 1 StoredPublish) newMemStore)
    by (vm_compute; reflexivity).
  apply wf_Save; [exact wf_newMemStore|by_decide].
Qed.

