(* ===== verification/Teardown.v ===== *)
(** The order of a teardown (teardownLink in adapter_tcp.go).  Tearing a link down
    poisons the shared session state before it clears the link pointer, so that a
    connect, which waits for the pointer to be cleared, never has its fresh
    session poisoned.  Here the statements of a teardown are steps of their own,
    interleaved with other teardowns, with connects and with everything else. *)

From S2P Require Import Prelude GoStrings Codes Wire WireFacts Props PropsFacts PublishPackets ControlPackets.
From S2P Require Import SubscribePackets Topic SessionStore Errors IdAllocator Quota Subscriptions Lifecycle.
From S2P Require Import Client Pump Requests Connection ClientFacts SessionFacts.
From stdpp Require Import options.

(** * The goroutines *)

(** [teardownLink(l, graceful)], statement by statement.  [closeOnce] lets the
    caller that closes [l.stop] go on and the others return when it is done. *)
Inductive down_pc : Type :=
| DClose (l : nat) (g : bool)
| DConn (l : nat) (g : bool)
| DCheck (l : nat) (g : bool)
| DWaiters (l : nat) (g : bool)
| DQuota (l : nat) (g : bool)
| DClear (l : nat) (g : bool)
| DLost (g : bool)
| DDone.

(** A connect after its handshake: the session is applied, then replayed, then
    the link is published. *)
Inductive join_pc : Type :=
| JIdle
| JApply (l : nat) (r : ConnectResult)
| JReplay (l : nat) (r : ConnectResult).

Section teardown.
Context {St : Type} {HS : SessionStore St} {HC : ContainsStore St} {HE : Environment St}.
Implicit Types c : client St.

Definition down_step (pc : down_pc) : cmd St down_pc := fun c =>
  match pc with
  | DClose l g => if isStopping l c then (DDone, c) else (DConn l g, upd_link l (set_l_stop true) c)
  | DConn l g => (DCheck l g, upd_conn (l_conn (the_link c l)) (set_cn_closed true) c)
  | DCheck l g => (if bool_decide (c_link c = Some l) then DWaiters l g else DDone, c)
  | DWaiters l g => (DQuota l g, failAllWaiters c)
  | DQuota l g => (DClear l g, set_quota (quota_fail (c_quota c)) c)
  | DClear l g => (DLost g, set_link None c)
  | DLost g => (DDone, if g then c else set_lostCh true c)
  | DDone => (DDone, c)
  end.

Record tearing : Type := mkTearing { t_c : client St; t_downs : list down_pc; t_join : join_pc }.

Definition joining (pc : join_pc) : option nat :=
  match pc with JIdle => None | JApply l _ | JReplay l _ => Some l end.

(** What happens elsewhere: the current link, the torn down links and the state of
    the quota, failed or not, stay as they are. *)
Definition elsewhere c c' : Prop :=
  c_link c' = c_link c /\ failed (c_quota c') = failed (c_quota c) /\
  forall l, isStopping l c' = isStopping l c /\ (is_Some (c_links c !! l) -> is_Some (c_links c' !! l)).

(** A teardown may start on any link except the one a connect is setting up, which
    only the connect itself uses. *)
Inductive tear : tearing -> tearing -> Prop :=
| tear_start c ds j l g : joining j <> Some l -> is_Some (c_links c !! l) ->
    tear (mkTearing c ds j) (mkTearing c (ds ++ [DClose l g]) j)
| tear_step c ds1 pc ds2 j pc' c' : down_step pc c = (pc', c') ->
    tear (mkTearing c (ds1 ++ pc :: ds2) j) (mkTearing c' (ds1 ++ pc' :: ds2) j)
| tear_other c ds j c' : elsewhere c c' -> tear (mkTearing c ds j) (mkTearing c' ds j)
| tear_connect c ds k r l : c_link c = None -> l = fresh (dom (c_links c)) ->
    tear (mkTearing c ds JIdle) (mkTearing (set_links (<[l := newLink k r c]> (c_links c)) c) ds (JApply l r))
| tear_apply c ds l r :
    tear (mkTearing c ds (JApply l r)) (mkTearing (captureGenerations l (applySession r c)) ds (JReplay l r))
| tear_replay c ds l r encode :
    tear (mkTearing c ds (JReplay l r)) (mkTearing (writeFrame (Some l) encode c).2 ds (JReplay l r))
| tear_failed c ds l r : isStopping l c = true ->
    tear (mkTearing c ds (JReplay l r)) (mkTearing c ds JIdle)
| tear_publish c ds l r now : isStopping l c = false ->
    tear (mkTearing c ds (JReplay l r))
      (mkTearing (set_connectedAt (Some now) (set_link (Some l) (set_result (Some r) c))) ds JIdle).

(** The steps in a row are the function. *)
Lemma down_steps l g c : exists n,
  Nat.iter n (fun '(pc, c) => down_step pc c) (DClose l g, c) = (DDone, teardownLink l g c).
Proof.
  unfold teardownLink. destruct (isStopping l c) eqn:E.
  - exists 1%nat. simpl. by rewrite E.
  - set (c1 := upd_link l (set_l_stop true) c). set (c2 := upd_conn (l_conn (the_link c1 l)) (set_cn_closed true) c1).
    assert (H0 : down_step (DClose l g) c = (DConn l g, c1)) by (simpl; by rewrite E).
    assert (H1 : down_step (DConn l g) c1 = (DCheck l g, c2)) by done.
    destruct (decide (c_link c2 = Some l)) as [Hl|Hl].
    + rewrite bool_decide_true by done. exists 7%nat. rewrite !Nat.iter_succ_r. rewrite H0, H1.
      cbn [Nat.iter down_step]. rewrite bool_decide_true by done. cbn [down_step negb]. by destruct g.
    + rewrite bool_decide_false by done. exists 3%nat. rewrite !Nat.iter_succ_r, H0, H1.
      cbn [Nat.iter down_step]. by rewrite bool_decide_false by done.
Qed.
End teardown.
Arguments tearing : clear implicits.

(** * The invariant *)

Section invariant.
Context {St : Type} {HS : SessionStore St} {HC : ContainsStore St} {HE : Environment St}.
Implicit Types c : client St.

(** The link a teardown has stopped and not released yet, and whether it has
    found it to be current. *)
Definition down_link (pc : down_pc) : option nat :=
  match pc with DConn l _ | DCheck l _ | DWaiters l _ | DQuota l _ | DClear l _ => Some l | _ => None end.
Definition down_current (pc : down_pc) : option nat :=
  match pc with DWaiters l _ | DQuota l _ | DClear l _ => Some l | _ => None end.
(** The links a teardown was started on exist. *)
Definition down_target (pc : down_pc) : option nat :=
  match pc with DClose l _ => Some l | pc => down_link pc end.

Record sound (s : tearing St) : Prop := {
  sd_stop pc l : pc ∈ t_downs s -> down_link pc = Some l -> isStopping l (t_c s) = true;
  sd_current pc l : pc ∈ t_downs s -> down_current pc = Some l -> c_link (t_c s) = Some l;
  sd_target pc l : pc ∈ t_downs s -> down_target pc = Some l -> is_Some (c_links (t_c s) !! l) /\ joining (t_join s) <> Some l;
  sd_dead l : c_link (t_c s) = Some l -> isStopping l (t_c s) = true -> exists pc, pc ∈ t_downs s /\ down_link pc = Some l;
  sd_failed l : c_link (t_c s) = Some l -> failed (c_quota (t_c s)) = true -> isStopping l (t_c s) = true;
  sd_link l : c_link (t_c s) = Some l -> is_Some (c_links (t_c s) !! l) /\ t_join s = JIdle;
  sd_replay l r : t_join s = JReplay l r -> failed (c_quota (t_c s)) = false;
  sd_join l : joining (t_join s) = Some l -> is_Some (c_links (t_c s) !! l);
  sd_once : NoDup (omap down_link (t_downs s))
}.

Lemma upd_link_stops l c l' : isStopping l' (upd_link l (set_l_stop true) c) = true <-> l = l' \/ isStopping l' c = true.
Proof. unfold isStopping. rewrite the_link_upd. case_decide; [subst; split; [by left|done]|naive_solver]. Qed.

Lemma upd_link_exists l f c l' : is_Some (c_links c !! l') -> is_Some (c_links (upd_link l f c) !! l').
Proof. unfold upd_link. csimp. destruct (decide (l = l')) as [->|?]; [by rewrite lookup_insert_eq|by rewrite lookup_insert_ne]. Qed.

(** Steps that leave the current link, the stopped links and the quota alone. *)
Lemma sound_elsewhere c c' ds j : elsewhere c c' -> sound (mkTearing c ds j) -> sound (mkTearing c' ds j).
Proof.
  intros (Hl & Hf & Hs) [H1 H2 H3 H4 H5 H6 H7 H8 H9]. simpl in *. split; simpl; rewrite ?Hl, ?Hf; try done.
  - intros pc l Hin Hd. rewrite (proj1 (Hs l)). eauto.
  - intros pc l Hin Hd. destruct (H3 pc l Hin Hd) as [He Hj]. split; [by apply Hs|done].
  - intros l Hc. rewrite (proj1 (Hs l)). eauto.
  - intros l Hc Hq. rewrite (proj1 (Hs l)). eauto.
  - intros l Hc. destruct (H6 l Hc) as [He Hj]. split; [by apply Hs|done].
  - intros l Hj. by apply Hs, H8.
Qed.

(** A teardown whose next step is local to it. *)
Lemma sound_move c ds1 pc ds2 j pc' : sound (mkTearing c (ds1 ++ pc :: ds2) j) ->
  (down_link pc' = down_link pc \/ down_link pc' = None /\ forall l, down_link pc = Some l -> c_link c <> Some l) ->
  (forall l, down_current pc' = Some l -> c_link c = Some l) ->
  (down_target pc' = down_target pc \/ down_target pc' = None) ->
  sound (mkTearing c (ds1 ++ pc' :: ds2) j).
Proof.
  intros [H1 H2 H3 H4 H5 H6 H7 H8 H9] Hd Hc Ht. simpl in *.
  assert (Hin : forall q, q ∈ ds1 ++ pc' :: ds2 -> q = pc' \/ q ∈ ds1 ++ pc :: ds2) by set_solver.
  assert (Hpc : pc ∈ ds1 ++ pc :: ds2) by set_solver.
  split; simpl; try done.
  - intros q l [->|Hq]%Hin Hl; [|by eapply H1]. destruct Hd as [Hd|[Hd _]]; [|congruence]. apply (H1 pc); [done|congruence].
  - intros q l [->|Hq]%Hin Hl; [by apply Hc|by eapply H2].
  - intros q l [->|Hq]%Hin Hl; [|by eapply H3]. destruct Ht as [Ht|Ht]; [|congruence]. apply (H3 pc); [done|congruence].
  - intros l Hl Hs. destruct (H4 l Hl Hs) as (q & Hq & Hql). apply elem_of_app in Hq as [Hq|[->|Hq]%elem_of_cons].
    + exists q. set_solver.
    + exists pc'. split; [set_solver|]. destruct Hd as [Hd|[_ Hd]]; [congruence|]. by destruct (Hd l).
    + exists q. set_solver.
  - rewrite omap_app in *. simpl in *. destruct Hd as [Hd|[Hd _]]; rewrite Hd; [done|].
    destruct (down_link pc) as [l|]; [|done]. apply NoDup_app in H9 as (N1 & N2 & N3). apply NoDup_cons in N3 as [_ N3].
    apply NoDup_app. split_and!; [done| |done]. set_solver.
Qed.

Lemma sound_close c ds1 l g ds2 j : sound (mkTearing c (ds1 ++ DClose l g :: ds2) j) -> isStopping l c = false ->
  sound (mkTearing (upd_link l (set_l_stop true) c) (ds1 ++ DConn l g :: ds2) j).
Proof.
  intros [H1 H2 H3 H4 H5 H6 H7 H8 H9] Hns. simpl in *.
  assert (Hin : forall q, q ∈ ds1 ++ DConn l g :: ds2 -> q = DConn l g \/ q ∈ ds1 ++ DClose l g :: ds2) by set_solver.
  assert (Hpc : DClose l g ∈ ds1 ++ DClose l g :: ds2) by set_solver.
  split; simpl; try done.
  - intros q l' [->|Hq]%Hin Hl; apply upd_link_stops; [left; by injection Hl|right; by eapply H1].
  - intros q l' [->|Hq]%Hin Hl; [done|by eapply H2].
  - intros q l' [->|Hq]%Hin Hl; [|destruct (H3 q l' Hq Hl) as [? ?]]; (split; [apply upd_link_exists|]); try done.
    all: injection Hl as <-; by apply (H3 (DClose l g)).
  - intros l' Hl [->|Hs]%upd_link_stops; [exists (DConn l' g); set_solver|].
    destruct (H4 l' Hl Hs) as (q & Hq & Hql). exists q. split; [|done].
    apply elem_of_app in Hq as [Hq|[->|Hq]%elem_of_cons]; [set_solver|done|set_solver].
  - intros l' Hl Hf. apply upd_link_stops. right. eauto.
  - intros l' Hl. destruct (H6 l' Hl). split; [by apply upd_link_exists|done].
  - intros l' Hl. by apply upd_link_exists, H8.
  - rewrite omap_app in *. simpl in *.
    assert (Hnew : forall q, q ∈ ds1 ++ DClose l g :: ds2 -> down_link q <> Some l).
    { intros q Hq Hql. rewrite (H1 q l Hq Hql) in Hns. done. }
    apply NoDup_app in H9 as (N1 & N2 & N3). apply NoDup_app. split_and!; [done| |apply NoDup_cons; split; [|done]].
    + intros x Hx. apply not_elem_of_cons. split; [|by apply N2]. intros ->.
      apply list_elem_of_omap in Hx as (q & Hq & Hql). apply (Hnew q); [set_solver|done].
    + intros Hx. apply list_elem_of_omap in Hx as (q & Hq & Hql). apply (Hnew q); [set_solver|done].
Qed.
Lemma sound_fail c ds1 l g ds2 j : sound (mkTearing c (ds1 ++ DQuota l g :: ds2) j) ->
  sound (mkTearing (set_quota (quota_fail (c_quota c)) c) (ds1 ++ DClear l g :: ds2) j).
Proof.
  intros Hs. pose proof Hs as [H1 H2 H3 H4 H5 H6 H7 H8 H9]. simpl in *.
  assert (Hpc : DQuota l g ∈ ds1 ++ DQuota l g :: ds2) by set_solver.
  pose proof (H2 _ l Hpc eq_refl) as Hcur. pose proof (H1 _ l Hpc eq_refl) as Hst.
  apply (sound_move _ _ (DQuota l g)); [|by left|by intros l' [= <-]|by left].
  split; simpl; try done.
  - intros l' Hl _. replace l' with l by congruence. done.
  - intros l' r Hj. destruct (H6 l Hcur) as [_ ?]. congruence.
Qed.

Lemma sound_clear c ds1 l g ds2 j : sound (mkTearing c (ds1 ++ DClear l g :: ds2) j) ->
  sound (mkTearing (set_link None c) (ds1 ++ DLost g :: ds2) j).
Proof.
  intros [H1 H2 H3 H4 H5 H6 H7 H8 H9]. simpl in *.
  assert (Hin : forall q, q ∈ ds1 ++ DLost g :: ds2 -> q = DLost g \/ q ∈ ds1 ++ ds2) by set_solver.
  assert (Hcur : c_link c = Some l) by (apply (H2 (DClear l g)); [set_solver|done]).
  rewrite omap_app in H9. simpl in H9. apply NoDup_app in H9 as (N1 & N2 & [N3 N4]%NoDup_cons).
  assert (Hnot : forall q, q ∈ ds1 ++ ds2 -> down_link q <> Some l).
  { intros q [Hq|Hq]%elem_of_app Hql.
    - apply (N2 l); [apply list_elem_of_omap; eauto|set_solver].
    - apply N3. apply list_elem_of_omap. eauto. }
  split; simpl; try done.
  - intros q l' [->|Hq]%Hin Hl; [done|]. apply (H1 q); [set_solver|done].
  - intros q l' [->|Hq]%Hin Hl; [done|]. exfalso. assert (c_link c = Some l') by (apply (H2 q); [set_solver|done]).
    apply (Hnot q Hq). destruct q; simpl in *; congruence.
  - intros q l' [->|Hq]%Hin Hl; [done|]. apply (H3 q); [set_solver|done].
  - rewrite omap_app. simpl. apply NoDup_app. split_and!; [done|set_solver|done].
Qed.

Lemma sound_down c ds1 pc ds2 j pc' c' : down_step pc c = (pc', c') ->
  sound (mkTearing c (ds1 ++ pc :: ds2) j) -> sound (mkTearing c' (ds1 ++ pc' :: ds2) j).
Proof.
  intros Hd Hs. assert (Hpc : pc ∈ ds1 ++ pc :: ds2) by set_solver. pose proof Hs as [_ H2 _ _ _ _ _ _ _]. simpl in H2.
  specialize (H2 pc). destruct pc as [l g|l g|l g|l g|l g|l g|g|]; simpl in Hd.
  - destruct (isStopping l c) eqn:E; injection Hd as <- <-; [|by apply sound_close].
    apply (sound_move _ _ (DClose l g)); [done|by left|done|by right].
  - injection Hd as <- <-. apply (sound_move _ _ (DConn l g)); [|by left|done|by left].
    eapply sound_elsewhere; [|exact Hs]. done.
  - destruct (bool_decide (c_link c = Some l)) eqn:E; injection Hd as <- <-.
    + apply bool_decide_eq_true in E. apply (sound_move _ _ (DCheck l g)); [done|by left|by intros l' [= <-]|by left].
    + apply bool_decide_eq_false in E. apply (sound_move _ _ (DCheck l g)); [done| |done|by right].
      right. split; [done|]. by intros l' [= <-].
  - injection Hd as <- <-. apply (sound_move _ _ (DWaiters l g)); [|by left| |by left].
    + eapply sound_elsewhere; [|exact Hs]. done.
    + intros l' [= <-]. exact (H2 l Hpc eq_refl).
  - injection Hd as <- <-. by apply sound_fail.
  - injection Hd as <- <-. by eapply sound_clear.
  - injection Hd as <- <-. apply (sound_move _ _ (DLost g)); [|by left|done|by left].
    eapply sound_elsewhere; [|exact Hs]. by destruct g.
  - by injection Hd as <- <-.
Qed.

(** ** The connect *)

Lemma sound_connect c ds k r : c_link c = None -> sound (mkTearing c ds JIdle) ->
  let l := fresh (dom (c_links c)) in
  sound (mkTearing (set_links (<[l := newLink k r c]> (c_links c)) c) ds (JApply l r)).
Proof.
  intros Hn [H1 H2 H3 H4 H5 H6 H7 H8 H9] l. simpl in *.
  assert (Hl : c_links c !! l = None) by (apply not_elem_of_dom, is_fresh).
  assert (Hne : forall pc l', pc ∈ ds -> down_target pc = Some l' -> l <> l').
  { intros pc l' Hin Ht ->. destruct (H3 pc l' Hin Ht) as [[x Hx] _]. congruence. }
  assert (Htl : forall pc l', down_link pc = Some l' -> down_target pc = Some l') by (by intros []).
  split; simpl; rewrite ?Hn; try done.
  - intros pc l' Hin Hd. unfold isStopping, the_link. csimp. rewrite lookup_total_insert_ne by (eapply Hne; eauto). by eapply H1.
  - intros pc l' Hin Hd. destruct (H2 pc l' Hin Hd). congruence.
  - intros pc l' Hin Ht. pose proof (Hne pc l' Hin Ht). rewrite lookup_insert_ne by done. split; [by eapply H3|congruence].
  - intros l' [= <-]. by rewrite lookup_insert_eq.
Qed.

Lemma sound_apply c ds l r : sound (mkTearing c ds (JApply l r)) ->
  sound (mkTearing (captureGenerations l (applySession r c)) ds (JReplay l r)).
Proof.
  intros [H1 H2 H3 H4 H5 H6 H7 H8 H9]. simpl in *. destruct (applySession_net r c) as (A1 & A2 & A3 & A4).
  assert (Hn : c_link c = None) by (destruct (c_link c) as [l'|] eqn:E; [by destruct (H6 l' eq_refl)|done]).
  set (c' := captureGenerations l (applySession r c)).
  assert (Hs : forall l', isStopping l' c' = isStopping l' c).
  { intros l'. unfold isStopping, c', captureGenerations. rewrite the_link_upd. unfold the_link. rewrite A1.
    by case_decide; subst. }
  assert (He : forall l', is_Some (c_links c !! l') -> is_Some (c_links c' !! l')).
  { intros l' Hl. apply upd_link_exists. by rewrite A1. }
  assert (Hl : c_link c' = None) by (by rewrite <- Hn, <- A3).
  assert (Hf : failed (c_quota c') = false).
  { change (failed (c_quota (applySession r c)) = false). unfold applySession. by destruct (resetsSession r c). }
  clearbody c'. split; simpl; rewrite ?Hl; try done.
  - intros pc l' Hin Hd. rewrite Hs. eauto.
  - intros pc l' Hin Hd. specialize (H2 pc l' Hin Hd). congruence.
  - intros pc l' Hin Ht. destruct (H3 pc l' Hin Ht). auto.
  - auto.
Qed.

Lemma writeFrame_aside l encode c : c_link c <> Some l -> let c' := (writeFrame (Some l) encode c).2 in
  c_link c' = c_link c /\ c_quota c' = c_quota c /\
  forall l', (l' <> l -> isStopping l' c' = isStopping l' c) /\ (is_Some (c_links c !! l') -> is_Some (c_links c' !! l')).
Proof.
  intros Hl. simpl. destruct (encode []); [|done]. rewrite cmd_bind_eq. unfold gets.
  destruct (negb _ && _); [done|]. rewrite !cmd_bind_eq. unfold conn_write. destruct (negb _ && _); simpl; [done|].
  set (g := l_graceful _). destruct (teardown_other l g c Hl) as (T1 & T2 & _). split_and!; [done|done|].
  intros l'. destruct (isStopping l c) eqn:E; [by rewrite teardown_idem|].
  destruct (teardown_links l g c E) as [T _]. unfold isStopping, the_link. rewrite T. split.
  - intros Hne. by rewrite lookup_total_insert_ne.
  - intros He. destruct (decide (l = l')) as [->|?]; [by rewrite lookup_insert_eq|by rewrite lookup_insert_ne].
Qed.

Lemma sound_replay c ds l r encode : sound (mkTearing c ds (JReplay l r)) ->
  sound (mkTearing (writeFrame (Some l) encode c).2 ds (JReplay l r)).
Proof.
  pose proof (writeFrame_aside l encode c) as HW. cbv zeta in HW. set (c' := (writeFrame _ _ _).2) in *. clearbody c'.
  intros [H1 H2 H3 H4 H5 H6 H7 H8 H9]. simpl in *.
  assert (Hn : c_link c = None) by (destruct (c_link c) as [l'|] eqn:E; [by destruct (H6 l' eq_refl)|done]).
  destruct (HW ltac:(congruence)) as (W1 & W2 & W3). rewrite Hn in W1.
  assert (Htl : forall pc l', down_link pc = Some l' -> down_target pc = Some l') by (by intros []).
  split; simpl; rewrite ?W1, ?W2; try done.
  - intros pc l' Hin Hd. destruct (H3 pc l' Hin (Htl _ _ Hd)) as [_ Hne]. rewrite (proj1 (W3 l')) by congruence. eauto.
  - intros pc l' Hin Hd. specialize (H2 pc l' Hin Hd). congruence.
  - intros pc l' Hin Ht. destruct (H3 pc l' Hin Ht). split; [by apply W3|done].
  - intros l' Hj. by apply W3, H8.
Qed.

Lemma sound_publish c ds l r now : isStopping l c = false -> sound (mkTearing c ds (JReplay l r)) ->
  sound (mkTearing (set_connectedAt (Some now) (set_link (Some l) (set_result (Some r) c))) ds JIdle).
Proof.
  intros Hs [H1 H2 H3 H4 H5 H6 H7 H8 H9]. simpl in *. split; simpl; try done.
  - intros pc l' Hin Hd. by destruct (H6 l' (H2 pc l' Hin Hd)).
  - intros pc l' Hin Ht. split; [by eapply H3|done].
  - intros l' [= <-] Hst. change (isStopping l c = true) in Hst. congruence.
  - intros l' [= <-] Hf. rewrite (H7 l r eq_refl) in Hf. done.
  - intros l' [= <-]. split; [by apply H8|done].
Qed.

Lemma sound_tear s s' : tear s s' -> sound s -> sound s'.
Proof.
  intros Ht Hs. destruct Ht as [c ds j l g Hj Hl|c ds1 pc ds2 j pc' c' Hd|c ds j c' He|c ds k r l Hn ->|c ds l r
    |c ds l r encode|c ds l r Hst|c ds l r now Hst].
  - destruct Hs as [H1 H2 H3 H4 H5 H6 H7 H8 H9]. simpl in *.
    assert (Hin : forall q, q ∈ ds ++ [DClose l g] -> q = DClose l g \/ q ∈ ds) by set_solver.
    split; simpl; try done.
    + intros q l' [->|Hq]%Hin Hd; [done|by eapply H1].
    + intros q l' [->|Hq]%Hin Hd; [done|by eapply H2].
    + intros q l' [->|Hq]%Hin Hd; [by injection Hd as <-|by eapply H3].
    + intros l' Hc Hst. destruct (H4 l' Hc Hst) as (q & Hq & ?). exists q. set_solver.
    + rewrite omap_app. simpl. by rewrite app_nil_r.
  - by eapply sound_down.
  - by eapply sound_elsewhere.
  - by apply sound_connect.
  - by apply sound_apply.
  - by apply sound_replay.
  - destruct Hs as [H1 H2 H3 H4 H5 H6 H7 H8 H9]. split; simpl in *; try done.
    + intros q l' Hq Hd. split; [by eapply H3|done].
    + intros l' Hc. by destruct (H6 l' Hc).
  - by eapply sound_publish.
Qed.
End invariant.

(** * Theorem *)

(** C11.  A teardown never poisons its successor.  Whatever teardowns, started on
    any links by any goroutines, interleave statement by statement with connects:
    a link that is current and has not been torn down always has a working quota;
    waiters and quota are failed only by a teardown of the link that is current
    then; and when every teardown has run to its end, the current link, if there
    is one, is alive, so no dead link is left behind that a connect would take
    for an established session. *)
Theorem teardown_spares_successor {St} {HS : SessionStore St} {HC : ContainsStore St} {HE : Environment St}
    (c : client St) (s : tearing St) :
  c_link c = None -> rtc tear (mkTearing c [] JIdle) s ->
  (forall l, c_link (t_c s) = Some l -> isStopping l (t_c s) = false -> failed (c_quota (t_c s)) = false) /\
  (forall l g, DWaiters l g ∈ t_downs s \/ DQuota l g ∈ t_downs s ->
    c_link (t_c s) = Some l /\ isStopping l (t_c s) = true) /\
  (Forall (fun pc => pc = DDone) (t_downs s) -> forall l, c_link (t_c s) = Some l -> isStopping l (t_c s) = false).
Proof.
  intros Hn Hr. assert (Hs : sound s).
  { assert (H0 : sound (mkTearing c [] JIdle)).
    { split; simpl; try done; [intros ? ? []%not_elem_of_nil..|by rewrite Hn|by rewrite Hn|by rewrite Hn|constructor]. }
    revert H0. induction Hr as [|s1 s2 s3 Ht _ IH]; [done|]. intros H1. by eapply IH, sound_tear. }
  destruct Hs as [H1 H2 H3 H4 H5 H6 H7 H8 H9]. split_and!.
  - intros l Hl Hst. destruct (failed _) eqn:E; [|done]. by rewrite (H5 l Hl eq_refl) in Hst.
  - intros l g [Hin|Hin]; (split; [by eapply H2|by eapply H1]).
  - intros Hd l Hl. destruct (isStopping l (t_c s)) eqn:E; [|done]. destruct (H4 l Hl E) as (pc & Hin & Hpc).
    rewrite Forall_forall in Hd. by rewrite (Hd pc Hin) in Hpc.
Qed.

(** A connection torn down as far as its waiters. *)
Lemma demo_torn : exists s : tearing memStore,
  rtc tear (mkTearing (NewTCPClient demo_cfg) [] JIdle) s /\ t_downs s = [DWaiters 0 false].
Proof.
  eexists. split.
  - eapply rtc_l; [apply (tear_connect _ _ 0%nat (buildConnectResult (mkConnack true 0 None))); reflexivity|].
    eapply rtc_l; [apply tear_apply|].
    eapply rtc_l; [apply (tear_publish _ _ _ _ 5); vm_compute; reflexivity|].
    eapply rtc_l; [apply (tear_start _ _ _ 0%nat false); [done|vm_compute; by eexists]|].
    do 3 (eapply rtc_l; [eapply (tear_step _ [] _ []); vm_compute; reflexivity|]). apply rtc_refl.
  - reflexivity.
Qed.

Lemma teardown_spares_successor_witness : exists s : tearing memStore,
  t_downs s = [DWaiters 0 false] /\ c_link (t_c s) = Some 0%nat /\ isStopping 0 (t_c s) = true.
Proof.
  destruct demo_torn as (s & Hr & Hd). exists s. split; [exact Hd|].
  apply (proj1 (proj2 (teardown_spares_successor (NewTCPClient demo_cfg) s eq_refl Hr)) 0%nat false).
  left. rewrite Hd. apply list_elem_of_singleton. reflexivity.
Defined.
