(* ===== verification/Supervisor.v ===== *)
(** The lifecycle (lifecycle.go): [Start], [Stop], [OnConnect] and the reconnect
    loop of a [Lifecycle], as goroutines that drive a connector through its
    interface.

    A call of [Start] or [Stop] and a running loop are control points; a step runs
    one critical section, one call of the connector or one channel operation.
    The connector serialises its own calls, so each of them is one step. *)

From S2P Require Import Prelude Errors Lifecycle.
From stdpp Require Import options.

(** * The connector *)

(** [Connector] with the optional [ConnectionNotifier], and the application's
    callbacks.  [conn_Connect cancelled d] is a call whose context is over or not; [d]
    is what the network does meanwhile.  [conn_up] says whether a session is
    established.  [conn_ConnectionLost] tests and empties the notification channel. *)
Class Connector (C D : Type) : Type := {
  conn_Connect : bool -> D -> C -> option goerror * C;
  conn_Disconnect : C -> option goerror * C;
  conn_ConnectionLost : option ((C -> bool) * (C -> C));
  onConnect_callback : Z -> C -> C;
  conn_up : C -> bool
}.

(** What the lifecycle relies on.  A connector never establishes a session for a
    context that is over, refuses to connect twice, and is down after
    [conn_Disconnect]. *)
Class ConnectorLaws (C D : Type) {HC : Connector C D} : Type := {
  conn_ok : C -> Prop;
  conn_Connect_ok cancelled d c : conn_ok c -> conn_ok (conn_Connect cancelled d c).2;
  conn_Connect_up cancelled d c : conn_ok c -> conn_up c = true ->
    (conn_Connect cancelled d c).1 <> None /\ conn_up (conn_Connect cancelled d c).2 = true;
  conn_Connect_down cancelled d c : conn_ok c -> conn_up c = false ->
    conn_up (conn_Connect cancelled d c).2 = true -> (conn_Connect cancelled d c).1 = None /\ cancelled = false;
  conn_Disconnect_ok c : conn_ok c -> conn_ok (conn_Disconnect c).2 /\ conn_up (conn_Disconnect c).2 = false;
  drain_ok f g c : conn_ConnectionLost = Some (f, g) -> conn_ok c -> conn_ok (g c) /\ conn_up (g c) = conn_up c;
  callback_ok h c : conn_ok c ->
    conn_ok (onConnect_callback h c) /\ (conn_up (onConnect_callback h c) = true -> conn_up c = true)
}.

(** * The lifecycle *)

(** A run context and the done channel of its loop carry the number of the
    [Start] that made them. *)
Record lifecycle : Type := mkLifecycle {
  started : bool;
  cancel : option nat;
  onConnect : list Z;
  loopDone : option nat
}.

Definition newLifecycle : lifecycle := mkLifecycle false None [] None.

Definition OnConnect (fn : Z) (l : lifecycle) : lifecycle :=
  mkLifecycle (started l) (cancel l) (onConnect l ++ [fn]) (loopDone l).

Definition errAlreadyStarted : goerror := [OtherErr 10].
Definition errStoppedDuringStart : goerror := [OtherErr 11].

(** [connectOnce]: the connect, the copy of the callbacks, the callbacks. *)
Inductive once_pc : Type :=
| OConnect
| OSnapshot
| OCallbacks (cbs : list Z)
| OReturn (err : option goerror).

(** [Start] on the run context [i]. *)
Inductive start_pc : Type :=
| SLock
| SDrain (i : nat)
| SOnce (i : nat) (pc : once_pc)
| SCancel (i : nat) (err : goerror)
| SClear (err : goerror)
| SPublish (i : nat)
| SUndo
| SSpawn (i : nat)
| SDone (err : option goerror).

Inductive stop_pc : Type :=
| TLock
| TCancel (i done : option nat)
| TWait (done : option nat)
| TDisconnect
| TDone (err : option goerror).
#[export] Instance stop_pc_eq_dec : EqDecision stop_pc.
Proof. solve_decision. Defined.

(** [loop], with its variables. *)
Inductive loop_pc : Type :=
| LSelect (s : loopState)
| LFlap (s : loopState)
| LOnce (s : loopState) (pc : once_pc)
| LClose
| LExited.

(** What a select of the loop finds ready: the context, the notification, the
    timer. *)
Inductive ready_case : Type := ReadyDone | ReadyLost | ReadyTimer.

Section supervisor.
Context {C D : Type} `{!Connector C D}.

Definition once_step (cancelled : bool) (d : D) (cbs : list Z) (pc : once_pc) (c : C) : once_pc * C :=
  match pc with
  | OConnect =>
    match conn_Connect cancelled d c with
    | (Some err, c) => (OReturn (Some err), c)
    | (None, c) => (OSnapshot, c)
    end
  | OSnapshot => (OCallbacks cbs, c)
  | OCallbacks [] => (OReturn None, c)
  | OCallbacks (cb :: cbs) => (OCallbacks cbs, onConnect_callback cb c)
  | OReturn err => (OReturn err, c)
  end.

(** The system: the lifecycle, its connector, the cancelled contexts and closed
    done channels, the number of the next [Start], and the goroutines. *)
Record system : Type := mkSystem {
  y_lc : lifecycle;
  y_conn : C;
  y_cancelled : gset nat;
  y_closed : gset nat;
  y_next : nat;
  y_starts : list start_pc;
  y_stops : list stop_pc;
  y_loops : list (nat * loop_pc)
}.

Definition with_lc (l : lifecycle) (y : system) : system :=
  mkSystem l (y_conn y) (y_cancelled y) (y_closed y) (y_next y) (y_starts y) (y_stops y) (y_loops y).
Definition with_connector (c : C) (y : system) : system :=
  mkSystem (y_lc y) c (y_cancelled y) (y_closed y) (y_next y) (y_starts y) (y_stops y) (y_loops y).
Definition with_cancelled (i : nat) (y : system) : system :=
  mkSystem (y_lc y) (y_conn y) ({[i]} ∪ y_cancelled y) (y_closed y) (y_next y) (y_starts y) (y_stops y) (y_loops y).
Definition with_closed (i : nat) (y : system) : system :=
  mkSystem (y_lc y) (y_conn y) (y_cancelled y) ({[i]} ∪ y_closed y) (y_next y) (y_starts y) (y_stops y) (y_loops y).
Definition with_next (n : nat) (y : system) : system :=
  mkSystem (y_lc y) (y_conn y) (y_cancelled y) (y_closed y) n (y_starts y) (y_stops y) (y_loops y).
Definition with_starts (l : list start_pc) (y : system) : system :=
  mkSystem (y_lc y) (y_conn y) (y_cancelled y) (y_closed y) (y_next y) l (y_stops y) (y_loops y).
Definition with_stops (l : list stop_pc) (y : system) : system :=
  mkSystem (y_lc y) (y_conn y) (y_cancelled y) (y_closed y) (y_next y) (y_starts y) l (y_loops y).
Definition with_loops (l : list (nat * loop_pc)) (y : system) : system :=
  mkSystem (y_lc y) (y_conn y) (y_cancelled y) (y_closed y) (y_next y) (y_starts y) (y_stops y) l.

Definition is_cancelled (i : nat) (y : system) : bool := bool_decide (i ∈ y_cancelled y).

Definition set_started (b : bool) (l : lifecycle) : lifecycle :=
  mkLifecycle b (cancel l) (onConnect l) (loopDone l).

(** [Start].  [now] is the time a loop starts at. *)
Definition Start_step (cfg : LifecycleConfig) (d : D) (now : Z) (pc : start_pc) (y : system) : start_pc * system :=
  let l := y_lc y in
  match pc with
  | SLock =>
    if started l then (SDone (Some errAlreadyStarted), y)
    else
      let i := y_next y in
      (SDrain i, with_next (S i) (with_lc (mkLifecycle true (Some i) (onConnect l) (loopDone l)) y))
  | SDrain i =>
    let c := match conn_ConnectionLost with Some (_, receive) => receive (y_conn y) | None => y_conn y end in
    (SOnce i OConnect, with_connector c y)
  | SOnce i (OReturn (Some err)) => (SCancel i err, y)
  | SOnce i (OReturn None) => (SPublish i, y)
  | SOnce i pc =>
    let '(pc, c) := once_step (is_cancelled i y) d (onConnect l) pc (y_conn y) in
    (SOnce i pc, with_connector c y)
  | SCancel i err => (SClear err, with_cancelled i y)
  | SClear err => (SDone (Some err), with_lc (set_started false l) y)
  | SPublish i =>
    if negb (started l) then (SUndo, y)
    else (SSpawn i, with_lc (mkLifecycle true (cancel l) (onConnect l) (Some i)) y)
  | SUndo => (SDone (Some errStoppedDuringStart), with_connector (conn_Disconnect (y_conn y)).2 y)
  | SSpawn i => (SDone None, with_loops (y_loops y ++ [(i, LSelect (loop_start cfg now))]) y)
  | SDone err => (SDone err, y)
  end.

(** [Stop].  [expired] says that the context of the call is over. *)
Definition Stop_step (expired : bool) (pc : stop_pc) (y : system) : stop_pc * system :=
  let l := y_lc y in
  match pc with
  | TLock => (TCancel (cancel l) (loopDone l), with_lc (mkLifecycle false None (onConnect l) None) y)
  | TCancel i done => (TWait done, match i with Some i => with_cancelled i y | None => y end)
  | TWait None => (TDisconnect, y)
  | TWait (Some done) => (if bool_decide (done ∈ y_closed y) || expired then TDisconnect else TWait (Some done), y)
  | TDisconnect => let '(err, c) := conn_Disconnect (y_conn y) in (TDone err, with_connector c y)
  | TDone err => (TDone err, y)
  end.

(** The attempt as the loop sees it. *)
Definition attempt_of (now : Z) (err : option goerror) : attempt :=
  match err with
  | None => Connected now
  | Some err => if errors_Is err ErrAlreadyConnected then AlreadyConnected else ConnectFailed
  end.

(** The loop on the run context [i].  A case that is not ready leaves the loop
    where it is; the length of a delay plays no role here. *)
Definition loop_step (cfg : LifecycleConfig) (d : D) (now : Z) (ev : ready_case) (i : nat) (pc : loop_pc) (y : system)
    : loop_pc * system :=
  match pc with
  | LSelect s =>
    match ev with
    | ReadyDone => (if is_cancelled i y then LClose else LSelect s, y)
    | ReadyLost =>
      match conn_ConnectionLost with
      | Some (pending, receive) =>
        if pending (y_conn y) then
          let s' := (loop_wait cfg (Lost now) s).2 in
          let flap := (FlapWindow cfg >? 0) && (now - lastSuccess s <? FlapWindow cfg) in
          (if flap then LFlap s' else LOnce s' OConnect, with_connector (receive (y_conn y)) y)
        else (LSelect s, y)
      | None => (LSelect s, y)
      end
    | ReadyTimer => (LOnce (loop_wait cfg Timer s).2 OConnect, y)
    end
  | LFlap s =>
    match ev with
    | ReadyDone => (if is_cancelled i y then LClose else LFlap s, y)
    | ReadyLost => (LFlap s, y)
    | ReadyTimer => (LOnce s OConnect, y)
    end
  | LOnce s (OReturn err) => (LSelect (loop_attempt cfg (attempt_of now err) s), y)
  | LOnce s pc =>
    let '(pc, c) := once_step (is_cancelled i y) d (onConnect (y_lc y)) pc (y_conn y) in
    (LOnce s pc, with_connector c y)
  | LClose => (LExited, with_closed i y)
  | LExited => (LExited, y)
  end.

Inductive supervisor_action : Type :=
| VStart
| VStartStep (k : nat) (d : D) (now : Z)
| VStop
| VStopStep (k : nat) (expired : bool)
| VLoopStep (k : nat) (ev : ready_case) (d : D) (now : Z)
| VCancel (i : nat)
| VOnConnect (fn : Z)
| VConnector (c : C).

(** One action; [None] when it is not possible.  [VCancel] is the caller ending
    the context it gave to a [Start]; [VConnector] is what the connector does on
    its own, which never establishes a session. *)
Definition supervise (cfg : LifecycleConfig) (a : supervisor_action) (y : system) : option system :=
  match a with
  | VStart => Some (with_starts (y_starts y ++ [SLock]) y)
  | VStartStep k d now =>
    pc ← y_starts y !! k;
    let '(pc, y) := Start_step cfg d now pc y in
    Some (with_starts (<[k := pc]> (y_starts y)) y)
  | VStop => Some (with_stops (y_stops y ++ [TLock]) y)
  | VStopStep k expired =>
    pc ← y_stops y !! k;
    let '(pc, y) := Stop_step expired pc y in
    Some (with_stops (<[k := pc]> (y_stops y)) y)
  | VLoopStep k ev d now =>
    '(i, pc) ← y_loops y !! k;
    let '(pc, y) := loop_step cfg d now ev i pc y in
    Some (with_loops (<[k := (i, pc)]> (y_loops y)) y)
  | VCancel i => Some (with_cancelled i y)
  | VOnConnect fn => Some (with_lc (OnConnect fn (y_lc y)) y)
  | VConnector c => if conn_up c && negb (conn_up (y_conn y)) then None else Some (with_connector c y)
  end.

Fixpoint supervise_all (cfg : LifecycleConfig) (l : list supervisor_action) (y : system) : option system :=
  match l with
  | [] => Some y
  | a :: l => y ← supervise cfg a y; supervise_all cfg l y
  end.

Definition new_system (c : C) : system := mkSystem newLifecycle c ∅ ∅ 0 [] [] [].

End supervisor.
Arguments system : clear implicits.
Arguments supervisor_action : clear implicits.
