(* ===== verification/SupervisorFacts.v ===== *)
(** What [Start] and [Stop] guarantee (lifecycle.go), for any connector that keeps
    the contract of [Connector]; the TCP client as such a connector; and what goes
    wrong when a [Start] overlaps another one. *)

From S2P Require Import Prelude GoStrings Codes Wire WireFacts Props PropsFacts PublishPackets ControlPackets.
From S2P Require Import SubscribePackets Topic SessionStore Errors IdAllocator Quota Subscriptions Lifecycle.
From S2P Require Import Client Pump Requests Connection ClientFacts InboundFacts SessionFacts Supervisor.
From stdpp Require Import options.

(** * Bookkeeping of goroutines *)

Definition start_over (pc : start_pc) : bool := match pc with SDone _ => true | _ => false end.
Definition stop_over (pc : stop_pc) : bool := match pc with TDone _ => true | _ => false end.
(** A [Stop] between its critical section and its return. *)
Definition stop_busy (pc : stop_pc) : bool := match pc with TLock | TDone _ => false | _ => true end.
Definition loop_over (pc : loop_pc) : bool := match pc with LExited => true | _ => false end.

(** The one [Start] that has not returned. *)
Definition flight (l : list start_pc) (a : option start_pc) : Prop :=
  match a with
  | None => Forall (fun pc => start_over pc = true) l
  | Some pc => start_over pc = false /\
    exists l1 l2, l = l1 ++ pc :: l2 /\ Forall (fun pc => start_over pc = true) (l1 ++ l2)
  end.

Lemma flight_start l : flight l None -> flight (l ++ [SLock]) (Some SLock).
Proof. intros H. split; [done|]. exists l, []. by rewrite app_nil_r. Qed.

(** A step of a [Start] is one of the active [Start], or does nothing. *)
Lemma flight_step l k pc a : l !! k = Some pc -> flight l a ->
  (start_over pc = true) \/
  (a = Some pc /\ forall pc', flight (<[k := pc']> l) (if start_over pc' then None else Some pc')).
Proof.
  intros Hk Hf. destruct (start_over pc) eqn:Ho; [by left|right]. destruct a as [pc0|].
  - destruct Hf as (Ho0 & l1 & l2 & -> & Hl). apply Forall_app in Hl as [H1 H2].
    assert (k = length l1) as ->.
    { apply lookup_app_Some in Hk as [Hk|[Hle Hk]].
      - rewrite Forall_lookup in H1. rewrite (H1 _ _ Hk) in Ho. done.
      - destruct (k - length l1)%nat as [|n] eqn:E; [lia|]. simpl in Hk. rewrite Forall_lookup in H2.
        rewrite (H2 _ _ Hk) in Ho. done. }
    rewrite list_lookup_middle in Hk by done. injection Hk as ->. split; [done|]. intros pc'.
    rewrite insert_app_r_alt, Nat.sub_diag by lia. simpl. destruct (start_over pc') eqn:Ho'.
    + apply Forall_app. split; [done|]. by constructor.
    + split; [done|]. exists l1, l2. split; [done|]. by apply Forall_app.
  - simpl in Hf. rewrite Forall_lookup in Hf. rewrite (Hf _ _ Hk) in Ho. done.
Qed.

(** * The invariant *)

Section invariant.
Context {C D : Type} {HC : Connector C D} {HL : ConnectorLaws C D}.
Set Default Proof Using "Type*".
Implicit Types y : system C.

Definition busy y : Prop := exists pc, pc ∈ y_stops y /\ stop_busy pc = true.

(** The loop of the run context [i] is cancelled, or the one [Stop] will cancel,
    or the one a [Stop] is about to cancel. *)
Definition covered (i : nat) y : Prop :=
  i ∈ y_cancelled y \/
  (started (y_lc y) = true /\ cancel (y_lc y) = Some i /\ loopDone (y_lc y) = Some i) \/
  exists done, TCancel (Some i) done ∈ y_stops y.

Definition unused (i : nat) y : Prop := (i < y_next y)%nat /\ forall j pc, (j, pc) ∈ y_loops y -> j <> i.

(** What holds while the active [Start] is at a control point. *)
Definition phase (a : option start_pc) y : Prop :=
  let l := y_lc y in
  let is_up := conn_up (y_conn y) = true in
  match a with
  | None | Some SLock =>
    (started l = true -> exists i pc, cancel l = Some i /\ loopDone l = Some i /\ (i, pc) ∈ y_loops y) /\
    (is_up -> started l = true \/ busy y)
  | Some (SDrain i) | Some (SOnce i OConnect) | Some (SOnce i (OReturn (Some _))) | Some (SCancel i _) =>
    unused i y /\ (started l = true -> cancel l = Some i) /\ (is_up -> busy y)
  | Some (SClear _) => (started l = true -> exists i, cancel l = Some i /\ i ∈ y_cancelled y) /\ (is_up -> busy y)
  | Some (SOnce i _) | Some (SPublish i) => unused i y /\ (started l = true -> cancel l = Some i)
  | Some SUndo => started l = false
  | Some (SSpawn i) => unused i y /\ covered i y /\
    (started l = true -> cancel l = Some i /\ loopDone l = Some i) /\ (is_up -> started l = true \/ busy y)
  | Some (SDone _) => False
  end.

Record orderly y : Prop := {
  od_ok : conn_ok (y_conn y);
  od_loops i pc : (i, pc) ∈ y_loops y -> (i < y_next y)%nat;
  od_covered i pc : (i, pc) ∈ y_loops y -> loop_over pc = false -> covered i y;
  od_phase : exists a, flight (y_starts y) a /\ phase a y
}.

(** ** Changes of the connector *)

(** A session comes up only in a [Start], or in a loop that is not cancelled. *)
Definition may_change y c' : Prop :=
  conn_up c' = true -> conn_up (y_conn y) = true \/
    exists i pc, (i, pc) ∈ y_loops y /\ loop_over pc = false /\ i ∉ y_cancelled y.

Lemma covered_busy i y : covered i y -> i ∉ y_cancelled y ->
  (started (y_lc y) = true /\ cancel (y_lc y) = Some i /\ loopDone (y_lc y) = Some i) \/ busy y.
Proof. intros [H|[H|[dn H]]] Hi; [done|by left|right]. by exists (TCancel (Some i) dn). Qed.

Lemma phase_connector a y c' : (forall i pc, (i, pc) ∈ y_loops y -> loop_over pc = false -> covered i y) ->
  may_change y c' -> phase a y -> phase a (with_connector c' y).
Proof.
  intros Hcov Hm.
  assert (Hup : conn_up c' = true -> conn_up (y_conn y) = true \/ busy y \/ exists i pc, (i, pc) ∈ y_loops y /\
    started (y_lc y) = true /\ cancel (y_lc y) = Some i /\ i ∉ y_cancelled y).
  { intros [?|(i & pc & Hin & Ho & Hc)]%Hm; [by left|]. right.
    destruct (covered_busy i y) as [(?&?&?)|?]; eauto 10. }
  unfold phase, busy in *. destruct a as [[| |i [| | |[?|]]| | | | | |]|]; simpl; try done.
  all: intros Hp; destruct_and? Hp; split_and?; try done.
  all: try (intros [?|[?|(j & pc & Hin & Hst & Hca & Hnc)]]%Hup; auto; exfalso).
  all: unfold unused in *; naive_solver congruence.
Qed.

Lemma orderly_connector y c' : conn_ok c' -> may_change y c' -> orderly y -> orderly (with_connector c' y).
Proof.
  intros Hok Hm [_ H1 H2 (a & Hf & Hp)]. split; [done|exact H1|exact H2|].
  exists a. split; [done|]. by apply phase_connector.
Qed.

(** ** Cancelled contexts *)

Lemma orderly_cancelled y i : orderly y -> orderly (with_cancelled i y).
Proof.
  intros [H0 H1 H2 (a & Hf & Hp)].
  assert (Hc : forall j, covered j y -> covered j (with_cancelled i y)).
  { intros j [H|H]; [left; simpl; set_solver|by right]. }
  split; [done|exact H1|eauto|]. exists a. split; [done|].
  unfold phase in *. destruct a as [[| |? [| | |[?|]]| | | | | |]|]; simpl; try done.
  - destruct Hp as [Hs Hu]. split; [|done]. intros (j & Hj & Hin)%Hs. exists j. split; [done|set_solver].
  - destruct Hp as (Hu & Hcv & Hs). by split; [|split; [apply Hc|]].
Qed.

(** ** A step of [Stop] *)

Lemma elem_of_insert_other {A} (l : list A) k x x' e : l !! k = Some x -> e ∈ l -> e <> x -> e ∈ <[k := x']> l.
Proof.
  intros Hk [j Hj]%list_elem_of_lookup Hne. apply list_elem_of_lookup. exists j.
  rewrite list_lookup_insert_ne; [done|]. intros ->. congruence.
Qed.

Lemma elem_of_insert_new {A} (l : list A) k x x' : l !! k = Some x -> x' ∈ <[k := x']> l.
Proof.
  intros Hk. apply list_elem_of_lookup. exists k. apply list_lookup_insert_eq. by eapply lookup_lt_Some.
Qed.

(** The other calls of [Stop] stay as they are, and this one stays busy or has
    disconnected. *)
Lemma orderly_stops y k pc pc' : y_stops y !! k = Some pc ->
  (forall i dn, pc = TCancel (Some i) dn -> i ∈ y_cancelled y) ->
  (stop_busy pc = true -> stop_busy pc' = false -> conn_up (y_conn y) = false) ->
  orderly y -> orderly (with_stops (<[k := pc']> (y_stops y)) y).
Proof.
  intros Hk Htc Hbusy [H0 H1 H2 (a & Hf & Hp)].
  assert (Hc : forall j, covered j y -> covered j (with_stops (<[k := pc']> (y_stops y)) y)).
  { intros j [H|[H|[dn H]]]; [by left|by right; left|]. destruct (decide (TCancel (Some j) dn = pc)) as [<-|Hne].
    - left. by eapply Htc.
    - right. right. exists dn. by eapply elem_of_insert_other. }
  assert (Hb : conn_up (y_conn y) = true -> busy y -> busy (with_stops (<[k := pc']> (y_stops y)) y)).
  { intros Hu (pc0 & Hin & Hb0). unfold busy. simpl. destruct (decide (pc0 = pc)) as [->|Hne].
    - exists pc'. split; [by eapply elem_of_insert_new|]. destruct (stop_busy pc') eqn:E; [done|].
      rewrite (Hbusy Hb0 eq_refl) in Hu. done.
    - exists pc0. split; [by eapply elem_of_insert_other|done]. }
  split; [done|exact H1|eauto|]. exists a. split; [done|].
  unfold phase in *. destruct a as [[| |? [| | |[?|]]| | | | | |]|]; simpl in *; destruct_and? Hp; split_and?; auto.
  all: intros Hu; naive_solver.
Qed.

Lemma orderly_lock y k : y_stops y !! k = Some TLock -> orderly y ->
  let l := y_lc y in
  orderly (with_stops (<[k := TCancel (cancel l) (loopDone l)]> (y_stops y))
    (with_lc (mkLifecycle false None (onConnect l) None) y)).
Proof.
  intros Hk [H0 H1 H2 (a & Hf & Hp)] l. set (y' := with_stops _ _).
  assert (Hb : busy y').
  { exists (TCancel (cancel l) (loopDone l)). split; [by eapply elem_of_insert_new|done]. }
  assert (Hc : forall j, covered j y -> covered j y').
  { intros j [H|[(_ & Hca & _)|[dn H]]]; [by left|right; right|right; right].
    - exists (loopDone l). unfold l. rewrite <- Hca. by eapply elem_of_insert_new.
    - exists dn. by eapply elem_of_insert_other. }
  split; [done|exact H1|eauto|]. exists a. split; [done|].
  unfold phase in *. destruct a as [[| |? [| | |[?|]]| | | | | |]|]; simpl in *; destruct_and? Hp; split_and?; auto; done.
Qed.

Lemma orderly_stop_step y k expired pc : y_stops y !! k = Some pc -> orderly y ->
  let '(pc', y') := Stop_step expired pc y in orderly (with_stops (<[k := pc']> (y_stops y')) y').
Proof.
  intros Hk Hy. destruct pc as [|i dn|dn| |err]; simpl.
  - by apply orderly_lock.
  - destruct i as [i|].
    + apply (orderly_stops (with_cancelled i y) k (TCancel (Some i) dn)); [done| |done|by apply orderly_cancelled].
      intros j dn' [= -> ->]. simpl. set_solver.
    + by apply (orderly_stops y k (TCancel None dn)).
  - destruct dn as [dn|]; [|by apply (orderly_stops y k (TWait None))].
    apply (orderly_stops y k (TWait (Some dn))); [done|done| |done]. by destruct (_ || _).
  - pose proof (conn_Disconnect_ok (y_conn y) (od_ok _ Hy)) as [Hok Hd].
    destruct (conn_Disconnect (y_conn y)) as [err c']. simpl in *.
    apply (orderly_stops (with_connector c' y) k TDisconnect); [done..|]. apply orderly_connector; [done| |done].
    intros Hu. simpl in Hu. congruence.
  - by apply (orderly_stops y k (TDone err)).
Qed.

(** ** A step of [Start] *)

(** Moving the active [Start] on to [pc']. *)
Lemma orderly_starts y k pc pc' : y_starts y !! k = Some pc -> start_over pc = false -> orderly y ->
  (phase (Some pc) y -> phase (if start_over pc' then None else Some pc') y) ->
  orderly (with_starts (<[k := pc']> (y_starts y)) y).
Proof.
  intros Hk Ho [H0 H1 H2 (a & Hf & Hp)] Hn. destruct (flight_step _ _ _ _ Hk Hf) as [?|[-> Hf']]; [congruence|].
  split; [done|exact H1|exact H2|]. eexists. split; [apply Hf'|exact (Hn Hp)].
Qed.

(** [connectOnce] changes the connector as a [Start] or a live loop may. *)
Lemma once_step_conn cancelled d cbs pc c : conn_ok c -> let '(pc', c') := once_step cancelled d cbs pc c in
  conn_ok c' /\ (conn_up c' = true -> conn_up c = true \/ pc = OConnect /\ pc' = OSnapshot /\ cancelled = false).
Proof.
  intros Hok. destruct pc as [| |[|cb cbs']|err]; simpl; try (split; [done|by left]).
  - pose proof (conn_Connect_ok cancelled d c Hok) as Hok'. pose proof (conn_Connect_up cancelled d c Hok) as Hu.
    pose proof (conn_Connect_down cancelled d c Hok) as Hd. destruct (conn_Connect cancelled d c) as [[err|] c'].
    + split; [done|]. simpl in *. destruct (conn_up c); [by left|]. intros [? _]%Hd; done.
    + split; [done|]. simpl in *. destruct (conn_up c); [by left|]. intros [_ ?]%Hd; auto.
  - destruct (callback_ok cb c Hok) as [Hok' Hu]. split; [done|]. by left; apply Hu.
Qed.

Lemma orderly_connected y c i pc k : y_starts y !! k = Some (SOnce i OConnect) -> conn_ok c -> orderly y ->
  pc = OSnapshot -> orderly (with_starts (<[k := SOnce i pc]> (y_starts y)) (with_connector c y)).
Proof.
  intros Hk Hok [H0 H1 H2 (a & Hf & Hp)] ->. destruct (flight_step _ _ _ _ Hk Hf) as [?|[-> Hf']]; [done|].
  split; [done|exact H1|exact H2|]. eexists. split; [apply Hf'|]. simpl in *. destruct Hp as (Hu & Hs & _). by split.
Qed.

Lemma orderly_once_start y k i d pc : y_starts y !! k = Some (SOnce i pc) -> orderly y ->
  (forall err, pc <> OReturn err) ->
  let '(pc', c') := once_step (is_cancelled i y) d (onConnect (y_lc y)) pc (y_conn y) in
  orderly (with_starts (<[k := SOnce i pc']> (y_starts y)) (with_connector c' y)).
Proof.
  intros Hk Hy Hne. pose proof (once_step_conn (is_cancelled i y) d (onConnect (y_lc y)) pc _ (od_ok _ Hy)) as Hc.
  destruct (once_step _ _ _ _ _) as [pc' c'] eqn:E. destruct Hc as [Hok Hu].
  destruct (decide (conn_up c' = true /\ conn_up (y_conn y) = false)) as [[Hc Hd]|Hno].
  - destruct (Hu Hc) as [?|(-> & -> & _)]; [congruence|]. by apply orderly_connected.
  - assert (Hm : may_change y c').
    { intros Hc. left. destruct (conn_up (y_conn y)) eqn:Hd; [done|]. by destruct Hno. }
    apply (orderly_starts (with_connector c' y) k (SOnce i pc)); [done|done|by apply orderly_connector|].
    destruct pc as [| |[|cb cbs]|err]; simpl in E; [|injection E as <- <-..|by destruct (Hne err)].
    + destruct (conn_Connect _ _ _) as [[err|] c1]; injection E as <- <-; simpl; [done|]. by intros (? & ? & _).
    + done.
    + done.
    + done.
Qed.

Lemma orderly_next y : orderly y -> started (y_lc y) = false -> phase (Some SLock) y ->
  let i := y_next y in let l := y_lc y in
  let y' := with_next (S i) (with_lc (mkLifecycle true (Some i) (onConnect l) (loopDone l)) y) in
  (forall j pc, (j, pc) ∈ y_loops y -> loop_over pc = false -> covered j y') /\ phase (Some (SDrain i)) y'.
Proof.
  intros [H0 H1 H2 _] Hs [_ Hp] i l y'. split.
  - intros j pc Hin Ho. destruct (H2 j pc Hin Ho) as [?|[(? & _)|?]]; [by left|congruence|by right; right].
  - split_and!; [split; [unfold y', i; simpl; lia|]|done|].
    + intros j pc Hin ->. specialize (H1 _ _ Hin). unfold i in *. lia.
    + intros [?|?]%Hp; [congruence|done].
Qed.

Lemma orderly_start_step cfg d now y k pc : y_starts y !! k = Some pc -> orderly y ->
  let '(pc', y') := Start_step cfg d now pc y in orderly (with_starts (<[k := pc']> (y_starts y')) y').
Proof.
  intros Hk Hy. pose proof Hy as [H0 H1 H2 (a & Hf & Hp)].
  destruct (flight_step _ _ _ _ Hk Hf) as [Ho|[-> Hf']].
  { destruct pc; try done. simpl. rewrite list_insert_id by done. by destruct y. }
  destruct pc as [|i|i pc|i err|err|i| |i|err]; [| | | | | | | |done].
  - simpl. destruct (started (y_lc y)) eqn:Hs; [by apply (orderly_starts y k SLock)|].
    destruct (orderly_next y Hy Hs Hp) as [Hc Hp']. split; [done| |exact Hc|].
    + intros i pc Hin. simpl in *. specialize (H1 i pc Hin). lia.
    + eexists. split; [apply (Hf' (SDrain _))|exact Hp'].
  - simpl. set (c' := match _ with Some _ => _ | None => _ end).
    assert (Hc : conn_ok c' /\ conn_up c' = conn_up (y_conn y)).
    { unfold c'. destruct conn_ConnectionLost as [[f g]|] eqn:E; [by apply (drain_ok f)|done]. }
    destruct Hc as [Hok Hu]. apply (orderly_starts (with_connector c' y) k (SDrain i)); [done|done| |done].
    apply orderly_connector; [done| |done]. intros ?. left. congruence.
  - destruct pc as [| | |[err|]]; [| | |by apply (orderly_starts y k (SOnce i (OReturn (Some err))))
      |by apply (orderly_starts y k (SOnce i (OReturn None)))]; cbn [Start_step].
    all: match goal with |- context [once_step _ _ _ ?pc _] => pose proof (orderly_once_start y k i d pc Hk Hy ltac:(done)) as H end.
    all: by destruct (once_step _ _ _ _ _).
  - simpl. apply (orderly_starts (with_cancelled i y) k (SCancel i err)); [done|done|by apply orderly_cancelled|].
    simpl. intros (_ & Hs & Hu). split; [|done]. intros ->%Hs. exists i. split; [done|set_solver].
  - simpl. destruct Hp as [Hs Hu]. split; [done|exact H1| |].
    + intros j pc Hin Ho. destruct (H2 j pc Hin Ho) as [?|[(Hst & Hca & _)|?]]; [by left| |by right; right].
      left. destruct (Hs Hst) as (i & Hi & Hin'). simpl. congruence.
    + eexists. split; [apply (Hf' (SDone (Some err)))|]. simpl. split; [done|]. intros ?%Hu. by right.
  - simpl. destruct (started (y_lc y)) eqn:Hs; simpl; [|by apply (orderly_starts y k (SPublish i))].
    destruct Hp as [Hu Hca]. specialize (Hca Hs). split; [done|exact H1| |].
    + intros j pc Hin Ho. destruct (H2 j pc Hin Ho) as [?|[(_ & Hcj & _)|?]]; [by left| |by right; right].
      destruct Hu as [_ Hu]. destruct (Hu j pc Hin). congruence.
    + eexists. split; [apply (Hf' (SSpawn i))|]. simpl. split_and!; try done; [apply Hu..|by right; left|by left].
  - simpl. pose proof (conn_Disconnect_ok _ H0) as [Hok Hd]. destruct (conn_Disconnect (y_conn y)) as [err c']. simpl in *.
    apply (orderly_starts (with_connector c' y) k SUndo); [done|done| |].
    + apply orderly_connector; [done| |done]. intros ?. simpl in *. congruence.
    + simpl. intros Hs. rewrite Hs, Hd. done.
  - simpl. destruct Hp as (Hu & Hc & Hs & Hup). split; [done| | |].
    + intros j pc [Hin|Hin]%elem_of_app; [by eapply H1|]. apply list_elem_of_singleton in Hin. injection Hin as -> ->. apply Hu.
    + intros j pc [Hin|Hin]%elem_of_app Ho; [by eapply H2|]. apply list_elem_of_singleton in Hin. by injection Hin as -> ->.
    + eexists. split; [apply (Hf' (SDone None))|]. simpl. split; [|done]. intros Hst. destruct (Hs Hst) as [Hc1 Hc2].
      exists i. eexists. split_and!; [done|done|]. apply elem_of_app. right. by apply list_elem_of_singleton.
Qed.

(** ** A step of a loop *)

Lemma orderly_loops y k i pc pc' : y_loops y !! k = Some (i, pc) -> (loop_over pc = true -> loop_over pc' = true) ->
  orderly y -> orderly (with_loops (<[k := (i, pc')]> (y_loops y)) y).
Proof.
  intros Hk Ho [H0 H1 H2 (a & Hf & Hp)].
  assert (Hin : forall j q, (j, q) ∈ <[k := (i, pc')]> (y_loops y) -> (j, q) = (i, pc') \/ (j, q) ∈ y_loops y).
  { intros j q [m Hm]%list_elem_of_lookup. apply list_lookup_insert_Some in Hm as [(_ & <- & _)|[_ Hm]]; [by left|].
    right. by eapply list_elem_of_lookup_2. }
  assert (Hold : (i, pc) ∈ y_loops y) by (by eapply list_elem_of_lookup_2).
  assert (Hnum : forall j, (forall q, (j, q) ∉ y_loops y) <-> forall q, (j, q) ∉ <[k := (i, pc')]> (y_loops y)).
  { intros j. split; intros Hj q Hq.
    - destruct (Hin _ _ Hq) as [[= -> ->]|?]; [by apply (Hj pc)|by apply (Hj q)].
    - destruct (decide (j = i)) as [->|Hne]; [apply (Hj pc'); by eapply elem_of_insert_new|].
      apply (Hj q). eapply elem_of_insert_other; [done|done|congruence]. }
  split; [done| | |].
  - intros j q [[= -> ->]|?]%Hin; [by eapply H1|by eapply H1].
  - intros j q [[= -> ->]|?]%Hin Hov; [|by eapply H2]. apply (H2 i pc); [done|]. destruct (loop_over pc); [|done].
    rewrite (Ho eq_refl) in Hov. done.
  - exists a. split; [done|]. assert (Hun : forall j, unused j y -> unused j (with_loops (<[k := (i, pc')]> (y_loops y)) y)).
    { intros j [? Hj]. split; [done|]. intros m q Hm ->. apply (proj1 (Hnum j)) with q; [|done]. intros q' Hq'. by apply (Hj j q'). }
    unfold phase in *. destruct a as [[| |? [| | |[?|]]| | | | | |]|]; simpl in *; destruct_and? Hp; split_and?; auto; try done.
    all: intros Hst; match goal with H : started _ = true -> _ |- _ => destruct (H Hst) as (j & q & ? & ? & Hq) end; exists j.
    all: destruct (decide (j = i)) as [->|Hne]; [exists pc'|exists q]; split_and!; try done.
    all: first [by eapply elem_of_insert_new|eapply elem_of_insert_other; [done|done|congruence]].
Qed.

Lemma orderly_loop_step cfg d now ev y k i pc : y_loops y !! k = Some (i, pc) -> orderly y ->
  let '(pc', y') := loop_step cfg d now ev i pc y in orderly (with_loops (<[k := (i, pc')]> (y_loops y')) y').
Proof.
  intros Hk Hy.
  assert (Hstay : forall pc', (loop_over pc = true -> loop_over pc' = true) ->
    orderly (with_loops (<[k := (i, pc')]> (y_loops y)) y)) by (intros; by eapply orderly_loops).
  assert (Hconn : forall pc' c', loop_over pc = false -> conn_ok c' -> may_change y c' ->
    orderly (with_loops (<[k := (i, pc')]> (y_loops y)) (with_connector c' y))).
  { intros pc' c' Ho ? ?. apply (orderly_loops (with_connector c' y) k i pc); [done|congruence|]. by apply orderly_connector. }
  destruct pc as [s|s|s pc| |]; simpl.
  - destruct ev; [by apply Hstay| |by apply Hstay].
    destruct conn_ConnectionLost as [[f g]|] eqn:E; [|by apply Hstay]. destruct (f (y_conn y)); [|by apply Hstay].
    destruct (drain_ok f g (y_conn y) E (od_ok _ Hy)) as [Hok Hu]. apply Hconn; [done|done|]. intros ?. left. congruence.
  - destruct ev; by apply Hstay.
  - assert (Hpc : (exists err, pc = OReturn err) \/ forall err, pc <> OReturn err) by (destruct pc; naive_solver).
    destruct Hpc as [[err ->]|Hne]; [by apply Hstay|].
    pose proof (once_step_conn (is_cancelled i y) d (onConnect (y_lc y)) pc _ (od_ok _ Hy)) as Hc.
    assert (Hg : let '(pc', c') := once_step (is_cancelled i y) d (onConnect (y_lc y)) pc (y_conn y) in
      orderly (with_loops (<[k := (i, LOnce s pc')]> (y_loops y)) (with_connector c' y))).
    { destruct (once_step _ _ _ _ _) as [pc' c']. destruct Hc as [Hok Hu]. apply Hconn; [done|done|].
      intros [?|(_ & _ & Hi)]%Hu; [by left|right]. exists i, (LOnce s pc).
      split_and!; [by eapply list_elem_of_lookup_2|done|]. by apply bool_decide_eq_false in Hi. }
    destruct pc as [| | |err]; [..|by destruct (Hne err)]; by destruct (once_step _ _ _ _ _).
  - by apply (orderly_loops (with_closed i y) k i LClose); [| |destruct Hy].
  - by apply Hstay.
Qed.

(** ** Any action *)

(** The discipline the guarantees need: a [Start] is not called while another one
    is in flight, and the connector keeps its own invariant. *)
Definition orderly_call (a : supervisor_action C D) y : Prop :=
  match a with
  | VStart => Forall (fun pc => start_over pc = true) (y_starts y)
  | VConnector c => conn_ok c
  | _ => True
  end.

Lemma orderly_supervise cfg a y y' : orderly y -> orderly_call a y -> supervise cfg a y = Some y' -> orderly y'.
Proof.
  intros Hy Ha. pose proof Hy as [H0 H1 H2 (s & Hf & Hp)]. destruct a as [|k d now| |k expired|k ev d now|i|fn|c]; simpl in *.
  - intros [= <-]. split; [done|exact H1|exact H2|]. exists (Some SLock). split; [by apply flight_start|].
    destruct s as [pc|]; [|exact Hp]. destruct Hf as (Ho & l1 & l2 & Hl & _). rewrite Hl in Ha.
    apply Forall_app in Ha as [_ Ha]. apply Forall_cons in Ha as [Ha _]. congruence.
  - destruct (y_starts y !! k) as [pc|] eqn:Hk; [|done]. simpl. pose proof (orderly_start_step cfg d now y k pc Hk Hy) as H.
    destruct (Start_step _ _ _ _ _). intros [= <-]. exact H.
  - intros [= <-]. assert (Hb : busy y -> busy (with_stops (y_stops y ++ [TLock]) y)).
    { intros (pc & Hin & Hpc). exists pc. split; [|done]. apply elem_of_app. by left. }
    assert (Hc : forall j, covered j y -> covered j (with_stops (y_stops y ++ [TLock]) y)).
    { intros j [?|[?|[dn ?]]]; [by left|by right; left|right; right]. exists dn. apply elem_of_app. by left. }
    split; [done|exact H1|eauto|]. exists s. split; [done|].
    unfold phase in *. destruct s as [[| |? [| | |[?|]]| | | | | |]|]; simpl in *; destruct_and? Hp; split_and?; auto.
    all: naive_solver.
  - destruct (y_stops y !! k) as [pc|] eqn:Hk; [|done]. simpl. pose proof (orderly_stop_step y k expired pc Hk Hy) as H.
    destruct (Stop_step _ _ _). intros [= <-]. exact H.
  - destruct (y_loops y !! k) as [[i pc]|] eqn:Hk; [|done]. simpl.
    pose proof (orderly_loop_step cfg d now ev y k i pc Hk Hy) as H. destruct (loop_step _ _ _ _ _ _ _). intros [= <-]. exact H.
  - intros [= <-]. by apply orderly_cancelled.
  - intros [= <-]. split; [done|exact H1|exact H2|]. exists s. split; [done|].
    unfold phase in *. by destruct s as [[| |? [| | |[?|]]| | | | | |]|].
  - destruct (conn_up c && negb (conn_up (y_conn y))) eqn:E; [done|]. intros [= <-].
    apply orderly_connector; [done| |done]. intros Hc. left. rewrite Hc in E. by destruct (conn_up (y_conn y)).
Qed.
End invariant.

(** * Who cancels a context

    The context a call of [Start] or [Stop] is about to cancel. *)

Definition start_ctx (pc : start_pc) : option nat :=
  match pc with SDrain i | SOnce i _ | SCancel i _ | SPublish i | SSpawn i => Some i | _ => None end.
Definition stop_ctx (pc : stop_pc) : option nat := match pc with TCancel i _ => i | _ => None end.

Lemma elem_of_insert_inv {A} (l : list A) k x e : e ∈ <[k := x]> l -> e = x \/ e ∈ l.
Proof.
  intros [m Hm]%list_elem_of_lookup. apply list_lookup_insert_Some in Hm as [(_ & <- & _)|[_ Hm]]; [by left|].
  right. by eapply list_elem_of_lookup_2.
Qed.

Section cancelling.
Context {C D : Type} {HC : Connector C D}.
Implicit Types y : system C.

(** Contexts are numbered below [y_next]; a [Stop] holds the context of no
    running lifecycle; and a context that is cancelled was cancelled by the
    caller (a [K] context), or is not the one of a started lifecycle, or its
    [Start] failed and is about to clear [started].  Only the loop of a cancelled
    context ends. *)
Record tidy (K : nat -> Prop) y : Prop := {
  td_cancel j : cancel (y_lc y) = Some j -> (j < y_next y)%nat;
  td_starts pc j : pc ∈ y_starts y -> start_ctx pc = Some j -> (j < y_next y)%nat;
  td_stops pc j : pc ∈ y_stops y -> stop_ctx pc = Some j -> (j < y_next y)%nat /\ cancel (y_lc y) <> Some j;
  td_cancelled j : j ∈ y_cancelled y -> K j \/ (j < y_next y)%nat /\
    (started (y_lc y) = true -> cancel (y_lc y) = Some j -> exists err, SClear err ∈ y_starts y);
  td_loops i pc : (i, pc) ∈ y_loops y -> pc = LClose \/ pc = LExited -> i ∈ y_cancelled y
}.

Lemma tidy_new K (c : C) : tidy K (new_system c).
Proof. split; simpl; intros; set_solver. Qed.

(** The actions that leave contexts, lifecycle and goroutines alone. *)
Lemma tidy_same K y y' : y_lc y' = y_lc y -> y_cancelled y' = y_cancelled y -> y_next y' = y_next y ->
  y_starts y' = y_starts y -> y_stops y' = y_stops y -> y_loops y' = y_loops y -> tidy K y -> tidy K y'.
Proof. intros E1 E2 E3 E4 E5 E6 [H1 H2 H3 H4 H5]. split; rewrite ?E1, ?E2, ?E3, ?E4, ?E5, ?E6; done. Qed.

(** A step of a [Start] that keeps its context and touches neither lifecycle nor
    contexts. *)
Lemma tidy_start K y k pc pc' : y_starts y !! k = Some pc -> (forall err, pc <> SClear err) ->
  (forall j, start_ctx pc' = Some j -> (j < y_next y)%nat) -> tidy K y -> tidy K (with_starts (<[k := pc']> (y_starts y)) y).
Proof.
  intros Hk Hnc Hc [H1 H2 H3 H4 H5]. split; simpl; [done| |done| |done].
  - intros q j [->|Hq]%elem_of_insert_inv Hj; eauto.
  - intros j Hj. destruct (H4 j Hj) as [?|[? Hcl]]; [by left|right]. split; [done|]. intros Hs Hca.
    destruct (Hcl Hs Hca) as [err He]. exists err. eapply elem_of_insert_other; [done|done|]. intros <-. by eapply Hnc.
Qed.

Lemma tidy_stop K y k pc' : (forall j, stop_ctx pc' = Some j -> (j < y_next y)%nat /\ cancel (y_lc y) <> Some j) ->
  tidy K y -> tidy K (with_stops (<[k := pc']> (y_stops y)) y).
Proof.
  intros Hc [H1 H2 H3 H4 H5]. split; simpl; [done|done| |done|done].
  intros q j [->|Hq]%elem_of_insert_inv Hj; eauto.
Qed.

Lemma tidy_loop K y k i pc pc' : y_loops y !! k = Some (i, pc) ->
  (pc' = LClose \/ pc' = LExited -> i ∈ y_cancelled y) -> tidy K y -> tidy K (with_loops (<[k := (i, pc')]> (y_loops y)) y).
Proof.
  intros Hk Hc [H1 H2 H3 H4 H5]. split; simpl; [done..|].
  intros j q [[= -> ->]|Hq]%elem_of_insert_inv Hj; eauto.
Qed.

Lemma tidy_start_step K cfg (d : D) now y k pc : y_starts y !! k = Some pc -> tidy K y ->
  let '(pc', y') := Start_step cfg d now pc y in tidy K (with_starts (<[k := pc']> (y_starts y')) y').
Proof.
  intros Hk Hy. pose proof Hy as [H1 H2 H3 H4 H5]. assert (Hin : pc ∈ y_starts y) by (by eapply list_elem_of_lookup_2).
  assert (Hctx : forall j, start_ctx pc = Some j -> (j < y_next y)%nat) by (intros; by eapply H2).
  assert (Hc : forall pc' c', (forall err, pc <> SClear err) -> (forall j, start_ctx pc' = Some j -> start_ctx pc = Some j) ->
    tidy K (with_starts (<[k := pc']> (y_starts y)) (with_connector c' y))).
  { intros pc' c' Hn Hj. apply (tidy_start K (with_connector c' y) k pc); [done|done|auto|by apply (tidy_same K y)]. }
  assert (Hs : forall pc', (forall err, pc <> SClear err) -> (forall j, start_ctx pc' = Some j -> start_ctx pc = Some j) ->
    tidy K (with_starts (<[k := pc']> (y_starts y)) y)).
  { intros pc' Hn Hj. apply (tidy_start K y k pc); auto. }
  destruct pc as [|i|i [| |cbs|[err|]]|i err|err|i| |i|err]; simpl.
  - destruct (started (y_lc y)) eqn:Est; [by apply Hs|].
    split; simpl.
    + intros j [= <-]. lia.
    + intros q j [->|Hq]%elem_of_insert_inv Hj; [simplify_eq/=; lia|]. specialize (H2 q j Hq Hj). lia.
    + intros q j Hq Hj. destruct (H3 q j Hq Hj). split; [lia|]. intros [= E]. lia.
    + intros j Hj. destruct (H4 j Hj) as [?|[Hlt _]]; [by left|right]. split; [lia|]. intros _ [= E]. lia.
    + done.
  - by apply Hc.
  - unfold once_step. destruct (conn_Connect _ _ _) as [[err|] c']; by apply Hc.
  - by apply Hc.
  - destruct cbs; by apply Hc.
  - by apply Hs.
  - by apply Hs.
  - split; simpl; [done| |done| |].
    + intros q j [->|Hq]%elem_of_insert_inv Hj; [done|eauto].
    + intros j [->%elem_of_singleton|Hj]%elem_of_union.
      * right. split; [by apply Hctx|]. intros _ _. exists err. by eapply elem_of_insert_new.
      * destruct (H4 j Hj) as [?|[? _]]; [by left|right]. split; [done|]. intros _ _. exists err. by eapply elem_of_insert_new.
    + intros j q Hq Hl. apply elem_of_union. right. eauto.
  - split; simpl; [done| |done| |done].
    + intros q j [->|Hq]%elem_of_insert_inv Hj; [done|eauto].
    + intros j Hj. destruct (H4 j Hj) as [?|[? _]]; [by left|right]. done.
  - destruct (started (y_lc y)) eqn:Est; simpl; [|by apply Hs].
    apply (tidy_start K (with_lc _ y) k (SPublish i)); [done|done|intros j [= <-]; by apply Hctx|].
    split; simpl; [done..| |done]. intros j Hj. by apply H4.
  - by apply Hc.
  - apply (tidy_start K (with_loops _ y) k (SSpawn i)); [done..|].
    split; simpl; [done..|]. intros j q [Hq|[= -> ->]%list_elem_of_singleton]%elem_of_app Hl; [eauto|]. by destruct Hl.
  - by apply Hs.
Qed.

Lemma tidy_stop_step K expired y k pc : y_stops y !! k = Some pc -> tidy K y ->
  let '(pc', y') := Stop_step expired pc y in tidy K (with_stops (<[k := pc']> (y_stops y')) y').
Proof.
  intros Hk Hy. pose proof Hy as [H1 H2 H3 H4 H5]. assert (Hin : pc ∈ y_stops y) by (by eapply list_elem_of_lookup_2).
  destruct pc as [|i dn|dn| |err]; simpl.
  - split; simpl; [done|done| |intros j Hj; destruct (H4 j Hj) as [?|[? _]]; [by left|by right]|done].
    intros q j [->|Hq]%elem_of_insert_inv Hj; [split; [by apply H1|done]|]. by destruct (H3 q j Hq Hj).
  - destruct i as [i|]; [|by apply tidy_stop]. destruct (H3 _ i Hin eq_refl) as [Hlt Hne].
    apply (tidy_stop K (with_cancelled i y) k); [done|]. split; simpl; [done..| |intros j q Hq Hl; apply elem_of_union; right; eauto].
    intros j [->%elem_of_singleton|Hj]%elem_of_union; [|by apply H4]. right. by split.
  - destruct dn as [dn|]; [|by apply tidy_stop]. destruct (_ || _); by apply tidy_stop.
  - destruct (conn_Disconnect _) as [err c']. simpl. apply (tidy_stop K (with_connector c' y) k); [done|].
    by apply (tidy_same K y).
  - by apply tidy_stop.
Qed.

Lemma tidy_loop_step K cfg (d : D) now ev y k i pc : y_loops y !! k = Some (i, pc) -> tidy K y ->
  let '(pc', y') := loop_step cfg d now ev i pc y in tidy K (with_loops (<[k := (i, pc')]> (y_loops y')) y').
Proof.
  intros Hk Hy. pose proof Hy as [H1 H2 H3 H4 H5].
  assert (Hin : (i, pc) ∈ y_loops y) by (by eapply list_elem_of_lookup_2).
  assert (Hs : forall pc', (pc' = LClose \/ pc' = LExited -> i ∈ y_cancelled y) ->
    tidy K (with_loops (<[k := (i, pc')]> (y_loops y)) y)) by (intros; by eapply tidy_loop).
  assert (Hc : forall pc' c', (pc' = LClose \/ pc' = LExited -> i ∈ y_cancelled y) ->
    tidy K (with_loops (<[k := (i, pc')]> (y_loops y)) (with_connector c' y))).
  { intros pc' c' H. apply (tidy_loop K (with_connector c' y) k i pc); [done|done|by apply (tidy_same K y)]. }
  destruct pc as [s|s|s pc| |]; simpl.
  - destruct ev; [|destruct conn_ConnectionLost as [[f g]|]; [destruct (f (y_conn y))|]|].
    + apply Hs. unfold is_cancelled. case_bool_decide; [done|]. intros [?|?]; done.
    + apply Hc. intros [?|?]; by destruct (_ && _).
    + apply Hs. by intros [?|?].
    + apply Hs. by intros [?|?].
    + apply Hs. by intros [?|?].
  - destruct ev; apply Hs; [|by intros [?|?]..]. unfold is_cancelled. case_bool_decide; [done|]. intros [?|?]; done.
  - destruct pc as [| |cbs|err]; unfold once_step.
    + destruct (conn_Connect _ _ _) as [[err|] c']; apply Hc; by intros [?|?].
    + apply Hc. by intros [?|?].
    + destruct cbs; apply Hc; by intros [?|?].
    + apply Hs. by intros [?|?].
  - apply (tidy_loop K (with_closed i y) k i LClose); [done|intros _; apply (H5 i LClose); auto|by apply (tidy_same K y)].
  - apply Hs. intros _. apply (H5 i LExited); auto.
Qed.

Lemma tidy_supervise K cfg (a : supervisor_action C D) y y' : supervise cfg a y = Some y' -> tidy K y ->
  tidy (fun i => K i \/ a = VCancel i) y'.
Proof.
  intros Hs Hy. assert (Hw : forall y, tidy K y -> tidy (fun i => K i \/ a = VCancel i) y).
  { intros y0 [H1 H2 H3 H4 H5]. split; [done..| |done]. intros j Hj. destruct (H4 j Hj); auto. }
  destruct a as [|k d now| |k expired|k ev d now|i|fn|c]; simpl in Hs.
  - apply Hw. injection Hs as <-. destruct Hy as [H1 H2 H3 H4 H5]. split; simpl; [done| |done| |done].
    + intros pc j Hpc Hj. apply elem_of_app in Hpc as [Hpc|Hpc%list_elem_of_singleton]; [by eapply H2|by subst].
    + intros j Hj. destruct (H4 j Hj) as [?|[? Hc]]; [by left|right]. split; [done|]. intros A B.
      destruct (Hc A B) as [err He]. exists err. apply elem_of_app. by left.
  - destruct (y_starts y !! k) as [pc|] eqn:Hk; [|done]. simpl in Hs.
    pose proof (tidy_start_step K cfg d now y k pc Hk Hy) as H. destruct (Start_step _ _ _ _ _). injection Hs as <-. by apply Hw.
  - apply Hw. injection Hs as <-. destruct Hy as [H1 H2 H3 H4 H5]. split; simpl; [done|done| |done|done].
    intros pc j Hpc Hj. apply elem_of_app in Hpc as [Hpc|Hpc%list_elem_of_singleton]; [by eapply H3|by subst].
  - destruct (y_stops y !! k) as [pc|] eqn:Hk; [|done]. simpl in Hs.
    pose proof (tidy_stop_step K expired y k pc Hk Hy) as H. destruct (Stop_step _ _ _). injection Hs as <-. by apply Hw.
  - destruct (y_loops y !! k) as [[i pc]|] eqn:Hk; [|done]. simpl in Hs.
    pose proof (tidy_loop_step K cfg d now ev y k i pc Hk Hy) as H. destruct (loop_step _ _ _ _ _ _ _). injection Hs as <-. by apply Hw.
  - injection Hs as <-. destruct Hy as [H1 H2 H3 H4 H5]. split; simpl; [done..| |intros j q Hq Hl; apply elem_of_union; right; eauto].
    intros j [->%elem_of_singleton|Hj]%elem_of_union; [by left; right|]. destruct (H4 j Hj); auto.
  - injection Hs as <-. apply Hw. by destruct Hy.
  - destruct (_ && _); [done|]. injection Hs as <-. by apply Hw, (tidy_same K y).
Qed.
End cancelling.

(** * Theorems *)

(** A run of the system in which calls of [Start] do not overlap. *)
Inductive orderly_run {C D} {HC : Connector C D} {HL : ConnectorLaws C D} (cfg : LifecycleConfig) :
    list (supervisor_action C D) -> system C -> system C -> Prop :=
| orderly_nil y : orderly_run cfg [] y y
| orderly_cons a l y y1 y' : orderly_call a y -> supervise cfg a y = Some y1 -> orderly_run cfg l y1 y' ->
    orderly_run cfg (a :: l) y y'.

Lemma orderly_run_inv {C D} {HC : Connector C D} {HL : ConnectorLaws C D} cfg (l : list (supervisor_action C D)) y y' :
  orderly_run cfg l y y' -> orderly y -> orderly y'.
Proof. induction 1 as [|a l y y1 y' Ha Hs _ IH]; [done|]. intros Hy. apply IH. by eapply orderly_supervise. Qed.

Lemma orderly_run_tidy {C D} {HC : Connector C D} {HL : ConnectorLaws C D} cfg (l : list (supervisor_action C D)) K y y' :
  orderly_run cfg l y y' -> tidy K y -> tidy (fun i => K i \/ VCancel i ∈ l) y'.
Proof.
  intros H. revert K. induction H as [y|a l y y1 y' Ha Hs _ IH]; intros K Hy.
  - destruct Hy as [H1 H2 H3 H4 H5]. split; [done..| |done]. intros j Hj. destruct (H4 j Hj); auto.
  - destruct (IH _ (tidy_supervise K cfg a y y1 Hs Hy)) as [H1 H2 H3 H4 H5]. split; [done..| |done].
    intros j Hj. destruct (H4 j Hj) as [[[?|<-]|?]|?]; [by left; left|left; right..|by right];
      rewrite elem_of_cons; auto.
Qed.

Lemma orderly_new {C D} {HC : Connector C D} {HL : ConnectorLaws C D} (c : C) :
  conn_ok c -> conn_up c = false -> orderly (new_system c).
Proof.
  intros Hok Hd. split; simpl; [done|intros ? ? []%not_elem_of_nil..|]. exists None. split; [by constructor|].
  simpl. rewrite Hd. done.
Qed.

(** C12.  A stopped lifecycle stays stopped, a started one has one live loop.
    However calls of [Start] that do not overlap, any number of calls of [Stop],
    the loops they leave behind, cancellations and connection losses interleave:
    when no call is in flight, a lifecycle that is not started has no session, and
    every loop that is still running is cancelled; one that is started has a loop,
    the one [Stop] will cancel and wait for, which runs uncancelled unless the
    caller has ended the context it gave to [Start] ([VCancel]), and every other
    loop still running is cancelled. *)
Theorem stop_is_final {C D} {HC : Connector C D} {HL : ConnectorLaws C D} (cfg : LifecycleConfig)
    (c : C) (l : list (supervisor_action C D)) (y : system C) :
  conn_ok c -> conn_up c = false -> orderly_run cfg l (new_system c) y ->
  Forall (fun pc => start_over pc = true) (y_starts y) -> Forall (fun pc => stop_over pc = true) (y_stops y) ->
  if started (y_lc y) then
    exists i pc, cancel (y_lc y) = Some i /\ loopDone (y_lc y) = Some i /\ (i, pc) ∈ y_loops y /\
      (VCancel i ∉ l -> i ∉ y_cancelled y /\ loop_over pc = false) /\
      forall j q, (j, q) ∈ y_loops y -> loop_over q = false -> j = i \/ j ∈ y_cancelled y
  else conn_up (y_conn y) = false /\ forall j q, (j, q) ∈ y_loops y -> loop_over q = false -> j ∈ y_cancelled y.
Proof.
  intros Hok Hd Hrun Hst Hsp. pose proof (orderly_run_tidy _ _ (fun _ => False) _ _ Hrun (tidy_new _ c)) as Ht.
  apply orderly_run_inv in Hrun as [H0 H1 H2 (a & Hf & Hp)]; [|by apply orderly_new].
  destruct a as [pc|].
  { destruct Hf as (Ho & l1 & l2 & Hl & _). rewrite Hl in Hst. apply Forall_app in Hst as [_ Hst].
    apply Forall_cons in Hst as [Hst _]. congruence. }
  assert (Hb : forall pc, pc ∈ y_stops y -> stop_over pc = true) by (by apply Forall_forall).
  assert (Hc : forall j q, (j, q) ∈ y_loops y -> loop_over q = false ->
    j ∈ y_cancelled y \/ (started (y_lc y) = true /\ cancel (y_lc y) = Some j)).
  { intros j q Hin Ho. destruct (H2 j q Hin Ho) as [?|[(?&?&_)|[dn Hdn]]]; [by left|by right|]. by apply Hb in Hdn. }
  destruct Hp as [Hs Hu]. destruct (started (y_lc y)) eqn:Est.
  - destruct Hs as (i & pc & Hca & Hld & Hin); [done|]. exists i, pc. split_and!; [done..| |].
    + intros Hn. assert (Hnc : i ∉ y_cancelled y).
      { intros Hi. destruct (td_cancelled _ _ Ht i Hi) as [[[]|?]|[_ Hcl]]; [done|]. destruct (Hcl Est Hca) as [err He].
        rewrite Forall_forall in Hst. by specialize (Hst _ He). }
      split; [done|]. destruct pc; try done. destruct Hnc. apply (td_loops _ _ Ht _ _ Hin). auto.
    + intros j q Hj Ho. destruct (Hc j q Hj Ho) as [?|[_ ?]]; [by right|left; congruence].
  - split; [|intros j q Hj Ho; destruct (Hc j q Hj Ho) as [?|[? _]]; [done|congruence]].
    destruct (conn_up (y_conn y)); [|done]. destruct Hu as [?|(pc & Hin & Hpc)]; [done|congruence|].
    specialize (Hb pc Hin). by destruct pc.
Qed.

(** * The TCP client as a connector *)

(** The application's [OnConnect] callbacks on a TCP client: they may use the
    client, and everything may happen to it meanwhile, but they do not connect
    it. *)
Class Callbacks (St : Type) : Type := { run_callback : Z -> client St -> client St }.

(** The current link has not been torn down. *)
Definition link_live {St} (c : client St) : Prop := forall l, c_link c = Some l -> isStopping l c = false.

Class CallbackLaws (St : Type) {HB : Callbacks St} : Prop := {
  run_callback_live h c : link_live c -> link_live (run_callback h c);
  run_callback_link h c : IsConnected (run_callback h c) = true -> IsConnected c = true
}.

(** A context that is over makes [Connect] fail at the latest before the CONNACK
    is accepted. *)
Definition with_context (cancelled : bool) (d : dialling) : dialling :=
  mkDialling (d_url d) (d_dial d) (d_bytes d)
    (if cancelled then Some (default [ContextCanceled] (d_ctx d)) else d_ctx d) (d_now d).

Section tcp.
Context {St : Type} {HS : SessionStore St} {HC : ContainsStore St} {HE : Environment St} {HB : Callbacks St}.
Implicit Types c : client St.

#[export] Instance tcp_connector : Connector (client St) dialling := {
  conn_Connect cancelled d c := let '((err, _), c) := client_Connect (with_context cancelled d) c in (err, c);
  conn_Disconnect c := (None, (client_Disconnect c).2);
  conn_ConnectionLost := Some (c_lostCh, set_lostCh false);
  onConnect_callback := run_callback;
  conn_up := IsConnected
}.

Context {HL : SessionStoreLaws St} {HR : ReliableStore St} {HBL : CallbackLaws St}.
Set Default Proof Using "Type*".

Lemma establish_outcome k now ack c err aw c' : c_link c = None -> establish k now ack c = ((err, aw), c') ->
  link_live c' /\ (IsConnected c' = true -> err = None).
Proof.
  intros Hnone He. destruct err as [err|].
  - apply establish_failed in He as (Hl & _); [|done]. unfold link_live, IsConnected. by rewrite Hl.
  - split; [|done]. rewrite establish_eq in He. unfold finish in He. rewrite cmd_bind_eq in He.
    destruct (replaySession _ _) as [[] c1]. rewrite cmd_bind_eq in He.
    destruct (replaySubscriptions _ _) as [aw' c2]. rewrite cmd_bind_eq in He. unfold gets in He.
    destruct (isStopping _ c2) eqn:Hst; [done|]. rewrite cmd_bind_eq in He. injection He as <- <-.
    intros l [= <-]. exact Hst.
Qed.

(** A context that is over never gets past the CONNACK. *)
Lemma handshake_context d k c : match (handshake d k c).1 with inr _ => d_ctx d = None | inl _ => True end.
Proof.
  unfold handshake. rewrite cmd_bind_eq. unfold gets at 1. destruct (ConnectPacket_Encode _ _); [|done].
  rewrite cmd_bind_eq. destruct (conn_write _ _ _) as [sent c1]. destruct (negb sent); [done|].
  rewrite cmd_bind_eq. unfold gets at 1. destruct (ReadFrame _ _) as [[f rest]|]; [|done].
  rewrite cmd_bind_eq. unfold upd at 1. destruct (negb _); [done|]. rewrite cmd_bind_eq. unfold gets at 1.
  destruct (DecodeConnack _ _); [|done]. destruct (ReasonCode_IsError _); [done|]. rewrite cmd_bind_eq.
  match goal with |- context [let '(_, _) := ?m in _] => destruct m as [[err|] c2] end; [done|].
  by destruct (d_ctx d).
Qed.

Lemma writeFrame_link l encode c : link_live c -> c_link c = Some l ->
  let c' := (writeFrame (Some l) encode c).2 in (c_link c' = Some l /\ link_live c') \/ c_link c' = None.
Proof.
  intros Hc Hl. simpl. destruct (encode []); [|by left]. rewrite cmd_bind_eq. unfold gets.
  destruct (negb _ && _); [by left|]. rewrite !cmd_bind_eq.
  unfold conn_write. destruct (negb _ && _); simpl; [left; split; [exact Hl|exact Hc]|]. right.
  exact (proj1 (teardown_current l _ c (Hc l Hl) Hl)).
Qed.

Lemma client_Connect_outcome d c err aw c' : link_live c -> client_Connect d c = ((err, aw), c') ->
  link_live c' /\
  (IsConnected c = true -> err <> None /\ IsConnected c' = true) /\
  (IsConnected c = false -> IsConnected c' = true -> err = None /\ d_ctx d = None).
Proof.
  intros Hc. unfold client_Connect. rewrite cmd_bind_eq. unfold gets at 1.
  destruct (c_link c) as [l|] eqn:Hl; [intros [= <- <- <-]; split; [done|]; by unfold IsConnected; rewrite Hl|].
  assert (Hn : IsConnected c = false) by (by unfold IsConnected; rewrite Hl).
  assert (Hfail : forall e aw0, ((Some e, aw0), c) = ((err, aw), c') -> link_live c' /\
    (IsConnected c = true -> err <> None /\ IsConnected c' = true) /\
    (IsConnected c = false -> IsConnected c' = true -> err = None /\ d_ctx d = None)).
  { intros e aw0 [= <- <- <-]. rewrite Hn. done. }
  destruct (d_url d) as [e|]; [apply Hfail|]. rewrite cmd_bind_eq. unfold gets at 1.
  destruct (validWill c) as [[]|e]; [|apply Hfail].
  destruct (d_dial d) as [e|]; [apply Hfail|]. clear Hfail. rewrite Hn, cmd_bind_eq. unfold gets at 1.
  rewrite cmd_bind_eq. unfold upd at 1. set (k := fresh _). set (c0 := set_conns _ c). rewrite cmd_bind_eq.
  destruct (handshake_settled d k c0) as [Hs _]. pose proof (handshake_context d k c0) as Hx.
  destruct (handshake d k c0) as [[e|ack] c1]; simpl in Hs, Hx.
  all: assert (Hl1 : c_link c1 = None) by (rewrite (proj1 Hs); exact Hl).
  - intros [= <- <- <-]. unfold link_live, IsConnected. by rewrite Hl1.
  - intros He. destruct (establish_outcome _ _ _ _ _ _ _ Hl1 He) as [Hlive Hup]. naive_solver.
Qed.

Lemma teardown_link l g c : link_live c -> c_link c = Some l -> c_link (teardownLink l g c) = None.
Proof. intros Hc Hl. by apply (teardown_current l g c (Hc l Hl) Hl). Qed.

Lemma client_Disconnect_link c : link_live c -> c_link (client_Disconnect c).2 = None.
Proof.
  intros Hc. unfold client_Disconnect. rewrite cmd_bind_eq. unfold gets at 1.
  destruct (c_link c) as [l|] eqn:Hl; [|done]. rewrite cmd_bind_eq. unfold upd at 1.
  set (c1 := upd_link _ _ c). rewrite cmd_bind_eq. unfold gets at 1. rewrite cmd_bind_eq.
  assert (Hl1 : c_link c1 = Some l) by done.
  assert (Hc1 : link_live c1).
  { intros l' [= <-]%(eq_trans (eq_sym Hl1)). unfold isStopping, c1. rewrite the_link_upd, decide_True by done.
    exact (Hc l Hl). }
  destruct (writeFrame_link l (DisconnectPacket_Encode (mkDisconnect (c_version c1) NormalDisconnection None)) c1 Hc1 Hl1)
    as [[Hl2 Hc2]|Hl2].
  all: destruct (writeFrame _ _ c1) as [err c2]; simpl in *.
  - by apply teardown_link.
  - rewrite (proj1 (teardown_other l true c2 ltac:(congruence))). done.
Qed.

#[export] Instance tcp_connector_laws : ConnectorLaws (client St) dialling.
Proof.
  refine {| conn_ok := link_live |}; simpl.
  - intros cancelled d c Hc. destruct (client_Connect _ c) as [[err aw] c'] eqn:E.
    by eapply client_Connect_outcome.
  - intros cancelled d c Hc. destruct (client_Connect _ c) as [[err aw] c'] eqn:E.
    by eapply client_Connect_outcome.
  - intros cancelled d c Hc Hd. destruct (client_Connect _ c) as [[err aw] c'] eqn:E. simpl. intros Hu.
    destruct (client_Connect_outcome _ _ _ _ _ Hc E) as (_ & _ & H). destruct (H Hd Hu) as [-> Hx].
    split; [done|]. by destruct cancelled.
  - intros c Hc. pose proof (client_Disconnect_link c Hc) as Hl. unfold link_live, IsConnected. by rewrite Hl.
  - by intros f g c [= <- <-].
  - intros h c Hc. split; [by apply run_callback_live|]. apply run_callback_link.
Defined.
End tcp.

(** * Runs *)

(** An executable run that refuses overlapping calls of [Start]. *)
Fixpoint run_sequential {C D} {HC : Connector C D} (cfg : LifecycleConfig) (l : list (supervisor_action C D))
    (y : system C) : option (system C) :=
  match l with
  | [] => Some y
  | a :: l =>
    let allowed := match a with VStart => forallb start_over (y_starts y) | VConnector _ => false | _ => true end in
    if allowed then y ← supervise cfg a y; run_sequential cfg l y else None
  end.

Lemma forallb_over {A} (f : A -> bool) l : forallb f l = true -> Forall (fun x => f x = true) l.
Proof. intros H. apply Forall_forall. intros x Hx. apply (proj1 (List.forallb_forall f l) H). by apply list_elem_of_In. Qed.

Lemma run_sequential_orderly {C D} {HC : Connector C D} {HL : ConnectorLaws C D} cfg
    (l : list (supervisor_action C D)) y y' :
  run_sequential cfg l y = Some y' -> orderly_run cfg l y y'.
Proof.
  revert y. induction l as [|a l IH]; intros y; simpl; [intros [= <-]; constructor|].
  destruct (match a with VStart => _ | VConnector _ => _ | _ => _ end) eqn:Ha; [|done].
  destruct (supervise cfg a y) as [y1|] eqn:Hs; [|done]. intros Hr. econstructor; [|done|by apply IH].
  destruct a; try done. by apply forallb_over.
Qed.

#[export] Instance no_callbacks : Callbacks memStore := { run_callback _ c := c }.
#[export] Instance no_callbacks_laws : CallbackLaws memStore.
Proof. by split. Qed.

Notation demo_action := (supervisor_action (client memStore) dialling).

Definition start_steps (k n : nat) : list demo_action := replicate n (VStartStep k (demo_dial demo_connack) 0).
Definition stop_steps (k n : nat) (expired : bool) : list demo_action := replicate n (VStopStep k expired).
Definition loop_steps (k : nat) (evs : list ready_case) : list demo_action :=
  (fun ev => VLoopStep k ev (demo_dial demo_connack) 0) <$> evs.

(** Start; Stop, which waits for the loop. *)
Definition demo_start_stop : list demo_action :=
  VStart :: start_steps 0 8 ++ VStop :: stop_steps 0 3 false ++ loop_steps 0 [ReadyDone; ReadyDone] ++ stop_steps 0 2 false.

Lemma stop_is_final_witness :
  match run_sequential DefaultLifecycle demo_start_stop (new_system (NewTCPClient demo_cfg)) with
  | None => False
  | Some y => y_starts y = [SDone None] /\ y_stops y = [TDone None] /\ started (y_lc y) = false /\
    conn_up (y_conn y) = false /\ forall j q, (j, q) ∈ y_loops y -> loop_over q = false -> j ∈ y_cancelled y
  end.
Proof.
  assert (Hv : (fun y => (y_starts y, y_stops y, started (y_lc y))) <$>
    run_sequential DefaultLifecycle demo_start_stop (new_system (NewTCPClient demo_cfg)) =
    Some ([SDone None], [TDone None], false)) by (vm_compute; reflexivity).
  destruct (run_sequential _ _ _) as [y|] eqn:E; [|discriminate Hv]. injection Hv as H1 H2 H3.
  assert (Hok : link_live (NewTCPClient demo_cfg)) by (intros l Hl; discriminate Hl).
  assert (Hst : Forall (fun pc => start_over pc = true) (y_starts y)) by (rewrite H1; by repeat constructor).
  assert (Hsp : Forall (fun pc => stop_over pc = true) (y_stops y)) by (rewrite H2; by repeat constructor).
  pose proof (stop_is_final DefaultLifecycle _ demo_start_stop y Hok eq_refl (run_sequential_orderly _ _ _ _ E) Hst Hsp) as H.
  rewrite H3 in H. split; [exact H1|]. split; [exact H2|]. split; [exact H3|]. exact H.
Defined.

(** Two calls of [Start] overlap: a Stop ends the first one while it connects,
    a second Start succeeds, and then the first one cleans up. *)
Definition demo_overlap : list demo_action :=
  (VStart :: start_steps 0 1) ++ (VStop :: stop_steps 0 4 false) ++ (VStart :: start_steps 1 1) ++ start_steps 0 2 ++
  start_steps 1 7 ++ start_steps 0 3.

(** The connection is lost. *)
Definition lost_connection (c : client memStore) : client memStore :=
  match c_link c with Some l => teardownLink l false c | None => c end.

(** A third Start, and a Stop that waits for the loop it knows of; then the loop
    of the second Start sees its timer. *)
Definition demo_restart (c : client memStore) : list demo_action :=
  VConnector (lost_connection c) :: (VStart :: start_steps 2 8) ++ (VStop :: stop_steps 1 3 false) ++
  loop_steps 1 [ReadyDone; ReadyDone] ++ stop_steps 1 2 false ++ loop_steps 0 [ReadyTimer; ReadyTimer].

(** C38.  Overlapping calls of [Start] leak a reconnect loop.  The error path of
    [Start] clears [started] even when the flag belongs to a later [Start] that
    has succeeded meanwhile.  In this run of the TCP client, a Stop ends a first
    Start while it connects and a second Start succeeds before the first one
    fails: its loop runs and the client is connected, but the lifecycle is not
    started.  When the connection is lost, a third Start is admitted and succeeds
    too; a Stop, whose context does not expire, then returns nil after ending the
    third loop, with the lifecycle stopped; and yet the loop of the second Start
    is not cancelled and connects the client again. *)
Theorem overlapping_starts_leak :
  exists y0 e pc0 y pc,
    supervise_all DefaultLifecycle demo_overlap (new_system (NewTCPClient demo_cfg)) = Some y0 /\
    y_starts y0 = [SDone (Some e); SDone None] /\ y_stops y0 = [TDone None] /\
    started (y_lc y0) = false /\ conn_up (y_conn y0) = true /\ y_loops y0 = [(1%nat, pc0)] /\ loop_over pc0 = false /\
    supervise_all DefaultLifecycle (demo_restart (y_conn y0)) y0 = Some y /\
    y_starts y = [SDone (Some e); SDone None; SDone None] /\ y_stops y = [TDone None; TDone None] /\
    started (y_lc y) = false /\ conn_up (y_conn y) = true /\
    y_loops y = [(1%nat, pc); (2%nat, LExited)] /\ loop_over pc = false /\ 1%nat ∉ y_cancelled y.
Proof.
  do 5 eexists. split; [vm_compute; reflexivity|]. do 6 (split; [vm_compute; reflexivity|]).
  split; [vm_compute; reflexivity|]. do 6 (split; [vm_compute; reflexivity|]).
  apply (bool_decide_unpack _). vm_compute. exact I.
Qed.
