(* ===== verification/RequestFacts.v ===== *)
(** Publishing: a publish that never reached the wire is undone, and what a
    publisher may send is limited by what the broker negotiated. *)

From S2P Require Import Prelude GoStrings Codes Wire WireFacts Props PropsFacts PublishPackets ControlPackets.
From S2P Require Import SubscribePackets Topic SessionStore Errors IdAllocator Quota Subscriptions Lifecycle.
From S2P Require Import Client Pump Requests Connection ClientFacts.
From stdpp Require Import options.

Section publishing.
Context {St : Type} {HS : SessionStore St} {HL : SessionStoreLaws St} {HC : ContainsStore St} {HR : ReliableStore St}.
Context {HE : Environment St}.
Implicit Types c : client St.
Set Default Proof Using "Type*".
#[local] Strategy opaque [idAllocator_Acquire].

Lemma delete_save_entry e es : e.1 ∉ es.*1 -> delete_entry e.1 (save_entry e es) = es.
Proof.
  intros Hn. unfold save_entry, delete_entry. rewrite decide_False by done. rewrite filter_app, filter_cons.
  rewrite decide_False by tauto. rewrite filter_nil, app_nil_r.
  induction es as [|x es IH]; [done|]. rewrite fmap_cons, not_elem_of_cons in Hn. destruct Hn as [H1 H2].
  rewrite filter_cons, decide_True by congruence. by rewrite IH.
Qed.

(** A write keeps the permits and the generation of the quota. *)
Lemma writeFrame_quota l encode c : let c' := (writeFrame l encode c).2 in
  avail (c_quota c') = avail (c_quota c) /\ qgen (c_quota c') = qgen (c_quota c).
Proof.
  destruct l as [l|]; [|done]. simpl. destruct (encode []) as [buf|e]; [|done].
  rewrite cmd_bind_eq. unfold gets. destruct (negb _ && _); [done|]. rewrite !cmd_bind_eq.
  unfold conn_write. destruct (negb (cn_closed _) && _); [done|]. rewrite cmd_bind_eq. unfold upd.
  cbn [snd mret cmd_ret]. set (g := l_graceful _). destruct (isStopping l c) eqn:Hst; [by rewrite teardown_idem|].
  destruct (decide (c_link c = Some l)) as [E|E].
  - by destruct (teardown_current l g c Hst E) as (_ & -> & _).
  - by destruct (teardown_other l g c E) as (_ & -> & _).
Qed.

(** A successful write changes nothing but the socket. *)
Lemma writeFrame_sent l encode c c' : writeFrame l encode c = (None, c') -> exists k f, c' = upd_conn k f c.
Proof.
  destruct l as [l|]; [|done]. simpl. destruct (encode []) as [buf|e]; [|done].
  rewrite cmd_bind_eq. unfold gets. destruct (negb _ && _); [done|]. rewrite !cmd_bind_eq.
  unfold conn_write. destruct (negb (cn_closed _) && _); [|by rewrite cmd_bind_eq]. intros [= <-]. eauto.
Qed.

(** What the socket of a link has taken after a write: the encoded frame, or
    nothing new. *)
Lemma writeFrame_socket l encode c :
  match writeFrame (Some l) encode c with
  | (None, c') => exists f, encode [] = Ok f /\ cn_w (the_conn c' l) = cn_w (the_conn c l) ++ [f]
  | (Some _, c') => cn_w (the_conn c' l) = cn_w (the_conn c l)
  end.
Proof.
  simpl. destruct (encode []) as [buf|e]; [|done].
  rewrite cmd_bind_eq. unfold gets. destruct (negb _ && _); [done|]. rewrite !cmd_bind_eq.
  unfold conn_write. destruct (negb (cn_closed _) && _).
  - exists buf. split; [done|]. unfold the_conn, the_link, upd_conn. csimp. by rewrite lookup_total_insert_eq.
  - rewrite cmd_bind_eq. apply teardown_wrote.
Qed.

Lemma removeWaiter_same id ch c : same_session c (removeWaiter id ch c) /\ c_quota (removeWaiter id ch c) = c_quota c.
Proof. unfold removeWaiter. destruct (c_waiters c !! id); [destruct (_ =? _)%nat|]; done. Qed.

Lemma removeWaiter_conns id ch c l : cn_w (the_conn (removeWaiter id ch c) l) = cn_w (the_conn c l).
Proof. unfold removeWaiter. destruct (c_waiters c !! id); [destruct (_ =? _)%nat|]; done. Qed.

(** An identifier that was acquired and released again. *)
Lemma release_acquired a id ig a' i : wf_ids a -> idAllocator_Acquire a = (Acquired id ig, a') -> in_u16 i ->
  in_use (idAllocator_ReleaseAt id ig a') i = in_use a i.
Proof.
  intros Ha Hacq Hi. pose proof (Acquire_spec a Ha) as H. rewrite Hacq in H. destruct H as (-> & -> & Hid & Hfree & _).
  assert (Hu : in_u16 id) by (unfold in_u16; lia).
  assert (Hm : wf_ids (marked a id)) by (apply wf_marked; [done..|lia]).
  rewrite in_use_ReleaseAt by done. unfold marked. simpl.
  rewrite in_use_mark by done. destruct (decide (i = id)) as [->|Hne].
  - rewrite bool_decide_true by done. by rewrite Hfree.
  - rewrite !bool_decide_false by tauto. done.
Qed.

(** What a failed send leaves: the session as it was. *)
Definition undone c c' : Prop :=
  contents (c_store c') = contents (c_store c) /\ (forall i, in_u16 i -> in_use (c_ids c') i = in_use (c_ids c) i) /\
  avail (c_quota c') = avail (c_quota c) /\ qgen (c_quota c') = qgen (c_quota c).

(** The clean-up of a failed send restores the stored session and frees the
    identifier. *)
Lemma failed_send_session l pkt c id ig a s err ch c4 c5 :
  wf_ids (c_ids c) -> store_ok (c_store c) -> store_room (c_store c) ->
  idAllocator_Acquire (c_ids c) = (Acquired id ig, a) -> ~ stored id StoredPublish c ->
  Save (mkStored (Some (with_PacketID id pkt)) 0 id StoredPublish) (c_store c) = Some s ->
  c_ids c4 = a -> c_store c4 = s -> qgen (c_quota c4) = qgen (c_quota c) ->
  writeFrame (Some l) (PublishPacket_Encode (with_PacketID id pkt)) c4 = (Some err, c5) ->
  let c' := quota_releaseAt' (qgen (c_quota c)) (ids_ReleaseAt id ig (store_Delete id StoredPublish (removeWaiter id ch c5))) in
  fold_left (fun '(pc, c) ev => pub_step l pkt ev pc c) (replicate 5 Run)
    (PUnregister (qgen (c_quota c)) id ig ch err, c5) = (PDone (Some err), c') /\
  store_ok (c_store c') /\ contents (c_store c') = contents (c_store c) /\
  (forall i, in_u16 i -> in_use (c_ids c') i = in_use (c_ids c) i).
Proof.
  intros Hids Hok Hroom Hacq Hns Hsave Hi4 Hs4 Hq4 Hw c'.
  pose proof (writeFrame_same (Some l) (PublishPacket_Encode (with_PacketID id pkt)) c4) as Hss.
  pose proof (writeFrame_quota (Some l) (PublishPacket_Encode (with_PacketID id pkt)) c4) as [_ Hqg].
  rewrite Hw in Hss, Hqg. cbn [snd] in *. destruct (removeWaiter_same id ch c5) as [Hr1 Hr2].
  assert (Hst : c_store (removeWaiter id ch c5) = s) by (rewrite (ss_store _ _ Hr1), (ss_store _ _ Hss); done).
  assert (Hid : c_ids (removeWaiter id ch c5) = a) by (rewrite (ss_ids _ _ Hr1), (ss_ids _ _ Hss); done).
  destruct (Save_law _ _ _ Hok Hroom Hsave) as [Hok' Hcs]. split.
  { cbn [replicate fold_left pub_step]. rewrite Hr2. unfold quota_generation. by rewrite Hqg, Hq4, Z.eqb_refl. }
  subst c'. csimp. cbn [store_Delete ids_ReleaseAt quota_releaseAt']. rewrite Hst, Hid.
  destruct (Delete_total id StoredPublish s) as [s' Hd]. rewrite Hd. destruct (Delete_law _ _ _ _ Hok' Hd) as [Hok'' Hc'].
  change (default s (Some s')) with s'. split_and!; [done| |].
  - rewrite Hc', Hcs. exact (delete_save_entry (entry_of (mkStored (Some (with_PacketID id pkt)) 0 id StoredPublish)) _ Hns).
  - intros i Hi. by apply (release_acquired _ _ _ _ _ Hids Hacq).
Qed.

(** The sections of [publishAcked] up to the write. *)
Definition at_write c id a s : client St :=
  (registerWaiter id ackClassPublish (set_store s (set_ids a (set_quota (mkQuota (wake (c_quota c))
    (i64 (avail (c_quota c) - 1)) (qgen (c_quota c)) (failed (c_quota c))) c)))).2.

Lemma publishAcked_to_write l pkt c id ig a s n : failed (c_quota c) = false -> 0 < avail (c_quota c) ->
  idAllocator_Acquire (c_ids c) = (Acquired id ig, a) ->
  Save (mkStored (Some (with_PacketID id pkt)) 0 id StoredPublish) (c_store c) = Some s ->
  publishAcked l pkt (replicate (4 + S n) Run) c =
    fold_left (fun '(pc, c) ev => pub_step l pkt ev pc c) (replicate n Run)
      (pub_step l pkt Run (PWrite (qgen (c_quota c)) id ig (c_nextCh c)) (at_write c id a s)).
Proof.
  intros Hf Hav Hacq Hsave. unfold publishAcked. rewrite replicate_add, fold_left_app. set (c1 := set_quota (mkQuota (wake (c_quota c))
    (i64 (avail (c_quota c) - 1)) (qgen (c_quota c)) (failed (c_quota c))) c).
  assert (E1 : pub_step l pkt Run PQuota c = (PId (qgen (c_quota c)), c1)).
  { unfold pub_step, quota_acquire_turn, c1. rewrite Hf. by replace (avail (c_quota c) >? 0) with true by lia. }
  assert (E2 : pub_step l pkt Run (PId (qgen (c_quota c))) c1 = (PSave (qgen (c_quota c)) id ig, set_ids a c1)).
  { unfold pub_step. change (c_ids c1) with (c_ids c). by rewrite Hacq. }
  assert (E3 : pub_step l pkt Run (PSave (qgen (c_quota c)) id ig) (set_ids a c1) =
    (PRegister (qgen (c_quota c)) id ig, set_store s (set_ids a c1))).
  { unfold pub_step. change (c_store (set_ids a c1)) with (c_store c). by rewrite Hsave. }
  cbn [replicate fold_left]. by rewrite E1, E2, E3.
Qed.
End publishing.

(** C15.  A publish that does not reach the wire is undone.  With nothing else
    running, a QoS 1 or 2 publish with a permit and an identifier to take either
    hands the encoding of its packet under that identifier to the socket and waits
    for the acknowledgement, with the packet stored for replay, or returns the
    error of the write (an encoding error, an oversized packet, a broken
    connection) with nothing on the socket and the stored session, the identifiers
    in use, the permits and the quota's generation as they were before.  And when
    a reconnect has re-accounted the session while the call was in its failing
    write (the generation has moved on), the call returns the error and leaves
    store, identifiers and quota of the new session alone: the entry is kept. *)
Theorem unsent_publish_undone {St} {HS : SessionStore St} {HL : SessionStoreLaws St} {HC : ContainsStore St}
    {HR : ReliableStore St} {HE : Environment St} (c : client St) (l : nat) (pkt : PublishPacket) (id ig : Z) (a : idAllocator) :
  wf_ids (c_ids c) -> store_ok (c_store c) -> store_room (c_store c) ->
  failed (c_quota c) = false -> 0 < avail (c_quota c) < 9223372036854775808 ->
  idAllocator_Acquire (c_ids c) = (Acquired id ig, a) -> ~ stored id StoredPublish c ->
  ((exists ch c' f, publishAcked l pkt (replicate 5 Run) c = (PWait id ch, c') /\
     PublishPacket_Encode (with_PacketID id pkt) [] = Ok f /\
     cn_w (the_conn c' l) = cn_w (the_conn c l) ++ [f] /\
     contents (c_store c') = contents (c_store c) ++ [((id, StoredPublish), Some (with_PacketID id pkt))] /\
     avail (c_quota c') = avail (c_quota c) - 1 /\ c_waiters c' !! id = Some (mkWaiter ch ackClassPublish)) \/
   (exists err c', publishAcked l pkt (replicate 10 Run) c = (PDone (Some err), c') /\
     cn_w (the_conn c' l) = cn_w (the_conn c l) /\ undone c c')) /\
  (forall err ch c', qgen (c_quota c') <> qgen (c_quota c) ->
     fold_left (fun '(pc, c) ev => pub_step l pkt ev pc c) (replicate 2 Run)
       (PUnregister (qgen (c_quota c)) id ig ch err, c') = (PDone (Some err), removeWaiter id ch c')).
Proof.
  intros Hids Hok Hroom Hf Hav Hacq Hns. split.
  2: { intros err ch c' Hg. cbn [replicate fold_left pub_step]. destruct (removeWaiter_same id ch c') as [_ ->].
       unfold quota_generation. by replace (_ =? _) with false by (symmetry; by apply Z.eqb_neq). }
  destruct (Save_total (mkStored (Some (with_PacketID id pkt)) 0 id StoredPublish) (c_store c)) as [s Hsave].
  destruct (Save_law _ _ _ Hok Hroom Hsave) as [_ Hcs]. set (c4 := at_write c id a s).
  assert (Hsplit := fun n => publishAcked_to_write l pkt c id ig a s n Hf (proj1 Hav) Hacq Hsave). fold c4 in Hsplit.
  assert (Hav4 : avail (c_quota c4) = avail (c_quota c) - 1) by (change (i64 (avail (c_quota c) - 1) = avail (c_quota c) - 1); rewrite i64_id; lia).
  pose proof (writeFrame_same (Some l) (PublishPacket_Encode (with_PacketID id pkt)) c4) as Hss.
  pose proof (writeFrame_quota (Some l) (PublishPacket_Encode (with_PacketID id pkt)) c4) as [Hqa Hqg].
  pose proof (writeFrame_socket l (PublishPacket_Encode (with_PacketID id pkt)) c4) as Hsock.
  destruct (writeFrame (Some l) (PublishPacket_Encode (with_PacketID id pkt)) c4) as [[err|] c5] eqn:Hw; cbn [snd] in *.
  - right. exists err.
    destruct (failed_send_session l pkt c id ig a s err (c_nextCh c) c4 c5) as (Hr & _ & Hc' & Hi'); try done.
    eexists. split; [change 10%nat with (4 + S 5)%nat; rewrite Hsplit; unfold pub_step at 2; by rewrite Hw|].
    split; [by rewrite <- (removeWaiter_conns id (c_nextCh c) c5 l) in Hsock|].
    split_and!; [exact Hc'|exact Hi'|..]; destruct (removeWaiter_same id (c_nextCh c) c5) as [_ Hr2]; csimp; unfold quota_releaseAt;
      rewrite Hr2, Hqg; change (qgen (c_quota c4)) with (qgen (c_quota c)); rewrite Z.eqb_refl; cbn.
    + rewrite Hqa, Hav4, i64_id by lia. lia.
    + done.
  - left. destruct Hsock as (f & He & Hsock). exists (c_nextCh c), c5, f. change 5%nat with (4 + S 0)%nat. rewrite Hsplit. cbn [replicate fold_left].
    unfold pub_step. rewrite Hw. split_and!; [done|done|exact Hsock|..].
    + rewrite (ss_store _ _ Hss). change (c_store c4) with s. rewrite Hcs. unfold save_entry. by rewrite decide_False.
    + by rewrite Hqa.
    + destruct (writeFrame_sent _ _ _ _ Hw) as (k & g & ->). csimp. apply lookup_insert_eq.
Qed.

(** A packet that cannot be encoded. *)
Lemma unsent_publish_undone_witness :
  let pkt := mkPublish 9 (gostr "t") [] 1 false false 0 None in
  exists err c', publishAcked 0 pkt (replicate 10 Run) demo = (PDone (Some err), c') /\
    cn_w (the_conn c' 0) = cn_w (the_conn demo 0) /\ undone demo c'.
Proof.
  intros pkt.
  assert (Hids : c_ids demo = newIds) by (vm_compute; reflexivity).
  assert (Hst : c_store demo = newMemStore) by (vm_compute; reflexivity).
  destruct (unsent_publish_undone demo 0 pkt 1 0 (marked newIds 1)) as [[(ch & c' & f & H & _)|H] _].
  - rewrite Hids. exact wf_newIds.
  - rewrite Hst. exact wf_newMemStore.
  - rewrite Hst. by_decide.
  - vm_compute. reflexivity.
  - vm_compute. auto.
  - rewrite Hids. vm_compute. reflexivity.
  - unfold stored. rewrite Hst. apply not_elem_of_nil.
  - exfalso. assert (Hpc : (publishAcked 0 pkt (replicate 5 Run) demo).1 = PWait 1 ch) by (rewrite H; reflexivity).
    revert Hpc. vm_compute. discriminate.
  - exact H.
Defined.
