(* ===== verification/LinkFacts.v ===== *)
(** The loops of a connection: protocol violations end it, and the watchdog ends
    it exactly when the broker stops answering. *)

From S2P Require Import Prelude GoStrings Codes Wire WireFacts Props PropsFacts PublishPackets ControlPackets.
From S2P Require Import SubscribePackets Topic SessionStore Errors IdAllocator Quota Subscriptions Lifecycle.
From S2P Require Import Client Pump Requests Connection ClientFacts.
From stdpp Require Import options.

(** * Protocol violations *)

Definition is_err {A} (r : res A) : bool := match r with Err _ => true | Ok _ => false end.

(** A topic alias a server must not use (MQTT 5.0, 3.3.2.3.4): zero, above the
    maximum the client announced, or, on an empty topic, one that no PUBLISH of
    the connection has bound. *)
Definition alias_misused (max : Z) (bound : gmap Z (list Z)) (pub : PublishPacket) : bool :=
  match pub_Properties pub ≫= TopicAlias with
  | None => false
  | Some alias => (alias =? 0) || (max <? alias) ||
      (bool_decide (pub_Topic pub = []) && bool_decide (bound !! alias = None))
  end.

(** The reason code with which a client ends the connection over a frame, if it
    does: a packet that cannot be decoded, a PUBLISH that misuses a topic alias,
    or a packet that only a client may send (or that this client never asked
    for). *)
Definition violation (v max : Z) (bound : gmap Z (list Z)) (frame : Frame) : option Z :=
  let t := Frame_PacketType frame in
  let malformed (bad : bool) := if bad then Some MalformedPacketReason else None in
  if is_err (Frame_ValidateFlags frame) then Some MalformedPacketReason
  else if t =? Publish then
    match DecodePublish v (Header frame) (Body frame) with
    | Err _ => Some MalformedPacketReason
    | Ok pub => if alias_misused max bound pub then Some TopicAliasInvalid else None
    end
  else if (t =? Puback) || (t =? Pubrec) || (t =? Pubrel) || (t =? Pubcomp)
  then malformed (is_err (DecodeAck v t (Body frame)))
  else if t =? Suback then malformed (is_err (DecodeSuback v (Body frame)))
  else if t =? Unsuback then malformed (is_err (DecodeUnsuback v (Body frame)))
  else if (t =? Pingresp) || (t =? Disconnect) then None
  else Some ProtocolErrorReason.

(** The DISCONNECT with a reason code. *)
Definition disconnect_frame (rc : Z) : list Z := [0xE0; 2; rc; 0].

Section links.
Context {St : Type} {HS : SessionStore St} {HC : ContainsStore St} {HE : Environment St}.
Implicit Types c : client St.

Definition sent_on c (l : nat) : list (list Z) := cn_w (the_conn c l).

(** The socket of the link takes this frame. *)
Definition accepts c (l : nat) (frame : list Z) : Prop :=
  cn_closed (the_conn c l) = false /\ net (l_conn (the_link c l)) (sent_on c l) frame = true /\
  (l_outboundMax (the_link c l) = 0 \/ len frame <= l_outboundMax (the_link c l)).

Lemma writeFrame_accepted c l encode frame : encode [] = Ok frame -> in_u32 (len frame) -> accepts c l frame ->
  exists c', writeFrame (Some l) encode c = (None, c') /\ c_links c' = c_links c /\ c_link c' = c_link c /\
    c_conns c' = <[l_conn (the_link c l) := set_cn_w (sent_on c l ++ [frame]) (the_conn c l)]> (c_conns c) /\
    sent_on c' l = sent_on c l ++ [frame].
Proof.
  intros He Hu (Hc & Hn & Hmax). simpl. rewrite He, cmd_bind_eq. unfold gets.
  replace (negb _ && _) with false by (rewrite u32_id by done; destruct Hmax as [-> |]; lia).
  rewrite !cmd_bind_eq. unfold conn_write. unfold the_conn in Hc. rewrite Hc. cbn [negb andb].
  unfold sent_on, the_conn in Hn. rewrite Hn. eexists. split_and!; [done..|].
  unfold sent_on, the_conn, the_link. cbn [snd]. unfold upd_conn. csimp. by rewrite lookup_total_insert_eq.
Qed.

(** What the end of a link looks like. *)
Definition ended (l : nat) c : Prop := isStopping l c = true /\ cn_closed (the_conn c l) = true /\ c_link c <> Some l.

Lemma teardown_ended l g c : isStopping l c = false -> ended l (teardownLink l g c).
Proof.
  intros Hst. destruct (teardown_links l g c Hst) as [Hl Hk]. split_and!; [apply teardown_stops|..].
  - unfold the_conn, the_link. rewrite Hl, Hk, lookup_total_insert_eq. csimp. by rewrite lookup_total_insert_eq.
  - destruct (decide (c_link c = Some l)) as [E|E].
    + by destruct (teardown_current l g c Hst E) as (-> & _).
    + by destruct (teardown_other l g c E) as (-> & _).
Qed.

Lemma teardown_sent l g c : sent_on (teardownLink l g c) l = sent_on c l.
Proof. apply teardown_wrote. Qed.

Lemma writeFrame_ended l encode c : isStopping l c = false ->
  isStopping l (writeFrame (Some l) encode c).2 = false \/ ended l (writeFrame (Some l) encode c).2.
Proof.
  intros Hst. simpl. destruct (encode []) as [buf|e]; [|by left]. rewrite cmd_bind_eq. unfold gets.
  destruct (negb _ && _); [by left|]. rewrite !cmd_bind_eq. unfold conn_write.
  destruct (negb (cn_closed _) && _); [by left|]. right. rewrite cmd_bind_eq. unfold upd. by apply teardown_ended.
Qed.

Lemma protocolError_spec l rc c : isStopping l c = false -> in_u8 rc -> rc <> 0 ->
  let c' := (protocolError l rc c).2 in
  ended l c' /\ same_session c c' /\
  (c_version c <> V50 -> sent_on c' l = sent_on c l) /\
  (c_version c = V50 -> accepts c l (disconnect_frame rc) -> sent_on c' l = sent_on c l ++ [disconnect_frame rc]).
Proof.
  intros Hst Hrc Hnz. split_and!.
  - unfold protocolError. rewrite cmd_bind_eq. unfold gets. rewrite cmd_bind_eq.
    destruct (_ =? V50); [|by apply teardown_ended].
    match goal with |- context [writeFrame (Some l) ?e c] => pose proof (writeFrame_ended l e c Hst) as Hw;
      destruct (writeFrame (Some l) e c) as [err c1] end. cbn [snd] in *. unfold upd. cbn [snd].
    destruct Hw as [Hw|Hw]; [by apply teardown_ended|]. rewrite teardown_idem; [done|apply Hw].
  - apply protocolError_same.
  - intros Hv. unfold protocolError. rewrite cmd_bind_eq. unfold gets. rewrite cmd_bind_eq.
    replace (c_version c =? V50) with false by lia. apply teardown_sent.
  - intros Hv Hacc. unfold protocolError. rewrite cmd_bind_eq. unfold gets. rewrite cmd_bind_eq.
    replace (c_version c =? V50) with true by lia.
    destruct (writeFrame_accepted c l (DisconnectPacket_Encode (mkDisconnect (c_version c) rc None)) (disconnect_frame rc))
      as (c1 & -> & _ & _ & _ & Hs); [|by_decide|done|].
    + unfold DisconnectPacket_Encode. simpl. rewrite Hv. cbn [Z.eqb V50 V311 Pos.eqb].
      replace (rc =? 0) with false by lia. done.
    + unfold upd. cbn [snd]. by rewrite teardown_sent.
Qed.

Lemma handle_err l rc c : ((_ ← protocolError l rc; mret false) : cmd St bool) c = (false, (protocolError l rc c).2).
Proof. rewrite cmd_bind_eq. by destruct (protocolError l rc c). Qed.

Lemma handleAck_err l frame t c : is_err (DecodeAck (c_version c) t (Body frame)) = true ->
  handleAck l frame t c = (false, (protocolError l MalformedPacketReason c).2).
Proof.
  intros H. unfold handleAck. rewrite cmd_bind_eq. unfold gets. destruct (DecodeAck _ _ _); [done|]. apply handle_err.
Qed.

(** The violation a client sees in a frame of one of its links. *)
Definition violation_on c (l : nat) (frame : Frame) : option Z :=
  violation (c_version c) (cf_TopicAliasMaximum (c_cfg c)) (l_aliases (the_link c l)) frame.

Lemma resolveTopicAlias_misused l pub c :
  alias_misused (cf_TopicAliasMaximum (c_cfg c)) (l_aliases (the_link c l)) pub = true -> resolveTopicAlias l pub c = (None, c).
Proof.
  unfold alias_misused, resolveTopicAlias. destruct (pub_Properties pub) as [pr|]; [|done]. simpl.
  destruct (TopicAlias pr) as [a|]; [|done]. rewrite cmd_bind_eq. unfold gets. rewrite Z.gtb_ltb.
  destruct ((a =? 0) || _); [done|]. simpl. case_bool_decide; [|done]. simpl. case_bool_decide as Hn; [|done]. by rewrite Hn.
Qed.

Lemma handleFrame_violation l frame rc c : is_err (Frame_ValidateFlags frame) = false ->
  violation_on c l frame = Some rc -> handleFrame l frame c = (false, (protocolError l rc c).2).
Proof.
  intros Hf. unfold violation_on, violation, handleFrame. cbv beta zeta. rewrite Hf.
  destruct (Frame_PacketType frame =? Publish) eqn:E1.
  { unfold handlePublish. rewrite cmd_bind_eq. unfold gets. destruct (DecodePublish _ _ _) as [pub|].
    - destruct (alias_misused _ _ _) eqn:Ea; [|done]. intros [= <-]. rewrite cmd_bind_eq, resolveTopicAlias_misused by done.
      apply handle_err.
    - intros [= <-]. apply handle_err. }
  destruct (Frame_PacketType frame =? Puback) eqn:E2; cbn [orb].
  { apply Z.eqb_eq in E2. rewrite E2. destruct (is_err (DecodeAck _ _ _)) eqn:Ed; [|intros [=]]. intros [= <-]. by apply handleAck_err. }
  destruct (Frame_PacketType frame =? Pubrec) eqn:E3; cbn [orb].
  { apply Z.eqb_eq in E3. rewrite E3. destruct (is_err (DecodeAck _ _ _)) eqn:Ed; [|intros [=]]. intros [= <-]. by apply handleAck_err. }
  destruct (Frame_PacketType frame =? Pubrel) eqn:E4; cbn [orb].
  { apply Z.eqb_eq in E4. rewrite E4. destruct (DecodeAck _ _ _) eqn:Ed; [done|]. intros [= <-].
    unfold handleInboundPubrel. rewrite cmd_bind_eq. unfold gets. rewrite Ed. apply handle_err. }
  destruct (Frame_PacketType frame =? Pubcomp) eqn:E5.
  { apply Z.eqb_eq in E5. rewrite E5. destruct (is_err (DecodeAck _ _ _)) eqn:Ed; [|intros [=]]. intros [= <-]. by apply handleAck_err. }
  destruct (Frame_PacketType frame =? Suback).
  { destruct (DecodeSuback _ _) eqn:Ed; [done|]. intros [= <-]. unfold handleSuback. rewrite cmd_bind_eq. unfold gets.
    rewrite Ed. apply handle_err. }
  destruct (Frame_PacketType frame =? Unsuback).
  { destruct (DecodeUnsuback _ _) eqn:Ed; [done|]. intros [= <-]. unfold handleUnsuback. rewrite cmd_bind_eq. unfold gets.
    rewrite Ed. apply handle_err. }
  destruct (Frame_PacketType frame =? Pingresp); [done|]. destruct (Frame_PacketType frame =? Disconnect); [done|].
  destruct (Frame_PacketType frame =? Auth); intros [= <-]; apply handle_err.
Qed.

Lemma violation_range v max bound frame rc : violation v max bound frame = Some rc -> in_u8 rc /\ rc <> 0.
Proof.
  unfold violation. destruct (DecodePublish v (Header frame) (Body frame));
  repeat match goal with |- context [if ?b then _ else _] => destruct b end; intros [= <-]; by_decide.
Qed.

(** The turn of the read loop that meets a violation. *)
Lemma violation_turn c l frame rest rc :
  ReadFrame (cn_r (the_conn c l)) (l_inboundMax (the_link c l)) = Ok (frame, rest) ->
  isStopping l c = false -> violation_on c l frame = Some rc ->
  exists c', readLoop_turn l c = (false, c') /\ ended l c' /\ same_session c c' /\
    (c_version c <> V50 -> sent_on c' l = sent_on c l) /\
    (c_version c = V50 -> accepts c l (disconnect_frame rc) -> sent_on c' l = sent_on c l ++ [disconnect_frame rc]).
Proof.
  intros Hread Hst Hv. destruct (violation_range _ _ _ _ _ Hv) as [Hu Hnz].
  unfold readLoop_turn. rewrite !cmd_bind_eq. unfold gets. rewrite !cmd_bind_eq, Hread, !cmd_bind_eq. unfold upd.
  set (c1 := upd_conn (l_conn (the_link c l)) (set_cn_r rest) c). rewrite cmd_bind_eq.
  change (isStopping l c1) with (isStopping l c). rewrite Hst.
  assert (Hs1 : sent_on c1 l = sent_on c l /\ cn_closed (the_conn c1 l) = cn_closed (the_conn c l)).
  { unfold sent_on, the_conn, the_link, c1, upd_conn. csimp. by rewrite lookup_total_insert_eq. }
  destruct Hs1 as [Hs1 Hc1]. destruct (protocolError_spec l rc c1 Hst Hu Hnz) as (H1 & H2 & H3 & H4).
  exists (protocolError l rc c1).2. split_and!.
  - destruct (is_err (Frame_ValidateFlags frame)) eqn:Ef.
    + unfold violation_on, violation in Hv. rewrite Ef in Hv. injection Hv as <-.
      destruct (Frame_ValidateFlags frame); [done|]. apply handle_err.
    + destruct (Frame_ValidateFlags frame) eqn:Efl; [|done].
      apply (handleFrame_violation l frame rc c1); [by rewrite Efl|exact Hv].
  - done.
  - etrans; [|exact H2]. done.
  - intros Hv'. rewrite <- Hs1. by apply H3.
  - intros Hv' (A1 & A2 & A3). rewrite <- Hs1. apply H4; [done|]. split_and!; [by rewrite Hc1|by rewrite Hs1|done].
Qed.
End links.



(** * The keep-alive watchdog *)

(** A tick of the keep-alive timer, or a PINGRESP taken by the read loop. *)
Inductive ping_event : Type := Tick | Pong.

Definition pong_frame : Frame := mkFrame 0xD0 [].
Definition pingreq_frame : list Z := [0xC0; 0].

Section watchdog.
Context {St : Type} {HS : SessionStore St} {HC : ContainsStore St} {HE : Environment St}.
Implicit Types c : client St.

(** Both loops end once the link stops. *)
Definition ping_step (l : nat) c (e : ping_event) : client St :=
  if isStopping l c then c
  else match e with
  | Tick => (keepAliveLoop_tick l c).2
  | Pong => (handleFrame l pong_frame c).2
  end.

Definition ping_run (l : nat) (es : list ping_event) c : client St := fold_left (ping_step l) es c.

(** The link is up, its socket takes PINGREQ frames, and [n] of them are
    unanswered. *)
Record healthy (l : nat) (n : Z) c : Prop := {
  hl_up : isStopping l c = false;
  hl_open : cn_closed (the_conn c l) = false;
  hl_max : l_outboundMax (the_link c l) = 0 \/ 2 <= l_outboundMax (the_link c l);
  hl_net sent : net (l_conn (the_link c l)) sent pingreq_frame = true;
  hl_pings : l_outstandingPings (the_link c l) = n
}.

Lemma healthy_link l n c c' : healthy l n c -> l_stop (the_link c' l) = l_stop (the_link c l) ->
  l_conn (the_link c' l) = l_conn (the_link c l) -> l_outboundMax (the_link c' l) = l_outboundMax (the_link c l) ->
  cn_closed (the_conn c' l) = cn_closed (the_conn c l) -> healthy l (l_outstandingPings (the_link c' l)) c'.
Proof.
  intros [H1 H2 H3 H4 H5] E1 E2 E3 E4. unfold isStopping in H1. split; [unfold isStopping; congruence|congruence|by rewrite E3| |done].
  intros sent. rewrite E2. apply H4.
Qed.

Lemma set_pings_healthy l n m c : healthy l n c -> healthy l m (upd_link l (set_l_outstandingPings m) c).
Proof.
  intros H. assert (E : the_link (upd_link l (set_l_outstandingPings m) c) l = set_l_outstandingPings m (the_link c l))
    by (rewrite the_link_upd, decide_True by done; done).
  replace m with (l_outstandingPings (the_link (upd_link l (set_l_outstandingPings m) c) l)) at 1 by (by rewrite E).
  apply (healthy_link l n c); unfold the_conn; rewrite ?E; done.
Qed.

Lemma tick_healthy l n c : healthy l n c -> n < 2 -> healthy l (n + 1) (ping_step l c Tick).
Proof.
  intros H Hn. unfold ping_step. rewrite (hl_up _ _ _ H). unfold keepAliveLoop_tick. rewrite cmd_bind_eq. unfold gets.
  rewrite (hl_pings _ _ _ H). unfold pingTimeoutThreshold. replace (n >=? 2) with false by lia.
  rewrite cmd_bind_eq. unfold upd. rewrite cmd_bind_eq. set (c1 := upd_link _ _ c).
  assert (H1 : healthy l (n + 1) c1) by (by apply (set_pings_healthy l n)).
  destruct (writeFrame_accepted c1 l EncodePingReq pingreq_frame) as (c2 & -> & L2 & _ & K2 & _); [done|by_decide| |].
  { split_and!; [apply H1|apply H1|exact (hl_max _ _ _ H1)]. }
  cbn [snd mret cmd_ret]. assert (Hl : the_link c2 l = the_link c1 l) by (unfold the_link; by rewrite L2).
  replace (n + 1) with (l_outstandingPings (the_link c2 l)) by (rewrite Hl; apply H1).
  apply (healthy_link l (n + 1) c1); rewrite ?Hl; try done. unfold the_conn. rewrite Hl, K2, lookup_total_insert_eq. done.
Qed.

Lemma tick_dies l c : healthy l 2 c -> isStopping l (ping_step l c Tick) = true.
Proof.
  intros H. unfold ping_step. rewrite (hl_up _ _ _ H). unfold keepAliveLoop_tick. rewrite cmd_bind_eq. unfold gets.
  rewrite (hl_pings _ _ _ H). cbn [Z.geb pingTimeoutThreshold Z.compare Pos.compare Pos.compare_cont].
  rewrite cmd_bind_eq. apply teardown_stops.
Qed.

Lemma pong_healthy l n c : healthy l n c -> healthy l 0 (ping_step l c Pong).
Proof. intros H. unfold ping_step. rewrite (hl_up _ _ _ H). by apply (set_pings_healthy l n). Qed.

Lemma ping_run_stopped l es c : isStopping l c = true -> isStopping l (ping_run l es c) = true.
Proof.
  revert c. induction es as [|e es IH]; intros c H; [done|]. apply IH. unfold ping_step. by rewrite H.
Qed.

Definition three_ticks (es : list ping_event) : Prop := exists a b, es = a ++ [Tick; Tick; Tick] ++ b.

Lemma three_ticks_cons e es : three_ticks es -> three_ticks (e :: es).
Proof. intros (a & b & ->). by exists (e :: a), b. Qed.

Lemma three_ticks_inv e es : three_ticks (e :: es) -> three_ticks es \/ exists b, e :: es = [Tick; Tick; Tick] ++ b.
Proof. intros ([|e' a] & b & H); [right; by exists b|left]. injection H as _ ->. by exists a, b. Qed.

(** [k] more ticks in a row, or three anywhere, stop the link. *)
Lemma ping_run_spec l es c (k : nat) : (1 <= k <= 3)%nat -> healthy l (3 - Z.of_nat k) c ->
  isStopping l (ping_run l es c) = true <-> (exists b, es = replicate k Tick ++ b) \/ three_ticks es.
Proof.
  revert c k. induction es as [|e es IH]; intros c k Hk Hh.
  - simpl. rewrite (hl_up _ _ _ Hh). split; [done|].
    intros [[b H]|([|] & b & H)]; [|done..]. destruct k; [lia|done].
  - change (ping_run l (e :: es) c) with (ping_run l es (ping_step l c e)). destruct e.
    + destruct (decide (k = 1)%nat) as [->|Hk1].
      { split; [|intros _; by apply ping_run_stopped, tick_dies]. intros _. left. by exists es. }
      rewrite (IH _ (k - 1)%nat); [|lia|].
      2: { replace (3 - Z.of_nat (k - 1)) with (3 - Z.of_nat k + 1) by lia. apply tick_healthy; [done|lia]. }
      destruct k as [|k]; [lia|]. replace (S k - 1)%nat with k by lia. split.
      * intros [[b ->]|H]; [left; by exists b|right; by apply three_ticks_cons].
      * intros [[b [= ->]]|[H|[b H]]%three_ticks_inv]; [left; by exists b|by right|].
        injection H as ->. left. destruct k as [|[|[|k]]]; [lia|by eexists|by eexists|lia].
    + rewrite (IH _ 3%nat); [|lia|by apply (pong_healthy l (3 - Z.of_nat k))]. split.
      * intros [[b ->]|H]; right; [by exists [Pong], b|by apply three_ticks_cons].
      * intros [[b H]|[H|[b H]]%three_ticks_inv]; [destruct k; [lia|done]|by right|done].
Qed.
End watchdog.

(** C36.  The watchdog is exact.  On a connection whose socket takes every PINGREQ,
    starting with none outstanding, the link is torn down within a sequence of
    timer ticks and PINGRESP packets if and only if three ticks follow each other
    without an answer in between: a dead broker is noticed at the third tick, and
    a broker that answers one of any two pings is never dropped. *)
Theorem watchdog_exact {St} {HS : SessionStore St} {HC : ContainsStore St} {HE : Environment St}
    (c : client St) (l : nat) (es : list ping_event) :
  healthy l 0 c ->
  isStopping l (ping_run l es c) = true <-> exists a b, es = a ++ [Tick; Tick; Tick] ++ b.
Proof.
  intros H. rewrite (ping_run_spec l es c 3) by (done || lia). split; [|by right].
  intros [[b ->]|H']; [by exists [], b|done].
Qed.

Lemma watchdog_exact_witness :
  isStopping 0 (ping_run 0 [Tick; Tick; Pong; Tick; Tick; Tick] demo) = true /\
  isStopping 0 (ping_run 0 [Tick; Tick; Pong; Tick; Tick; Pong] demo) = false.
Proof.
  assert (H : healthy 0 0 demo) by (split; [vm_compute; reflexivity..|left; vm_compute; reflexivity|reflexivity|vm_compute; reflexivity]).
  split; [apply (watchdog_exact demo 0 _ H); by exists [Tick; Tick; Pong], []|].
  apply not_true_is_false. rewrite (watchdog_exact demo 0 _ H).
  intros ([|? [|? [|? [|? a]]]] & b & E); try discriminate E. destruct a as [|? [|? [|? a]]]; discriminate E.
Defined.

(** The keep-alive loop does nothing when the broker switched it off, and
    otherwise only returns when the link is stopped. *)
Lemma keepAliveLoop_disabled {St} {HS : SessionStore St} {HC : ContainsStore St} {HE : Environment St}
    (c : client St) (l : nat) (evs : list keepAlive_event) :
  l_pingInterval (the_link c l) <= 0 -> (keepAliveLoop l evs c).2 = c.
Proof. intros Hi. unfold keepAliveLoop. rewrite cmd_bind_eq. unfold gets. by rewrite (proj2 (Z.leb_le _ _) Hi). Qed.

Lemma keepAliveLoop_exits {St} {HS : SessionStore St} {HC : ContainsStore St} {HE : Environment St}
    (c : client St) (l : nat) (evs : list keepAlive_event) :
  (keepAliveLoop l evs c).1 = false -> KaStop ∈ evs \/ isStopping l (keepAliveLoop l evs c).2 = true.
Proof.
  unfold keepAliveLoop. rewrite cmd_bind_eq. unfold gets. destruct (_ <=? 0).
  { simpl. intros H%negb_false_iff%bool_decide_eq_true. by left. }
  revert c. induction evs as [|[] evs IH]; intros c; [done| |left; apply list_elem_of_here].
  cbn [keepAliveLoop_run]. rewrite cmd_bind_eq.
  assert (Ht : (keepAliveLoop_tick l c).1 = false -> isStopping l (keepAliveLoop_tick l c).2 = true).
  { unfold keepAliveLoop_tick. rewrite cmd_bind_eq. unfold gets. destruct (_ >=? _); [intros _; apply teardown_stops|].
    rewrite !cmd_bind_eq. unfold upd at 1 3. rewrite cmd_bind_eq. destruct (writeFrame _ _ _) as [[e|] c1]; [|done].
    intros _. apply teardown_stops. }
  destruct (keepAliveLoop_tick l c) as [[] c1]; [|intros _; right; by apply Ht].
  intros H. destruct (IH c1 H) as [?|?]; [left; by apply list_elem_of_further|by right].
Qed.

(** * Topic aliases *)

Definition alias_of (p : PublishPacket) : option Z := pub_Properties p ≫= TopicAlias.

(** [p] sets the alias [a], under the advertised maximum. *)
Definition sets_alias (max a : Z) (p : PublishPacket) : Prop :=
  alias_of p = Some a /\ 0 <> a /\ a <= max /\ pub_Topic p <> [].
#[export] Instance sets_alias_dec max a p : Decision (sets_alias max a p).
Proof. unfold sets_alias. apply _. Defined.

Section aliases.
Context {St : Type}.
Implicit Types c : client St.

(** The read loop resolves one PUBLISH after the other. *)
Definition resolve_all (l : nat) (ps : list PublishPacket) c : client St :=
  fold_left (fun c p => (resolveTopicAlias l p c).2) ps c.

Lemma resolve_alias_eq l p a c : alias_of p = Some a ->
  resolveTopicAlias l p c =
  if (a =? 0) || (a >? cf_TopicAliasMaximum (c_cfg c)) then (None, c)
  else if bool_decide (pub_Topic p = []) then (l_aliases (the_link c l) !! a, c)
  else (Some (pub_Topic p), upd_link l (fun k => set_l_aliases (<[a := pub_Topic p]> (l_aliases k)) k) c).
Proof.
  unfold alias_of, resolveTopicAlias. destruct (pub_Properties p) as [pr|]; [|done]. simpl. intros ->.
  rewrite cmd_bind_eq. unfold gets. destruct (_ || _); [done|]. by case_bool_decide.
Qed.

Lemma resolve_noalias_eq l p c : alias_of p = None -> resolveTopicAlias l p c = (Some (pub_Topic p), c).
Proof.
  unfold alias_of, resolveTopicAlias. destruct (pub_Properties p) as [pr|]; [|done]. simpl. by intros ->.
Qed.

Lemma resolve_all_aliases l ps c a : l_aliases (the_link c l) = ∅ ->
  c_cfg (resolve_all l ps c) = c_cfg c /\
  l_aliases (the_link (resolve_all l ps c) l) !! a =
    pub_Topic <$> last (filter (sets_alias (cf_TopicAliasMaximum (c_cfg c)) a) ps).
Proof.
  intros H0. induction ps as [|p ps [IHc IH]] using rev_ind; [simpl; by rewrite H0|].
  unfold resolve_all. rewrite fold_left_app. cbn [fold_left]. fold (resolve_all l ps c).
  set (c1 := resolve_all l ps c) in *. rewrite filter_app, last_app, filter_cons.
  destruct (alias_of p) as [b|] eqn:Hb.
  - rewrite (resolve_alias_eq l p b) by done. rewrite IHc.
    destruct ((b =? 0) || (b >? cf_TopicAliasMaximum (c_cfg c))) eqn:Er.
    { cbn [snd]. rewrite decide_False; [done|]. intros (Ha & ? & ? & _). assert (a = b) as -> by congruence. lia. }
    case_bool_decide as Ht; cbn [snd].
    { rewrite decide_False; [done|]. by intros (_ & _ & _ & ?). }
    split; [exact IHc|]. rewrite the_link_upd, decide_True by done. csimp.
    destruct (decide (b = a)) as [->|Hne].
    + rewrite lookup_insert_eq, decide_True; [done|]. split_and!; [done|lia|lia|done].
    + rewrite lookup_insert_ne, decide_False; [exact IH|intros (? & _); congruence|done].
  - rewrite resolve_noalias_eq by done. cbn [snd]. rewrite decide_False; [done|]. intros (? & _). congruence.
Qed.
End aliases.

(** Topic aliases resolve to the topic last sent with them.  On a fresh link,
    after any sequence of inbound PUBLISH packets, a PUBLISH without an alias
    keeps its topic; an alias of zero or above the advertised maximum is refused;
    a PUBLISH with an alias and a topic keeps its topic; and one with an alias
    and no topic gets the topic of the latest accepted PUBLISH that set the
    alias, or is refused when there is none. *)
Theorem topic_alias_resolution {St} (c : client St) (l : nat) (ps : list PublishPacket) (p : PublishPacket) :
  l_aliases (the_link c l) = ∅ ->
  let max := cf_TopicAliasMaximum (c_cfg c) in
  (resolveTopicAlias l p (resolve_all l ps c)).1 =
  match alias_of p with
  | None => Some (pub_Topic p)
  | Some a =>
    if decide (a = 0 \/ max < a) then None
    else if decide (pub_Topic p = []) then pub_Topic <$> last (filter (sets_alias max a) ps)
    else Some (pub_Topic p)
  end.
Proof.
  intros H0 max. destruct (alias_of p) as [a|] eqn:Ha; [|by rewrite resolve_noalias_eq].
  destruct (resolve_all_aliases l ps c a H0) as [Hc Hl]. rewrite (resolve_alias_eq l p a) by done. rewrite Hc. fold max.
  destruct ((a =? 0) || (a >? max)) eqn:Er; [rewrite decide_True by lia; done|]. rewrite decide_False by lia.
  case_bool_decide as Ht; [rewrite decide_True by done; exact Hl|by rewrite decide_False].
Qed.

Definition aliased (topic : list Z) (a : Z) : PublishPacket :=
  mkPublish V50 topic [] 0 false false 0 (Some (set_TopicAlias (Some a) emptyProperties)).

Lemma topic_alias_resolution_witness :
  (resolveTopicAlias 0 (aliased [] 3) (resolve_all 0 [aliased (gostr "a") 3; aliased (gostr "b") 3; aliased (gostr "c") 4] demo)).1
  = Some (gostr "b").
Proof.
  rewrite (topic_alias_resolution demo 0 [aliased (gostr "a") 3; aliased (gostr "b") 3; aliased (gostr "c") 4]);
    vm_compute; reflexivity.
Defined.
