(* ===== verification/ReadLoopFacts.v ===== *)
(** Termination of the read loop (pump.go).  Every turn consumes input and every
    exit leaves the link torn down, shown with a small logic of commands: [owned]
    says that a command leaves the reader of a link to its read loop, [exits]
    that a handler which ends the loop has torn the link down. *)

From S2P Require Import Prelude GoStrings Codes Wire WireFacts Props PropsFacts PublishPackets ControlPackets.
From S2P Require Import SubscribePackets Topic SessionStore Errors IdAllocator Quota Subscriptions Lifecycle.
From S2P Require Import Client Pump Requests Connection ClientFacts.
From stdpp Require Import options.

Create HintDb reader discriminated.

Section reader.
Context {St : Type} {HS : SessionStore St} {HC : ContainsStore St} {HE : Environment St}.
Implicit Types c : client St.

(** The unread input of the link is the same, and a torn down link stays so. *)
Record keeps (l : nat) c c' : Prop := {
  kp_conn : l_conn (the_link c' l) = l_conn (the_link c l);
  kp_input : cn_r (the_conn c' l) = cn_r (the_conn c l);
  kp_stop : isStopping l c = true -> isStopping l c' = true
}.

#[export] Instance keeps_refl l : Reflexive (keeps l).
Proof. by split. Qed.
#[export] Instance keeps_trans l : Transitive (keeps l).
Proof. intros c1 c2 c3 [] []. split; [congruence|congruence|auto]. Qed.

(** Handlers, and what runs next to them, do not read from the socket of a
    connection, and a closed stop channel is never opened again. *)
Class ReaderOwned : Prop := callback_keeps h m l c : keeps l c (callback h m c).

(** ** Updates *)

Lemma keeps_fields l c c' : c_links c' = c_links c -> c_conns c' = c_conns c -> keeps l c c'.
Proof. intros Hl Hk. split; unfold the_conn, isStopping, the_link; by rewrite ?Hl, ?Hk. Qed.

Lemma keeps_upd_link l l' f c : (forall k, l_conn (f k) = l_conn k) -> (forall k, l_stop k = true -> l_stop (f k) = true) ->
  keeps l c (upd_link l' f c).
Proof.
  intros Hc Hs. assert (He : l_conn (the_link (upd_link l' f c) l) = l_conn (the_link c l)).
  { rewrite the_link_upd. case_decide; subst; [apply Hc|done]. }
  split; [done|by unfold the_conn; rewrite He|]. unfold isStopping. rewrite the_link_upd.
  case_decide; subst; [apply Hs|done].
Qed.

Lemma keeps_upd_conn l k f c : (forall x, cn_r (f x) = cn_r x) -> keeps l c (upd_conn k f c).
Proof.
  intros Hf. split; [done| |done]. unfold the_conn, upd_conn. csimp.
  change (the_link (set_conns _ c) l) with (the_link c l).
  destruct (decide (k = l_conn (the_link c l))) as [->|Hne].
  - by rewrite lookup_total_insert_eq, Hf.
  - by rewrite lookup_total_insert_ne.
Qed.

Lemma keeps_teardown l l' g c : keeps l c (teardownLink l' g c).
Proof.
  unfold teardownLink. destruct (isStopping l' c); [done|].
  set (c1 := upd_link l' (set_l_stop true) c). set (c2 := upd_conn _ _ c1).
  assert (H : keeps l c c2).
  { trans c1; [by apply keeps_upd_link|by apply keeps_upd_conn]. }
  clearbody c2. destruct (negb _); [done|]. destruct (negb g); (etrans; [exact H|by apply keeps_fields]).
Qed.

(** ** Commands *)

Definition owned (l : nat) {A} (m : cmd St A) : Prop := forall c, keeps l c (m c).2.

Definition exits (l : nat) (m : cmd St bool) : Prop :=
  forall c, keeps l c (m c).2 /\ ((m c).1 = false -> isStopping l (m c).2 = true).

Lemma owned_ret l {A} (a : A) : owned l (mret a).
Proof. by intros c. Qed.
Lemma owned_gets l {A} (f : client St -> A) : owned l (gets f).
Proof. by intros c. Qed.
Lemma owned_upd l f : (forall c, keeps l c (f c)) -> owned l (upd f).
Proof. intros Hf c. apply Hf. Qed.
Lemma owned_bind l {A B} (m : cmd St A) (f : A -> cmd St B) :
  owned l m -> (forall a, owned l (f a)) -> owned l (m ≫= f).
Proof. intros Hm Hf c. rewrite cmd_bind_eq. specialize (Hm c). destruct (m c) as [a c1]. etrans; [exact Hm|apply Hf]. Qed.

Lemma exits_true l : exits l (mret true).
Proof. by intros c. Qed.
Lemma exits_bind l {A} (m : cmd St A) (f : A -> cmd St bool) :
  owned l m -> (forall a, exits l (f a)) -> exits l (m ≫= f).
Proof.
  intros Hm Hf c. rewrite cmd_bind_eq. specialize (Hm c). destruct (m c) as [a c1]. simpl in Hm.
  destruct (Hf a c1) as [Hk He]. split; [by etrans|done].
Qed.
(** [if isStopping(l) { return false }]. *)
Lemma exits_stopping l m : exits l m ->
  exits l (stopping ← gets (isStopping l); if (stopping : bool) then mret false else m).
Proof. intros Hm c. rewrite cmd_bind_eq. unfold gets. destruct (isStopping l c) eqn:E; [by split|apply Hm]. Qed.
(** A call that tears the link down, then [return false]. *)
Lemma exits_torn l {A} (m : cmd St A) : owned l m -> (forall c, isStopping l (m c).2 = true) ->
  exits l (_ ← m; mret false).
Proof. intros Hm Hs c. rewrite cmd_bind_eq. specialize (Hm c). specialize (Hs c). by destruct (m c). Qed.

(** ** The operations of the client *)

Lemma owned_conn_write l k frame : owned l (conn_write k frame).
Proof. intros c. unfold conn_write. destruct (negb _ && _); [by apply keeps_upd_conn|done]. Qed.

Lemma owned_writeFrame l o encode : owned l (writeFrame o encode).
Proof.
  destruct o as [l'|]; [|by intros c]. simpl. destruct (encode []); [|by intros c].
  apply owned_bind; [apply owned_gets|]. intros max. intros c. destruct (negb _ && _); [done|]. revert c.
  apply owned_bind; [apply owned_gets|]. intros k. apply owned_bind; [apply owned_conn_write|].
  intros []; [apply owned_ret|]. apply owned_bind; [|intros; apply owned_ret].
  apply owned_upd. intros c. apply keeps_teardown.
Qed.

Lemma owned_sendAckReason l l' t id rc : owned l (sendAckReason l' t id rc).
Proof.
  apply owned_bind; [apply owned_gets|]. intros v. apply owned_bind; [apply owned_writeFrame|].
  intros _. apply owned_ret.
Qed.

Lemma owned_protocolError l l' rc : owned l (protocolError l' rc).
Proof.
  apply owned_bind; [apply owned_gets|]. intros v. apply owned_bind.
  - destruct (v =? V50); [apply owned_writeFrame|apply owned_ret].
  - intros _. apply owned_upd. intros c. apply keeps_teardown.
Qed.

Lemma protocolError_stops l rc c : isStopping l (protocolError l rc c).2 = true.
Proof.
  unfold protocolError. rewrite cmd_bind_eq. unfold gets. rewrite cmd_bind_eq.
  destruct (c_version c =? V50); [|apply teardown_stops]. destruct (writeFrame _ _ c). apply teardown_stops.
Qed.

Lemma exits_protocolError l rc : exits l (_ ← protocolError l rc; mret false).
Proof. apply exits_torn; [apply owned_protocolError|]. intros c. apply protocolError_stops. Qed.

Lemma exits_disconnect l frame : exits l (_ ← handleServerDisconnect l frame; mret false).
Proof. apply exits_torn; [apply owned_upd; intros c; apply keeps_teardown|]. intros c. apply teardown_stops. Qed.

Lemma owned_signalWaiter l id got r : owned l (signalWaiter id got r).
Proof. intros c. unfold signalWaiter. repeat case_match; by apply keeps_fields. Qed.

Lemma owned_fields l f : (forall c, c_links (f c) = c_links c) -> (forall c, c_conns (f c) = c_conns c) ->
  owned l (upd f).
Proof. intros Hl Hk. apply owned_upd. intros c. by apply keeps_fields. Qed.

Lemma owned_dispatch {HO : ReaderOwned} l msg : owned l (upd (client_dispatch msg)).
Proof.
  apply owned_upd. intros c. unfold client_dispatch. generalize (dispatch msg (c_table c)).1. intros hs.
  revert c. induction hs as [|h hs IH]; intros c; [done|]. simpl. etrans; [|apply IH].
  unfold call_handler. etrans; [|apply callback_keeps]. by apply keeps_fields.
Qed.

End reader.

Arguments ReaderOwned : clear implicits.
Arguments ReaderOwned St {HE}.

#[export] Hint Resolve owned_ret owned_gets exits_true owned_writeFrame owned_sendAckReason owned_protocolError
  owned_signalWaiter owned_dispatch exits_protocolError keeps_teardown : reader.

(** Walk through a handler: statements, branches, returns. *)
Ltac reader_step :=
  lazymatch goal with
  | |- exits ?l (gets (isStopping ?l) ≫= _) => apply exits_stopping
  | |- exits _ (protocolError _ _ ≫= _) => apply exits_protocolError
  | |- exits _ (handleServerDisconnect _ _ ≫= _) => apply exits_disconnect
  | |- exits _ (_ ≫= _) => apply exits_bind; [|intros ?]
  | |- owned _ (_ ≫= _) => apply owned_bind; [|intros ?]
  | |- exits _ (match ?x with _ => _ end) => destruct x
  | |- owned _ (match ?x with _ => _ end) => destruct x
  | |- owned _ (upd _) => first [solve [eauto with reader] | solve [apply owned_fields; reflexivity] | apply owned_upd; intros ?]
  | _ => solve [eauto with reader]
  end.
Ltac reader := repeat reader_step.

Section handlers.
Context {St : Type} {HS : SessionStore St} {HC : ContainsStore St} {HE : Environment St} {HO : ReaderOwned St}.
Set Default Proof Using "Type*".
Implicit Types c : client St.

Lemma owned_resolveTopicAlias l l' pub : owned l (resolveTopicAlias (St := St) l' pub).
Proof. unfold resolveTopicAlias. reader. by apply keeps_upd_link. Qed.
#[local] Hint Resolve owned_resolveTopicAlias : reader.

Lemma exits_handlePublish l frame : exits l (handlePublish l frame).
Proof. unfold handlePublish, handleInboundQoS2, sendAck. reader. Qed.

Lemma exits_handleInboundPubrel l frame : exits l (handleInboundPubrel l frame).
Proof. unfold handleInboundPubrel, sendAck. reader. Qed.

Lemma owned_completeOutbound l l' id kind r : owned l (completeOutbound (St := St) l' id kind r).
Proof. unfold completeOutbound, skip. reader. Qed.

Lemma owned_handlePubrec l l' ack reason : owned l (handlePubrec l' ack reason).
Proof. unfold handlePubrec, sendAck, skip. reader. Qed.
#[local] Hint Resolve owned_completeOutbound owned_handlePubrec : reader.

Lemma exits_handleAck l frame t : exits l (handleAck l frame t).
Proof. unfold handleAck, skip. reader. Qed.

#[local] Hint Resolve exits_handlePublish exits_handleInboundPubrel exits_handleAck : reader.

Lemma exits_handleFrame l frame : exits l (handleFrame l frame).
Proof.
  unfold handleFrame. reader; unfold handleSuback, handleUnsuback; reader. by apply keeps_upd_link.
Qed.

(** ** The loop *)

Lemma ReadFrame_shorter r max f rest : ReadFrame r max = Ok (f, rest) -> (length rest < length r)%nat.
Proof.
  destruct r as [|h r]; [done|]. unfold ReadFrame. rewrite ReadFull1_cons, res_bind_Ok.
  pose proof (varint_readers_agree [] r) as Hv. destruct (readVarintFrom r) as [[n r1]|e]; [|done].
  destruct Hv as (used & -> & _). rewrite res_bind_Ok. simpl. rewrite length_app.
  destruct (_ || _); [done|]. destruct (n >? 0) eqn:En; [|intros [= _ <-]; lia].
  destruct (ReadFull r1 n) as [[b r2]|] eqn:Er; [|done]. intros [= _ <-].
  apply ReadFull_inv in Er as [-> _]; [|lia]. rewrite length_app. lia.
Qed.

(** A turn either ends the loop with the link torn down or consumes input. *)
Lemma readLoop_turn_spec l c :
  let '(more, c') := readLoop_turn l c in
  if more then (length (cn_r (the_conn c' l)) < length (cn_r (the_conn c l)))%nat else isStopping l c' = true.
Proof.
  unfold readLoop_turn. rewrite cmd_bind_eq. unfold gets at 1. rewrite cmd_bind_eq. unfold gets at 1.
  destruct (ReadFrame _ _) as [[frame r]|e] eqn:Hr; [|apply teardown_stops].
  rewrite cmd_bind_eq. unfold upd at 1. set (c1 := upd_conn _ _ c).
  assert (Hc1 : cn_r (the_conn c1 l) = r).
  { unfold the_conn, c1, upd_conn. csimp. change (the_link (set_conns _ c) l) with (the_link c l).
    by rewrite lookup_total_insert_eq. }
  match goal with |- let '(_, _) := ?m _ in _ => assert (He : exits l m) end.
  { reader. apply exits_handleFrame. }
  destruct (He c1) as [Hk Hs]. match type of Hk with keeps _ _ (?x).2 => destruct x as [[] c2] end; [|by apply Hs].
  simpl in Hk. rewrite (kp_input _ _ _ Hk), Hc1. by eapply ReadFrame_shorter.
Qed.

Lemma readLoop_ends fuel l c : (length (cn_r (the_conn c l)) < fuel)%nat ->
  isStopping l (readLoop fuel l c).2 = true /\
  forall fuel', (fuel <= fuel')%nat -> readLoop fuel' l c = readLoop fuel l c.
Proof.
  revert c. induction fuel as [|fuel IH]; [lia|]. intros c Hf. simpl. rewrite cmd_bind_eq.
  pose proof (readLoop_turn_spec l c) as Ht. destruct (readLoop_turn l c) as [[] c1] eqn:E.
  - destruct (IH c1) as [Hs Hm]; [simpl in Ht; lia|]. split; [done|]. intros [|fuel'] Hle; [lia|]. simpl.
    rewrite cmd_bind_eq, E. apply Hm. lia.
  - split; [done|]. intros [|fuel'] Hle; [lia|]. simpl. by rewrite cmd_bind_eq, E.
Qed.
End handlers.

(** C35.  The read loop ends, and the connection with it.  Whatever bytes the
    broker sends before it closes the socket, as many turns as there are bytes
    and one more are enough: the loop returns, with the link torn down, and more
    turns would change nothing. *)
Theorem read_loop_terminates {St} {HS : SessionStore St} {HC : ContainsStore St} {HE : Environment St}
    {HO : ReaderOwned St} (c : client St) (l fuel : nat) :
  (length (cn_r (the_conn c l)) < fuel)%nat ->
  isStopping l (readLoop fuel l c).2 = true /\
  forall fuel', (fuel <= fuel')%nat -> readLoop fuel' l c = readLoop fuel l c.
Proof. apply readLoop_ends. Qed.

#[export] Instance quiet_owned : ReaderOwned memStore.
Proof. by intros h m l c. Qed.

(** A PINGRESP and a QoS 0 PUBLISH, then the end of the stream. *)
Definition demo_stream : client memStore :=
  (client_Connect (demo_dial (demo_connack ++ [0xD0; 0; 0x30; 4; 0; 1; 97; 0])) (NewTCPClient demo_cfg)).2.

Lemma read_loop_terminates_witness :
  (length (cn_r (the_conn demo_stream 0)) = 8)%nat /\ isStopping 0 demo_stream = false /\
  isStopping 0 (readLoop 9 0 demo_stream).2 = true /\
  forall fuel', (9 <= fuel')%nat -> readLoop fuel' 0 demo_stream = readLoop 9 0 demo_stream.
Proof.
  split; [vm_compute; reflexivity|]. split; [vm_compute; reflexivity|].
  apply (read_loop_terminates demo_stream 0 9). apply Nat.ltb_lt. vm_compute. reflexivity.
Defined.
