(* ===== verification/OutboundFacts.v ===== *)
(** The sending side of QoS 1 and QoS 2: the acknowledgement handlers of pump.go
    refine the sender's state machine of MQTT 4.3. *)

From S2P Require Import Prelude GoStrings Codes Wire WireFacts Props PropsFacts PublishPackets ControlPackets.
From S2P Require Import SubscribePackets Topic SessionStore Errors IdAllocator Quota Subscriptions Lifecycle.
From S2P Require Import Client Pump Requests Connection ClientFacts LinkFacts RequestFacts.
From stdpp Require Import options.

(** * The abstract sender *)

(** An exchange: none, the PUBLISH is unacknowledged, or its PUBREL is. *)
Inductive phase : Type := Idle | Published | Released.

(** What an acknowledgement makes the sender do: nothing, answer with a PUBREL,
    or finish the exchange. *)
Inductive reaction : Type := Ignore | AnswerPubrel (rc : Z) | Finish.

Definition sender_step (ph : phase) (t rc : Z) : phase * reaction :=
  match ph with
  | Idle => if t =? Pubrec then (Idle, AnswerPubrel PacketIdentifierNotFound) else (Idle, Ignore)
  | Published =>
    if t =? Puback then (Idle, Finish)
    else if t =? Pubrec then
      if ReasonCode_IsError rc then (Idle, Finish) else (Released, AnswerPubrel Success)
    else (Published, Ignore)
  | Released =>
    if t =? Pubcomp then (Idle, Finish)
    else if t =? Pubrec then (Released, AnswerPubrel Success)
    else (Released, Ignore)
  end.

Definition pubrel_frame (v id rc : Z) : list Z :=
  match AckPacket_EncodeAck (mkAck v Pubrel id rc None) [] with Ok f => f | Err _ => [] end.

Section outbound.
Context {St : Type} {HS : SessionStore St} {HL : SessionStoreLaws St} {HC : ContainsStore St} {HR : ReliableStore St}.
Context {HE : Environment St}.
Implicit Types c : client St.
Set Default Proof Using "Type*".

Definition in_phase (id : Z) (ph : phase) c : Prop :=
  match ph with
  | Idle => ~ stored id StoredPublish c /\ ~ stored id StoredPubrel c
  | Published => stored id StoredPublish c /\ ~ stored id StoredPubrel c
  | Released => ~ stored id StoredPublish c /\ stored id StoredPubrel c
  end.

(** Everything else in the store stays. *)
Definition others_kept (id : Z) c c' : Prop :=
  store_ok (c_store c') /\
  forall id' kind, id' <> id \/ kind = StoredInboundID -> stored id' kind c' <-> stored id' kind c.

(** The concrete counterpart of a reaction. *)
Definition reacted (l : nat) (id : Z) (r : ackResult) (re : reaction) c c' : Prop :=
  match re with
  | Ignore => c' = c
  | AnswerPubrel rc =>
    c_ids c' = c_ids c /\ avail (c_quota c') = avail (c_quota c) /\ qgen (c_quota c') = qgen (c_quota c) /\
    (accepts c l (pubrel_frame (c_version c) id rc) ->
      sent_on c' l = sent_on c l ++ [pubrel_frame (c_version c) id rc] /\ c_waiters c' = c_waiters c)
  | Finish =>
    c_ids c' = idAllocator_ReleaseAt id (l_idGen (the_link c l)) (c_ids c) /\
    c_quota c' = quota_releaseAt (l_quotaGen (the_link c l)) (c_quota c) /\
    forall w, c_waiters c !! id = Some w -> w_want w = ackClassPublish ->
      c_waiters c' = delete id (c_waiters c) /\ c_chans c' !! w_ch w = Some (default r (c_chans c !! w_ch w))
  end.

Lemma known id kind c : store_ok (c_store c) -> stored id kind c -> storeContains id kind c = true.
Proof. intros Hok. by apply storeContains_spec. Qed.
Lemma unknown id kind c : store_ok (c_store c) -> ~ stored id kind c -> storeContains id kind c = false.
Proof. intros Hok Hn. apply not_true_is_false. by rewrite storeContains_spec. Qed.

(** * The handlers *)

Lemma signalWaiter_eq id r c : exists b c', signalWaiter id ackClassPublish r c = (b, c') /\
  c_store c' = c_store c /\ c_ids c' = c_ids c /\ c_quota c' = c_quota c /\
  forall w, c_waiters c !! id = Some w -> w_want w = ackClassPublish ->
    c_waiters c' = delete id (c_waiters c) /\ c_chans c' !! w_ch w = Some (default r (c_chans c !! w_ch w)).
Proof.
  unfold signalWaiter. destruct (c_waiters c !! id) as [w|] eqn:Hw.
  - case_bool_decide as Hc; eexists _, _; (split; [done|]); split_and!; try done; intros w' [= <-] Hp; [|done].
    csimp. rewrite chan_send_spec, decide_True by done. done.
  - eexists _, _. split; [done|]. split_and!; done.
Qed.

(** The common end of an exchange. *)
Definition finish_exchange (l : nat) (id kind : Z) (r : ackResult) : cmd St unit :=
  _ ← upd (store_Delete id kind);
  _ ← upd (fun c => ids_ReleaseAt id (l_idGen (the_link c l)) c);
  _ ← upd (fun c => quota_releaseAt' (l_quotaGen (the_link c l)) c);
  _ ← signalWaiter id ackClassPublish r;
  skip.

Lemma finish_exchange_spec l id kind r c : store_ok (c_store c) -> exists c',
  finish_exchange l id kind r c = (tt, c') /\ reacted l id r Finish c c' /\ store_ok (c_store c') /\
  forall id' kind', stored id' kind' c' <-> (id', kind') <> (id, kind) /\ stored id' kind' c.
Proof.
  intros Hok. unfold finish_exchange. rewrite !cmd_bind_eq. unfold upd. rewrite !cmd_bind_eq.
  match goal with |- context [signalWaiter id ackClassPublish r ?c1] =>
    destruct (signalWaiter_eq id r c1) as (b & c' & -> & H1 & H2 & H3 & H4) end.
  exists c'. split; [done|]. destruct (store_Delete_spec id kind c Hok) as [Hok' _].
  split; [exact (conj H2 (conj H3 H4))|]. split; [by rewrite H1|].
  intros id' kind'. rewrite <- (stored_Delete id kind c id' kind' Hok). unfold stored. by rewrite H1.
Qed.

Lemma pubrel_encodes v id rc : Version_Valid v = true -> 0 < id < 65536 -> in_u8 rc ->
  AckPacket_EncodeAck (mkAck v Pubrel id rc None) [] = Ok (pubrel_frame v id rc) /\
  in_u32 (len (pubrel_frame v id rc)).
Proof.
  intros Hv Hid Hrc. unfold pubrel_frame, AckPacket_EncodeAck. simpl. rewrite Hv. replace (id =? 0) with false by lia.
  apply Version_Valid_spec in Hv. destruct Hv as [-> | ->]; simpl; [split; [done|by_decide]|].
  destruct (rc =? 0); simpl; (split; [done|]); by_decide.
Qed.

Lemma answer_spec l id rc c : Version_Valid (c_version c) = true -> 0 < id < 65536 -> in_u8 rc -> exists c',
  sendAckReason l Pubrel id rc c = (tt, c') /\ same_session c c' /\ reacted l id (mkAckResult None [] 0) (AnswerPubrel rc) c c'.
Proof.
  intros Hv Hid Hrc. unfold sendAckReason. rewrite cmd_bind_eq. unfold gets. rewrite cmd_bind_eq.
  pose proof (writeFrame_same (Some l) (AckPacket_EncodeAck (mkAck (c_version c) Pubrel id rc None)) c) as Hss.
  pose proof (writeFrame_quota (Some l) (AckPacket_EncodeAck (mkAck (c_version c) Pubrel id rc None)) c) as [Hqa Hqg].
  destruct (pubrel_encodes (c_version c) id rc Hv Hid Hrc) as [Henc Hlen].
  pose proof (writeFrame_accepted c l _ _ Henc Hlen) as Hacc.
  destruct (writeFrame _ _ c) as [err c1] eqn:Ew. cbn [snd] in *. exists c1. split; [done|]. split; [done|].
  split_and!; [apply Hss|done..|]. intros Ha. destruct (Hacc Ha) as (c2 & [= -> ->] & _ & _ & _ & Hs). split; [done|].
  destruct (writeFrame_sent _ _ _ _ Ew) as (k & f & ->). done.
Qed.

(** An acknowledgement for an exchange in phase [ph] leads to the phase and the
    reaction of the abstract sender. *)
Definition refines (l : nat) (id t rc : Z) (r : ackResult) (ph : phase) c c' : Prop :=
  in_phase id (sender_step ph t rc).1 c' /\ others_kept id c c' /\ reacted l id r (sender_step ph t rc).2 c c'.

Lemma refines_ignore l id t rc r ph c : store_ok (c_store c) -> in_phase id ph c ->
  sender_step ph t rc = (ph, Ignore) -> refines l id t rc r ph c c.
Proof. intros Hok Hph E. unfold refines. rewrite E. by split_and!. Qed.

Lemma refines_finish l id t rc r ph kind c c' : store_ok (c_store c) -> in_phase id ph c ->
  sender_step ph t rc = (Idle, Finish) -> kind = StoredPublish /\ ph = Published \/ kind = StoredPubrel /\ ph = Released ->
  finish_exchange l id kind r c = (tt, c') -> refines l id t rc r ph c c'.
Proof.
  intros Hok Hph E Hk Hf. destruct (finish_exchange_spec l id kind r c Hok) as (c1 & Hf1 & Hre & Hok1 & Hst).
  rewrite Hf in Hf1. injection Hf1 as <-. unfold refines. rewrite E. split_and!; [|split; [done|]|done].
  - simpl. rewrite !Hst. destruct Hk as [[-> ->]|[-> ->]]; simpl in Hph; naive_solver.
  - intros id' kind' Hne. rewrite Hst. split; [tauto|]. intros H. split; [|done]. intros [= -> ->].
    destruct Hne as [|Hi]; [done|]. destruct Hk as [[-> _]|[-> _]]; discriminate Hi.
Qed.

Lemma refines_answer l id t rc r ph ph' rc' c c1 c' : Version_Valid (c_version c) = true -> 0 < id < 65536 -> in_u8 rc' ->
  sender_step ph t rc = (ph', AnswerPubrel rc') -> in_phase id ph' c1 -> others_kept id c c1 ->
  c_ids c1 = c_ids c -> c_quota c1 = c_quota c -> c_links c1 = c_links c -> c_conns c1 = c_conns c ->
  c_version c1 = c_version c -> c_waiters c1 = c_waiters c ->
  sendAckReason l Pubrel id rc' c1 = (tt, c') -> refines l id t rc r ph c c'.
Proof.
  intros Hv Hid Hrc E Hph Hoth Ei Eq El Ek Ev Ew Hs.
  destruct (answer_spec l id rc' c1) as (c2 & Hs2 & Hss & Hre); [by rewrite Ev|done|done|].
  rewrite Hs in Hs2. injection Hs2 as <-. unfold refines. rewrite E. cbn [fst snd].
  assert (Hst : forall id' kind, stored id' kind c' <-> stored id' kind c1) by (intros; unfold stored; by rewrite (ss_store _ _ Hss)).
  split_and!.
  - destruct ph'; simpl in *; rewrite !Hst; done.
  - destruct Hoth as [Hok Ho]. split; [by rewrite (ss_store _ _ Hss)|]. intros id' kind Hne. rewrite Hst. by apply Ho.
  - assert (El' : the_link c1 l = the_link c l) by (unfold the_link; by rewrite El).
    assert (Ek' : the_conn c1 l = the_conn c l) by (unfold the_conn; by rewrite Ek, El').
    simpl in *. rewrite Ei, Eq, Ew, Ev in Hre. unfold accepts, sent_on in *. rewrite El', Ek' in Hre. exact Hre.
Qed.

Lemma handlePubrec_refines l ack ph c : Version_Valid (c_version c) = true -> 0 < ack_PacketID ack < 65536 ->
  store_ok (c_store c) -> store_room (c_store c) -> in_phase (ack_PacketID ack) ph c -> exists c',
  handlePubrec l ack (reasonStringOf (ack_Properties ack)) c = (tt, c') /\
  refines l (ack_PacketID ack) Pubrec (ack_ReasonCode ack)
    (mkAckResult None (reasonStringOf (ack_Properties ack)) (ack_ReasonCode ack)) ph c c'.
Proof.
  intros Hv Hid Hok Hroom Hph. set (id := ack_PacketID ack) in *. set (r := mkAckResult _ _ _).
  unfold handlePubrec. fold id. rewrite cmd_bind_eq. unfold gets. destruct ph.
  - destruct Hph as [H1 H2]. rewrite (unknown id) by done. rewrite cmd_bind_eq, (unknown id) by done.
    destruct (answer_spec l id PacketIdentifierNotFound c) as (c' & Hs & _); [done|done|by_decide|].
    exists c'. split; [done|]. apply (refines_answer l id _ _ _ _ Idle PacketIdentifierNotFound c c); done.
  - destruct Hph as [H1 H2]. rewrite (known id) by done. destruct (ReasonCode_IsError (ack_ReasonCode ack)) eqn:Ee.
    + fold (finish_exchange l id StoredPublish r). destruct (finish_exchange_spec l id StoredPublish r c Hok) as (c' & Hf & _).
      exists c'. split; [exact Hf|]. eapply refines_finish; [done|by split| |by left|exact Hf]. simpl. by rewrite Ee.
    + rewrite !cmd_bind_eq. unfold upd. rewrite cmd_bind_eq. set (c1 := store_Save _ c).
      destruct (store_Save_spec (mkStored None 0 id StoredPubrel) c Hok Hroom) as [Hok1 _]. fold c1 in Hok1.
      destruct (store_Delete_spec id StoredPublish c1 Hok1) as [Hok2 _]. set (c2 := store_Delete id StoredPublish c1) in *.
      assert (Hst : forall id' kind, stored id' kind c2 <->
        (id', kind) <> (id, StoredPublish) /\ ((id', kind) = (id, StoredPubrel) \/ stored id' kind c)).
      { intros. unfold c2. rewrite stored_Delete by done. unfold c1. by rewrite stored_Save. }
      destruct (answer_spec l id Success c2) as (c' & Hs & _); [done|done|by_decide|].
      exists c'. split; [exact Hs|]. eapply (refines_answer l id _ _ _ _ Released Success c c2); try done.
      * simpl. by rewrite Ee.
      * simpl. rewrite !Hst. split; [by intros [? _]|]. split; [done|by left].
      * split; [done|]. intros id' kind Hne. rewrite Hst. split.
        -- intros [_ [[= -> ->]|H]]; [destruct Hne as [|Hi]; [done|discriminate Hi]|done].
        -- intros H. split; [|by right]. intros [= -> ->]. destruct Hne as [|Hi]; [done|discriminate Hi].
  - destruct Hph as [H1 H2]. rewrite (unknown id) by done. rewrite cmd_bind_eq, (known id) by done.
    destruct (answer_spec l id Success c) as (c' & Hs & _); [done|done|by_decide|].
    exists c'. split; [done|]. apply (refines_answer l id _ _ _ _ Released Success c c); done.
Qed.

Lemma completeOutbound_refines l id kind t rc r ph c : store_ok (c_store c) -> in_phase id ph c ->
  (t = Puback /\ kind = StoredPublish \/ t = Pubcomp /\ kind = StoredPubrel) -> exists c',
  completeOutbound l id kind r c = (tt, c') /\ refines l id t rc r ph c c'.
Proof.
  intros Hok Hph Ht. unfold completeOutbound. rewrite cmd_bind_eq. unfold gets.
  assert (Hcase : (storeContains id kind c = false /\ sender_step ph t rc = (ph, Ignore)) \/
    (storeContains id kind c = true /\ sender_step ph t rc = (Idle, Finish) /\
     (kind = StoredPublish /\ ph = Published \/ kind = StoredPubrel /\ ph = Released))).
  { destruct Ht as [[-> ->]|[-> ->]], ph, Hph as [H1 H2]; (left; split; [by apply unknown|done]) ||
      (right; split; [by apply known|]; split; [done|]; tauto). }
  destruct Hcase as [[-> E]|(-> & E & Hk)]; cbn [negb].
  - exists c. split; [done|]. by apply refines_ignore.
  - fold (finish_exchange l id kind r). destruct (finish_exchange_spec l id kind r c Hok) as (c' & Hf & _).
    exists c'. split; [exact Hf|]. by eapply refines_finish.
Qed.
End outbound.

(** C8.  The acknowledgement handlers implement the QoS 1 and QoS 2 sender.  For an
    exchange in any phase (none, PUBLISH stored, PUBREL stored) every decodable
    PUBACK, PUBREC or PUBCOMP leads to the phase and the reaction of the abstract
    sender: a finished exchange loses its stored packet, gives back its
    identifier and permit under the generations of its link and resolves its
    waiter with the broker's reason; a PUBREC is always answered with a PUBREL,
    carrying Packet Identifier not found for an unknown exchange; anything else
    changes nothing.  Other exchanges and the receiver state are untouched. *)
Theorem outbound_refines_sender {St} {HS : SessionStore St} {HL : SessionStoreLaws St} {HC : ContainsStore St}
    {HR : ReliableStore St} {HE : Environment St} (c : client St) (l : nat) (frame : Frame) (t : Z) (ack : AckPacket)
    (ph : phase) :
  Version_Valid (c_version c) = true -> store_ok (c_store c) -> store_room (c_store c) ->
  t = Puback \/ t = Pubrec \/ t = Pubcomp -> Frame_PacketType frame = t ->
  DecodeAck (c_version c) t (Body frame) = Ok ack -> 0 < ack_PacketID ack < 65536 ->
  in_phase (ack_PacketID ack) ph c ->
  exists c', handleFrame l frame c = (true, c') /\
    let '(ph', re) := sender_step ph t (ack_ReasonCode ack) in
    in_phase (ack_PacketID ack) ph' c' /\ others_kept (ack_PacketID ack) c c' /\
    reacted l (ack_PacketID ack) (mkAckResult None (reasonStringOf (ack_Properties ack)) (ack_ReasonCode ack)) re c c'.
Proof.
  intros Hv Hok Hroom Ht Hf Hd Hid Hph. set (r := mkAckResult _ _ _).
  enough (Hgoal : exists c', handleAck l frame t c = (true, c') /\
    refines l (ack_PacketID ack) t (ack_ReasonCode ack) r ph c c').
  { destruct Hgoal as (c' & Hh & Hr). exists c'. split.
    - unfold handleFrame. rewrite Hf. destruct Ht as [-> |[-> | ->]]; exact Hh.
    - unfold refines in Hr. by destruct (sender_step ph t _). }
  unfold handleAck. rewrite cmd_bind_eq. unfold gets. rewrite Hd, cmd_bind_eq. fold r.
  destruct Ht as [-> |[-> | ->]]; cbn [Z.eqb Puback Pubcomp Pubrec Pos.eqb].
  - destruct (completeOutbound_refines l (ack_PacketID ack) StoredPublish Puback (ack_ReasonCode ack) r ph c)
      as (c' & -> & Hr); [done|done|by left|]. by exists c'.
  - destruct (handlePubrec_refines l ack ph c) as (c' & -> & Hr); [done..|]. by exists c'.
  - destruct (completeOutbound_refines l (ack_PacketID ack) StoredPubrel Pubcomp (ack_ReasonCode ack) r ph c)
      as (c' & -> & Hr); [done|done|by right|]. by exists c'.
Qed.

(** A QoS 1 publish in flight under identifier 1, and its PUBACK. *)
Definition demo_inflight : client memStore := (publishAcked 0 demo_pkt (replicate 5 Run) demo).2.

Lemma demo_inflight_ok : store_ok (c_store demo_inflight).
Proof.
  replace (c_store demo_inflight)
    with (memStore_Save (mkStored (Some (with_PacketID 1 demo_pkt)) 0 1 StoredPublish) newMemStore)
    by (vm_compute; reflexivity).
  apply wf_Save; [exact wf_newMemStore|by_decide].
Qed.

Lemma outbound_refines_sender_witness :
  exists c', handleFrame 0 (mkFrame 0x40 [0; 1]) demo_inflight = (true, c') /\ in_phase 1 Idle c' /\
    c_quota c' = quota_releaseAt (l_quotaGen (the_link demo_inflight 0)) (c_quota demo_inflight).
Proof.
  destruct (outbound_refines_sender demo_inflight 0 (mkFrame 0x40 [0; 1]) Puback (mkAck V50 Puback 1 0 None) Published)
    as (c' & H1 & H2 & _ & _ & H3 & _).
  - vm_compute. reflexivity.
  - exact demo_inflight_ok.
  - by_decide.
  - left. reflexivity.
  - reflexivity.
  - vm_compute. reflexivity.
  - split; reflexivity.
  - split; unfold stored; by_decide.
  - exists c'. split; [exact H1|]. split; [exact H2|exact H3].
Defined.
