(* ===== verification/Flow.v ===== *)
(** Flow control of QoS 1 and QoS 2 publishes across goroutines and reconnects
    (publishAcked in publish.go, completeOutbound and handlePubrec in pump.go,
    applySession and replaySession in adapter_tcp.go).

    The goroutines of any number of publishes, of the read loops and of one
    Connect take their critical sections in any order; the question is how many
    PUBLISH packets are unacknowledged on a connection at once. *)

From S2P Require Import Prelude GoStrings Codes Wire WireFacts Props PropsFacts PublishPackets ControlPackets.
From S2P Require Import SubscribePackets Topic SessionStore Errors IdAllocator Quota Subscriptions Lifecycle.
From S2P Require Import Client Pump Requests Connection ClientFacts.
From stdpp Require Import options.

(** * The goroutines *)

(** The critical sections of [completeOutbound] (and of the error path of
    [handlePubrec]) after the membership test. *)
Inductive ack_pc : Type :=
| AkDelete (id kind : Z) (r : ackResult)
| AkFree (id : Z) (r : ackResult)
| AkRelease (id : Z) (r : ackResult)
| AkSignal (id : Z) (r : ackResult)
| AkDone.

(** The critical sections of [applySession], of the capture of the generations
    and of [replaySession], on the new link [l]; [n] is what [inflightPermits]
    counted. *)
Inductive conn_pc : Type :=
| CIdle
| CReset (l : nat) (r : ConnectResult)
| CCount (l : nat) (r : ConnectResult)
| CQuota (l : nat) (r : ConnectResult) (n : Z)
| CGen (l : nat) (r : ConnectResult) (n : Z)
| CSnap (l : nat) (r : ConnectResult) (n : Z)
| CReplay (l : nat) (r : ConnectResult) (msgs : list StoredMessage).

#[export] Instance quota_eq_dec : EqDecision quota.
Proof. solve_decision. Defined.
#[export] Instance link_eq_dec : EqDecision link.
Proof. solve_decision. Defined.

Section flow.
Context {St : Type} {HS : SessionStore St} {HC : ContainsStore St} {HE : Environment St}.
Implicit Types c : client St.

Definition ack_step (l : nat) (pc : ack_pc) : cmd St ack_pc := fun c =>
  match pc with
  | AkDelete id kind r => (AkFree id r, store_Delete id kind c)
  | AkFree id r => (AkRelease id r, ids_ReleaseAt id (l_idGen (the_link c l)) c)
  | AkRelease id r => (AkSignal id r, quota_releaseAt' (l_quotaGen (the_link c l)) c)
  | AkSignal id r => let '(_, c) := signalWaiter id ackClassPublish r c in (AkDone, c)
  | AkDone => (AkDone, c)
  end.

(** The system: the client, the publishing goroutines with their link and packet,
    the PUBLISH packets sent and not acknowledged, as link and identifier, the
    acknowledgements being processed, and the connect in progress.  [f_ceil] is
    the negotiated limit of the newest session; [f_over] counts the messages
    that its replay sends beyond what its accounting allows for. *)
Record flow : Type := mkFlow {
  f_c : client St;
  f_pubs : list (nat * PublishPacket * pub_pc);
  f_wire : list (nat * Z);
  f_acks : list (nat * ack_pc);
  f_conn : conn_pc;
  f_ceil : Z;
  f_over : Z
}.

Definition with_c (c : client St) (s : flow) : flow :=
  mkFlow c (f_pubs s) (f_wire s) (f_acks s) (f_conn s) (f_ceil s) (f_over s).
Definition with_conn (pc : conn_pc) (s : flow) : flow :=
  mkFlow (f_c s) (f_pubs s) (f_wire s) (f_acks s) pc (f_ceil s) (f_over s).

Inductive action : Type :=
| AStart (pkt : PublishPacket)
| APub (i : nat) (ev : wake_event)
| AAck (j : nat) (kind : Z) (r : ackResult)
| AAckStep (i : nat)
| ADrop (l : nat) (graceful : bool)
| AOther (c' : client St)
| AConnect (r : ConnectResult) (bytes : list Z)
| AConnStep.

(** Nothing the flow depends on changed: the quota, the links and which one is
    current, and which sockets are closed. *)
Definition bystander c c' : Prop :=
  c_quota c' = c_quota c /\ c_links c' = c_links c /\ c_link c' = c_link c /\
  cn_closed <$> c_conns c' = cn_closed <$> c_conns c.
#[export] Instance bystander_dec c c' : Decision (bystander c c').
Proof. unfold bystander. apply _. Defined.

(** Far more messages than fit in memory. *)
Definition maxMessages : Z := 2 ^ 62.

Definition msg_count (msgs : list StoredMessage) : Z := Z.of_nat (length (filter (fun m => outbound m = true) msgs)).

(** One critical section of the connect. *)
Definition conn_step (s : flow) : option flow :=
  let c := f_c s in
  match f_conn s with
  | CIdle => None
  | CReset l r =>
    let c := if resetsSession r c
             then set_ids (idAllocator_Reset (c_ids c)) (set_store (default (c_store c) (Reset (c_store c))) c) else c in
    Some (with_conn (CCount l r) (with_c c s))
  | CCount l r => Some (with_conn (CQuota l r (inflightPermits c)) s)
  | CQuota l r n =>
    if bool_decide (in_u64 (qgen (c_quota c) + 1) /\ in_u16 (quotaSize r c) /\ n < maxMessages) then
      Some (mkFlow (set_quota (quota_reset (Z.max (quotaSize r c - n) 0) (c_quota c)) c) (f_pubs s) (f_wire s) (f_acks s)
        (CGen l r n) (quotaSize r c) (Z.max (n - quotaSize r c) 0))
    else None
  | CGen l r n => Some (with_conn (CSnap l r n) (with_c (captureGenerations l c) s))
  | CSnap l r n =>
    let msgs := default [] (All (c_store c)) in
    let late := Z.max (msg_count msgs - n) 0 in
    if bool_decide (f_ceil s + f_over s + late < 9223372036854775808) then
      Some (mkFlow c (f_pubs s) (f_wire s) (f_acks s) (CReplay l r msgs) (f_ceil s) (f_over s + late))
    else None
  | CReplay l r [] =>
    if isStopping l c then Some (with_conn CIdle s)
    else Some (with_conn CIdle (with_c (set_link (Some l) (set_result (Some r) c)) s))
  | CReplay l r (m :: msgs) =>
    match replay_encoder (c_version c) m with
    | None => Some (with_conn (CReplay l r msgs) s)
    | Some encode =>
      let '(err, c) := writeFrame (Some l) encode c in
      Some (mkFlow c (f_pubs s) (if is_some err then f_wire s else f_wire s ++ [(l, sm_ID m)]) (f_acks s)
        (CReplay l r msgs) (f_ceil s) (f_over s))
    end
  end.

(** [None] when the action cannot happen.  A publish starts on the current link;
    the broker acknowledges a packet that is on the wire; a connect starts
    without a link; its limit has 16 bits,
    and counts of messages do not overflow an [int]. *)
Definition act (a : action) (s : flow) : option flow :=
  let c := f_c s in
  match a with
  | AStart pkt =>
    match c_link c with
    | None => None
    | Some l => Some (mkFlow c (f_pubs s ++ [(l, pkt, PQuota)]) (f_wire s) (f_acks s) (f_conn s) (f_ceil s) (f_over s))
    end
  | APub i ev =>
    match f_pubs s !! i with
    | None => None
    | Some (l, pkt, pc) =>
      let '(pc', c) := pub_step l pkt ev pc c in
      let wire := match pc, pc' with PWrite _ id _ _, PWait _ _ => f_wire s ++ [(l, id)] | _, _ => f_wire s end in
      Some (mkFlow c (<[i := (l, pkt, pc')]> (f_pubs s)) wire (f_acks s) (f_conn s) (f_ceil s) (f_over s))
    end
  | AAck j kind r =>
    match f_wire s !! j with
    | None => None
    | Some (l, id) =>
      Some (mkFlow c (f_pubs s) (delete j (f_wire s))
        (if storeContains id kind c then f_acks s ++ [(l, AkDelete id kind r)] else f_acks s)
        (f_conn s) (f_ceil s) (f_over s))
    end
  | AAckStep i =>
    match f_acks s !! i with
    | None => None
    | Some (l, pc) =>
      let '(pc, c) := ack_step l pc c in
      Some (mkFlow c (f_pubs s) (f_wire s) (<[i := (l, pc)]> (f_acks s)) (f_conn s) (f_ceil s) (f_over s))
    end
  | ADrop l g => if decide (is_Some (c_links c !! l)) then Some (with_c (teardownLink l g c) s) else None
  | AOther c' => if decide (bystander c c') then Some (with_c c' s) else None
  | AConnect r bytes =>
    match c_link c, f_conn s with
    | None, CIdle =>
      let k := fresh (dom (c_conns c)) in
      let l := fresh (dom (c_links c)) in
      let c := set_conns (<[k := mkConn bytes [] false]> (c_conns c)) c in
      let c := set_links (<[l := newLink k r c]> (c_links c)) c in
      Some (with_conn (CReset l r) (with_c c s))
    | _, _ => None
    end
  | AConnStep => conn_step s
  end.

Fixpoint acts (l : list action) (s : flow) : option flow :=
  match l with
  | [] => Some s
  | a :: l => s ← act a s; acts l s
  end.

(** * What is counted *)

(** The generation of the permit a publishing goroutine holds that is not on the
    wire yet. *)
Definition permit (pc : pub_pc) : option Z :=
  match pc with
  | PId qg | PSave qg _ _ | PRegister qg _ _ | PWrite qg _ _ _ | PUnregister qg _ _ _ _ | PCheck qg _ _ _
  | PDelete qg _ _ _ | PFree qg _ _ _ | PGiveBack qg _ => Some qg
  | _ => None
  end.

(** Whether an acknowledgement still has to give its permit back. *)
Definition credit (pc : ack_pc) : bool :=
  match pc with AkDelete _ _ _ | AkFree _ _ | AkRelease _ _ => true | _ => false end.

End flow.

Arguments flow : clear implicits.
Arguments action : clear implicits.

Definition link_gen {St} (c : client St) (l : nat) : Z := l_quotaGen (the_link c l).

Definition n_held (g : Z) (pubs : list (nat * PublishPacket * pub_pc)) : Z :=
  Z.of_nat (length (filter (fun p => permit p.2 = Some g) pubs)).
Definition n_wire (g : Z) (links : gmap nat link) (wire : list (nat * Z)) : Z :=
  Z.of_nat (length (filter (fun w => l_quotaGen (links !!! w.1) = g) wire)).
Definition n_owed (g : Z) (links : gmap nat link) (acks : list (nat * ack_pc)) : Z :=
  Z.of_nat (length (filter (fun a => credit a.2 = true /\ l_quotaGen (links !!! a.1) = g) acks)).

(** What the connect in progress is going to replay. *)
Definition n_todo (pc : conn_pc) : Z :=
  match pc with
  | CGen _ _ n | CSnap _ _ n => n
  | CReplay _ _ msgs => msg_count msgs
  | _ => 0
  end.

(** The exchanges unacknowledged on the newest connection. *)
Definition unacknowledged {St} (s : flow St) : Z :=
  n_wire (qgen (c_quota (f_c s))) (c_links (f_c s)) (f_wire s).

(** * The invariant

    It only speaks of the quota, the links, the current link and which sockets
    are closed. *)

Definition untouched (l : nat) (wire : list (nat * Z)) (acks : list (nat * ack_pc)) : Prop :=
  (forall id, (l, id) ∉ wire) /\ (forall pc, (l, pc) ∉ acks).

Definition connecting (q : quota) (links : gmap nat link) (cur : option nat)
    (wire : list (nat * Z)) (acks : list (nat * ack_pc)) (pc : conn_pc) : Prop :=
  match pc with
  | CIdle => True
  | CReset l _ | CCount l _ | CGen l _ _ => cur = None /\ is_Some (links !! l) /\ untouched l wire acks
  | CQuota l _ n => cur = None /\ is_Some (links !! l) /\ untouched l wire acks /\ 0 <= n
  | CSnap l _ _ | CReplay l _ _ => cur = None /\ exists lk, links !! l = Some lk /\ l_quotaGen lk = qgen q
  end.

Record inv (q : quota) (links : gmap nat link) (cur : option nat) (closed : gmap nat bool)
    (pubs : list (nat * PublishPacket * pub_pc)) (wire : list (nat * Z)) (acks : list (nat * ack_pc))
    (pc : conn_pc) (bound : Z) : Prop := {
  iv_avail : 0 <= avail q;
  iv_bound : bound < 9223372036854775808;
  iv_todo : 0 <= n_todo pc;
  iv_nonneg : 0 <= qgen q;
  iv_conns l lk : links !! l = Some lk -> is_Some (closed !! l_conn lk);
  iv_closed l lk : links !! l = Some lk -> l_stop lk = true -> closed !! l_conn lk = Some true;
  iv_gen l lk : links !! l = Some lk -> l_quotaGen lk <= qgen q;
  iv_cur l : cur = Some l ->
    pc = CIdle /\ exists lk, links !! l = Some lk /\ l_stop lk = false /\ l_quotaGen lk = qgen q;
  iv_pubs l pkt pc' : (l, pkt, pc') ∈ pubs -> exists lk, links !! l = Some lk /\ (l_stop lk = false -> cur = Some l) /\
    forall g, permit pc' = Some g -> g <= qgen q /\ (l_stop lk = false -> g = qgen q);
  iv_wire l id : (l, id) ∈ wire -> is_Some (links !! l);
  iv_acks l pc' : (l, pc') ∈ acks -> is_Some (links !! l);
  iv_conn : connecting q links cur wire acks pc;
  iv_sum : avail q + n_held (qgen q) pubs + n_wire (qgen q) links wire + n_owed (qgen q) links acks + n_todo pc <= bound
}.

Definition flow_inv {St} (s : flow St) : Prop :=
  inv (c_quota (f_c s)) (c_links (f_c s)) (c_link (f_c s)) (cn_closed <$> c_conns (f_c s))
    (f_pubs s) (f_wire s) (f_acks s) (f_conn s) (f_ceil s + f_over s).

(** * Counting *)

Definition one (P : Prop) `{Decision P} : Z := if decide P then 1 else 0.

Lemma tally_app {A} (P : A -> Prop) `{forall x, Decision (P x)} l x :
  Z.of_nat (length (filter P (l ++ [x]))) = Z.of_nat (length (filter P l)) + one (P x).
Proof. rewrite filter_app, length_app, filter_cons. unfold one. case_decide; simpl; lia. Qed.

Lemma count_insert {A} (P : A -> Prop) `{forall x, Decision (P x)} l i x y : l !! i = Some y ->
  Z.of_nat (length (filter P (<[i := x]> l))) = Z.of_nat (length (filter P l)) - one (P y) + one (P x).
Proof.
  intros Hi. rewrite insert_take_drop by (by eapply lookup_lt_Some). 
  assert (E : filter P l = filter P (take i l ++ y :: drop (S i) l)) by (by rewrite take_drop_middle).
  rewrite E, !filter_app, !length_app. unfold one. rewrite !filter_cons.
  repeat case_decide; simpl; lia.
Qed.

Lemma count_delete {A} (P : A -> Prop) `{forall x, Decision (P x)} l i y : l !! i = Some y ->
  Z.of_nat (length (filter P (delete i l))) = Z.of_nat (length (filter P l)) - one (P y).
Proof.
  intros Hi. rewrite delete_take_drop.
  assert (E : filter P l = filter P (take i l ++ y :: drop (S i) l)) by (by rewrite take_drop_middle).
  rewrite E, !filter_app, !length_app. unfold one. rewrite !filter_cons.
  repeat case_decide; simpl; lia.
Qed.

Lemma count_ext {A} (P Q : A -> Prop) `{forall x, Decision (P x)} `{forall x, Decision (Q x)} l :
  (forall x, x ∈ l -> P x <-> Q x) -> Z.of_nat (length (filter P l)) = Z.of_nat (length (filter Q l)).
Proof.
  intros HPQ. f_equal. f_equal. induction l as [|x l IH]; [done|]. rewrite !filter_cons.
  assert (HPQx := HPQ x (list_elem_of_here _ _)). rewrite IH by (intros y Hy; apply HPQ; by apply list_elem_of_further).
  repeat case_decide; tauto || done.
Qed.

Lemma count_none {A} (P : A -> Prop) `{forall x, Decision (P x)} l :
  (forall x, x ∈ l -> ~ P x) -> Z.of_nat (length (filter P l)) = 0.
Proof.
  intros HP. induction l as [|x l IH]; [done|]. rewrite filter_cons, decide_False by (apply HP, list_elem_of_here).
  apply IH. intros y Hy. apply HP. by apply list_elem_of_further.
Qed.

Lemma n_wire_gens g links links' wire : (forall l id, (l, id) ∈ wire -> l_quotaGen (links' !!! l) = l_quotaGen (links !!! l)) ->
  n_wire g links' wire = n_wire g links wire.
Proof. intros Hg. apply count_ext. intros [l id] Hin. simpl. by rewrite (Hg l id). Qed.

Lemma n_owed_gens g links links' acks : (forall l pc, (l, pc) ∈ acks -> l_quotaGen (links' !!! l) = l_quotaGen (links !!! l)) ->
  n_owed g links' acks = n_owed g links acks.
Proof. intros Hg. apply count_ext. intros [l pc] Hin. simpl. by rewrite (Hg l pc). Qed.

(** * Preservation *)

Lemma inv_stop q links cur closed pubs wire acks pc bound l lk q' cur' : links !! l = Some lk ->
  (cur = Some l /\ cur' = None /\ q' = quota_fail q) \/ (cur <> Some l /\ cur' = cur /\ q' = q) ->
  inv q links cur closed pubs wire acks pc bound ->
  inv q' (<[l := set_l_stop true lk]> links) cur' (<[l_conn lk := true]> closed) pubs wire acks pc bound.
Proof.
  intros Hl Hcase [Ha Hb Htd Hn Hcs Hcl Hg Hc Hp Hw Hk Hco Hs].
  assert (Hq : avail q' = avail q /\ qgen q' = qgen q) by (destruct Hcase as [(_ & _ & ->)|(_ & _ & ->)]; done).
  destruct Hq as [Hqa Hqg].
  assert (Hlk : forall x lk', <[l := set_l_stop true lk]> links !! x = Some lk' ->
    exists lk0, links !! x = Some lk0 /\ l_conn lk' = l_conn lk0 /\ l_quotaGen lk' = l_quotaGen lk0 /\
      (l_stop lk' = false -> x <> l /\ lk' = lk0) /\ (l_stop lk' = true -> x = l \/ lk' = lk0)).
  { intros x lk' [[<- <-]|[Hne Hx]]%lookup_insert_Some; [exists lk|exists lk']; split_and!; csimp; try done; eauto. }
  assert (Hgen : forall x, l_quotaGen ((<[l := set_l_stop true lk]> links) !!! x) = l_quotaGen (links !!! x)).
  { intros x. destruct (decide (l = x)) as [<-|]; [|by rewrite lookup_total_insert_ne].
    rewrite lookup_total_insert_eq. by rewrite (lookup_total_correct _ _ _ Hl). }
  assert (Hsome : forall x, is_Some (links !! x) -> is_Some (<[l := set_l_stop true lk]> links !! x)).
  { intros x. rewrite !lookup_insert_is_Some'. tauto. }
  assert (Hcl' : forall k, closed !! k = Some true -> <[l_conn lk := true]> closed !! k = Some true).
  { intros k Hk'. destruct (decide (l_conn lk = k)) as [<-|]; [by rewrite lookup_insert_eq|by rewrite lookup_insert_ne]. }
  split; rewrite ?Hqa, ?Hqg; try done.
  - intros x lk' (lk0 & Hx & -> & _)%Hlk. rewrite lookup_insert_is_Some'. right. by eapply Hcs.
  - intros x lk' Hx' Hst. destruct (Hlk x lk' Hx') as (lk0 & Hx & Hcn & _ & _ & Ht).
    destruct (Ht Hst) as [-> | ->].
    + assert (lk0 = lk) as -> by congruence. rewrite Hcn. by rewrite lookup_insert_eq.
    + apply Hcl'. by apply (Hcl x).
  - intros x lk' (lk0 & Hx & _ & -> & _)%Hlk. by apply (Hg x).
  - intros x Hx. destruct Hcase as [(_ & -> & _)|(Hne & -> & _)]; [done|]. destruct (Hc x Hx) as (Hi & lk0 & H1 & H2 & H3).
    split; [done|]. exists lk0. rewrite lookup_insert_ne by congruence. done.
  - intros x pkt pc' Hx. destruct (Hp x pkt pc' Hx) as (lk0 & H1 & H2 & H3).
    destruct (decide (l = x)) as [<-|Hne].
    + exists (set_l_stop true lk). rewrite lookup_insert_eq. split_and!; [done|by csimp|]. intros g Hpg.
      split; [by apply H3|by csimp].
    + exists lk0. rewrite lookup_insert_ne by done. split_and!; [done| |done]. intros Hst.
      destruct Hcase as [(Hcl0 & _ & _)|(_ & -> & _)]; [specialize (H2 Hst); congruence|by apply H2].
  - intros x id Hx. apply Hsome. by eapply Hw.
  - intros x pc' Hx. apply Hsome. by eapply Hk.
  - assert (Hnone : cur = None -> cur' = None) by (destruct Hcase as [(? & -> & _)|(_ & -> & _)]; done).
    destruct pc; simpl in *; try done.
    1-4: destruct Hco as (H1 & H2 & H3); split; [by apply Hnone|]; split; [by apply Hsome|done].
    all: destruct Hco as (H1 & lk0 & H2 & H3); split; [by apply Hnone|];
      destruct (Hsome _ (mk_is_Some _ _ H2)) as [lk' Hlk']; exists lk'; split; [done|];
      destruct (Hlk _ _ Hlk') as (lk1 & H4 & _ & -> & _); congruence.
  - rewrite (n_wire_gens _ links), (n_owed_gens _ links) by (intros; apply Hgen). done.
Qed.

Lemma elem_of_insert {A} (l : list A) i x y : y ∈ <[i := x]> l -> y = x \/ y ∈ l.
Proof.
  intros (j & Hj)%list_elem_of_lookup. destruct (decide (i = j)) as [<-|Hne].
  - left. destruct (decide (i < length l)%nat).
    + rewrite list_lookup_insert_eq in Hj by done. congruence.
    + rewrite list_insert_ge in Hj by lia. apply lookup_lt_Some in Hj. lia.
  - right. rewrite list_lookup_insert_ne in Hj by done. by eapply list_elem_of_lookup_2.
Qed.

(** A publishing goroutine takes a step that puts nothing on the wire. *)
Lemma inv_pub q links cur closed pubs wire acks cpc bound i l pkt pc pc' q' :
  pubs !! i = Some (l, pkt, pc) -> qgen q' = qgen q -> 0 <= avail q' ->
  (forall g, permit pc' = Some g -> permit pc = Some g \/ g = qgen q) ->
  avail q' + one (permit pc' = Some (qgen q)) <= avail q + one (permit pc = Some (qgen q)) ->
  inv q links cur closed pubs wire acks cpc bound ->
  inv q' links cur closed (<[i := (l, pkt, pc')]> pubs) wire acks cpc bound.
Proof.
  intros Hi Hqg Hr Hperm Hle [Ha Hb Htd Hn Hcs Hcl Hg Hc Hp Hw Hk Hco Hs].
  split; rewrite ?Hqg; try done.
  - intros x pkt' pc1 [[= -> -> ->]|Hx]%elem_of_insert; [|by apply (Hp x pkt')].
    destruct (Hp l pkt pc) as (lk & H1 & H2 & H3); [by eapply list_elem_of_lookup_2|].
    exists lk. split_and!; [done..|]. intros g Hpg. destruct (Hperm g Hpg) as [Hpg'| ->]; [by apply H3|done].
  - destruct cpc; simpl in *; rewrite ?Hqg; done.
  - unfold n_held. rewrite (count_insert _ _ _ _ _ Hi). cbn [snd]. unfold n_held in Hs. lia.
Qed.

(** A publishing goroutine sends its packet. *)
Lemma inv_send q links cur closed pubs wire acks cpc bound i l pkt pc pc' g id lk :
  pubs !! i = Some (l, pkt, pc) -> permit pc = Some g -> permit pc' = None ->
  links !! l = Some lk -> closed !! l_conn lk <> Some true ->
  inv q links cur closed pubs wire acks cpc bound ->
  inv q links cur closed (<[i := (l, pkt, pc')]> pubs) (wire ++ [(l, id)]) acks cpc bound.
Proof.
  intros Hi Hpg Hpn Hl Hopen [Ha Hb Htd Hn Hcs Hcl Hg Hc Hp Hw Hk Hco Hs].
  assert (Hst : l_stop lk = false) by (destruct (l_stop lk) eqn:E; [by destruct (Hopen (Hcl l lk Hl E))|done]).
  destruct (Hp l pkt pc) as (lk' & H1 & H2 & H3); [by eapply list_elem_of_lookup_2|].
  assert (lk' = lk) as -> by congruence. destruct (H3 g Hpg) as [_ Hgq]. specialize (Hgq Hst). subst g.
  destruct (Hc l (H2 Hst)) as (Hidle & lk' & H4 & _ & Hgen). assert (lk' = lk) as -> by congruence.
  split; try done.
  - intros x pkt' pc1 [[= -> -> ->]|Hx]%elem_of_insert; [|by apply (Hp x pkt')].
    exists lk. split_and!; [done..|]. by rewrite Hpn.
  - intros x id' [Hx|[= -> ->]%list_elem_of_singleton]%elem_of_app; [by eapply Hw|by exists lk].
  - subst cpc. done.
  - unfold n_held, n_wire. rewrite (count_insert _ _ _ _ _ Hi), tally_app. cbn [snd fst].
    unfold one. rewrite (decide_True (P := permit pc = _)), (decide_False (P := permit pc' = _)) by congruence.
    rewrite decide_True by (by rewrite (lookup_total_correct _ _ _ Hl)).
    unfold n_held, n_wire in Hs. lia.
Qed.

(** The broker acknowledges a packet; the read loop finds it stored or not. *)
Lemma inv_ack q links cur closed pubs wire acks cpc bound j l id acks' :
  wire !! j = Some (l, id) -> acks' = acks \/ (exists pc, credit pc = true /\ acks' = acks ++ [(l, pc)]) ->
  inv q links cur closed pubs wire acks cpc bound ->
  inv q links cur closed pubs (delete j wire) acks' cpc bound.
Proof.
  intros Hj Hacks [Ha Hb Htd Hn Hcs Hcl Hg Hc Hp Hw Hk Hco Hs].
  assert (Hin : (l, id) ∈ wire) by (by eapply list_elem_of_lookup_2).
  assert (Hsub : forall w, w ∈ delete j wire -> w ∈ wire).
  { intros w (k & Hk')%list_elem_of_lookup. rewrite list_lookup_delete in Hk'. by eapply list_elem_of_lookup_2. }
  assert (Hacks' : forall a, a ∈ acks' -> a ∈ acks \/ a.1 = l).
  { intros a Hin'. destruct Hacks as [->|(pc & _ & ->)]; [by left|].
    apply elem_of_app in Hin' as [?| ->%list_elem_of_singleton]; auto. }
  split; try done.
  - intros x id' Hx. by eapply Hw, Hsub.
  - intros x pc Hx. destruct (Hacks' _ Hx) as [Hx'|Hx']; [by eapply Hk|]. simpl in Hx'. subst x. by eapply Hw.
  - assert (Hu : forall x, untouched x wire acks -> untouched x (delete j wire) acks').
    { intros x [Hu1 Hu2]. split; [intros id' Hx; by destruct (Hu1 id'); apply Hsub|].
      intros pc Hx. destruct (Hacks' _ Hx) as [Hx'|Hx']; [by destruct (Hu2 pc)|]. simpl in Hx'. subst x.
      by destruct (Hu1 id). }
    destruct cpc; simpl in *; naive_solver.
  - assert (n_wire (qgen q) links (delete j wire) + n_owed (qgen q) links acks' <=
      n_wire (qgen q) links wire + n_owed (qgen q) links acks); [|lia].
    unfold n_wire. rewrite (count_delete _ _ _ _ Hj). cbn [fst].
    destruct Hacks as [->|(pc & Hcr & ->)]; [unfold one; case_decide; lia|].
    unfold n_owed. rewrite tally_app. cbn [fst snd]. unfold one. rewrite Hcr. repeat case_decide; naive_solver lia.
Qed.

(** A read loop takes a step. *)
Lemma inv_ack_step q links cur closed pubs wire acks cpc bound i l pc pc' q' :
  acks !! i = Some (l, pc) -> qgen q' = qgen q -> 0 <= avail q' ->
  avail q' + one (credit pc' = true /\ l_quotaGen (links !!! l) = qgen q) <=
    avail q + one (credit pc = true /\ l_quotaGen (links !!! l) = qgen q) ->
  inv q links cur closed pubs wire acks cpc bound ->
  inv q' links cur closed pubs wire (<[i := (l, pc')]> acks) cpc bound.
Proof.
  intros Hi Hqg Hr Hle [Ha Hb Htd Hn Hcs Hcl Hg Hc Hp Hw Hk Hco Hs].
  assert (Hin : (l, pc) ∈ acks) by (by eapply list_elem_of_lookup_2).
  split; rewrite ?Hqg; try done.
  - intros x pc1 [[= -> ->]|Hx]%elem_of_insert; [by eapply Hk|by eapply Hk].
  - assert (Hu : forall x, untouched x wire acks -> untouched x wire (<[i := (l, pc')]> acks)).
    { intros x [Hu1 Hu2]. split; [done|]. intros pc1 [[= -> ->]|Hx]%elem_of_insert; [by destruct (Hu2 pc)|by destruct (Hu2 pc1)]. }
    destruct cpc; simpl in *; rewrite ?Hqg; naive_solver.
  - unfold n_owed. rewrite (count_insert _ _ _ _ _ Hi). cbn [fst snd]. unfold n_owed in Hs. lia.
Qed.

Section preservation.
Context {St : Type} {HS : SessionStore St} {HC : ContainsStore St} {HE : Environment St}.
Implicit Types c : client St.
Implicit Types s : flow St.

(** The invariant for a given client. *)
Definition cinv c pubs wire acks pc bound : Prop :=
  inv (c_quota c) (c_links c) (c_link c) (cn_closed <$> c_conns c) pubs wire acks pc bound.

Lemma cinv_bystander c c' pubs wire acks pc bound : bystander c c' ->
  cinv c pubs wire acks pc bound -> cinv c' pubs wire acks pc bound.
Proof. unfold cinv. by intros (-> & -> & -> & ->). Qed.

Lemma cinv_teardown l g c pubs wire acks pc bound : is_Some (c_links c !! l) ->
  cinv c pubs wire acks pc bound -> cinv (teardownLink l g c) pubs wire acks pc bound.
Proof.
  intros [lk Hl] Hinv. destruct (isStopping l c) eqn:Hst; [by rewrite teardown_idem|].
  unfold cinv. destruct (teardown_links l g c Hst) as [-> ->]. rewrite fmap_insert. csimp.
  assert (Hlk : the_link c l = lk) by (by apply lookup_total_correct). rewrite Hlk.
  apply (inv_stop (c_quota c) (c_links c) (c_link c)); [done| |done].
  destruct (decide (c_link c = Some l)) as [E|E].
  - left. destruct (teardown_current l g c Hst E) as (-> & -> & _). done.
  - right. destruct (teardown_other l g c E) as (-> & -> & _). done.
Qed.

(** A write goes through on an open socket, or fails; then the link is untouched
    or torn down. *)
Lemma writeFrame_effect l lk encode c err c' pubs wire acks pc bound : c_links c !! l = Some lk ->
  cinv c pubs wire acks pc bound -> writeFrame (Some l) encode c = (err, c') ->
  cinv c' pubs wire acks pc bound /\
  (err = None -> c_links c' !! l = Some lk /\ (cn_closed <$> c_conns c') !! l_conn lk <> Some true).
Proof.
  intros Hl Hinv. assert (Hlk : the_link c l = lk) by (by apply lookup_total_correct).
  simpl. destruct (encode []) as [buf|e]; [|by intros [= <- <-]].
  rewrite cmd_bind_eq. unfold gets. destruct (negb _ && _); [by intros [= <- <-]|]. rewrite !cmd_bind_eq, Hlk.
  unfold conn_write. destruct (negb (cn_closed _) && _) eqn:Eok.
  - intros [= <- <-]. apply andb_true_iff in Eok as [Eok _]. apply negb_true_iff in Eok.
    destruct (iv_conns _ _ _ _ _ _ _ _ _ Hinv l lk Hl) as [b Hb]. rewrite lookup_fmap in Hb.
    destruct (c_conns c !! l_conn lk) as [cn|] eqn:Hcn; [|done].
    assert (Htot : c_conns c !!! l_conn lk = cn) by (by apply lookup_total_correct). rewrite Htot in Eok.
    assert (Hby : bystander c (upd_conn (l_conn lk) (set_cn_w (cn_w (c_conns c !!! l_conn lk) ++ [buf])) c)).
    { unfold bystander. csimp. split_and!; try done. rewrite fmap_insert, Htot. csimp.
      apply insert_id. by rewrite lookup_fmap, Hcn. }
    split; [by apply (cinv_bystander c)|]. intros _. destruct Hby as (_ & -> & _ & ->).
    split; [done|]. rewrite lookup_fmap, Hcn. simpl. congruence.
  - rewrite cmd_bind_eq. unfold upd. intros [= <- <-]. split; [|done]. by apply cinv_teardown.
Qed.

(** A release: a permit of the current generation comes back. *)
Lemma release_exact g q : 0 <= avail q -> (g = qgen q -> avail q + 1 < 9223372036854775808) ->
  let q' := quota_releaseAt g q in qgen q' = qgen q /\ 0 <= avail q' /\ avail q' = avail q + one (g = qgen q).
Proof.
  intros Hr Hmax. unfold quota_releaseAt, one. destruct (Z.eqb_spec g (qgen q)) as [E|E].
  - rewrite decide_True by done. simpl. rewrite i64_id by (specialize (Hmax E); lia). split_and!; [done|lia..].
  - rewrite decide_False by done. split_and!; [done|lia..].
Qed.

(** What a goroutine still holds is within the bound. *)
Lemma held_room q links cur closed pubs wire acks pc bound i l pkt pc' :
  inv q links cur closed pubs wire acks pc bound -> pubs !! i = Some (l, pkt, pc') -> permit pc' = Some (qgen q) ->
  avail q + 1 < 9223372036854775808.
Proof.
  intros [Ha Hb Htd Hn Hcs Hcl Hg Hc Hp Hw Hk Hco Hs] Hi Hpg.
  pose proof (count_delete (fun p => permit p.2 = Some (qgen q)) pubs i _ Hi) as Hd.
  cbn [snd] in Hd. unfold one in Hd. rewrite decide_True in Hd by done.
  unfold n_held, n_wire, n_owed in Hs. lia.
Qed.

Lemma owed_room q links cur closed pubs wire acks pc bound i l pc' :
  inv q links cur closed pubs wire acks pc bound -> acks !! i = Some (l, pc') -> credit pc' = true ->
  l_quotaGen (links !!! l) = qgen q -> avail q + 1 < 9223372036854775808.
Proof.
  intros [Ha Hb Htd Hn Hcs Hcl Hg Hc Hp Hw Hk Hco Hs] Hi Hcr Hgen.
  pose proof (count_delete (fun a => credit a.2 = true /\ l_quotaGen (links !!! a.1) = qgen q) acks i _ Hi) as Hd.
  cbn [fst snd] in Hd. unfold one in Hd. rewrite decide_True in Hd by done.
  unfold n_held, n_wire, n_owed in Hs. lia.
Qed.

Lemma one_range P `{Decision P} : 0 <= one P <= 1.
Proof. unfold one. case_decide; lia. Qed.

(** A step that keeps or drops the permit. *)
Lemma cinv_thread c c' pubs wire acks cpc bound i l pkt pc pc' : pubs !! i = Some (l, pkt, pc) ->
  bystander c c' -> permit pc' = permit pc \/ permit pc' = None ->
  cinv c pubs wire acks cpc bound -> cinv c' (<[i := (l, pkt, pc')]> pubs) wire acks cpc bound.
Proof.
  intros Hi Hby Hperm Hinv. apply (cinv_bystander c c'); [done|].
  pose proof (one_range (permit pc = Some (qgen (c_quota c)))).
  apply (inv_pub (c_quota c) (c_links c) _ _ _ _ _ _ _ i l pkt pc); try done.
  - apply Hinv.
  - intros g Hg. left. destruct Hperm as [<-|Hn]; congruence.
  - destruct Hperm as [E|E]; unfold one in *; rewrite E; [lia|]. rewrite decide_False by done. lia.
Qed.

Lemma registerWaiter_by id want c : bystander c (registerWaiter id want c).2.
Proof. done. Qed.
Lemma removeWaiter_by id ch c : bystander c (removeWaiter id ch c).
Proof. unfold removeWaiter. destruct (c_waiters c !! id); [|done]. by destruct (_ =? _)%nat. Qed.
Lemma signalWaiter_by id got r c : bystander c (signalWaiter id got r c).2.
Proof. unfold signalWaiter. destruct (c_waiters c !! id); [|done]. by case_bool_decide. Qed.

Lemma act_quota c pubs wire acks cpc bound i l pkt pc' c' ev : pubs !! i = Some (l, pkt, PQuota) ->
  cinv c pubs wire acks cpc bound -> pub_step l pkt ev PQuota c = (pc', c') ->
  cinv c' (<[i := (l, pkt, pc')]> pubs) wire acks cpc bound.
Proof.
  intros Hi Hinv.
  assert (Hr : 0 <= avail (c_quota c) < 9223372036854775808).
  { destruct Hinv as [Ha Hb Htd Hn Hcs Hcl Hg Hc Hp Hw Hk Hco Hs]. unfold n_held, n_wire, n_owed in Hs. lia. }
  simpl. unfold quota_acquire_turn.
  destruct (failed (c_quota c)) eqn:Ef.
  { intros [= <- <-]. eapply cinv_thread; [done| |by right|done]. by destruct c. }
  destruct (avail (c_quota c) >? 0) eqn:Ea; intros [= <- <-].
  - apply Z.gtb_lt in Ea. unfold cinv. csimp. eapply (inv_pub (c_quota c)); [exact Hi|done|simpl; rewrite i64_id; lia| | |done].
    + intros g [= ->]. by right.
    + simpl. rewrite i64_id by lia. unfold one. rewrite decide_True, decide_False by done. lia.
  - eapply cinv_thread; [done| |by right|done]. by destruct c.
Qed.

Lemma act_write c pubs wire acks cpc bound i l pkt qg id ig ch pc' c' ev :
  pubs !! i = Some (l, pkt, PWrite qg id ig ch) ->
  cinv c pubs wire acks cpc bound -> pub_step l pkt ev (PWrite qg id ig ch) c = (pc', c') ->
  cinv c' (<[i := (l, pkt, pc')]> pubs) (match pc' with PWait _ _ => wire ++ [(l, id)] | _ => wire end) acks cpc bound.
Proof.
  intros Hi Hinv. destruct (iv_pubs _ _ _ _ _ _ _ _ _ Hinv l pkt _ (list_elem_of_lookup_2 _ _ _ Hi)) as (lk & Hl & _).
  unfold pub_step. destruct (writeFrame _ _ c) as [err c1] eqn:Ew.
  destruct (writeFrame_effect l lk _ c err c1 _ _ _ _ _ Hl Hinv Ew) as [Hinv1 Hsent].
  destruct err as [e|]; intros [= <- <-].
  - by eapply cinv_thread; [..|exact Hinv1]; [done|done|left].
  - destruct (Hsent eq_refl) as [Hl1 Hop]. by eapply inv_send.
Qed.

(** The allocator's scan is not to be unfolded in conversions. *)
#[local] Strategy opaque [idAllocator_Acquire].

Lemma act_pub c pubs wire acks cpc bound i l pkt pc pc' ev c' : pubs !! i = Some (l, pkt, pc) ->
  cinv c pubs wire acks cpc bound -> pub_step l pkt ev pc c = (pc', c') ->
  cinv c' (<[i := (l, pkt, pc')]> pubs)
    (match pc, pc' with PWrite _ id _ _, PWait _ _ => wire ++ [(l, id)] | _, _ => wire end) acks cpc bound.
Proof.
  intros Hi Hinv Hstep. destruct pc; try (by eapply act_write); try (by eapply act_quota); cbn [pub_step] in Hstep.
  - destruct ev; simplify_eq; (eapply cinv_thread; [exact Hi|done| |done]); try (by right); left; by destruct (woken _ _).
  - destruct (idAllocator_Acquire _) as [[] a]; simplify_eq; (eapply cinv_thread; [exact Hi|done|by left|done]).
  - destruct (Save _ _); simplify_eq; (eapply cinv_thread; [exact Hi|done|by left|done]).
  - unfold registerWaiter in Hstep. simplify_eq. eapply cinv_thread; [exact Hi|done|by left|done].
  - simplify_eq. eapply cinv_thread; [exact Hi|apply removeWaiter_by|by left|done].
  - simplify_eq. eapply cinv_thread; [exact Hi|done| |done]. destruct (_ =? _); [by left|by right].
  - simplify_eq. eapply cinv_thread; [exact Hi|done|by left|done].
  - simplify_eq. eapply cinv_thread; [exact Hi|done|by left|done].
  - simplify_eq. 
    destruct (release_exact qg (c_quota c) (iv_avail _ _ _ _ _ _ _ _ _ Hinv)) as (H1 & H2 & H3).
    { intros ->. by eapply held_room. }
    unfold cinv. csimp. eapply (inv_pub (c_quota c)); [exact Hi|done|done|done| |done]. simpl permit.
    unfold one in *. rewrite (decide_False (P := None = _)) by done.
    repeat case_decide; simplify_eq; lia.
  - destruct ev; try destruct (c_chans c !! ch); simplify_eq; (eapply cinv_thread; [exact Hi|done|by left|done]).
  - simplify_eq. eapply cinv_thread; [exact Hi|apply removeWaiter_by|by left|done].
  - simplify_eq. eapply cinv_thread; [exact Hi|done|by left|done].
Qed.

Lemma act_ack c pubs wire acks cpc bound i l pc pc' c' : acks !! i = Some (l, pc) ->
  cinv c pubs wire acks cpc bound -> ack_step l pc c = (pc', c') ->
  cinv c' pubs wire (<[i := (l, pc')]> acks) cpc bound.
Proof.
  intros Hi Hinv.
  assert (Hsimple : forall c1, bystander c c1 -> credit pc' = credit pc \/ credit pc' = false ->
    cinv c1 pubs wire (<[i := (l, pc')]> acks) cpc bound).
  { intros c1 Hby Hcr. apply (cinv_bystander c c1); [done|].
    apply (inv_ack_step (c_quota c) (c_links c) _ _ _ _ _ _ _ i l pc); try done; [apply Hinv|].
    unfold one. destruct Hcr as [->|E]; [lia|]. rewrite (decide_False (P := credit pc' = true /\ _)) by (intros [? _]; congruence).
    case_decide; lia. }
  destruct pc; simpl; try (intros [= <- <-]; apply Hsimple; [done|by left]).
  - intros [= <- <-]. fold (link_gen c l). unfold cinv, quota_releaseAt'. csimp.
    destruct (release_exact (link_gen c l) (c_quota c) (iv_avail _ _ _ _ _ _ _ _ _ Hinv)) as (H1 & H2 & H3).
    { intros Hgen. by eapply owed_room. }
    eapply (inv_ack_step (c_quota c)); [exact Hi|done|done| |done]. unfold one in *.
    rewrite (decide_False (P := credit (AkSignal id r) = true /\ _)) by (by intros [? _]).
    change (c_links c !!! l) with (the_link c l). fold (link_gen c l).
    repeat case_decide; try lia; exfalso; tauto.
  - destruct (signalWaiter _ _ _ c) as [b c1] eqn:Es. intros [= <- <-]. apply Hsimple; [|by left].
    replace c1 with (signalWaiter id ackClassPublish r c).2 by (by rewrite Es). apply signalWaiter_by.
Qed.

Lemma act_connect c pubs wire acks bound r bytes : c_link c = None ->
  cinv c pubs wire acks CIdle bound ->
  let k := fresh (dom (c_conns c)) in
  let l := fresh (dom (c_links c)) in
  let c1 := set_conns (<[k := mkConn bytes [] false]> (c_conns c)) c in
  cinv (set_links (<[l := newLink k r c1]> (c_links c1)) c1) pubs wire acks (CReset l r) bound.
Proof.
  intros Hnone [Ha Hb Htd Hn Hcs Hcl Hg Hc Hp Hw Hk Hco Hs] k l c1. unfold cinv. subst c1. csimp. rewrite fmap_insert. csimp.
  assert (Hkf : (cn_closed <$> c_conns c) !! k = None).
  { rewrite lookup_fmap. assert (k ∉ dom (c_conns c)) by apply is_fresh. by rewrite not_elem_of_dom_1. }
  assert (Hlf : c_links c !! l = None).
  { assert (l ∉ dom (c_links c)) by apply is_fresh. by rewrite not_elem_of_dom_1. }
  assert (Hlne : forall x, is_Some (c_links c !! x) -> x <> l) by (intros x [? Hx] ->; congruence).
  assert (Hkne : forall x lk, c_links c !! x = Some lk -> l_conn lk <> k).
  { intros x lk Hx Hxk. destruct (Hcs x lk Hx). congruence. }
  split; try done.
  - intros x lk [[<- <-]|[_ Hx]]%lookup_insert_Some; csimp; rewrite lookup_insert_is_Some'; [by left|right; by eapply Hcs].
  - intros x lk [[<- <-]|[_ Hx]]%lookup_insert_Some Hst; [done|]. rewrite lookup_insert_ne by (apply not_eq_sym; by eapply Hkne).
    by apply (Hcl x).
  - intros x lk [[<- <-]|[_ Hx]]%lookup_insert_Some; [done|by apply (Hg x)].
  - intros x Hx. congruence.
  - intros x pkt pc Hx. destruct (Hp x pkt pc Hx) as (lk & H1 & H2 & H3). exists lk.
    rewrite lookup_insert_ne by (apply not_eq_sym, Hlne; by eexists). done.
  - intros x id Hx. apply lookup_insert_is_Some'. right. by eapply Hw.
  - intros x pc Hx. apply lookup_insert_is_Some'. right. by eapply Hk.
  - split_and!; [done|rewrite lookup_insert_eq; by eexists|]. split.
    + intros id Hx. by destruct (Hlne l (Hw l id Hx)).
    + intros pc Hx. by destruct (Hlne l (Hk l pc Hx)).
  - rewrite (n_wire_gens _ (c_links c)), (n_owed_gens _ (c_links c)); [done|..].
    + intros x pc Hx. by rewrite lookup_total_insert_ne by (apply not_eq_sym, Hlne; by eapply Hk).
    + intros x id Hx. by rewrite lookup_total_insert_ne by (apply not_eq_sym, Hlne; by eapply Hw).
Qed.

(** The connect moves on; nothing else changes. *)
Lemma inv_phase q links cur closed pubs wire acks pc bound pc' bound' : cur = None ->
  connecting q links cur wire acks pc' -> 0 <= n_todo pc' -> bound' < 9223372036854775808 ->
  n_todo pc' - bound' <= n_todo pc - bound ->
  inv q links cur closed pubs wire acks pc bound -> inv q links cur closed pubs wire acks pc' bound'.
Proof.
  intros Hcur Hco Htd' Hb' Hle [Ha Hb Htd Hn Hcs Hcl Hg Hc Hp Hw Hk _ Hs]. split; try done; [|lia].
  intros l Hl. congruence.
Qed.

(** The quota is reset: every permit and every packet belongs to an older
    generation. *)
Lemma inv_reset q links closed pubs wire acks l r n bound size : in_u64 (qgen q + 1) -> in_u16 size -> n < maxMessages ->
  inv q links None closed pubs wire acks (CQuota l r n) bound ->
  inv (quota_reset (Z.max (size - n) 0) q) links None closed pubs wire acks (CGen l r n) (size + Z.max (n - size) 0).
Proof.
  intros Hu Hsz Hmx [Ha Hb Htd Hn Hcs Hcl Hg Hc Hp Hw Hk Hco Hs]. unfold in_u64, in_u16, maxMessages in *. simpl in Hco.
  assert (Hqg : qgen (quota_reset (Z.max (size - n) 0) q) = qgen q + 1) by (by apply u64_id).
  assert (Hlk : forall x, is_Some (links !! x) -> l_quotaGen (links !!! x) <> qgen q + 1).
  { intros x [lk Hx]. rewrite (lookup_total_correct _ _ _ Hx). pose proof (Hg x lk Hx). lia. }
  split; rewrite ?Hqg; try done; try lia.
  - simpl. lia.
  - simpl. tauto.
  - intros x lk Hx. pose proof (Hg x lk Hx). lia.
  - intros x pkt pc Hx. destruct (Hp x pkt pc Hx) as (lk & H1 & H2 & H3). exists lk. split_and!; [done..|].
    intros g Hpg. destruct (H3 g Hpg) as [H4 _]. split; [lia|]. intros Hst. by specialize (H2 Hst).
  - simpl. naive_solver.
  - unfold n_held, n_wire, n_owed. rewrite !count_none; [simpl; lia|..].
    + intros [x pc] Hx [_ Hgen]. by apply (Hlk x); [eapply Hk|].
    + intros [x id] Hx. simpl. by apply Hlk; eapply Hw.
    + intros [[x pkt] pc] Hx. simpl. intros Hpg. destruct (Hp x pkt pc Hx) as (lk & _ & _ & H3).
      destruct (H3 _ Hpg). lia.
Qed.

(** The new link records the generation it lives under. *)
Lemma inv_capture q links closed pubs wire acks l r n bound lk lk' : links !! l = Some lk ->
  l_conn lk' = l_conn lk -> l_stop lk' = l_stop lk -> l_quotaGen lk' = qgen q ->
  inv q links None closed pubs wire acks (CGen l r n) bound ->
  inv q (<[l := lk']> links) None closed pubs wire acks (CSnap l r n) bound.
Proof.
  intros Hl Hcn Hst Hgn [Ha Hb Htd Hn Hcs Hcl Hg Hc Hp Hw Hk Hco Hs]. destruct Hco as (_ & _ & Hu1 & Hu2).
  assert (Hsome : forall x, is_Some (links !! x) -> is_Some (<[l := lk']> links !! x)).
  { intros x. rewrite !lookup_insert_is_Some'. tauto. }
  split; try done.
  - intros x lk0 [[<- <-]|[_ Hx]]%lookup_insert_Some; [rewrite Hcn|]; by eapply Hcs.
  - intros x lk0 [[<- <-]|[_ Hx]]%lookup_insert_Some; [rewrite Hcn, Hst|]; by eapply Hcl.
  - intros x lk0 [[<- <-]|[_ Hx]]%lookup_insert_Some; [lia|by eapply Hg].
  - intros x pkt pc Hx. destruct (Hp x pkt pc Hx) as (lk0 & H1 & H2 & H3).
    destruct (decide (l = x)) as [<-|Hne].
    + exists lk'. rewrite lookup_insert_eq, Hst. assert (lk0 = lk) as -> by congruence. done.
    + exists lk0. rewrite lookup_insert_ne by done. done.
  - intros x id Hx. apply Hsome. by eapply Hw.
  - intros x pc Hx. apply Hsome. by eapply Hk.
  - split; [done|]. exists lk'. by rewrite lookup_insert_eq.
  - rewrite (n_wire_gens _ links), (n_owed_gens _ links); [done|..].
    + intros x pc Hx. rewrite lookup_total_insert_ne; [done|]. intros <-. by destruct (Hu2 pc).
    + intros x id Hx. rewrite lookup_total_insert_ne; [done|]. intros <-. by destruct (Hu1 id).
Qed.

(** The new link becomes the current one. *)
Lemma inv_publish q links closed pubs wire acks l r bound lk : links !! l = Some lk -> l_stop lk = false ->
  inv q links None closed pubs wire acks (CReplay l r []) bound ->
  inv q links (Some l) closed pubs wire acks CIdle bound.
Proof.
  intros Hl Hst [Ha Hb Htd Hn Hcs Hcl Hg Hc Hp Hw Hk Hco Hs]. destruct Hco as (_ & lk' & Hl' & Hgen).
  assert (lk' = lk) as -> by congruence. split; try done.
  - intros x [= <-]. split; [done|]. by exists lk.
  - intros x pkt pc Hx. destruct (Hp x pkt pc Hx) as (lk0 & H1 & H2 & H3). exists lk0. split_and!; [done| |done].
    intros Hs0. by specialize (H2 Hs0).
Qed.

Lemma msg_count_nonneg msgs : 0 <= msg_count msgs.
Proof. unfold msg_count. lia. Qed.

(** A replayed packet goes out on the new link. *)
Lemma inv_replay q links closed pubs wire acks l r m msgs bound : outbound m = true ->
  inv q links None closed pubs wire acks (CReplay l r (m :: msgs)) bound ->
  inv q links None closed pubs (wire ++ [(l, sm_ID m)]) acks (CReplay l r msgs) bound.
Proof.
  intros Hm [Ha Hb Htd Hn Hcs Hcl Hg Hc Hp Hw Hk Hco Hs]. destruct Hco as (_ & lk & Hl & Hgen). split; try done.
  - simpl. apply msg_count_nonneg.
  - intros x id [Hx|[= -> ->]%list_elem_of_singleton]%elem_of_app; [by eapply Hw|by exists lk].
  - split; [done|]. by exists lk.
  - unfold n_wire. rewrite tally_app. cbn [fst]. unfold one. rewrite decide_True by (by rewrite (lookup_total_correct _ _ _ Hl)).
    unfold n_wire in Hs. cbn [n_todo] in *. unfold msg_count in *. rewrite filter_cons, decide_True in Hs by done.
    simpl in Hs. lia.
Qed.

Lemma msg_count_cons m msgs : msg_count msgs <= msg_count (m :: msgs).
Proof. unfold msg_count. rewrite filter_cons. case_decide; simpl; lia. Qed.

Lemma replay_encoder_outbound v m encode : replay_encoder v m = Some encode -> outbound m = true.
Proof.
  unfold replay_encoder, outbound. destruct (sm_Kind m =? StoredPublish); [done|].
  by destruct (sm_Kind m =? StoredPubrel).
Qed.

Lemma conn_step_replay s s' l r m msgs : flow_inv s -> f_conn s = CReplay l r (m :: msgs) -> conn_step s = Some s' ->
  flow_inv s'.
Proof.
  intros Hinv Hpc. unfold flow_inv in Hinv. rewrite Hpc in Hinv.
  destruct (iv_conn _ _ _ _ _ _ _ _ _ Hinv) as (Hnone & lk & Hl & Hgen).
  unfold conn_step. rewrite Hpc. destruct (replay_encoder _ m) as [encode|] eqn:Henc.
  - destruct (writeFrame (Some l) encode (f_c s)) as [err c1] eqn:Ew. intros [= <-].
    destruct (writeFrame_effect l lk _ _ _ _ _ _ _ _ _ Hl Hinv Ew) as [Hinv1 _]. unfold flow_inv, cinv in *. simpl.
    destruct (iv_conn _ _ _ _ _ _ _ _ _ Hinv1) as (Hnone1 & Hco1). rewrite Hnone1 in *.
    destruct err as [e|]; simpl.
    + eapply inv_phase; [..|exact Hinv1]; [done|by split|apply msg_count_nonneg|apply Hinv1|].
      simpl. pose proof (msg_count_cons m msgs). lia.
    + by apply inv_replay; [eapply replay_encoder_outbound|].
  - intros [= <-]. unfold flow_inv. simpl. rewrite Hnone in *.
    eapply inv_phase; [..|exact Hinv]; [done|by split; [|exists lk]|apply msg_count_nonneg|apply Hinv|].
    simpl. pose proof (msg_count_cons m msgs). lia.
Qed.

Lemma conn_step_inv s s' : flow_inv s -> conn_step s = Some s' -> flow_inv s'.
Proof.
  intros Hinv. destruct (f_conn s) as [|l r|l r|l r n|l r n|l r n|l r [|m msgs]] eqn:Hpc;
    try (by eapply conn_step_replay); unfold conn_step; rewrite Hpc; [done|..];
    unfold flow_inv in Hinv; rewrite Hpc in Hinv; pose proof (iv_conn _ _ _ _ _ _ _ _ _ Hinv) as Hco; simpl in Hco.
  - intros [= <-]. unfold flow_inv. simpl.
    eapply inv_phase; [| |done|apply Hinv| |destruct (resetsSession r (f_c s)); exact Hinv];
      destruct (resetsSession r (f_c s)); csimp; done || apply Hco.
  - intros [= <-]. unfold flow_inv. simpl. destruct Hco as (H1 & H2 & H3).
    eapply inv_phase; [..|exact Hinv]; [done| |done|apply Hinv|simpl; lia].
    simpl. split_and!; [done..|]. unfold inflightPermits. destruct (All _); lia.
  - case_bool_decide as Hg; [|done]. intros [= <-]. unfold flow_inv. csimp. simpl. destruct Hco as (Hnone & _).
    rewrite Hnone in *. by apply (inv_reset _ _ _ _ _ _ _ _ _ (f_ceil s + f_over s)); [apply Hg..|].
  - intros [= <-]. unfold flow_inv. simpl. unfold captureGenerations. csimp. destruct Hco as (Hnone & [lk Hl] & _).
    rewrite Hnone in *. assert (Hlk : the_link (f_c s) l = lk) by (by apply lookup_total_correct).
    rewrite Hlk. by apply (inv_capture _ _ _ _ _ _ _ _ _ _ lk).
  - case_bool_decide as Hb; [|done]. intros [= <-]. unfold flow_inv. simpl. destruct Hco as (H1 & H2).
    eapply inv_phase; [..|exact Hinv]; [done|by split|apply msg_count_nonneg|simpl; lia..].
  - destruct Hco as (Hnone & lk & Hl & Hgen).
    assert (Hlk : the_link (f_c s) l = lk) by (by apply lookup_total_correct). unfold isStopping. rewrite Hlk.
    destruct (l_stop lk) eqn:Hst; intros [= <-]; unfold flow_inv; csimp; simpl; rewrite Hnone in *.
    + eapply inv_phase; [..|exact Hinv]; done || apply Hinv.
    + by eapply inv_publish.
Qed.

Lemma act_inv a s s' : flow_inv s -> act a s = Some s' -> flow_inv s'.
Proof.
  intros Hinv. destruct a as [pkt|i ev|j kind r|i|l g|c'|r bytes|]; simpl.
  - destruct (c_link (f_c s)) as [l|] eqn:Hl; [|done]. intros [= <-]. unfold flow_inv in *. simpl. rewrite Hl in *.
    destruct Hinv as [Ha Hb Htd Hn Hcs Hcl Hg Hc Hp Hw Hk Hco Hs]. split; try done.
    + intros x pkt' pc [Hx|[= -> -> ->]%list_elem_of_singleton]%elem_of_app; [by apply (Hp x pkt')|].
      destruct (Hc l eq_refl) as (_ & lk & H1 & H2 & H3). exists lk. done.
    + unfold n_held. rewrite tally_app. unfold one. rewrite decide_False by done. unfold n_held in Hs. lia.
  - destruct (f_pubs s !! i) as [[[l pkt] pc]|] eqn:Hi; [|done].
    destruct (pub_step l pkt ev pc (f_c s)) as [pc' c'] eqn:Hstep. intros [= <-].
    exact (act_pub _ _ _ _ _ _ _ _ _ _ _ _ _ Hi Hinv Hstep).
  - destruct (f_wire s !! j) as [[l id]|] eqn:Hj; [|done]. intros [= <-]. unfold flow_inv. simpl.
    eapply inv_ack; [exact Hj| |exact Hinv]. destruct (storeContains id kind (f_c s)); [right; exists (AkDelete id kind r); by split|by left].
  - destruct (f_acks s !! i) as [[l pc]|] eqn:Hi; [|done].
    destruct (ack_step l pc (f_c s)) as [pc' c'] eqn:Hstep. intros [= <-].
    exact (act_ack _ _ _ _ _ _ _ _ _ _ _ Hi Hinv Hstep).
  - case_decide as Hl; [|done]. intros [= <-]. by apply cinv_teardown.
  - case_decide as Hby; [|done]. intros [= <-]. by apply (cinv_bystander (f_c s)).
  - destruct (c_link (f_c s)) eqn:Hl; [done|]. destruct (f_conn s) eqn:Hpc; try done. intros [= <-].
    unfold flow_inv in *. rewrite Hpc in *. exact (act_connect (f_c s) _ _ _ _ r bytes Hl Hinv).
  - by apply conn_step_inv.
Qed.

Lemma acts_inv l s s' : flow_inv s -> acts l s = Some s' -> flow_inv s'.
Proof.
  revert s. induction l as [|a l IH]; simpl; intros s Hinv; [by intros [= <-]|].
  destruct (act a s) as [s1|] eqn:Ha; simpl; [|done]. apply IH. by eapply act_inv.
Qed.

(** A client that was never connected. *)
Definition unconnected c : Prop :=
  c_quota c = newQuota 0 /\ c_links c = ∅ /\ c_link c = None /\ c_conns c = ∅.

Definition flow_init c : flow St := mkFlow c [] [] [] CIdle 0 0.

Lemma flow_init_inv c : unconnected c -> flow_inv (flow_init c).
Proof.
  intros (Hq & Hl & Hc & Hk). unfold flow_inv. simpl. rewrite Hq, Hl, Hc, Hk.
  split; simpl; try done; try lia; try (intros *; rewrite ?lookup_empty; done); intros *; by rewrite ?elem_of_nil.
Qed.
End preservation.

(** * The critical sections together are the functions of the source *)

Lemma completeOutbound_steps {St} {HS : SessionStore St} {HC : ContainsStore St} (c : client St) l id kind r :
  storeContains id kind c = true ->
  completeOutbound l id kind r c =
  (tt, let '(pc, c) := ack_step l (AkDelete id kind r) c in
       let '(pc, c) := ack_step l pc c in
       let '(pc, c) := ack_step l pc c in (ack_step l pc c).2).
Proof.
  intros Hk. unfold completeOutbound, mbind, cmd_bind, gets, upd. rewrite Hk. cbn [negb].
  unfold ack_step. by destruct (signalWaiter _ _ _ _).
Qed.

Lemma applySession_steps {St} {HS : SessionStore St} {HC : ContainsStore St} {HE : Environment St}
    (s s1 s2 s3 : flow St) l r :
  f_conn s = CReset l r -> conn_step s = Some s1 -> conn_step s1 = Some s2 -> conn_step s2 = Some s3 ->
  f_c s3 = applySession r (f_c s).
Proof.
  intros Hpc. unfold conn_step. rewrite Hpc. intros [= <-] [= <-]. simpl. case_bool_decide; [|done].
  intros [= <-]. simpl. unfold applySession. by destruct (resetsSession r (f_c s)).
Qed.

(** * Theorems *)

(** C6.  The Receive Maximum holds across reconnects.  Whatever order any number
    of publishing goroutines, read loops (of old links too), teardowns and
    connects run in, and whatever else happens to the store: the permits left,
    those held by goroutines that have not sent yet, the exchanges
    unacknowledged on the newest connection and the acknowledgements still being
    booked never exceed the negotiated limit plus [f_over], the messages its
    replay sends beyond what the accounting of the connect allows for.  So as
    long as the replay fits ([f_over] is zero) the broker never sees more
    unacknowledged publishes than its Receive Maximum. *)
Theorem receive_maximum_respected {St} {HS : SessionStore St} {HC : ContainsStore St} {HE : Environment St}
    (c : client St) (l : list (action St)) (s : flow St) :
  unconnected c -> acts l (flow_init c) = Some s ->
  let q := c_quota (f_c s) in
  0 <= avail q /\
  avail q + n_held (qgen q) (f_pubs s) + unacknowledged s + n_owed (qgen q) (c_links (f_c s)) (f_acks s)
    <= f_ceil s + f_over s /\
  (f_over s = 0 -> unacknowledged s <= f_ceil s).
Proof.
  intros Hc Hl q. destruct (acts_inv l _ _ (flow_init_inv c Hc) Hl) as [Ha Hb Htd Hn Hcs Hcl Hg Hcu Hp Hw Hk Hco Hs].
  unfold unacknowledged, n_held, n_wire, n_owed in *. subst q. split_and!; [done|lia..].
Qed.

(** A CONNACK that resumes the session with a Receive Maximum. *)
Definition resumed (rm : Z) : ConnectResult :=
  buildConnectResult (mkConnack true 0 (Some (set_ReceiveMaximum (Some rm) emptyProperties))).

(** A connect to the end, for [n] messages to replay. *)
Definition reconnect (rm : Z) (n : nat) : list (action memStore) :=
  AConnect (resumed rm) [] :: replicate (6 + n) AConnStep.

(** Goroutine [i] runs until it waits for its acknowledgement. *)
Definition send (i : nat) : list (action memStore) := replicate 5 (APub i Run).

Definition acked : ackResult := mkAckResult None [] 0.

Lemma receive_maximum_respected_witness :
  exists s, acts (reconnect 2 0 ++ [AStart demo_pkt; AStart demo_pkt; AStart demo_pkt] ++ send 0 ++ send 1 ++ send 2 ++
    [AAck 0 StoredPublish acked; AAckStep 0; AAckStep 0; AAckStep 0] ++ replicate 6 (APub 2 Run))
    (flow_init (NewTCPClient demo_cfg)) = Some s /\ unacknowledged s = 2 /\ unacknowledged s <= f_ceil s.
Proof.
  eexists. split; [vm_compute; reflexivity|]. split; [vm_compute; reflexivity|].
  refine (proj2 (proj2 (receive_maximum_respected (NewTCPClient demo_cfg) (reconnect 2 0 ++
    [AStart demo_pkt; AStart demo_pkt; AStart demo_pkt] ++ send 0 ++ send 1 ++ send 2 ++
    [AAck 0 StoredPublish acked; AAckStep 0; AAckStep 0; AAckStep 0] ++ replicate 6 (APub 2 Run)) _ _ _)) _);
    [split_and!; reflexivity|vm_compute; reflexivity|vm_compute; reflexivity].
Defined.

(** A resumed session whose broker lowers its Receive Maximum is over-credited.
    applySession seeds the quota with max(limit - in flight, 0) and so forgets by
    how much the replay exceeds the limit: with two messages in flight and a new
    limit of one, the first acknowledgement lets a third publish go out while a
    replayed one is still unacknowledged. *)
Theorem shrunk_limit_exceeded :
  exists s, acts (reconnect 2 0 ++ [AStart demo_pkt; AStart demo_pkt] ++ send 0 ++ send 1 ++ [ADrop 0 false] ++
    reconnect 1 2 ++ [AAck 2 StoredPublish acked; AAckStep 0; AAckStep 0; AAckStep 0; AStart demo_pkt] ++ send 2)
    (flow_init (NewTCPClient demo_cfg)) = Some s /\
  f_ceil s = 1 /\ f_conn s = CIdle /\ unacknowledged s = 2 /\ f_pubs s !! 2%nat = Some (1%nat, demo_pkt, PWait 3 2).
Proof. eexists. split_and!; vm_compute; reflexivity. Qed.

(** A publish that stores its packet between the count and the replay of a
    reconnect breaks the limit.  applySession counts the stored messages before
    replaySession lists them: a goroutine that took its permit on the old
    connection and saves in between is replayed without being counted, so with a
    Receive Maximum of one a fresh publish still finds a permit and two are
    unacknowledged. *)
Theorem late_save_exceeds_limit :
  exists s, acts (reconnect 1 0 ++ [AStart demo_pkt; APub 0 Run; APub 0 Run; ADrop 0 false] ++
    AConnect (resumed 1) [] :: replicate 4 AConnStep ++ [APub 0 Run] ++ replicate 3 AConnStep ++
    [AStart demo_pkt] ++ send 1)
    (flow_init (NewTCPClient demo_cfg)) = Some s /\
  f_ceil s = 1 /\ f_conn s = CIdle /\ unacknowledged s = 2 /\ f_pubs s !! 1%nat = Some (1%nat, demo_pkt, PWait 2 0).
Proof. eexists. split_and!; vm_compute; reflexivity. Qed.
