(* ===== verification/Exchange.v ===== *)
(** Packet identifiers of QoS 1 and QoS 2 exchanges across goroutines and
    reconnects (publishAcked in publish.go, completeOutbound and handlePubrec in
    pump.go, applySession and replaySession in adapter_tcp.go).

    The goroutines of [Flow] share the identifier allocator and the session
    store.  The question is whether two exchanges can have the same identifier
    on one connection. *)

From S2P Require Import Prelude GoStrings Codes Wire WireFacts Props PropsFacts PublishPackets ControlPackets.
From S2P Require Import SubscribePackets Topic SessionStore Errors IdAllocator Quota Subscriptions Lifecycle.
From S2P Require Import Client Pump Requests Connection ClientFacts RequestFacts Flow.
From stdpp Require Import options.

(** * Who holds an identifier *)

(** A publishing goroutine holds its identifier without a stored entry, with the
    generation it acquired it under ... *)
Definition hand (pc : pub_pc) : option (Z * Z) :=
  match pc with PSave _ id ig | PFree _ id ig _ => Some (id, ig) | _ => None end.

(** ... or with a stored PUBLISH that it has not sent, or failed to send. *)
Definition mid (pc : pub_pc) : option (Z * Z) :=
  match pc with
  | PRegister _ id ig | PWrite _ id ig _ | PUnregister _ id ig _ _ | PCheck _ id ig _ | PDelete _ id ig _ => Some (id, ig)
  | _ => None
  end.

(** A read loop that is about to delete the entry of an acknowledged exchange,
    and one that is about to free its identifier. *)
Definition del (pc : ack_pc) : option (Z * Z) := match pc with AkDelete id kind _ => Some (id, kind) | _ => None end.
Definition free (pc : ack_pc) : option Z := match pc with AkFree id _ => Some id | _ => None end.

Definition n_hand (id : Z) (pubs : list (nat * PublishPacket * pub_pc)) : Z :=
  Z.of_nat (length (filter (fun p => fst <$> hand p.2 = Some id) pubs)).
Definition n_mid (id : Z) (pubs : list (nat * PublishPacket * pub_pc)) : Z :=
  Z.of_nat (length (filter (fun p => fst <$> mid p.2 = Some id) pubs)).
Definition n_del (id : Z) (acks : list (nat * ack_pc)) : Z :=
  Z.of_nat (length (filter (fun a => fst <$> del a.2 = Some id) acks)).
Definition n_free (id : Z) (acks : list (nat * ack_pc)) : Z :=
  Z.of_nat (length (filter (fun a => free a.2 = Some id) acks)).

(** The packets with this identifier that are unacknowledged on link [tgt]. *)
Definition n_sent (id : Z) (tgt : option nat) (wire : list (nat * Z)) : Z :=
  Z.of_nat (length (filter (fun w => Some w.1 = tgt /\ w.2 = id) wire)).

(** The stored outbound entries with this identifier, and those a connect still
    has to replay. *)
Definition n_out (id : Z) (keys : list (Z * Z)) : Z :=
  one ((id, StoredPublish) ∈ keys) + one ((id, StoredPubrel) ∈ keys).
Definition n_pend (id : Z) (msgs : list StoredMessage) : Z :=
  Z.of_nat (length (filter (fun m => outbound m = true /\ sm_ID m = id) msgs)).

(** * The invariant

    Over the allocator, the keys of the store, the identifier generation of
    every link, the goroutines, the wire, the link whose wire counts and what is
    still to be replayed on it. *)
Record xinv (a : idAllocator) (keys : list (Z * Z)) (gens : nat -> Z) (pubs : list (nat * PublishPacket * pub_pc))
    (acks : list (nat * ack_pc)) (wire : list (nat * Z)) (tgt : option nat) (msgs : list StoredMessage) : Prop := {
  x_wf : wf_ids a;
  x_own id : n_hand id pubs + n_free id acks + n_out id keys <= one (0 < id < 65536 /\ in_use a id = true);
  x_use id : n_mid id pubs + n_del id acks + n_sent id tgt wire + n_pend id msgs <= n_out id keys;
  x_mid l pkt pc id ig : (l, pkt, pc) ∈ pubs -> mid pc = Some (id, ig) -> (id, StoredPublish) ∈ keys;
  x_del l pc id kind : (l, pc) ∈ acks -> del pc = Some (id, kind) ->
    (id, kind) ∈ keys /\ (kind = StoredPublish \/ kind = StoredPubrel);
  x_pub_gen l pkt pc id ig : (l, pkt, pc) ∈ pubs -> hand pc = Some (id, ig) \/ mid pc = Some (id, ig) -> ig = gen a;
  x_ack_gen l pc : (l, pc) ∈ acks -> is_Some (del pc) \/ is_Some (free pc) -> gens l = gen a;
  x_tgt_gen l : tgt = Some l -> gens l = gen a
}.

Lemma counts_nonneg id pubs acks wire tgt msgs :
  0 <= n_hand id pubs /\ 0 <= n_mid id pubs /\ 0 <= n_del id acks /\ 0 <= n_free id acks /\
  0 <= n_sent id tgt wire /\ 0 <= n_pend id msgs.
Proof. unfold n_hand, n_mid, n_del, n_free, n_sent, n_pend. lia. Qed.

Lemma n_out_range id keys : 0 <= n_out id keys <= 2.
Proof. unfold n_out, one. repeat case_decide; lia. Qed.

Lemma one_true P `{Decision P} : P -> one P = 1.
Proof. intros H1. unfold one. by rewrite decide_True. Qed.
Lemma one_false P `{Decision P} : ~ P -> one P = 0.
Proof. intros H1. unfold one. by rewrite decide_False. Qed.
Lemma one_iff P Q `{Decision P} `{Decision Q} : (P <-> Q) -> one P = one Q.
Proof. intros HPQ. unfold one. repeat case_decide; tauto. Qed.

Lemma n_sent_None id wire : n_sent id None wire = 0.
Proof. apply count_none. intros [l i] _ [? _]. done. Qed.

Lemma pub_counts id pubs i l pkt pc pc' : pubs !! i = Some (l, pkt, pc) ->
  n_hand id (<[i := (l, pkt, pc')]> pubs) = n_hand id pubs - one (fst <$> hand pc = Some id) + one (fst <$> hand pc' = Some id) /\
  n_mid id (<[i := (l, pkt, pc')]> pubs) = n_mid id pubs - one (fst <$> mid pc = Some id) + one (fst <$> mid pc' = Some id).
Proof. intros Hi. unfold n_hand, n_mid. by rewrite !(count_insert _ _ _ _ _ Hi). Qed.

Lemma ack_counts id acks i l pc pc' : acks !! i = Some (l, pc) ->
  n_free id (<[i := (l, pc')]> acks) = n_free id acks - one (free pc = Some id) + one (free pc' = Some id) /\
  n_del id (<[i := (l, pc')]> acks) = n_del id acks - one (fst <$> del pc = Some id) + one (fst <$> del pc' = Some id).
Proof. intros Hi. unfold n_free, n_del. by rewrite !(count_insert _ _ _ _ _ Hi). Qed.

Lemma pub_in (pubs : list (nat * PublishPacket * pub_pc)) i x y : y ∈ <[i := x]> pubs -> y = x \/ y ∈ pubs.
Proof.
  intros [j Hj]%list_elem_of_lookup. apply list_lookup_insert_Some in Hj as [(-> & <- & _)|[_ Hj]]; [by left|].
  right. by eapply list_elem_of_lookup_2.
Qed.
Lemma ack_in (acks : list (nat * ack_pc)) i x y : y ∈ <[i := x]> acks -> y = x \/ y ∈ acks.
Proof.
  intros [j Hj]%list_elem_of_lookup. apply list_lookup_insert_Some in Hj as [(-> & <- & _)|[_ Hj]]; [by left|].
  right. by eapply list_elem_of_lookup_2.
Qed.

(** Less is sent or to be replayed, or the link is no longer the one that
    counts. *)
Lemma xinv_less a keys gens gens' pubs acks wire wire' tgt tgt' msgs msgs' :
  (forall l, gens' l = gens l) -> tgt' = tgt \/ tgt' = None ->
  (forall id, n_sent id tgt' wire' + n_pend id msgs' <= n_sent id tgt wire + n_pend id msgs) ->
  xinv a keys gens pubs acks wire tgt msgs -> xinv a keys gens' pubs acks wire' tgt' msgs'.
Proof.
  intros Hg Ht Hless [Hw Ho Hu Hm Hd Hpg Hag Htg]. split; try done.
  - intros id. specialize (Hless id). specialize (Hu id). lia.
  - intros l pc. rewrite Hg. by apply Hag.
  - intros l ->. rewrite Hg. apply Htg. by destruct Ht.
Qed.

(** A goroutine that holds what it held, or nothing any more. *)
Lemma xinv_pub_keep a keys gens pubs acks wire tgt msgs i l pkt pc pc' : pubs !! i = Some (l, pkt, pc) ->
  hand pc' = hand pc \/ hand pc' = None -> mid pc' = mid pc \/ mid pc' = None ->
  xinv a keys gens pubs acks wire tgt msgs -> xinv a keys gens (<[i := (l, pkt, pc')]> pubs) acks wire tgt msgs.
Proof.
  intros Hi Hh Hmd [Hw Ho Hu Hm Hd Hpg Hag Htg].
  assert (Hin := list_elem_of_lookup_2 _ _ _ Hi).
  split; try done.
  - intros id. specialize (Ho id). destruct (pub_counts id pubs i l pkt pc pc' Hi) as [-> _].
    pose proof (one_range (fst <$> hand pc = Some id)).
    destruct Hh as [->| ->]; [|rewrite (one_false (fst <$> None = Some id)) by done]; lia.
  - intros id. specialize (Hu id). destruct (pub_counts id pubs i l pkt pc pc' Hi) as [_ ->].
    pose proof (one_range (fst <$> mid pc = Some id)).
    destruct Hmd as [->| ->]; [|rewrite (one_false (fst <$> None = Some id)) by done]; lia.
  - intros l0 pkt0 pc0 id ig [[= -> -> ->]|Hx]%pub_in; [|by eapply Hm]. intros Hx. eapply Hm; [exact Hin|].
    by destruct Hmd as [<-|Hn]; [|rewrite Hn in Hx].
  - intros l0 pkt0 pc0 id ig [[= -> -> ->]|Hx]%pub_in; [|by eapply Hpg]. intros Hx. eapply (Hpg l pkt pc); [exact Hin|].
    destruct Hx as [Hx|Hx]; [left; destruct Hh as [<-|Hn]|right; destruct Hmd as [<-|Hn]]; done || congruence.
Qed.

(** * The goroutines of publishes *)

(** Sums of indicators, by cases. *)
Ltac ones := unfold one in *; repeat case_decide; simplify_eq/=; lia || naive_solver.

Lemma xinv_acquire a keys gens pubs acks wire tgt msgs i l pkt qg id : pubs !! i = Some (l, pkt, PId qg) ->
  0 < id < 65536 -> in_use a id = false ->
  xinv a keys gens pubs acks wire tgt msgs ->
  xinv (marked a id) keys gens (<[i := (l, pkt, PSave qg id (gen a))]> pubs) acks wire tgt msgs.
Proof.
  intros Hi Hid Hfree [Hw Ho Hu Hm Hd Hpg Hag Htg]. assert (Hid16 : in_u16 id) by (unfold in_u16; lia).
  split; try done.
  - apply wf_marked; done || lia.
  - intros id0. specialize (Ho id0). destruct (pub_counts id0 pubs i l pkt _ (PSave qg id (gen a)) Hi) as [-> _].
    rewrite (one_false (fst <$> hand (PId qg) = Some id0)) by done. cbn [hand fmap option_fmap option_map fst].
    destruct (decide (id0 = id)) as [->|Hne].
    + rewrite (one_true (0 < id < 65536 /\ in_use (marked a id) id = true)).
      * rewrite (one_true (Some id = Some id)) by done. rewrite one_false in Ho by (rewrite Hfree; naive_solver).
        pose proof (counts_nonneg id pubs acks wire tgt msgs). pose proof (n_out_range id keys). lia.
      * split; [done|]. unfold marked. by rewrite in_use_mark, bool_decide_true by done.
    + rewrite (one_false (Some id = Some id0)) by naive_solver.
      rewrite (one_iff (0 < id0 < 65536 /\ in_use (marked a id) id0 = true) (0 < id0 < 65536 /\ in_use a id0 = true)); [lia|].
      split; intros [? Hx]; (split; [done|]); revert Hx; unfold marked;
        rewrite in_use_mark, bool_decide_false by (done || unfold in_u16; lia); done.
  - intros id0. specialize (Hu id0). destruct (pub_counts id0 pubs i l pkt _ (PSave qg id (gen a)) Hi) as [_ ->].
    cbn [mid fmap option_fmap option_map]. lia.
  - intros l0 pkt0 pc0 id0 ig [[= -> -> ->]|Hx]%pub_in; [done|by eapply Hm].
  - intros l0 pkt0 pc0 id0 ig [[= -> -> ->]|Hx]%pub_in; [|by eapply Hpg]. by intros [[= <- <-]|?].
Qed.

(** The keys change by one outbound key. *)
Lemma n_out_add id kind keys keys' id0 : (forall k, k ∈ keys' <-> k = (id, kind) \/ k ∈ keys) ->
  kind = StoredPublish \/ kind = StoredPubrel -> (id, kind) ∉ keys ->
  n_out id0 keys' = n_out id0 keys + one (id0 = id).
Proof.
  intros Hk Hkind Hn. unfold n_out.
  assert (E : forall kd, one ((id0, kd) ∈ keys') = one ((id0, kd) ∈ keys) + one (id0 = id /\ kd = kind)).
  { intros kd. unfold one. specialize (Hk (id0, kd)). repeat case_decide; naive_solver. }
  rewrite !E. unfold one. destruct Hkind as [-> | ->]; repeat case_decide; naive_solver || lia.
Qed.

Lemma n_out_remove id kind keys keys' id0 : (forall k, k ∈ keys' <-> k <> (id, kind) /\ k ∈ keys) ->
  kind = StoredPublish \/ kind = StoredPubrel -> (id, kind) ∈ keys ->
  n_out id0 keys' = n_out id0 keys - one (id0 = id).
Proof.
  intros Hk Hkind Hn. rewrite (n_out_add id kind keys' keys id0); [lia| |done|rewrite Hk; naive_solver].
  intros k. rewrite Hk. destruct (decide (k = (id, kind))); naive_solver.
Qed.

Lemma count_elem {A} (P : A -> Prop) `{forall x, Decision (P x)} l x : x ∈ l -> P x ->
  1 <= Z.of_nat (length (filter P l)).
Proof.
  intros [i Hi]%list_elem_of_lookup HP. pose proof (count_delete P l i x Hi) as Hd. rewrite (one_true (P x)) in Hd by done. lia.
Qed.

Lemma hand_counted pubs l pkt pc id ig : (l, pkt, pc) ∈ pubs -> hand pc = Some (id, ig) -> 1 <= n_hand id pubs.
Proof. intros Hi Hh. eapply count_elem; [exact Hi|]. simpl. by rewrite Hh. Qed.
Lemma mid_counted pubs l pkt pc id ig : (l, pkt, pc) ∈ pubs -> mid pc = Some (id, ig) -> 1 <= n_mid id pubs.
Proof. intros Hi Hh. eapply count_elem; [exact Hi|]. simpl. by rewrite Hh. Qed.
Lemma del_counted acks l pc id kind : (l, pc) ∈ acks -> del pc = Some (id, kind) -> 1 <= n_del id acks.
Proof. intros Hi Hh. eapply count_elem; [exact Hi|]. simpl. by rewrite Hh. Qed.

(** An entry of someone who holds the identifier alone is nobody else's. *)
Lemma alone_out id n keys P `{Decision P} m : n + m + n_out id keys <= one P -> 1 <= n -> 0 <= m -> n_out id keys = 0.
Proof. pose proof (one_range P). pose proof (n_out_range id keys). lia. Qed.

Lemma n_out_0 id keys kind : n_out id keys = 0 -> kind = StoredPublish \/ kind = StoredPubrel -> (id, kind) ∉ keys.
Proof.
  unfold n_out. intros H0 Hk Hin. pose proof (one_range ((id, StoredPublish) ∈ keys)). pose proof (one_range ((id, StoredPubrel) ∈ keys)).
  destruct Hk as [-> | ->]; ones.
Qed.

Lemma xinv_save a keys keys' gens pubs acks wire tgt msgs i l pkt qg id ig : pubs !! i = Some (l, pkt, PSave qg id ig) ->
  (forall k, k ∈ keys' <-> k = (id, StoredPublish) \/ k ∈ keys) ->
  xinv a keys gens pubs acks wire tgt msgs ->
  xinv a keys' gens (<[i := (l, pkt, PRegister qg id ig)]> pubs) acks wire tgt msgs.
Proof.
  intros Hi Hk [Hw Ho Hu Hm Hd Hpg Hag Htg]. pose proof (list_elem_of_lookup_2 _ _ _ Hi) as Hin.
  pose proof (hand_counted _ _ _ _ id ig Hin eq_refl) as Hh.
  assert (H0 : (id, StoredPublish) ∉ keys).
  { apply n_out_0; [|by left]. eapply (alone_out id _ keys _ (n_free id acks)); [exact (Ho id)|done|apply (counts_nonneg id pubs acks wire tgt msgs)]. }
  assert (Hout := n_out_add id StoredPublish keys keys'). split; try done.
  - intros id0. specialize (Ho id0). destruct (pub_counts id0 pubs i l pkt _ (PRegister qg id ig) Hi) as [-> _].
    rewrite Hout by (done || by left). cbn [hand fmap option_fmap option_map fst].
    rewrite (one_iff (Some id = Some id0) (id0 = id)) by naive_solver. rewrite (one_false (None = Some id0)) by done. lia.
  - intros id0. specialize (Hu id0). destruct (pub_counts id0 pubs i l pkt _ (PRegister qg id ig) Hi) as [_ ->].
    rewrite Hout by (done || by left). cbn [mid fmap option_fmap option_map fst].
    rewrite (one_iff (Some id = Some id0) (id0 = id)) by naive_solver. rewrite (one_false (None = Some id0)) by done. lia.
  - intros l0 pkt0 pc0 id0 ig0 [[= -> -> ->]|Hx]%pub_in; intros Hx0; rewrite Hk; [left; naive_solver|right; by eapply Hm].
  - intros l0 pc0 id0 kind Hx Hx0. destruct (Hd l0 pc0 id0 kind Hx Hx0). rewrite Hk. tauto.
  - intros l0 pkt0 pc0 id0 ig0 [[= -> -> ->]|Hx]%pub_in; [|by eapply Hpg]. intros [?|[= <- <-]]; [done|].
    eapply Hpg; [exact Hin|by left].
Qed.

Lemma xinv_sent a keys gens pubs acks wire tgt msgs i l pkt qg id ig ch : pubs !! i = Some (l, pkt, PWrite qg id ig ch) ->
  xinv a keys gens pubs acks wire tgt msgs ->
  xinv a keys gens (<[i := (l, pkt, PWait id ch)]> pubs) acks (wire ++ [(l, id)]) tgt msgs.
Proof.
  intros Hi Hinv. assert (Hin := list_elem_of_lookup_2 _ _ _ Hi).
  assert (Hk := xinv_pub_keep a keys gens pubs acks wire tgt msgs i l pkt _ (PWait id ch) Hi (or_introl eq_refl) (or_intror eq_refl) Hinv).
  destruct Hinv as [Hw Ho Hu Hm Hd Hpg Hag Htg], Hk as [Hw' Ho' Hu' Hm' Hd' Hpg' Hag' Htg'].
  split; try done. intros id0. specialize (Hu id0). destruct (pub_counts id0 pubs i l pkt _ (PWait id ch) Hi) as [_ ->].
  unfold n_sent. rewrite tally_app. cbn [fst snd mid fmap option_fmap option_map]. fold (n_sent id0 tgt wire).
  rewrite (one_false (None = Some id0)) by done. rewrite (one_iff (Some id = Some id0) (id = id0)) by naive_solver.
  unfold one in *. repeat case_decide; naive_solver lia.
Qed.

(** The holder of an entry deletes it and holds the bare identifier. *)
Lemma xinv_unstore a keys keys' gens pubs pubs' acks acks' wire tgt msgs id kind :
  (forall k, k ∈ keys' <-> k <> (id, kind) /\ k ∈ keys) -> kind = StoredPublish \/ kind = StoredPubrel -> (id, kind) ∈ keys ->
  (forall id0, n_hand id0 pubs' + n_free id0 acks' = n_hand id0 pubs + n_free id0 acks + one (id0 = id)) ->
  (forall id0, n_mid id0 pubs' + n_del id0 acks' = n_mid id0 pubs + n_del id0 acks - one (id0 = id)) ->
  (forall l pkt pc, (l, pkt, pc) ∈ pubs' -> (l, pkt, pc) ∈ pubs \/
    mid pc = None /\ forall id ig, hand pc = Some (id, ig) -> ig = gen a) ->
  (forall l pc, (l, pc) ∈ acks' -> (l, pc) ∈ acks \/ del pc = None /\ gens l = gen a) ->
  xinv a keys gens pubs acks wire tgt msgs -> xinv a keys' gens pubs' acks' wire tgt msgs.
Proof.
  intros Hk Hkind Hst Hhf Hmd Hp Ha [Hw Ho Hu Hm Hd Hpg Hag Htg].
  assert (Hout := fun id0 => n_out_remove id kind keys keys' id0 Hk Hkind Hst).
  assert (H0 : n_out id keys' = 0).
  { pose proof (n_out_range id keys'). specialize (Ho id). rewrite Hout in *. rewrite one_true in * by done.
    pose proof (counts_nonneg id pubs acks wire tgt msgs). pose proof (one_range (0 < id < 65536 /\ in_use a id = true)). lia. }
  assert (Hu' : forall id0, n_mid id0 pubs' + n_del id0 acks' + n_sent id0 tgt wire + n_pend id0 msgs <= n_out id0 keys').
  { intros id0. specialize (Hu id0). specialize (Hmd id0). rewrite Hout. lia. }
  split; try done.
  - intros id0. specialize (Ho id0). specialize (Hhf id0). rewrite Hout. lia.
  - intros l pkt pc id0 ig Hx Hx0. destruct (Hp l pkt pc Hx) as [Hold|[Hn _]]; [|congruence]. apply Hk. split; [|by eapply Hm].
    intros [= -> <-]. pose proof (mid_counted _ _ _ _ id ig Hx Hx0). specialize (Hu' id).
    pose proof (counts_nonneg id pubs' acks' wire tgt msgs). lia.
  - intros l pc id0 kind0 Hx Hx0. destruct (Ha l pc Hx) as [Hold|[Hn _]]; [|congruence].
    destruct (Hd l pc id0 kind0 Hold Hx0) as [Hin Hok]. split; [|done]. apply Hk. split; [|done].
    intros [= -> ->]. pose proof (del_counted _ _ _ id kind Hx Hx0). specialize (Hu' id).
    pose proof (counts_nonneg id pubs' acks' wire tgt msgs). lia.
  - intros l pkt pc id0 ig Hx Hx0. destruct (Hp l pkt pc Hx) as [Hold|[Hn Hg]]; [by eapply Hpg|]. destruct Hx0; [by eapply Hg|congruence].
  - intros l pc Hx Hx0. destruct (Ha l pc Hx) as [Hold|[_ Hg]]; [by eapply Hag|done].
Qed.

(** The holder of a bare identifier frees it. *)
Lemma xinv_unuse a gens keys pubs pubs' acks acks' wire tgt msgs id : 
  1 <= n_hand id pubs + n_free id acks ->
  (forall id0, n_hand id0 pubs' + n_free id0 acks' = n_hand id0 pubs + n_free id0 acks - one (id0 = id)) ->
  (forall id0, n_mid id0 pubs' + n_del id0 acks' = n_mid id0 pubs + n_del id0 acks) ->
  (forall l pkt pc, (l, pkt, pc) ∈ pubs' -> (l, pkt, pc) ∈ pubs \/ mid pc = None /\ hand pc = None) ->
  (forall l pc, (l, pc) ∈ acks' -> (l, pc) ∈ acks \/ del pc = None /\ free pc = None) ->
  xinv a keys gens pubs acks wire tgt msgs ->
  xinv (idAllocator_ReleaseAt id (gen a) a) keys gens pubs' acks' wire tgt msgs.
Proof.
  intros Hheld Hhf Hmd Hp Ha [Hw Ho Hu Hm Hd Hpg Hag Htg].
  assert (Hid : 0 < id < 65536 /\ in_use a id = true).
  { specialize (Ho id). pose proof (n_out_range id keys). revert Ho. unfold one. case_decide; [done|lia]. }
  assert (Hid16 : in_u16 id) by (unfold in_u16; lia).
  assert (Hgen : gen (idAllocator_ReleaseAt id (gen a) a) = gen a) by (apply gen_ReleaseAt).
  split; rewrite ?Hgen; try done.
  - by apply wf_ReleaseAt.
  - intros id0. specialize (Ho id0). specialize (Hhf id0).
    assert (E : one (0 < id0 < 65536 /\ in_use (idAllocator_ReleaseAt id (gen a) a) id0 = true) =
      one (0 < id0 < 65536 /\ in_use a id0 = true) - one (id0 = id)); [|lia].
    destruct (decide (0 < id0 < 65536)) as [Hr|Hr]; [|ones].
    rewrite in_use_ReleaseAt by (done || unfold in_u16; lia).
    destruct (decide (id0 = id)) as [->|Hne]; [rewrite bool_decide_true by done|rewrite bool_decide_false by naive_solver]; simpl; ones.
  - intros id0. specialize (Hu id0). specialize (Hmd id0). lia.
  - intros l pkt pc id0 ig Hx Hx0. destruct (Hp l pkt pc Hx) as [Hold|[Hn _]]; [by eapply Hm|congruence].
  - intros l pc id0 kind Hx Hx0. destruct (Ha l pc Hx) as [Hold|[Hn _]]; [by eapply Hd|congruence].
  - intros l pkt pc id0 ig Hx Hx0. destruct (Hp l pkt pc Hx) as [Hold|[Hn1 Hn2]]; [by eapply Hpg|]. destruct Hx0; congruence.
  - intros l pc Hx Hx0. destruct (Ha l pc Hx) as [Hold|[Hn1 Hn2]]; [by eapply Hag|]. rewrite Hn1, Hn2 in Hx0. by destruct Hx0 as [[]|[]].
Qed.

Section exchange.
Context {St : Type} {HS : SessionStore St} {HC : ContainsStore St} {HE : Environment St}.
Context {HL : SessionStoreLaws St} {HR : ReliableStore St}.
Implicit Types c : client St.
Implicit Types s : flow St.
Set Default Proof Using "Type*".

Definition keys c : list (Z * Z) := (contents (c_store c)).*1.
Definition gens c (l : nat) : Z := l_idGen (the_link c l).

(** The link whose wire counts: the one a connect replays on, else the current
    one. *)
Definition target s : option nat :=
  match f_conn s with CSnap l _ _ | CReplay l _ _ => Some l | _ => c_link (f_c s) end.
Definition pending s : list StoredMessage := match f_conn s with CReplay _ _ msgs => msgs | _ => [] end.

Definition cx c pubs acks wire tgt msgs : Prop :=
  store_ok (c_store c) /\ xinv (c_ids c) (keys c) (gens c) pubs acks wire tgt msgs.

(** No goroutine is between acquiring an identifier and sending or giving up,
    and no acknowledgement is between its two changes. *)
Definition settled s : bool :=
  forallb (fun p => negb (is_some (hand p.2)) && negb (is_some (mid p.2))) (f_pubs s) &&
  forallb (fun a => negb (is_some (del a.2)) && negb (is_some (free a.2))) (f_acks s).

Definition exchange_inv s : Prop :=
  flow_inv s /\ cx (f_c s) (f_pubs s) (f_acks s) (f_wire s) (target s) (pending s) /\
  (f_conn s <> CIdle -> settled s = true) /\ (forall l r n, f_conn s = CSnap l r n -> forall id, (l, id) ∉ f_wire s).

(** What the rest of the client, such as subscribe requests and the handling of
    inbound messages and of PUBREC, leaves alone: the identifiers that exchanges
    hold and the number of entries each has. *)
Definition spares s c' : Prop :=
  gen (c_ids c') = gen (c_ids (f_c s)) /\ wf_ids (c_ids c') /\ store_ok (c_store c') /\
  (forall id, n_out id (keys c') = n_out id (keys (f_c s))) /\
  (forall id kind, 0 < n_mid id (f_pubs s) + n_del id (f_acks s) -> kind = StoredPublish \/ kind = StoredPubrel ->
    (id, kind) ∈ keys (f_c s) -> (id, kind) ∈ keys c') /\
  (forall id, 0 < n_hand id (f_pubs s) + n_free id (f_acks s) + n_out id (keys (f_c s)) ->
    in_use (c_ids (f_c s)) id = true -> in_use (c_ids c') id = true).

(** Acknowledgements are those of the current connection, and while a connect
    runs no goroutine is in the middle of an exchange. *)
Definition calm_act (a : action St) s s' : Prop :=
  (f_conn s' <> CIdle -> settled s' = true) /\
  match a with
  | APub _ _ => store_room (c_store (f_c s))
  | AAck j kind _ => fst <$> f_wire s !! j = c_link (f_c s) /\ (kind = StoredPublish \/ kind = StoredPubrel)
  | AOther c' => spares s c'
  | _ => True
  end.

Fixpoint calm (l : list (action St)) s : Prop :=
  match l with
  | [] => True
  | a :: l => match act a s with Some s' => calm_act a s s' /\ calm l s' | None => True end
  end.

(** ** Steps of the client *)

Lemma gens_teardown l g c l' : gens (teardownLink l g c) l' = gens c l'.
Proof.
  destruct (isStopping l c) eqn:E; [by rewrite teardown_idem|]. unfold gens, the_link.
  rewrite (proj1 (teardown_links l g c E)). destruct (decide (l = l')) as [<-|Hne].
  - by rewrite lookup_total_insert_eq.
  - by rewrite lookup_total_insert_ne.
Qed.

Lemma link_teardown l g c : c_link (teardownLink l g c) = c_link c \/ c_link (teardownLink l g c) = None.
Proof.
  destruct (isStopping l c) eqn:E; [left; by rewrite teardown_idem|]. destruct (decide (c_link c = Some l)) as [El|El].
  - right. apply (teardown_current l g c E El).
  - left. apply (teardown_other l g c El).
Qed.

Lemma gens_writeFrame l encode c : let c' := (writeFrame l encode c).2 in
  (forall l', gens c' l' = gens c l') /\ (c_link c' = c_link c \/ c_link c' = None).
Proof.
  destruct l as [l|]; [|split; [done|by left]]. simpl. destruct (encode []) as [buf|e]; [|split; [done|by left]].
  rewrite cmd_bind_eq. unfold gets. destruct (negb _ && _); [split; [done|by left]|]. rewrite !cmd_bind_eq.
  unfold conn_write. destruct (negb (cn_closed _) && _); [split; [done|by left]|]. rewrite cmd_bind_eq. unfold upd.
  cbn [snd mret cmd_ret]. split; [intros; apply gens_teardown|apply link_teardown].
Qed.

(** A step that touches neither the allocator nor the store. *)
Lemma cx_less c c' pubs acks wire wire' tgt tgt' msgs msgs' :
  c_ids c' = c_ids c -> c_store c' = c_store c -> (forall l, gens c' l = gens c l) -> tgt' = tgt \/ tgt' = None ->
  (forall id, n_sent id tgt' wire' + n_pend id msgs' <= n_sent id tgt wire + n_pend id msgs) ->
  cx c pubs acks wire tgt msgs -> cx c' pubs acks wire' tgt' msgs'.
Proof.
  intros Hi Hs Hg Ht Hl [Hok Hx]. unfold cx, keys. rewrite Hi, Hs. split; [done|]. by eapply xinv_less.
Qed.

Lemma sent_less id tgt tgt' wire (msgs : list StoredMessage) : tgt' = tgt \/ tgt' = None ->
  n_sent id tgt' wire + n_pend id msgs <= n_sent id tgt wire + n_pend id msgs.
Proof.
  intros [->| ->]; [lia|]. rewrite n_sent_None. pose proof (counts_nonneg id [] [] wire tgt msgs). lia.
Qed.

Lemma cx_by c c' pubs acks wire tgt tgt' msgs :
  c_ids c' = c_ids c -> c_store c' = c_store c -> (forall l, gens c' l = gens c l) -> tgt' = tgt \/ tgt' = None ->
  cx c pubs acks wire tgt msgs -> cx c' pubs acks wire tgt' msgs.
Proof. intros Hi Hs Hg Ht. apply cx_less; try done. intros id. by apply sent_less. Qed.

Lemma cx_keep c c' pubs acks wire tgt msgs i l pkt pc pc' : pubs !! i = Some (l, pkt, pc) ->
  c_ids c' = c_ids c -> c_store c' = c_store c -> (forall l, gens c' l = gens c l) ->
  hand pc' = hand pc \/ hand pc' = None -> mid pc' = mid pc \/ mid pc' = None ->
  cx c pubs acks wire tgt msgs -> cx c' (<[i := (l, pkt, pc')]> pubs) acks wire tgt msgs.
Proof.
  intros Hi Hid Hst Hg Hh Hm Hx. apply (cx_by c c' _ _ _ tgt); try done; [by left|].
  destruct Hx as [Hok Hx]. split; [done|]. by eapply xinv_pub_keep.
Qed.

#[local] Strategy opaque [idAllocator_Acquire].

Lemma cx_acquire c pubs acks wire tgt msgs i l pkt qg pc' c' ev : pubs !! i = Some (l, pkt, PId qg) ->
  pub_step l pkt ev (PId qg) c = (pc', c') ->
  cx c pubs acks wire tgt msgs -> cx c' (<[i := (l, pkt, pc')]> pubs) acks wire tgt msgs.
Proof.
  intros Hi Hstep [Hok Hx]. cbn [pub_step] in Hstep. pose proof (Acquire_spec (c_ids c) (x_wf _ _ _ _ _ _ _ _ Hx)) as Ha.
  destruct (idAllocator_Acquire (c_ids c)) as [[id g|g] a]; simplify_eq; split; try done; csimp.
  - destruct Ha as (-> & -> & Hid & Hfree & _). by apply xinv_acquire.
  - destruct Ha as (_ & _ & Hw & Hused & Hg). eapply xinv_pub_keep; [exact Hi|by right..|].
    destruct Hx as [Hw0 Ho Hu Hm Hd Hpg Hag Htg]. split; rewrite ?Hg; try done. intros id. unfold in_use. rewrite Hused. apply Ho.
Qed.

Lemma cx_save c pubs acks wire tgt msgs i l pkt qg id ig pc' c' ev : pubs !! i = Some (l, pkt, PSave qg id ig) ->
  store_room (c_store c) -> pub_step l pkt ev (PSave qg id ig) c = (pc', c') ->
  cx c pubs acks wire tgt msgs -> cx c' (<[i := (l, pkt, pc')]> pubs) acks wire tgt msgs.
Proof.
  intros Hi Hroom Hstep [Hok Hx]. cbn [pub_step] in Hstep.
  set (m := mkStored (Some (with_PacketID id pkt)) 0 id StoredPublish) in *.
  destruct (store_Save_spec m c Hok Hroom) as [Hok' Hc']. assert (Hst := fun id' kind' => stored_Save m c id' kind' Hok Hroom).
  destruct (Save_total m (c_store c)) as [s' Hs']. rewrite Hs' in Hstep. simplify_eq.
  unfold store_Save in Hok', Hc', Hst. rewrite Hs' in Hok', Hc', Hst. split; [done|].
  eapply xinv_save; [exact Hi| |exact Hx]. intros [id' kind']. exact (Hst id' kind').
Qed.

Lemma cx_unstore c pubs acks wire tgt msgs i l pkt qg id ig err : pubs !! i = Some (l, pkt, PDelete qg id ig err) ->
  cx c pubs acks wire tgt msgs ->
  cx (store_Delete id StoredPublish c) (<[i := (l, pkt, PFree qg id ig err)]> pubs) acks wire tgt msgs.
Proof.
  intros Hi [Hok Hx]. pose proof (list_elem_of_lookup_2 _ _ _ Hi) as Hin. split; [by apply store_Delete_spec|].
  eapply (xinv_unstore _ (keys c) _ _ _ _ _ _ _ _ _ id StoredPublish); [|by left| |..|exact Hx].
  - intros [id' kind']. exact (stored_Delete id StoredPublish c id' kind' Hok).
  - by eapply x_mid.
  - intros id0. destruct (pub_counts id0 pubs i l pkt _ (PFree qg id ig err) Hi) as [-> _]. cbn [hand fmap option_fmap option_map fst]. ones.
  - intros id0. destruct (pub_counts id0 pubs i l pkt _ (PFree qg id ig err) Hi) as [_ ->]. cbn [mid fmap option_fmap option_map fst]. ones.
  - intros l0 pkt0 pc0 [[= -> -> ->]|Hy]%pub_in; [right|by left]. split; [done|]. intros id0 ig0 [= <- <-].
    eapply x_pub_gen; [exact Hx|exact Hin|by right].
  - intros l0 pc0 Hy. by left.
Qed.

Lemma cx_unuse c pubs acks wire tgt msgs i l pkt qg id ig err : pubs !! i = Some (l, pkt, PFree qg id ig err) ->
  cx c pubs acks wire tgt msgs ->
  cx (ids_ReleaseAt id ig c) (<[i := (l, pkt, PGiveBack qg err)]> pubs) acks wire tgt msgs.
Proof.
  intros Hi [Hok Hx]. pose proof (list_elem_of_lookup_2 _ _ _ Hi) as Hin. split; [done|].
  assert (Hg : ig = gen (c_ids c)) by (eapply x_pub_gen; [exact Hx|exact Hin|by left]). subst ig.
  eapply xinv_unuse; [| | | | |exact Hx].
  - pose proof (hand_counted _ _ _ _ id _ Hin eq_refl). pose proof (counts_nonneg id pubs acks wire tgt msgs). lia.
  - intros id0. destruct (pub_counts id0 pubs i l pkt _ (PGiveBack qg err) Hi) as [-> _]. cbn [hand fmap option_fmap option_map fst]. ones.
  - intros id0. destruct (pub_counts id0 pubs i l pkt _ (PGiveBack qg err) Hi) as [_ ->]. cbn [mid fmap option_fmap option_map fst]. ones.
  - intros l0 pkt0 pc0 [[= -> -> ->]|Hy]%pub_in; [by right|by left].
  - intros l0 pc0 Hy. by left.
Qed.

(** The steps of a publishing goroutine other than the write. *)
Lemma cx_pub_step c c' pubs acks wire tgt msgs i l pkt ev pc pc' : pubs !! i = Some (l, pkt, pc) ->
  store_room (c_store c) -> (forall qg id ig ch, pc <> PWrite qg id ig ch) -> pub_step l pkt ev pc c = (pc', c') ->
  cx c pubs acks wire tgt msgs -> cx c' (<[i := (l, pkt, pc')]> pubs) acks wire tgt msgs.
Proof.
  intros Hi Hroom Hnw Hstep Hx.
  assert (Hkeep : forall c' pc', c_ids c' = c_ids c -> c_store c' = c_store c -> c_links c' = c_links c ->
    hand pc' = hand pc \/ hand pc' = None -> mid pc' = mid pc \/ mid pc' = None ->
    cx c' (<[i := (l, pkt, pc')]> pubs) acks wire tgt msgs).
  { intros c1 pc1 H1 H2 H3 H4 H5. eapply cx_keep; [exact Hi|done|done| |done|done|exact Hx]. intros l'. unfold gens, the_link. by rewrite H3. }
  destruct pc as [|w|qg|qg id ig|qg id ig|qg id ig ch|qg id ig ch err|qg id ig err|qg id ig err|qg id ig err|qg err|id ch|id ch err|err].
  - cbn [pub_step] in Hstep. destruct (quota_acquire_turn _) as [[g|g|w] q]; simplify_eq; apply Hkeep; done || by right.
  - cbn [pub_step] in Hstep. destruct ev; simplify_eq; apply Hkeep; try done; try (by right); destruct (woken _ _); by right.
  - by eapply cx_acquire.
  - by eapply cx_save.
  - cbn [pub_step registerWaiter] in Hstep. simplify_eq. apply Hkeep; done || by left.
  - by destruct (Hnw qg id ig ch).
  - cbn [pub_step] in Hstep. simplify_eq. destruct (removeWaiter_same id ch c) as [Hss _].
    apply Hkeep; [apply Hss..|apply removeWaiter_by|by left|by left].
  - cbn [pub_step] in Hstep. simplify_eq. destruct (_ =? _); apply Hkeep; try done; (by left) || by right.
  - cbn [pub_step] in Hstep. simplify_eq. by apply cx_unstore.
  - cbn [pub_step] in Hstep. simplify_eq. by apply cx_unuse.
  - cbn [pub_step] in Hstep. simplify_eq. apply Hkeep; done || by right.
  - destruct ev; cbn [pub_step] in Hstep; [destruct (c_chans c !! ch)|..|destruct (c_chans c !! ch)]; simplify_eq; apply Hkeep; done || by right.
  - cbn [pub_step] in Hstep. simplify_eq. destruct (removeWaiter_same id ch c) as [Hss _].
    apply Hkeep; [apply Hss..|apply removeWaiter_by|by right|by right].
  - cbn [pub_step] in Hstep. simplify_eq. apply Hkeep; done || by right.
Qed.

(** ** Acknowledgements *)

Lemma cx_ack_keep c c' pubs acks wire tgt msgs i l pc pc' : acks !! i = Some (l, pc) ->
  c_ids c' = c_ids c -> c_store c' = c_store c -> c_links c' = c_links c ->
  del pc = None -> free pc = None -> del pc' = None -> free pc' = None ->
  cx c pubs acks wire tgt msgs -> cx c' pubs (<[i := (l, pc')]> acks) wire tgt msgs.
Proof.
  intros Hi H1 H2 H3 Hd1 Hf1 Hd2 Hf2 [Hok Hx]. apply (cx_by c c' _ _ _ tgt); try done; [|by left|].
  { intros l'. unfold gens, the_link. by rewrite H3. }
  split; [done|]. destruct Hx as [Hw Ho Hu Hm Hd Hpg Hag Htg]. split; try done.
  - intros id. specialize (Ho id). destruct (ack_counts id acks i l pc pc' Hi) as [-> _]. rewrite Hf1, Hf2. lia.
  - intros id. specialize (Hu id). destruct (ack_counts id acks i l pc pc' Hi) as [_ ->]. rewrite Hd1, Hd2. lia.
  - intros l0 pc0 id kind [[= -> ->]|Hy]%ack_in; [congruence|by eapply Hd].
  - intros l0 pc0 [[= -> ->]|Hy]%ack_in; [|by eapply Hag]. rewrite Hd2, Hf2. by intros [[]|[]].
Qed.

Lemma cx_ack_delete c pubs acks wire tgt msgs i l id kind r : acks !! i = Some (l, AkDelete id kind r) ->
  cx c pubs acks wire tgt msgs -> cx (store_Delete id kind c) pubs (<[i := (l, AkFree id r)]> acks) wire tgt msgs.
Proof.
  intros Hi [Hok Hx]. pose proof (list_elem_of_lookup_2 _ _ _ Hi) as Hin. split; [by apply store_Delete_spec|].
  destruct (x_del _ _ _ _ _ _ _ _ Hx l _ id kind Hin eq_refl) as [Hst Hkind].
  eapply (xinv_unstore _ (keys c) _ _ _ _ _ _ _ _ _ id kind); [|done|done|..|exact Hx].
  - intros [id' kind']. exact (stored_Delete id kind c id' kind' Hok).
  - intros id0. destruct (ack_counts id0 acks i l _ (AkFree id r) Hi) as [-> _]. cbn [free]. ones.
  - intros id0. destruct (ack_counts id0 acks i l _ (AkFree id r) Hi) as [_ ->]. cbn [del fmap option_fmap option_map fst]. ones.
  - intros l0 pkt0 pc0 Hy. by left.
  - intros l0 pc0 [[= -> ->]|Hy]%ack_in; [right|by left]. split; [done|]. eapply (x_ack_gen _ _ _ _ _ _ _ _ Hx); [exact Hin|by left].
Qed.

Lemma cx_ack_free c pubs acks wire tgt msgs i l id r : acks !! i = Some (l, AkFree id r) ->
  cx c pubs acks wire tgt msgs ->
  cx (ids_ReleaseAt id (l_idGen (the_link c l)) c) pubs (<[i := (l, AkRelease id r)]> acks) wire tgt msgs.
Proof.
  intros Hi [Hok Hx]. pose proof (list_elem_of_lookup_2 _ _ _ Hi) as Hin. split; [done|].
  assert (Hg : gens c l = gen (c_ids c)) by (eapply (x_ack_gen _ _ _ _ _ _ _ _ Hx); [exact Hin|by right]).
  unfold gens in Hg. rewrite Hg. eapply xinv_unuse; [| | | | |exact Hx].
  - pose proof (count_elem (fun a => free a.2 = Some id) acks _ Hin eq_refl). unfold n_free.
    pose proof (counts_nonneg id pubs acks wire tgt msgs). lia.
  - intros id0. destruct (ack_counts id0 acks i l _ (AkRelease id r) Hi) as [-> _]. cbn [free]. ones.
  - intros id0. destruct (ack_counts id0 acks i l _ (AkRelease id r) Hi) as [_ ->]. cbn [del fmap option_fmap option_map fst]. ones.
  - intros l0 pkt0 pc0 Hy. by left.
  - intros l0 pc0 [[= -> ->]|Hy]%ack_in; [by right|by left].
Qed.

Lemma signalWaiter_same id got r c : same_session c (signalWaiter id got r c).2.
Proof. unfold signalWaiter. destruct (c_waiters c !! id); [|done]. by case_bool_decide. Qed.

Lemma cx_ack_step c pubs acks wire tgt msgs i l pc pc' c' : acks !! i = Some (l, pc) -> ack_step l pc c = (pc', c') ->
  cx c pubs acks wire tgt msgs -> cx c' pubs (<[i := (l, pc')]> acks) wire tgt msgs.
Proof.
  intros Hi Hstep Hx. destruct pc as [id kind r|id r|id r|id r|]; cbn [ack_step] in Hstep.
  - simplify_eq. by apply cx_ack_delete.
  - simplify_eq. by apply cx_ack_free.
  - simplify_eq. by eapply cx_ack_keep; [exact Hi|..|exact Hx].
  - pose proof (signalWaiter_by id ackClassPublish r c) as Hby. pose proof (signalWaiter_same id ackClassPublish r c) as Hss.
    destruct (signalWaiter _ _ _ _) as [b c1]. simplify_eq. simpl in Hby, Hss.
    eapply cx_ack_keep; [exact Hi|apply Hss|apply Hss|apply Hby|done..|exact Hx].
  - simplify_eq. by eapply cx_ack_keep; [exact Hi|..|exact Hx].
Qed.

(** An acknowledgement arrives on the current connection. *)
Lemma cx_ack c pubs acks wire msgs j l id kind r : wire !! j = Some (l, id) -> kind = StoredPublish \/ kind = StoredPubrel ->
  cx c pubs acks wire (Some l) msgs ->
  cx c pubs (if storeContains id kind c then acks ++ [(l, AkDelete id kind r)] else acks) (delete j wire) (Some l) msgs.
Proof.
  intros Hj Hkind [Hok Hx]. split; [done|].
  assert (Hsent : forall id0, n_sent id0 (Some l) (delete j wire) = n_sent id0 (Some l) wire - one (id0 = id)).
  { intros id0. unfold n_sent. rewrite (count_delete _ _ _ _ Hj). cbn [fst snd]. f_equal. apply one_iff. naive_solver. }
  destruct (storeContains id kind c) eqn:Hk.
  - apply storeContains_spec in Hk; [|done]. destruct Hx as [Hw Ho Hu Hm Hd Hpg Hag Htg]. split; try done.
    + intros id0. specialize (Ho id0). unfold n_free. rewrite tally_app. fold (n_free id0 acks). cbn [snd free]. ones.
    + intros id0. specialize (Hu id0). rewrite Hsent. unfold n_del. rewrite tally_app. fold (n_del id0 acks).
      cbn [snd del fmap option_fmap option_map fst]. rewrite (one_iff (Some id = Some id0) (id0 = id)) by naive_solver. lia.
    + intros l0 pc0 id0 kind0 [Hy|[= -> ->]%list_elem_of_singleton]%elem_of_app; [by eapply Hd|]. by intros [= <- <-].
    + intros l0 pc0 [Hy|[= -> ->]%list_elem_of_singleton]%elem_of_app; [by eapply Hag|]. intros _. by apply Htg.
  - eapply xinv_less; [done|by left| |exact Hx]. intros id0. rewrite Hsent. pose proof (one_range (id0 = id)). lia.
Qed.

(** ** The connect *)

Lemma settled_pubs s id : settled s = true -> n_hand id (f_pubs s) = 0 /\ n_mid id (f_pubs s) = 0.
Proof.
  unfold settled. rewrite andb_true_iff, !forallb_forall. intros [Hp _].
  assert (Hn : forall x, x ∈ f_pubs s -> hand x.2 = None /\ mid x.2 = None).
  { intros x Hx%list_elem_of_In. specialize (Hp x Hx). by destruct (hand x.2), (mid x.2). }
  split; apply count_none; intros x Hx; destruct (Hn x Hx) as [E1 E2]; rewrite ?E1, ?E2; done.
Qed.
Lemma settled_acks s id : settled s = true -> n_del id (f_acks s) = 0 /\ n_free id (f_acks s) = 0.
Proof.
  unfold settled. rewrite andb_true_iff, !forallb_forall. intros [_ Ha].
  assert (Hn : forall x, x ∈ f_acks s -> del x.2 = None /\ free x.2 = None).
  { intros x Hx%list_elem_of_In. specialize (Ha x Hx). by destruct (del x.2), (free x.2). }
  split; apply count_none; intros x Hx; destruct (Hn x Hx) as [E1 E2]; rewrite ?E1, ?E2; done.
Qed.

(** With nobody in the middle of an exchange, only the entries, the wire and the
    replay matter. *)
Lemma cx_settled c s wire tgt msgs : settled s = true -> store_ok (c_store c) -> wf_ids (c_ids c) ->
  (forall id, n_out id (keys c) <= one (0 < id < 65536 /\ in_use (c_ids c) id = true)) ->
  (forall id, n_sent id tgt wire + n_pend id msgs <= n_out id (keys c)) ->
  (forall l, tgt = Some l -> gens c l = gen (c_ids c)) -> cx c (f_pubs s) (f_acks s) wire tgt msgs.
Proof.
  intros Hset Hok Hw Ho Hu Ht. split; [done|]. split; try done.
  - intros id. destruct (settled_pubs s id Hset) as [-> _], (settled_acks s id Hset) as [_ ->]. apply Ho.
  - intros id. destruct (settled_pubs s id Hset) as [_ ->], (settled_acks s id Hset) as [-> _]. apply Hu.
  - intros l pkt pc id ig Hx Hm. pose proof (mid_counted _ _ _ _ id ig Hx Hm). destruct (settled_pubs s id Hset). lia.
  - intros l pc id kind Hx Hd. pose proof (del_counted _ _ _ id kind Hx Hd). destruct (settled_acks s id Hset). lia.
  - intros l pkt pc id ig Hx [Hm|Hm].
    + pose proof (hand_counted _ _ _ _ id ig Hx Hm). destruct (settled_pubs s id Hset). lia.
    + pose proof (mid_counted _ _ _ _ id ig Hx Hm). destruct (settled_pubs s id Hset). lia.
  - intros l pc Hx [[[id kind] Hd]|[id Hf]].
    + pose proof (del_counted _ _ _ id kind Hx Hd). destruct (settled_acks s id Hset). lia.
    + pose proof (count_elem (fun a => free a.2 = Some id) _ _ Hx Hf) as Hc. destruct (settled_acks s id Hset) as [_ H0]. unfold n_free in H0. lia.
Qed.

(** The entries of an identifier among the messages that [All] lists. *)
Lemma count_NoDup {A} `{EqDecision A} (k : A) l : NoDup l -> Z.of_nat (length (filter (fun x => x = k) l)) <= one (k ∈ l).
Proof.
  induction 1 as [|x l Hx Hl IH]; [simpl; ones|]. rewrite filter_cons. destruct (decide (x = k)) as [->|E].
  - rewrite (one_false (k ∈ l)) in IH by done. rewrite (one_true (k ∈ k :: l)) by apply list_elem_of_here. simpl. lia.
  - rewrite (one_iff (k ∈ x :: l) (k ∈ l)); [done|]. rewrite elem_of_cons. naive_solver.
Qed.

Lemma count_split {A} (P Q R : A -> Prop) `{forall x, Decision (P x)} `{forall x, Decision (Q x)} `{forall x, Decision (R x)} l :
  (forall x, P x -> Q x \/ R x) ->
  Z.of_nat (length (filter P l)) <= Z.of_nat (length (filter Q l)) + Z.of_nat (length (filter R l)).
Proof.
  intros HP. induction l as [|x l IH]; [done|]. rewrite !filter_cons. specialize (HP x).
  repeat case_decide; simpl; try lia. naive_solver.
Qed.

Lemma count_fmap {A B} (f : A -> B) (P : B -> Prop) `{forall x, Decision (P x)} l :
  length (filter P (f <$> l)) = length (filter (fun x => P (f x)) l).
Proof. induction l as [|x l IH]; [done|]. cbn [fmap list_fmap]. rewrite !filter_cons. case_decide; simpl; by rewrite IH. Qed.

Lemma n_pend_All c id : store_ok (c_store c) -> n_pend id (default [] (All (c_store c))) <= n_out id (keys c).
Proof.
  intros Hok. destruct (All_total (c_store c)) as [msgs Hm]. rewrite Hm. cbn [default from_option].
  assert (Hk : key_of <$> msgs = keys c).
  { unfold keys. rewrite <- (All_law _ _ Hok Hm), <- list_fmap_compose. done. }
  assert (Hnd : NoDup (key_of <$> msgs)) by (rewrite Hk; by apply contents_NoDup).
  unfold n_pend, n_out. etrans; [apply (count_split _ (fun m => key_of m = (id, StoredPublish)) (fun m => key_of m = (id, StoredPubrel)))|].
  - intros m. unfold outbound, key_of. rewrite orb_true_iff, !Z.eqb_eq. intros [[Hkd|Hkd] <-]; rewrite Hkd; [by left|by right].
  - pose proof (count_NoDup (id, StoredPublish) _ Hnd) as H1. pose proof (count_NoDup (id, StoredPubrel) _ Hnd) as H2.
    rewrite count_fmap, Hk in H1, H2. exact (Z.add_le_mono _ _ _ _ H1 H2).
Qed.

Lemma cx_facts c pubs acks wire tgt msgs : cx c pubs acks wire tgt msgs ->
  store_ok (c_store c) /\ wf_ids (c_ids c) /\
  (forall id, n_out id (keys c) <= one (0 < id < 65536 /\ in_use (c_ids c) id = true)) /\
  (forall id, n_sent id tgt wire + n_pend id msgs <= n_out id (keys c)).
Proof.
  intros [Hok [Hw Ho Hu Hm Hd Hpg Hag Htg]]. split_and!; [done|done|..]; intros id; specialize (Ho id); specialize (Hu id);
    pose proof (counts_nonneg id pubs acks wire tgt msgs); lia.
Qed.

(** The target has nothing on its wire when the connect captures it. *)
Lemma n_sent_untouched id l wire : (forall id, (l, id) ∉ wire) -> n_sent id (Some l) wire = 0.
Proof. intros Hw. apply count_none. intros [l' i] Hx [[= ->] _]. by destruct (Hw i). Qed.

Lemma n_pend_cons id m msgs : n_pend id (m :: msgs) = n_pend id msgs + one (outbound m = true /\ sm_ID m = id).
Proof. unfold n_pend. rewrite filter_cons. unfold one. case_decide; simpl; lia. Qed.

Lemma cx_replay s s' l r m msgs : exchange_inv s -> f_conn s = CReplay l r (m :: msgs) -> conn_step s = Some s' ->
  cx (f_c s') (f_pubs s') (f_acks s') (f_wire s') (target s') (pending s').
Proof.
  intros (Hfl & Hx & _ & _) Hpc. unfold target, pending in Hx. rewrite Hpc in Hx. unfold conn_step. rewrite Hpc.
  destruct (replay_encoder _ m) as [encode|] eqn:Henc.
  - pose proof (writeFrame_same (Some l) encode (f_c s)) as Hss. pose proof (gens_writeFrame (Some l) encode (f_c s)) as [Hg _].
    destruct (writeFrame (Some l) encode (f_c s)) as [err c1] eqn:Ew. simpl in Hss, Hg. intros [= <-]. unfold target, pending. simpl.
    assert (Hout := replay_encoder_outbound _ _ _ Henc).
    eapply cx_less; [apply Hss|apply Hss|done|by left| |exact Hx].
    intros id. rewrite n_pend_cons. destruct err as [e|]; simpl; [ones|].
    unfold n_sent. rewrite tally_app. cbn [fst snd]. ones.
  - intros [= <-]. unfold target, pending. simpl. eapply cx_less; [done|done|done|by left| |exact Hx].
    intros id. rewrite n_pend_cons. pose proof (one_range (outbound m = true /\ sm_ID m = id)). lia.
Qed.

Lemma cx_conn s s' : exchange_inv s -> conn_step s = Some s' ->
  cx (f_c s') (f_pubs s') (f_acks s') (f_wire s') (target s') (pending s').
Proof.
  intros Hinv. destruct (f_conn s) as [|l r|l r|l r n|l r n|l r n|l r [|m msgs]] eqn:Hpc; try (by eapply cx_replay);
    unfold conn_step; rewrite Hpc; [done|..]; destruct Hinv as (Hfl & Hx & Hset & Hsnap); specialize (Hset ltac:(by rewrite Hpc));
    unfold target, pending in Hx; rewrite Hpc in Hx; pose proof (iv_conn _ _ _ _ _ _ _ _ _ Hfl) as Hco; rewrite Hpc in Hco; simpl in Hco;
    destruct (cx_facts _ _ _ _ _ _ Hx) as (Hok & Hw & Ho & Hu).
  - intros [= <-]. unfold target, pending. simpl. destruct (resetsSession r (f_c s)); [|exact Hx].
    destruct (Reset_total (c_store (f_c s))) as [s0 Hs0]. destruct (Reset_law _ _ Hs0) as [Hok0 Hc0].
    assert (H0 : forall id, n_out id (contents s0).*1 = 0).
    { intros id. rewrite Hc0. unfold n_out. by rewrite !one_false by (simpl; apply not_elem_of_nil). }
    apply cx_settled; unfold keys; csimp; rewrite ?Hs0; cbn [default from_option]; try done.
    + apply wf_Reset_ids.
    + intros id. rewrite H0. apply one_range.
    + intros id. rewrite H0, (proj1 Hco), n_sent_None. done.
    + by rewrite (proj1 Hco).
  - intros [= <-]. exact Hx.
  - case_bool_decide; [|done]. intros [= <-]. unfold target, pending. simpl. exact Hx.
  - intros [= <-]. unfold target, pending. simpl. destruct Hco as (Hnone & _ & Hun & _).
    apply cx_settled; csimp; try done.
    + intros id. rewrite (n_sent_untouched id l _ Hun). exact (proj1 (n_out_range id (keys (f_c s)))).
    + intros l0 [= <-]. unfold gens, captureGenerations. rewrite the_link_upd, decide_True by done. done.
  - case_bool_decide; [|done]. intros [= <-]. unfold target, pending. simpl.
    apply cx_settled; try done; [|apply (x_tgt_gen _ _ _ _ _ _ _ _ (proj2 Hx))].
    intros id. rewrite (n_sent_untouched id l) by (by eapply Hsnap). by apply n_pend_All.
  - destruct Hco as (Hnone & lk & Hl & Hgen). destruct (isStopping l (f_c s)); intros [= <-]; unfold target, pending; simpl.
    + rewrite Hnone. eapply cx_by; [..|exact Hx]; [done..|by right].
    + exact Hx.
Qed.

(** ** Runs *)

Lemma cx_write s i l pkt ev qg id ig ch pc' c' : exchange_inv s -> f_pubs s !! i = Some (l, pkt, PWrite qg id ig ch) ->
  pub_step l pkt ev (PWrite qg id ig ch) (f_c s) = (pc', c') ->
  let wire := match pc' with PWait _ _ => f_wire s ++ [(l, id)] | _ => f_wire s end in
  f_conn s = CIdle /\ cx c' (<[i := (l, pkt, pc')]> (f_pubs s)) (f_acks s) wire (c_link c') [].
Proof.
  intros (Hfl & Hx & Hset & _) Hi Hstep. assert (Hin := list_elem_of_lookup_2 _ _ _ Hi).
  assert (Hc : f_conn s = CIdle).
  { destruct (f_conn s) eqn:Hpc; [done|..]; exfalso; specialize (Hset ltac:(done));
      pose proof (mid_counted _ _ _ _ id ig Hin eq_refl); destruct (settled_pubs s id Hset); lia. }
  split; [done|]. unfold target, pending in Hx. rewrite Hc in Hx. cbn [pub_step] in Hstep.
  pose proof (writeFrame_same (Some l) (PublishPacket_Encode (with_PacketID id pkt)) (f_c s)) as Hss.
  pose proof (gens_writeFrame (Some l) (PublishPacket_Encode (with_PacketID id pkt)) (f_c s)) as [Hg Hl].
  destruct (writeFrame _ _ _) as [[e|] c1]; simplify_eq; simpl in Hss, Hg, Hl; simpl;
    (eapply (cx_by (f_c s)); [apply Hss|apply Hss|done|exact Hl|]); destruct Hx as [Hok Hx]; (split; [done|]).
  - by eapply xinv_pub_keep; [exact Hi|by left|by left|].
  - by eapply xinv_sent.
Qed.

Lemma target_idle s : f_conn s = CIdle -> target s = c_link (f_c s) /\ pending s = [].
Proof. unfold target, pending. by intros ->. Qed.

Lemma pub_step_link l pkt ev pc c pc' c' : (forall qg id ig ch, pc <> PWrite qg id ig ch) ->
  pub_step l pkt ev pc c = (pc', c') -> c_link c' = c_link c.
Proof.
  intros Hnw. destruct pc as [|w|qg|qg id ig|qg id ig|qg id ig ch|qg id ig ch err|qg id ig err|qg id ig err|qg id ig err|qg err|id ch|id ch err|err];
    cbn [pub_step]; try (by intros [= <- <-]).
  - destruct (quota_acquire_turn _) as [[g|g|w] q]; by intros [= <- <-].
  - destruct ev; by intros [= <- <-].
  - destruct (idAllocator_Acquire (c_ids c)) as [[id g|g] a]; by intros [= <- <-].
  - destruct (Save _ _); by intros [= <- <-].
  - by destruct (Hnw qg id ig ch).
  - intros [= <- <-]. apply removeWaiter_by.
  - destruct ev; [destruct (c_chans c !! ch)|..|destruct (c_chans c !! ch)]; by intros [= <- <-].
  - intros [= <- <-]. apply removeWaiter_by.
Qed.

Lemma is_write pc : (exists qg id ig ch, pc = PWrite qg id ig ch) \/ (forall qg id ig ch, pc <> PWrite qg id ig ch).
Proof. destruct pc; eauto 6. Qed.

Lemma exchange_pub s s' i ev : exchange_inv s -> act (APub i ev) s = Some s' -> calm_act (APub i ev) s s' ->
  cx (f_c s') (f_pubs s') (f_acks s') (f_wire s') (target s') (pending s') /\
  (f_conn s' = CIdle \/ f_wire s' = f_wire s /\ f_conn s' = f_conn s).
Proof.
  intros Hinv Hact [_ Hroom]. simpl in Hact. destruct (f_pubs s !! i) as [[[l pkt] pc]|] eqn:Hi; [|done].
  destruct (pub_step l pkt ev pc (f_c s)) as [pc' c'] eqn:Hstep. injection Hact as <-.
  destruct (is_write pc) as [(qg & id & ig & ch & ->)|Hnw].
  - destruct (cx_write _ _ _ _ _ _ _ _ _ _ _ Hinv Hi Hstep) as [Hc Hx]. split; [|by left].
    unfold target, pending. simpl. rewrite Hc. by destruct pc'.
  - assert (Hwire : match pc, pc' with PWrite _ id _ _, PWait _ _ => f_wire s ++ [(l, id)] | _, _ => f_wire s end = f_wire s)
      by (destruct pc; try done; naive_solver).
    rewrite Hwire. split; [|by right]. destruct Hinv as (Hfl & Hx & _).
    unfold target, pending in *. simpl. rewrite (pub_step_link _ _ _ _ _ _ _ Hnw Hstep). by eapply cx_pub_step.
Qed.

Lemma exchange_other s c' : exchange_inv s -> bystander (f_c s) c' -> spares s c' ->
  cx c' (f_pubs s) (f_acks s) (f_wire s) (target s) (pending s).
Proof.
  intros (_ & [Hok [Hw Ho Hu Hm Hd Hpg Hag Htg]] & _) (_ & Hl & _) (Hg & Hw' & Hok' & Hout & Hkind & Huse).
  split; [done|]. assert (Hgens : forall l, gens c' l = gens (f_c s) l) by (intros l; unfold gens, the_link; by rewrite Hl).
  split; try done; rewrite ?Hg; try done.
  - intros id. specialize (Ho id). rewrite Hout. specialize (Huse id). revert Ho. unfold one.
    repeat case_decide; lia || naive_solver lia.
  - intros id. rewrite Hout. apply Hu.
  - intros l pkt pc id ig Hx Hx0. apply Hkind; [|by left|by eapply Hm]. pose proof (mid_counted _ _ _ _ id ig Hx Hx0).
    pose proof (counts_nonneg id (f_pubs s) (f_acks s) [] None []). lia.
  - intros l pc id kind Hx Hx0. destruct (Hd l pc id kind Hx Hx0). split; [|done]. apply Hkind; [|done..].
    pose proof (del_counted _ _ _ id kind Hx Hx0). pose proof (counts_nonneg id (f_pubs s) (f_acks s) [] None []). lia.
  - intros l pc Hx Hx0. rewrite Hgens. by eapply Hag.
  - intros l Hx. rewrite Hgens. by apply Htg.
Qed.

Lemma exchange_connect s s' r bytes : exchange_inv s -> act (AConnect r bytes) s = Some s' -> settled s' = true ->
  cx (f_c s') (f_pubs s') (f_acks s') (f_wire s') (target s') (pending s').
Proof.
  intros (Hfl & Hx & _) Hact Hset. simpl in Hact. destruct (c_link (f_c s)) eqn:Hl; [done|]. destruct (f_conn s) eqn:Hc; try done.
  injection Hact as <-. destruct (target_idle s Hc) as [Ht Hp]. rewrite Ht, Hp, Hl in Hx.
  destruct (cx_facts _ _ _ _ _ _ Hx) as (Hok & Hw & Ho & Hu). unfold target, pending. simpl. rewrite Hl.
  refine (cx_settled _ _ _ _ _ Hset _ _ _ _ _); try done.
Qed.

(** Every step of a calm run keeps the invariant. *)
Lemma exchange_act a s s' : exchange_inv s -> act a s = Some s' -> calm_act a s s' -> exchange_inv s'.
Proof.
  intros Hinv Hact Hcalm. assert (Hfl' := act_inv a s s' (proj1 Hinv) Hact). assert (Hset := proj1 Hcalm).
  enough (cx (f_c s') (f_pubs s') (f_acks s') (f_wire s') (target s') (pending s') /\
    (forall l r n, f_conn s' = CSnap l r n -> forall id, (l, id) ∉ f_wire s')) by (split_and!; tauto).
  assert (Hsnap := proj2 (proj2 (proj2 Hinv))).
  destruct a as [pkt|i ev|j kind r|i|l g|c'|r bytes|].
  - simpl in Hact. destruct (c_link (f_c s)) as [l|] eqn:Hl; [|done]. injection Hact as <-. split; [|exact Hsnap].
    destruct Hinv as (_ & [Hok Hx] & _). split; [done|]. unfold target, pending in *.
    cbn [f_conn f_c f_pubs f_acks f_wire] in *. destruct Hx as [Hw Ho Hu Hm Hd Hpg Hag Htg]. split; try done.
    + intros id. specialize (Ho id). unfold n_hand. rewrite tally_app. fold (n_hand id (f_pubs s)). cbn [snd hand fmap option_fmap option_map].
      rewrite (one_false (None = Some id)) by done. lia.
    + intros id. specialize (Hu id). unfold n_mid. rewrite tally_app. fold (n_mid id (f_pubs s)). cbn [snd mid fmap option_fmap option_map].
      rewrite (one_false (None = Some id)) by done. lia.
    + intros l0 pkt0 pc0 id ig [Hy|[= -> -> ->]%list_elem_of_singleton]%elem_of_app; [by eapply Hm|done].
    + intros l0 pkt0 pc0 id ig [Hy|[= -> -> ->]%list_elem_of_singleton]%elem_of_app; [by eapply Hpg|by intros [?|?]].
  - destruct (exchange_pub s s' i ev Hinv Hact Hcalm) as [Hx [Hc|[Hw Hc]]]; (split; [done|]); [by rewrite Hc|]. by rewrite Hw, Hc.
  - simpl in Hact. destruct Hcalm as (_ & Hcur & Hkind). destruct (f_wire s !! j) as [[l id]|] eqn:Hj; [|done]. injection Hact as <-.
    simpl in Hcur. destruct (iv_cur _ _ _ _ _ _ _ _ _ (proj1 Hinv) l (eq_sym Hcur)) as [Hc _].
    destruct Hinv as (_ & Hx & _). unfold target, pending in *. simpl. rewrite Hc in *. rewrite <- Hcur in *. split; [by apply cx_ack|done].
  - simpl in Hact. destruct (f_acks s !! i) as [[l pc]|] eqn:Hi; [|done].
    destruct (ack_step l pc (f_c s)) as [pc' c'] eqn:Hstep. injection Hact as <-. split; [|exact Hsnap].
    assert (Hl : c_link c' = c_link (f_c s)).
    { destruct pc; cbn [ack_step] in Hstep; try (by simplify_eq).
      pose proof (signalWaiter_by id ackClassPublish r (f_c s)) as Hby. destruct (signalWaiter _ _ _ _). simplify_eq. apply Hby. }
    unfold target, pending. simpl. rewrite Hl. destruct Hinv as (_ & Hx & _). by eapply cx_ack_step.
  - simpl in Hact. case_decide; [|done]. injection Hact as <-. split; [|exact Hsnap]. destruct Hinv as (_ & Hx & _).
    destruct (teardown_same l g (f_c s)). eapply cx_by; [..|exact Hx]; [done|done|intros; apply gens_teardown|].
    unfold target. simpl. destruct (f_conn s); try (by left); apply link_teardown.
  - simpl in Hact. case_decide as Hby; [|done]. injection Hact as <-. split; [|exact Hsnap]. destruct Hcalm as [_ Hsp].
    unfold target, pending. simpl. rewrite (proj1 (proj2 (proj2 Hby))). by apply (exchange_other s).
  - split; [eapply exchange_connect; [exact Hinv|exact Hact|apply Hset]|]; simpl in Hact;
      destruct (c_link (f_c s)), (f_conn s); simplify_eq; done.
  - split; [by apply (cx_conn s)|]. intros l r n Hc. simpl in Hact. pose proof (iv_conn _ _ _ _ _ _ _ _ _ (proj1 Hinv)) as Hco.
    unfold conn_step in Hact. destruct (f_conn s) as [| | | | | |l0 r0 [|m msgs]] eqn:Hpc; try (case_bool_decide; [|done]);
      try (destruct (isStopping _ _)); try (destruct (replay_encoder _ _)); try (destruct (writeFrame _ _ _)); simplify_eq/=.
    apply Hco.
Qed.

Lemma exchange_acts l s s' : exchange_inv s -> acts l s = Some s' -> calm l s -> exchange_inv s'.
Proof.
  revert s. induction l as [|a l IH]; simpl; intros s Hinv; [by intros [= <-]|].
  destruct (act a s) as [s1|] eqn:Ha; simpl; [|done]. intros Hl [Hc Hcs]. by eapply IH; [eapply exchange_act| |].
Qed.

Lemma exchange_init c : unconnected c -> wf_ids (c_ids c) -> store_ok (c_store c) -> contents (c_store c) = [] ->
  exchange_inv (flow_init c).
Proof.
  intros Hc Hw Hok H0. split_and!; [by apply flow_init_inv| |done|done].
  assert (Hout : forall id, n_out id (keys c) = 0).
  { intros id. unfold keys. rewrite H0. unfold n_out. by rewrite !one_false by (simpl; apply not_elem_of_nil). }
  destruct Hc as (_ & _ & Hl & _). unfold target, pending. simpl. rewrite Hl.
  refine (cx_settled c (flow_init c) [] None [] _ Hok Hw _ _ _); try done; intros id; rewrite Hout; [apply one_range|done].
Qed.

(** ** The rest of the client spares the exchanges

    What other calls do to the allocator and to the store: a subscribe request
    acquires an identifier and frees its own, an inbound QoS 2 message is
    recorded and forgotten, and a PUBREC turns a stored PUBLISH into a PUBREL. *)

Lemma spares_store s c' : c_ids c' = c_ids (f_c s) -> wf_ids (c_ids (f_c s)) -> store_ok (c_store c') ->
  (forall id, n_out id (keys c') = n_out id (keys (f_c s))) ->
  (forall id kind, 0 < n_mid id (f_pubs s) + n_del id (f_acks s) -> kind = StoredPublish \/ kind = StoredPubrel ->
    (id, kind) ∈ keys (f_c s) -> (id, kind) ∈ keys c') ->
  spares s c'.
Proof. intros Hi Hw Hok Ho Hk. unfold spares. rewrite Hi. by split_and!. Qed.

Lemma spares_acquire s : exchange_inv s ->
  spares s (set_ids (idAllocator_Acquire (c_ids (f_c s))).2 (f_c s)).
Proof.
  intros (_ & [Hok Hx] & _). assert (Hw := x_wf _ _ _ _ _ _ _ _ Hx). pose proof (Acquire_spec _ Hw) as Ha.
  unfold spares, keys. csimp. destruct (idAllocator_Acquire (c_ids (f_c s))) as [[id g|g] a]; cbn [snd].
  - destruct Ha as (_ & -> & Hid & _ & _). split_and!; try done; [apply wf_marked; [done|unfold in_u16; lia|lia]|].
    intros id0 _ Hu. assert (Hz : in_u16 id0 \/ ~ in_u16 id0) by (destruct (decide (in_u16 id0)); tauto). destruct Hz as [Hz|Hz].
    + unfold marked. rewrite in_use_mark by (done || unfold in_u16; lia). rewrite Hu. apply orb_true_r.
    + revert Hu. unfold in_use, marked, word_at. cbn [used]. destruct (decide (word_of id = word_of id0)) as [E|E].
      * rewrite <- E. rewrite list_lookup_insert_eq by (rewrite (wf_used_len _ Hw); apply word_of_lt; unfold in_u16; lia).
        cbn [from_option Datatypes.id]. rewrite Z.lor_spec. intros ->. done.
      * by rewrite list_lookup_insert_ne.
  - destruct Ha as (_ & _ & Hw' & Hused & Hg). split_and!; try done. intros id0 _. unfold in_use. by rewrite Hused.
Qed.

(** A release of an identifier that no exchange owns. *)
Lemma spares_release s id g : exchange_inv s -> in_u16 id ->
  n_hand id (f_pubs s) + n_free id (f_acks s) + n_out id (keys (f_c s)) = 0 ->
  spares s (ids_ReleaseAt id g (f_c s)).
Proof.
  intros (_ & [Hok Hx] & _) Hid H0. pose proof (x_wf _ _ _ _ _ _ _ _ Hx) as Hw. unfold spares, keys. csimp. split_and!; try done.
  - apply gen_ReleaseAt.
  - by apply wf_ReleaseAt.
  - intros id0 Hown Hu. assert (Hr := x_own _ _ _ _ _ _ _ _ Hx id0). revert Hr. unfold one. case_decide as Hin; [intros _|unfold keys; lia].
    rewrite in_use_ReleaseAt by (done || unfold in_u16; lia). rewrite Hu, bool_decide_false; [done|]. intros [-> _]. unfold keys in H0. lia.
Qed.

Lemma spares_inbound s id c' : exchange_inv s ->
  (store_room (c_store (f_c s)) /\ c' = store_Save (mkStored None 0 id StoredInboundID) (f_c s)) \/
  c' = store_Delete id StoredInboundID (f_c s) -> spares s c'.
Proof.
  intros (_ & [Hok Hx] & _) Hc. pose proof (x_wf _ _ _ _ _ _ _ _ Hx) as Hw.
  assert (Hk : store_ok (c_store c') /\ forall id0 kind, kind <> StoredInboundID -> (id0, kind) ∈ keys c' <-> (id0, kind) ∈ keys (f_c s)).
  { destruct Hc as [[Hroom ->]| ->].
    - split; [by apply store_Save_spec|]. intros id0 kind Hne.
      pose proof (stored_Save (mkStored None 0 id StoredInboundID) (f_c s) id0 kind Hok Hroom) as Hs.
      unfold stored in Hs. unfold keys. rewrite Hs. unfold key_of. simpl. naive_solver.
    - split; [by apply store_Delete_spec|]. intros id0 kind Hne. pose proof (stored_Delete id StoredInboundID (f_c s) id0 kind Hok) as Hs.
      unfold stored in Hs. unfold keys. rewrite Hs. naive_solver. }
  destruct Hk as [Hok' Hk]. apply spares_store; [by destruct Hc as [[_ ->]| ->]|done|done|..].
  - intros id0. unfold n_out. f_equal; apply one_iff, Hk; done.
  - intros id0 kind _ Hkind Hin. apply Hk; [|done]. by destruct Hkind as [-> | ->].
Qed.

(** A PUBREC for a stored PUBLISH that no goroutine still works on. *)
Lemma spares_pubrec s id v data : exchange_inv s -> store_room (c_store (f_c s)) ->
  (id, StoredPublish) ∈ keys (f_c s) -> (id, StoredPubrel) ∉ keys (f_c s) ->
  n_mid id (f_pubs s) + n_del id (f_acks s) = 0 ->
  spares s (store_Delete id StoredPublish (store_Save (mkStored data v id StoredPubrel) (f_c s))).
Proof.
  intros (_ & [Hok Hx] & _) Hroom Hin Hnin H0. pose proof (x_wf _ _ _ _ _ _ _ _ Hx) as Hw.
  set (m := mkStored data v id StoredPubrel). set (c1 := store_Save m (f_c s)).
  assert (Hok1 : store_ok (c_store c1)) by (by apply store_Save_spec).
  assert (Hk : forall id0 kind, (id0, kind) ∈ keys (store_Delete id StoredPublish c1) <->
    (id0, kind) <> (id, StoredPublish) /\ ((id0, kind) = (id, StoredPubrel) \/ (id0, kind) ∈ keys (f_c s))).
  { intros id0 kind. pose proof (stored_Delete id StoredPublish c1 id0 kind Hok1) as Hd.
    pose proof (stored_Save m (f_c s) id0 kind Hok Hroom) as Hs. unfold stored in Hd, Hs. unfold keys. rewrite Hd.
    unfold c1. rewrite Hs. done. }
  apply spares_store; [done|done|by apply store_Delete_spec|..].
  - intros id0. unfold n_out. pose proof (Hk id0 StoredPublish) as H1. pose proof (Hk id0 StoredPubrel) as H2.
    destruct (decide (id0 = id)) as [->|Hne]; unfold one; repeat case_decide; naive_solver.
  - intros id0 kind Hpos _ Hin0. apply Hk. split; [|by right]. intros [= -> ->]. lia.
Qed.
End exchange.

(** The identifiers unacknowledged on a link. *)
Definition on_wire {St} (s : flow St) (l : nat) : list Z := (filter (fun w => w.1 = l) (f_wire s)).*2.

Lemma on_wire_count {St} (s : flow St) l id :
  Z.of_nat (length (filter (fun i => i = id) (on_wire s l))) = n_sent id (Some l) (f_wire s).
Proof.
  unfold on_wire, n_sent. rewrite count_fmap, list_filter_filter. apply count_ext. intros [l' i] _. simpl. naive_solver.
Qed.

Lemma count_NoDup_inv {A} `{EqDecision A} (l : list A) :
  (forall k, Z.of_nat (length (filter (fun x => x = k) l)) <= 1) -> NoDup l.
Proof.
  induction l as [|x l IH]; intros Hl; [constructor|]. constructor.
  - intros Hx. specialize (Hl x). rewrite filter_cons, decide_True in Hl by done. simpl in Hl.
    pose proof (count_elem (fun y => y = x) l x Hx eq_refl). lia.
  - apply IH. intros k. specialize (Hl k). rewrite filter_cons in Hl. revert Hl. case_decide; simpl; lia.
Qed.

(** * Theorems *)

(** C7.  No two exchanges share an identifier.  Any number of goroutines publish,
    fail, are acknowledged or give up, in any interleaving of their critical
    sections; links go down and sessions are resumed with their messages
    replayed, or reset.  In a run in which acknowledgements are those of the
    current connection and no goroutine is in the middle of an exchange while a
    connect runs, the identifiers unacknowledged on the current connection are
    distinct, non-zero, marked in use and stored for replay, and no goroutine
    that is about to send or to clean up holds one of them. *)
Theorem exchange_ids_exclusive {St} {HS : SessionStore St} {HC : ContainsStore St} {HE : Environment St}
    {HL : SessionStoreLaws St} {HR : ReliableStore St} (c : client St) (l : list (action St)) (s : flow St) (k : nat) :
  unconnected c -> wf_ids (c_ids c) -> store_ok (c_store c) -> contents (c_store c) = [] ->
  acts l (flow_init c) = Some s -> calm l (flow_init c) -> c_link (f_c s) = Some k ->
  NoDup (on_wire s k) /\
  forall id, id ∈ on_wire s k -> 0 < id < 65536 /\ in_use (c_ids (f_c s)) id = true /\
    (stored id StoredPublish (f_c s) \/ stored id StoredPubrel (f_c s)) /\
    forall l' pkt pc ig, (l', pkt, pc) ∈ f_pubs s -> hand pc <> Some (id, ig) /\ mid pc <> Some (id, ig).
Proof.
  intros Hc Hw Hok H0 Hl Hcalm Hk. destruct (exchange_acts l _ _ (exchange_init c Hc Hw Hok H0) Hl Hcalm) as (Hfl & [Hok' Hx] & _).
  destruct (iv_cur _ _ _ _ _ _ _ _ _ Hfl k Hk) as [Hidle _]. destruct (target_idle s Hidle) as [Ht Hp].
  rewrite Ht, Hp, Hk in Hx. destruct Hx as [_ Ho Hu Hm _ _ _ _]. split.
  - apply count_NoDup_inv. intros id. rewrite on_wire_count. specialize (Ho id). specialize (Hu id).
    pose proof (counts_nonneg id (f_pubs s) (f_acks s) (f_wire s) (Some k) []).
    pose proof (one_range (0 < id < 65536 /\ in_use (c_ids (f_c s)) id = true)). lia.
  - intros id Hid. pose proof (count_elem (fun i => i = id) _ id Hid eq_refl) as H1. rewrite on_wire_count in H1.
    specialize (Ho id). specialize (Hu id). pose proof (counts_nonneg id (f_pubs s) (f_acks s) (f_wire s) (Some k) []).
    assert (Huse : 0 < id < 65536 /\ in_use (c_ids (f_c s)) id = true) by (revert Ho; unfold one; case_decide; [done|lia]).
    rewrite one_true in Ho by done. split_and!; [apply Huse..| |].
    + unfold n_out, one, keys in Hu. unfold stored. revert Hu. repeat case_decide; [by left..|by right|lia].
    + intros l' pkt pc ig Hin. split; intros Hh.
      * pose proof (hand_counted _ _ _ _ id ig Hin Hh). lia.
      * pose proof (mid_counted _ _ _ _ id ig Hin Hh). lia.
Qed.

(** Two publishes, the first one in flight when the link drops; the session is
    resumed, the message replayed, and a third publish sent. *)
Definition resumed_run : list (action memStore) :=
  reconnect 3 0 ++ [AStart demo_pkt; AStart demo_pkt] ++ send 0 ++ send 1 ++
  [AAck 0 StoredPublish acked; AAckStep 0; AAckStep 0; ADrop 0 false] ++ reconnect 3 1 ++ [AStart demo_pkt] ++ send 2.

Lemma exchange_ids_exclusive_witness :
  exists s, acts resumed_run (flow_init (NewTCPClient demo_cfg)) = Some s /\ on_wire s 1 = [2; 3] /\ NoDup (on_wire s 1).
Proof.
  eexists. split; [vm_compute; reflexivity|]. split; [vm_compute; reflexivity|].
  refine (proj1 (exchange_ids_exclusive (NewTCPClient demo_cfg) resumed_run _ 1 _ _ _ _ _ _ _));
    [split_and!; reflexivity|apply wf_newIds|apply wf_newMemStore|reflexivity|vm_compute; reflexivity| |reflexivity].
  vm_compute. repeat split; done || by left.
Defined.

(** The clean-up of a failed send can free an identifier that is on the wire.
    publishAcked reads the quota generation, then deletes the entry and frees
    the identifier.  If a connect resumes the session in between, the entry is
    replayed before it is deleted, and ReleaseAt still frees the identifier
    because a resumed session keeps the identifier generation: the replayed
    PUBLISH is unacknowledged under a free identifier. *)
Theorem cleanup_frees_replayed_id :
  exists s, acts (reconnect 2 0 ++ [AStart demo_pkt] ++ replicate 4 (APub 0 Run) ++ [ADrop 0 false] ++
    replicate 3 (APub 0 Run) ++ reconnect 2 1 ++ [APub 0 Run; APub 0 Run])
    (flow_init (NewTCPClient demo_cfg)) = Some s /\
  c_link (f_c s) = Some 1%nat /\ on_wire s 1 = [1] /\ in_use (c_ids (f_c s)) 1 = false /\
  storeContains 1 StoredPublish (f_c s) = false.
Proof. eexists. split_and!; vm_compute; reflexivity. Qed.

(** A late acknowledgement can free an identifier that is on the wire.  The
    read loop of an old link has found the entry of its PUBACK; the link drops,
    a connect resumes the session and replays the entry; then completeOutbound
    deletes it and frees the identifier, since the generation recorded in the
    old link is still the current one. *)
Theorem late_ack_frees_replayed_id :
  exists s, acts (reconnect 2 0 ++ [AStart demo_pkt] ++ send 0 ++ [AAck 0 StoredPublish acked; ADrop 0 false] ++
    reconnect 2 1 ++ [AAckStep 0; AAckStep 0])
    (flow_init (NewTCPClient demo_cfg)) = Some s /\
  c_link (f_c s) = Some 1%nat /\ on_wire s 1 = [1] /\ in_use (c_ids (f_c s)) 1 = false.
Proof. eexists. split_and!; vm_compute; reflexivity. Qed.
