(* ===== verification/Transport.v ===== *)
(** The transport below the client: TLS configurations (tls_config.go), the
    address and the security of a connection (dial in adapter_tcp.go), and the
    dialling of a Connect put together from them.

    The file system, the PEM decoder, the certificate parser and the network are
    parameters; the host and port functions of [net/url] and [net] are written
    out. *)

From S2P Require Import Prelude GoStrings Codes Wire PublishPackets Errors Client Connection.
From stdpp Require Import options.

(** * TLS configurations *)

(** The fields of [tls.Config] that the client reads or writes.  A pool of
    certificates is the list of what was added to it. *)
Record tlsConfig (Cert : Type) : Type := mkTlsConfig {
  ServerName : list Z;
  MinVersion : Z;
  InsecureSkipVerify : bool;
  RootCAs : option (list Cert)
}.
Arguments mkTlsConfig {Cert}.
Arguments ServerName {Cert}.
Arguments MinVersion {Cert}.
Arguments InsecureSkipVerify {Cert}.
Arguments RootCAs {Cert}.

Definition VersionTLS12 : Z := 0x0303.

Definition with_ServerName {Cert} (n : list Z) (t : tlsConfig Cert) : tlsConfig Cert :=
  mkTlsConfig n (MinVersion t) (InsecureSkipVerify t) (RootCAs t).
Definition with_RootCAs {Cert} (roots : list Cert) (t : tlsConfig Cert) : tlsConfig Cert :=
  mkTlsConfig (ServerName t) (MinVersion t) (InsecureSkipVerify t) (Some roots).

Record pemBlock : Type := mkBlock { block_Type : list Z; block_Bytes : list Z }.

Definition CERTIFICATE : list Z := gostr "CERTIFICATE".

(** What a CA file can be refused for; blocks are numbered from 1. *)
Inductive tlsError : Type :=
| ErrInsecureWithCA
| CAFileUnreadable (err : goerror)
| CAFileBlockType (n : Z) (found : list Z)
| CAFileBadCertificate (n : Z) (err : goerror)
| CAFileEmpty.

(** os.ReadFile, pem.Decode ([None] is a nil block) and x509.ParseCertificate. *)
Class Crypto (Cert : Type) : Type := {
  ReadFile : list Z -> goerror + list Z;
  pem_Decode : list Z -> option (pemBlock * list Z);
  ParseCertificate : list Z -> goerror + Cert
}.

(** pem.Decode returns the remainder of its input after the block it found. *)
Class PemLaws (Cert : Type) `{Crypto Cert} : Prop := {
  pem_Decode_rest data b rest : pem_Decode data = Some (b, rest) -> (length rest < length data)%nat
}.

Definition NewClientTLSConfig {Cert} (serverName : list Z) (insecureSkipVerify : bool) : tlsConfig Cert :=
  mkTlsConfig serverName VersionTLS12 insecureSkipVerify None.

Section tls.
Context {Cert : Type} {HC : Crypto Cert}.

(** The loop of [readCABundle]; [n] blocks were read and [None] is a loop that
    was cut off. *)
Fixpoint readCABundle_loop (fuel : nat) (rest : list Z) (n : Z) (roots : list Cert) : option (tlsError + list Cert) :=
  match fuel with
  | O => None
  | S fuel =>
    match pem_Decode rest with
    | None => Some (if n =? 0 then inl CAFileEmpty else inr roots)
    | Some (block, rest) =>
      let n := n + 1 in
      if negb (bool_decide (block_Type block = CERTIFICATE)) then Some (inl (CAFileBlockType n (block_Type block)))
      else
        match ParseCertificate (block_Bytes block) with
        | inl err => Some (inl (CAFileBadCertificate n err))
        | inr cert => readCABundle_loop fuel rest n (roots ++ [cert])
        end
    end
  end.

Definition readCABundle (path : list Z) : option (tlsError + list Cert) :=
  match ReadFile path with
  | inl err => Some (inl (CAFileUnreadable err))
  | inr data => readCABundle_loop (S (length data)) data 0 []
  end.

Definition NewClientTLSConfigWithCA (serverName caFile : list Z) (insecureSkipVerify : bool)
  : option (tlsError + tlsConfig Cert) :=
  if bool_decide (caFile = []) then Some (inr (NewClientTLSConfig serverName insecureSkipVerify))
  else if insecureSkipVerify then Some (inl ErrInsecureWithCA)
  else
    match readCABundle caFile with
    | None => None
    | Some (inl err) => Some (inl err)
    | Some (inr roots) => Some (inr (with_RootCAs roots (NewClientTLSConfig serverName false)))
    end.

(** ** What a file holds *)

(** The PEM blocks of some bytes, in order. *)
Inductive pem_blocks : list Z -> list pemBlock -> Prop :=
| pem_end data : pem_Decode data = None -> pem_blocks data []
| pem_block data b rest bs : pem_Decode data = Some (b, rest) -> pem_blocks rest bs -> pem_blocks data (b :: bs).

Definition is_certificate (b : pemBlock) (cert : Cert) : Prop :=
  block_Type b = CERTIFICATE /\ ParseCertificate (block_Bytes b) = inr cert.

(** What reading the blocks one by one amounts to, [n] blocks having been
    accepted. *)
Inductive bundle (n : Z) : list pemBlock -> tlsError + list Cert -> Prop :=
| bundle_all bs certs : Forall2 is_certificate bs certs -> n + len bs <> 0 -> bundle n bs (inr certs)
| bundle_none : n = 0 -> bundle n [] (inl CAFileEmpty)
| bundle_type bs certs b bs' : Forall2 is_certificate bs certs -> block_Type b <> CERTIFICATE ->
    bundle n (bs ++ b :: bs') (inl (CAFileBlockType (n + len bs + 1) (block_Type b)))
| bundle_parse bs certs b bs' err : Forall2 is_certificate bs certs -> block_Type b = CERTIFICATE ->
    ParseCertificate (block_Bytes b) = inl err ->
    bundle n (bs ++ b :: bs') (inl (CAFileBadCertificate (n + len bs + 1) err)).

(** A certificate in front. *)
Lemma bundle_cons n b cert bs r : 0 <= n -> is_certificate b cert -> bundle (n + 1) bs r ->
  bundle n (b :: bs) (match r with inl err => inl err | inr certs => inr (cert :: certs) end).
Proof.
  intros Hn Hb. destruct 1 as [bs certs Hall _|Hz|bs certs b' bs' Hall Ht|bs certs b' bs' err Hall Ht Hp].
  - apply bundle_all; [by constructor|]. cbn [length]. lia.
  - lia.
  - replace (n + 1 + len bs + 1) with (n + len (b :: bs) + 1) by (cbn [length]; lia).
    apply (bundle_type n (b :: bs) (cert :: certs)); [by constructor|done].
  - replace (n + 1 + len bs + 1) with (n + len (b :: bs) + 1) by (cbn [length]; lia).
    apply (bundle_parse n (b :: bs) (cert :: certs)); [by constructor|done|done].
Qed.

Lemma readCABundle_loop_spec {HP : PemLaws Cert} fuel data n roots : 0 <= n -> (length data < fuel)%nat ->
  exists bs r, pem_blocks data bs /\ bundle n bs r /\
    readCABundle_loop fuel data n roots = Some (match r with inl err => inl err | inr certs => inr (roots ++ certs) end).
Proof.
  revert data n roots. induction fuel as [|fuel IH]; intros data n roots Hn Hf; [lia|]. cbn [readCABundle_loop].
  destruct (pem_Decode data) as [[b rest]|] eqn:Hd.
  - pose proof (pem_Decode_rest _ _ _ Hd) as Hlt.
    destruct (IH rest (n + 1) []) as (bs0 & _ & Hbs0 & _ & _); [lia|lia|].
    case_bool_decide as Ht; simpl.
    + destruct (ParseCertificate (block_Bytes b)) as [err|cert] eqn:Hp.
      * exists (b :: bs0), (inl (CAFileBadCertificate (n + 1) err)). split; [by eapply pem_block|]. split; [|done].
        replace (n + 1) with (n + len (@nil pemBlock) + 1) by (cbn [length]; lia). by apply (bundle_parse n [] []).
      * destruct (IH rest (n + 1) (roots ++ [cert])) as (bs & r & Hbs & Hr & E); [lia|lia|].
        exists (b :: bs), (match r with inl err => inl err | inr certs => inr (cert :: certs) end).
        split; [by eapply pem_block|]. split; [by apply bundle_cons|]. rewrite E. destruct r; [done|]. by rewrite <- app_assoc.
    + exists (b :: bs0), (inl (CAFileBlockType (n + 1) (block_Type b))). split; [by eapply pem_block|]. split; [|done].
      replace (n + 1) with (n + len (@nil pemBlock) + 1) by (cbn [length]; lia). by apply (bundle_type n [] []).
  - exists [], (if n =? 0 then inl CAFileEmpty else inr []). split; [by apply pem_end|].
    destruct (Z.eqb_spec n 0); (split; [|by rewrite ?app_nil_r]); [by apply bundle_none|].
    apply bundle_all; [constructor|]. cbn [length]. lia.
Qed.

Lemma pem_blocks_unique data bs bs' : pem_blocks data bs -> pem_blocks data bs' -> bs' = bs.
Proof.
  intros H. revert bs'. induction H as [data Hd|data b rest bs Hd Hbs IH]; intros bs' H';
    inversion H' as [d' Hd'|d' b' rest' bs0 Hd' Hbs']; subst; rewrite Hd in Hd'; simplify_eq; [done|].
  f_equal. by apply IH.
Qed.
End tls.

(** * Addresses *)

Definition COLON : Z := 58.
Definition LBRACKET : Z := 91.
Definition RBRACKET : Z := 93.

(** Around the last [sep]. *)
Definition cut_last (s : list Z) (sep : Z) : list Z * list Z * bool :=
  let '(after, before, found) := Cut (rev s) sep in (rev before, rev after, found).

Definition all_digits (s : list Z) : bool := forallb (within 48 57) s.

Definition strip_brackets (h : list Z) : list Z :=
  match h with
  | b :: t => if b =? LBRACKET then match rev t with e :: u => if e =? RBRACKET then rev u else h | [] => h end else h
  | [] => h
  end.

(** splitHostPort of net/url: the results of [Hostname] and [Port]. *)
Definition splitHostPort (h : list Z) : list Z * list Z :=
  let '(before, after, found) := cut_last h COLON in
  if found && all_digits after then (strip_brackets before, after) else (strip_brackets h, []).

(** net.JoinHostPort. *)
Definition JoinHostPort (host port : list Z) : list Z :=
  if contains_byte host COLON then LBRACKET :: host ++ RBRACKET :: COLON :: port else host ++ COLON :: port.

Record URL : Type := mkURL { u_Scheme : list Z; u_Host : list Z }.
Definition u_Hostname (u : URL) : list Z := (splitHostPort (u_Host u)).1.
Definition u_Port (u : URL) : list Z := (splitHostPort (u_Host u)).2.

(** * Dialling *)

(** Whether a scheme asks for TLS; [None] is an unsupported scheme. *)
Definition scheme_tls (scheme : list Z) : option bool :=
  if bool_decide (scheme = gostr "tls" \/ scheme = gostr "ssl" \/ scheme = gostr "mqtts") then Some true
  else if bool_decide (scheme = gostr "tcp" \/ scheme = gostr "mqtt" \/ scheme = []) then Some false
  else None.

Definition defaultPort (tls : bool) : list Z := if tls then gostr "8883" else gostr "1883".

Definition dial_address (tls : bool) (u : URL) : list Z :=
  if bool_decide (u_Port u = []) then JoinHostPort (u_Hostname u) (defaultPort tls) else u_Host u.

(** net.Dialer.DialContext and tls.Conn.HandshakeContext, with the deadline of
    their context. *)
Class Network (Cert Conn : Type) : Type := {
  DialContext : list Z -> goerror + Conn;
  HandshakeContext : Conn -> tlsConfig Cert -> option goerror
}.

(** A connection as [dial] returns it. *)
Inductive transport (Cert Conn : Type) : Type :=
| Plain (conn : Conn)
| Secure (conn : Conn) (t : tlsConfig Cert).
Arguments Plain {Cert Conn}.
Arguments Secure {Cert Conn}.

(** What [dial] does besides returning: the warning that a TLS configuration is
    not used, a socket opened and a socket closed. *)
Inductive dial_event (Conn : Type) : Type :=
| WarnTLSIgnored (scheme : list Z)
| Opened (conn : Conn)
| Closed (conn : Conn).
Arguments WarnTLSIgnored {Conn}.
Arguments Opened {Conn}.
Arguments Closed {Conn}.

Definition errUnsupportedScheme : goerror := [OtherErr 3].

Section dial.
Context {Cert Conn : Type} {HN : Network Cert Conn}.

(** The configuration of a handshake with [u]. *)
Definition dial_config (cfg : option (tlsConfig Cert)) (u : URL) : tlsConfig Cert :=
  let tlsCfg := match cfg with Some t => t | None => mkTlsConfig [] VersionTLS12 false None end in
  if bool_decide (ServerName tlsCfg = []) then with_ServerName (u_Hostname u) tlsCfg else tlsCfg.

Definition client_dial (cfg : option (tlsConfig Cert)) (u : URL)
  : (goerror + transport Cert Conn) * list (dial_event Conn) :=
  match scheme_tls (u_Scheme u) with
  | None => (inl errUnsupportedScheme, [])
  | Some tls =>
    let warned := if negb tls && is_some cfg then [WarnTLSIgnored (u_Scheme u)] else [] in
    match DialContext (dial_address tls u) with
    | inl err => (inl err, warned)
    | inr conn =>
      if negb tls then (inr (Plain conn), warned ++ [Opened conn])
      else
        let tlsCfg := dial_config cfg u in
        match HandshakeContext conn tlsCfg with
        | Some err => (inl err, warned ++ [Opened conn; Closed conn])
        | None => (inr (Secure conn tlsCfg), warned ++ [Opened conn])
        end
    end
  end.

(** What [Connect] sees of the URL and of the dial: [parsed] is the result of
    url.Parse. *)
Definition dialling_of (parsed : goerror + URL) (cfg : option (tlsConfig Cert)) (bytes : list Z) (ctx : option goerror)
    (now : Z) : dialling :=
  match parsed with
  | inl err => mkDialling (Some err) None bytes ctx now
  | inr u => mkDialling None (match (client_dial cfg u).1 with inl err => Some err | inr _ => None end) bytes ctx now
  end.
End dial.

(** ** Lemmas *)

Lemma cut_last_app a sep b : sep ∉ b -> cut_last (a ++ sep :: b) sep = (a, b, true).
Proof.
  intros Hb. unfold cut_last.
  assert (E : Cut (rev (a ++ sep :: b)) sep = (rev b, rev a, true)).
  { apply Cut_true. rewrite rev_app_distr. simpl. rewrite <- app_assoc. split; [done|]. by rewrite list_elem_of_In, <- in_rev, <- list_elem_of_In. }
  rewrite E. by rewrite !rev_involutive.
Qed.

Lemma digits_no_colon s : all_digits s = true -> COLON ∉ s.
Proof.
  unfold all_digits. rewrite forallb_forall. intros Hd Hc. apply list_elem_of_In in Hc. by specialize (Hd _ Hc).
Qed.

Lemma strip_bracketed h : strip_brackets (LBRACKET :: h ++ [RBRACKET]) = h.
Proof. simpl. rewrite rev_app_distr. simpl. apply rev_involutive. Qed.

Lemma split_join h p : all_digits p = true -> (contains_byte h COLON = true \/ strip_brackets h = h) ->
  splitHostPort (JoinHostPort h p) = (h, p).
Proof.
  intros Hp Hh. pose proof (digits_no_colon p Hp) as Hc. unfold splitHostPort, JoinHostPort.
  destruct (contains_byte h COLON) eqn:Hcol.
  - replace (LBRACKET :: h ++ RBRACKET :: COLON :: p) with ((LBRACKET :: h ++ [RBRACKET]) ++ COLON :: p)
      by (simpl; by rewrite <- app_assoc).
    rewrite cut_last_app by done. rewrite Hp. cbn [andb]. by rewrite strip_bracketed.
  - destruct Hh as [?|Hh]; [done|]. rewrite cut_last_app by done. rewrite Hp. cbn [andb]. by rewrite Hh.
Qed.

(** * Theorems *)

(** C18.  A CA file pins the trust.  When a CA file is named, a configuration
    comes back exactly if verification was not switched off, the file can be
    read, it holds at least one PEM block, and every block is a certificate that
    parses; then the roots are these certificates, in place of the system's, the
    server name is the one given, verification is on and TLS 1.2 is the minimum.
    In every other case there is an error, which names the first block that is
    not a certificate; the loop over the file always ends. *)
Theorem ca_file_pins_trust {Cert} {HC : Crypto Cert} {HP : PemLaws Cert} (serverName caFile : list Z) (insecure : bool) :
  caFile <> [] ->
  exists r, NewClientTLSConfigWithCA serverName caFile insecure = Some r /\
  match r with
  | inr cfg => insecure = false /\ exists data bs roots, ReadFile caFile = inr data /\ pem_blocks data bs /\
      bs <> [] /\ Forall2 is_certificate bs roots /\ cfg = mkTlsConfig serverName VersionTLS12 false (Some roots)
  | inl ErrInsecureWithCA => insecure = true
  | inl (CAFileUnreadable err) => insecure = false /\ ReadFile caFile = inl err
  | inl err => insecure = false /\ exists data bs, ReadFile caFile = inr data /\ pem_blocks data bs /\ bundle 0 bs (inl err)
  end.
Proof.
  intros Hne. unfold NewClientTLSConfigWithCA. rewrite bool_decide_false by done. destruct insecure; [by eexists|].
  unfold readCABundle. destruct (ReadFile caFile) as [err|data]; [by eexists|].
  destruct (readCABundle_loop_spec (S (length data)) data 0 []) as (bs & r & Hbs & Hr & E); [lia|lia|]. rewrite E.
  destruct r as [err|certs]; (eexists; split; [done|]).
  - inversion Hr; subst; (split; [done|]); exists data; eauto.
  - split; [done|]. inversion Hr as [bs' certs' Hall Hn| | |]; subst. exists data, bs, certs. split_and!; try done.
    intros ->. simpl in Hn. lia.
Qed.

(** A toy trust store: a file is a list of pairs, a block type and a byte; the
    certificate of a byte is the byte. *)
Definition toy_file : list Z := [1; 7; 1; 9].
#[export] Instance toy_crypto : Crypto Z := {
  ReadFile path := if bool_decide (path = gostr "ca.pem") then inr toy_file else inl [OtherErr 4];
  pem_Decode data := match data with
                     | t :: b :: rest => Some (mkBlock (if t =? 1 then CERTIFICATE else gostr "PRIVATE KEY") [b], rest)
                     | _ => None
                     end;
  ParseCertificate b := match b with [x] => inr x | _ => inl [OtherErr 5] end
}.
#[export] Instance toy_pem : PemLaws Z.
Proof. split. intros data b rest. destruct data as [|t [|x data]]; simpl; [done|done|]. intros [= _ <-]. lia. Qed.

Lemma ca_file_pins_trust_witness :
  NewClientTLSConfigWithCA (gostr "broker") (gostr "ca.pem") false =
    Some (inr (mkTlsConfig (gostr "broker") VersionTLS12 false (Some [7; 9]))) /\
  exists data bs roots, ReadFile (gostr "ca.pem") = inr data /\ pem_blocks data bs /\ bs <> [] /\
    Forall2 is_certificate bs roots /\ roots = [7; 9].
Proof.
  assert (Hne : gostr "ca.pem" <> []) by done.
  destruct (ca_file_pins_trust (gostr "broker") (gostr "ca.pem") false Hne) as (r & Hr & Hs).
  assert (E : NewClientTLSConfigWithCA (gostr "broker") (gostr "ca.pem") false =
    Some (inr (mkTlsConfig (gostr "broker") VersionTLS12 false (Some [7; 9])))) by (vm_compute; reflexivity).
  split; [exact E|]. rewrite E in Hr. injection Hr as <-. destruct Hs as (_ & data & bs & roots & H1 & H2 & H3 & H4 & [= <-]).
  exists data, bs, [7; 9]. done.
Defined.

(** C19.  The scheme decides the security of a connection, and no dial loosens it.
    An unsupported scheme opens no socket.  A connection without TLS is returned
    for a plain scheme only, and is preceded by a warning when a TLS
    configuration was set.  A connection with TLS comes from a handshake under
    the configured roots, minimum version and verification, or under TLS 1.2 and
    full verification without a configuration, with the server name of the
    configuration or, if that is empty, the host of the URL.  When the dial
    fails, every socket it opened is closed. *)
Theorem dial_secures {Cert Conn} {HN : Network Cert Conn} (cfg : option (tlsConfig Cert)) (u : URL) :
  let '(r, events) := client_dial cfg u in
  match r with
  | inr (Plain conn) => scheme_tls (u_Scheme u) = Some false /\
      DialContext (dial_address false u) = inr conn /\ Opened conn ∈ events /\
      (is_Some cfg -> WarnTLSIgnored (u_Scheme u) ∈ events)
  | inr (Secure conn t) => scheme_tls (u_Scheme u) = Some true /\
      DialContext (dial_address true u) = inr conn /\ HandshakeContext conn t = None /\
      ServerName t = match cfg with Some t0 => if bool_decide (ServerName t0 = []) then u_Hostname u else ServerName t0
                                  | None => u_Hostname u end /\
      match cfg with
      | Some t0 => RootCAs t = RootCAs t0 /\ MinVersion t = MinVersion t0 /\ InsecureSkipVerify t = InsecureSkipVerify t0
      | None => RootCAs t = None /\ MinVersion t = VersionTLS12 /\ InsecureSkipVerify t = false
      end
  | inl err => (scheme_tls (u_Scheme u) = None -> events = []) /\ forall conn, Opened conn ∈ events -> Closed conn ∈ events
  end.
Proof.
  unfold client_dial. destruct (scheme_tls (u_Scheme u)) as [[]|]; [..|split; [done|set_solver]].
  - simpl. destruct (DialContext (dial_address true u)) as [err|conn] eqn:Hd; [split; [done|set_solver]|].
    destruct (HandshakeContext conn (dial_config cfg u)) as [err|] eqn:Hh; [split; [done|set_solver]|].
    split_and!; try done; unfold dial_config; destruct cfg as [t0|]; simpl; try done; by case_bool_decide.
  - cbn [negb andb]. destruct (DialContext (dial_address false u)) as [err|conn] eqn:Hd.
    + split; [done|]. destruct (is_some cfg); set_solver.
    + split_and!; [done|done|set_solver|]. intros [t ->]. simpl. set_solver.
Qed.

(** The dialled address is the host of the URL with a port: read back, it
    gives the host name of the URL and its port, or 1883 for a plain scheme and
    8883 for TLS when the URL has none; IPv6 literals are bracketed. *)
Theorem dial_address_roundtrip (tls : bool) (u : URL) :
  strip_brackets (u_Hostname u) = u_Hostname u ->
  splitHostPort (dial_address tls u) =
    (u_Hostname u, if bool_decide (u_Port u = []) then defaultPort tls else u_Port u).
Proof.
  intros Hb. unfold dial_address. case_bool_decide as Hp.
  - apply split_join; [by destruct tls|by right].
  - unfold u_Hostname, u_Port. by destruct (splitHostPort (u_Host u)).
Qed.

Lemma dial_address_roundtrip_witness :
  dial_address true (mkURL (gostr "tls") (gostr "[::1]")) = gostr "[::1]:8883" /\
  splitHostPort (dial_address true (mkURL (gostr "tls") (gostr "[::1]"))) = (gostr "::1", gostr "8883").
Proof.
  split; [reflexivity|]. exact (dial_address_roundtrip true (mkURL (gostr "tls") (gostr "[::1]")) eq_refl).
Defined.
