(* ===== verification/Wellformed.v ===== *)
(** Well-formed clients: the invariant of the whole [TCPClient] object that every
    operation keeps, whichever goroutine runs it.

    A small logic of commands ([upholds]) carries the invariant through the
    statements of the source; its rules are in the hint database [client]. *)

From S2P Require Import Prelude GoStrings Codes Wire WireFacts Props PropsFacts PublishPackets ControlPackets.
From S2P Require Import SubscribePackets Topic SessionStore Errors IdAllocator Quota Subscriptions Lifecycle.
From S2P Require Import Client Pump Requests Connection ClientFacts.
From stdpp Require Import options.

(** * The invariant *)

(** What a link and its socket have to do with each other: a stopped link has a
    closed socket, and what was written after the CONNECT is within the broker's
    Maximum Packet Size, when it announced one. *)
Record wf_socket (lk : link) (cn : conn) : Prop := {
  ws_closed : l_stop lk = true -> cn_closed cn = true;
  ws_frames : exists connect frames, cn_w cn = connect :: frames /\
    (l_outboundMax lk <> 0 -> Forall (fun f => len f <= l_outboundMax lk) frames)
}.

Record wf_client {St} (c : client St) : Prop := {
  wc_ids : wf_ids (c_ids c);
  wc_socket l lk : c_links c !! l = Some lk -> exists cn, c_conns c !! l_conn lk = Some cn /\ wf_socket lk cn;
  wc_inj l l' lk lk' : c_links c !! l = Some lk -> c_links c !! l' = Some lk' -> l_conn lk = l_conn lk' -> l = l';
  wc_link l : c_link c = Some l -> exists lk, c_links c !! l = Some lk /\ l_stop lk = false;
  wc_waiter id w : c_waiters c !! id = Some w -> (w_ch w < c_nextCh c)%nat /\ c_chans c !! w_ch w = None;
  wc_owner id id' w w' : c_waiters c !! id = Some w -> c_waiters c !! id' = Some w' -> w_ch w = w_ch w' -> id = id';
  wc_chan ch r : c_chans c !! ch = Some r -> (ch < c_nextCh c)%nat
}.

(** Well-formed, and the links [L] exist. *)
Definition good {St} (L : list nat) (c : client St) : Prop :=
  wf_client c /\ forall l, l ∈ L -> is_Some (c_links c !! l).

Definition upholds {St A} (L : list nat) (m : cmd St A) : Prop := forall c, good L c -> good L (m c).2.

(** Frames are far below the range of the size check. *)
Definition sized (encode : list Z -> res (list Z)) : Prop := forall buf, encode [] = Ok buf -> in_u32 (len buf).

(** The application's handlers, and what other goroutines do while they run,
    keep the client well formed and its links allocated. *)
Class Handlers (St : Type) {HE : Environment St} : Prop := {
  callback_good (L : list nat) h m (c : client St) : good L c -> good L (callback h m c)
}.

(** ** The size of a frame *)

Definition small (r : res (list Z)) : Prop := forall buf, r = Ok buf -> in_u32 (len buf).

Lemma small_Err e : small (Err e).
Proof. done. Qed.
Lemma small_bind {A} (m : res A) (f : A -> res (list Z)) : (forall a, small (f a)) -> small (m ≫= f).
Proof. intros Hf. destruct m as [a|e]; [apply Hf|done]. Qed.
Lemma small_writePacket h body : small (writePacket [] h body).
Proof.
  intros buf Hw. apply writePacket_inv in Hw as [Hb ->]. unfold packet_bytes, maxVarint in *. simpl.
  pose proof (length_vbytes (len body)) as Hv. rewrite length_app, Nat2Z.inj_succ, Nat2Z.inj_add, Hv by (unfold maxVarint; lia).
  unfold varintLen, in_u32. repeat case_match; lia.
Qed.

Ltac small_steps :=
  repeat first [apply small_Err | apply small_writePacket | apply small_bind; intros ?
               | match goal with |- small (match ?x with _ => _ end) => destruct x end].

Lemma sized_publish p : sized (PublishPacket_Encode p).
Proof. change (small (PublishPacket_Encode p [])). unfold PublishPacket_Encode. small_steps. Qed.
Lemma sized_ack p : sized (AckPacket_EncodeAck p).
Proof. change (small (AckPacket_EncodeAck p [])). unfold AckPacket_EncodeAck. small_steps. Qed.
Lemma sized_disconnect p : sized (DisconnectPacket_Encode p).
Proof. change (small (DisconnectPacket_Encode p [])). unfold DisconnectPacket_Encode. small_steps. Qed.
Lemma sized_subscribe p : sized (SubscribePacket_Encode p).
Proof. change (small (SubscribePacket_Encode p [])). unfold SubscribePacket_Encode. small_steps. Qed.
Lemma sized_unsubscribe p : sized (UnsubscribePacket_Encode p).
Proof. change (small (UnsubscribePacket_Encode p [])). unfold UnsubscribePacket_Encode. small_steps. Qed.
Lemma sized_ping : sized EncodePingReq.
Proof. change (small (EncodePingReq [])). unfold EncodePingReq. small_steps. Qed.

Section upholds.
Context {St : Type} {HS : SessionStore St} {HC : ContainsStore St} {HE : Environment St}.
Implicit Types c : client St.

Lemma upholds_ret L {A} (a : A) : upholds L (mret a : cmd St A).
Proof. by intros c. Qed.
Lemma upholds_skip L : upholds L (skip : cmd St unit).
Proof. by intros c. Qed.
Lemma upholds_gets L {A} (f : client St -> A) : upholds L (gets f).
Proof. by intros c. Qed.
Lemma upholds_upd L f : (forall c, good L c -> good L (f c)) -> upholds L (upd f).
Proof. intros Hf c. apply Hf. Qed.
Lemma upholds_bind L {A B} (m : cmd St A) (f : A -> cmd St B) :
  upholds L m -> (forall a, upholds L (f a)) -> upholds L (m ≫= f).
Proof. intros Hm Hf c Hc. rewrite cmd_bind_eq. specialize (Hm c Hc). destruct (m c) as [a c1]. by apply Hf. Qed.

(** ** Fields *)

(** Nothing but other fields changes. *)
Lemma good_fields L c c' : c_ids c' = c_ids c -> c_links c' = c_links c -> c_conns c' = c_conns c -> c_link c' = c_link c ->
  c_waiters c' = c_waiters c -> c_chans c' = c_chans c -> c_nextCh c' = c_nextCh c -> good L c -> good L c'.
Proof.
  intros H1 H2 H3 H4 H5 H6 H7 [[Hi Hs Hj Hl Hw Ho Hc] HL]. unfold good. rewrite H2. split; [|done].
  split; rewrite ?H1, ?H2, ?H3, ?H4, ?H5, ?H6, ?H7; done.
Qed.

(** Only the allocator changes. *)
Lemma good_ids L c a : wf_ids a -> good L c -> good L (set_ids a c).
Proof. intros Ha [[Hi Hs Hj Hl Hw Ho Hc] HL]. by split; [split|]. Qed.

Lemma wf_release id g a : wf_ids a -> wf_ids (idAllocator_ReleaseAt id g a).
Proof.
  intros Ha. unfold idAllocator_ReleaseAt. destruct (Z.eqb_spec id 0); [done|]. destruct (g =? gen a); [|done].
  assert (Hw := word_nonneg a id Ha). destruct Ha as [Hl Hn Hx Hz]. split; simpl; [by rewrite length_insert| |done|].
  - apply Forall_insert; [done|]. apply Z.ldiff_nonneg. by left.
  - revert Hz. unfold in_use. cbn [used]. unfold word_at. destruct (decide (word_of id = word_of 0)) as [E|E].
    + rewrite E. destruct (decide (word_of 0 < length (used a))%nat) as [Hlt|Hge].
      * rewrite list_lookup_insert_eq by done. cbn [from_option Datatypes.id]. rewrite Z.ldiff_spec. by intros ->.
      * by rewrite list_insert_ge by lia.
    + by rewrite list_lookup_insert_ne by done.
Qed.

Lemma good_release L c id g : good L c -> good L (ids_ReleaseAt id g c).
Proof. intros Hc. apply good_ids; [apply wf_release, Hc|done]. Qed.

Lemma wf_acquire a : wf_ids a -> wf_ids (idAllocator_Acquire a).2.
Proof.
  intros Ha. pose proof (Acquire_spec a Ha) as H. destruct (idAllocator_Acquire a) as [[id g|g] a']; [|apply H].
  destruct H as (_ & -> & Hid & _). apply wf_marked; [done|unfold in_u16; lia|lia].
Qed.

(** ** Links and sockets *)

(** A link changes in fields other than its socket, its limit and its stop
    flag. *)
Lemma good_upd_link L c l f : l ∈ L -> (forall k, l_conn (f k) = l_conn k) -> (forall k, l_stop (f k) = l_stop k) ->
  (forall k, l_outboundMax (f k) = l_outboundMax k) -> good L c -> good L (upd_link l f c).
Proof.
  intros HlL Hcn Hst Hmx [[Hi Hs Hj Hl Hw Ho Hc] HL]. destruct (HL l HlL) as [lk Hlk].
  assert (Hthe : the_link c l = lk) by (by apply lookup_total_correct).
  split; [split; try done; csimp; rewrite Hthe|].
  - intros l' lk' [[<- <-]|[_ Hx]]%lookup_insert_Some; [|by apply Hs in Hx].
    destruct (Hs l lk Hlk) as (cn & Hk & [Hcl Hfr]). exists cn. rewrite Hcn. split; [done|]. split; rewrite ?Hst, ?Hmx; done.
  - intros l1 l2 k1 k2 [[<- <-]|[_ H1]]%lookup_insert_Some [[<- <-]|[_ H2]]%lookup_insert_Some; rewrite ?Hcn; try done; intros E.
    + by eapply Hj.
    + by eapply Hj.
    + by eapply Hj.
  - intros l' Hl'. destruct (Hl l' Hl') as (k & Hk & Hk0). destruct (decide (l = l')) as [<-|Hne].
    + exists (f lk). rewrite lookup_insert_eq, Hst. split; [done|]. congruence.
    + exists k. by rewrite lookup_insert_ne.
  - intros l' Hl'. csimp. rewrite lookup_insert_is_Some'. right. by apply HL.
Qed.

(** A socket changes: what a link requires of it stays. *)
Lemma good_upd_conn L c k f :
  (forall l lk cn, c_links c !! l = Some lk -> c_conns c !! k = Some cn -> l_conn lk = k -> wf_socket lk cn -> wf_socket lk (f cn)) ->
  good L c -> good L (upd_conn k f c).
Proof.
  intros Hf [[Hi Hs Hj Hl Hw Ho Hc] HL]. split; [|done]. split; try done. csimp.
  intros l lk Hlk. destruct (Hs l lk Hlk) as (cn & Hcn & Hws). destruct (decide (l_conn lk = k)) as [E|E].
  - rewrite E in *. exists (f cn). rewrite lookup_insert_eq. split; [|by eapply Hf]. by rewrite (lookup_total_correct _ _ _ Hcn).
  - exists cn. by rewrite lookup_insert_ne.
Qed.

(** ** Waiters *)

Lemma chan_send_lt ch r chans n : (ch < n)%nat -> (forall k x, chans !! k = Some x -> (k < n)%nat) ->
  forall k x, chan_send ch r chans !! k = Some x -> (k < n)%nat.
Proof.
  intros Hch Hc k x. rewrite chan_send_spec. case_decide; [by subst|apply Hc].
Qed.

Lemma good_failAll_chans c : wf_client c ->
  forall ch r, c_chans (failAllWaiters c) !! ch = Some r -> (ch < c_nextCh c)%nat.
Proof.
  intros [_ _ _ _ Hw _ Hc]. unfold failAllWaiters. csimp. revert Hw. generalize (c_waiters c) as ws.
  intros ws. revert ws.
  refine (map_fold_weak_ind (fun r ws => (forall id w, ws !! id = Some w -> (w_ch w < c_nextCh c)%nat /\ c_chans c !! w_ch w = None) ->
    forall ch x, r !! ch = Some x -> (ch < c_nextCh c)%nat) _ _ _ _).
  - intros _. exact Hc.
  - intros id w ws r Hid IH Hws ch x. apply chan_send_lt.
    + apply (Hws id w). by rewrite lookup_insert_eq.
    + apply IH. intros id' w' Hw'. apply (Hws id'). rewrite lookup_insert_ne; [done|]. congruence.
Qed.

Lemma good_register L c id want : good L c -> good L (registerWaiter id want c).2.
Proof.
  intros [[Hi Hs Hj Hl Hw Ho Hc] HL]. unfold registerWaiter. simpl. split; [|done]. split; try done; csimp.
  - intros id' w [[<- <-]|[_ Hx]]%lookup_insert_Some; simpl.
    + split; [lia|]. apply eq_None_not_Some. intros [r Hr%Hc]. lia.
    + destruct (Hw _ _ Hx). split; [lia|done].
  - intros id1 id2 w1 w2 [[<- <-]|[_ H1]]%lookup_insert_Some [[<- <-]|[_ H2]]%lookup_insert_Some; simpl; try done; intros E.
    + destruct (Hw _ _ H2). lia.
    + destruct (Hw _ _ H1). lia.
    + by eapply Ho.
  - intros ch r Hr. specialize (Hc ch r Hr). lia.
Qed.

Lemma good_remove L c id ch : good L c -> good L (removeWaiter id ch c).
Proof.
  intros [[Hi Hs Hj Hl Hw Ho Hc] HL]. unfold removeWaiter. destruct (c_waiters c !! id) as [w|]; [|by split].
  destruct (_ =? _)%nat; [|by split]. split; [|done]. split; try done; csimp.
  - intros id' w' [_ Hx]%lookup_delete_Some. by eapply Hw.
  - intros id1 id2 w1 w2 [_ H1]%lookup_delete_Some [_ H2]%lookup_delete_Some. by eapply Ho.
Qed.

Lemma good_signal L c id got r : good L c -> good L (signalWaiter id got r c).2.
Proof.
  intros [[Hi Hs Hj Hl Hw Ho Hc] HL]. unfold signalWaiter. destruct (c_waiters c !! id) as [w|] eqn:Hid; [|by split].
  case_bool_decide; [|by split]. split; [|done]. split; try done; cbn [snd]; csimp.
  - intros id' w' [Hne Hx]%lookup_delete_Some. destruct (Hw _ _ Hx) as [Hlt Hn]. split; [done|].
    rewrite chan_send_spec, decide_False; [done|]. intros E. apply Hne. by eapply Ho.
  - intros id1 id2 w1 w2 [_ H1]%lookup_delete_Some [_ H2]%lookup_delete_Some. by eapply Ho.
  - apply chan_send_lt; [by eapply Hw|done].
Qed.

(** A call takes the result out of its channel. *)
Lemma good_receive L c ch : good L c -> good L (set_chans (delete ch (c_chans c)) c).
Proof.
  intros [[Hi Hs Hj Hl Hw Ho Hc] HL]. split; [|done]. split; try done; csimp.
  - intros id w Hx. destruct (Hw _ _ Hx) as [Hlt Hn]. split; [done|]. apply lookup_delete_None. by right.
  - intros k r [_ Hx]%lookup_delete_Some. by eapply Hc.
Qed.

(** ** Teardown and writes *)

Lemma teardown_nextCh l g c : c_nextCh (teardownLink l g c) = c_nextCh c.
Proof. unfold teardownLink. destruct (isStopping l c); [done|]. destruct (negb _); [done|]. by destruct (negb g). Qed.

Lemma good_teardown L c l g : l ∈ L -> good L c -> good L (teardownLink l g c).
Proof.
  intros HlL [Hwf HL]. destruct (HL l HlL) as [lk Hlk]. destruct (isStopping l c) eqn:Hst; [by rewrite teardown_idem|].
  assert (Hthe : the_link c l = lk) by (by apply lookup_total_correct).
  destruct (teardown_links l g c Hst) as [El Ek]. rewrite Hthe in El, Ek. pose proof (teardown_same l g c) as Hss.
  assert (Hchans := good_failAll_chans c Hwf). destruct Hwf as [Hi Hs Hj Hl Hw Ho Hc].
  destruct (Hs l lk Hlk) as (cn & Hcn & [Hcl Hfr]).
  assert (Hthc : the_conn c l = cn) by (unfold the_conn; rewrite Hthe; by apply lookup_total_correct). rewrite Hthc in Ek.
  split; [split|].
  - by rewrite (ss_ids _ _ Hss).
  - rewrite El, Ek. intros l' lk' [[<- <-]|[Hne Hx]]%lookup_insert_Some.
    + exists (set_cn_closed true cn). split; [by rewrite lookup_insert_eq|]. by split.
    + destruct (Hs l' lk' Hx) as (cn' & Hcn' & Hws). exists cn'. split; [|done]. rewrite lookup_insert_ne; [done|].
      intros E. apply Hne. by eapply Hj.
  - rewrite El. intros l1 l2 k1 k2 [[<- <-]|[_ H1]]%lookup_insert_Some [[<- <-]|[_ H2]]%lookup_insert_Some; simpl; try done; intros E;
      by eapply Hj.
  - rewrite El. intros l' Hl'. destruct (decide (c_link c = Some l)) as [E|E].
    + destruct (teardown_current l g c Hst E) as (E' & _). congruence.
    + destruct (teardown_other l g c E) as (E' & _). rewrite E' in Hl'. rewrite lookup_insert_ne by congruence. by apply Hl.
  - rewrite teardown_nextCh. destruct (decide (c_link c = Some l)) as [E|E].
    + destruct (teardown_current l g c Hst E) as (_ & _ & -> & _). intros id w. by rewrite lookup_empty.
    + destruct (teardown_other l g c E) as (_ & _ & -> & -> & _). done.
  - destruct (decide (c_link c = Some l)) as [E|E].
    + destruct (teardown_current l g c Hst E) as (_ & _ & -> & _). intros id id' w w'. by rewrite lookup_empty.
    + destruct (teardown_other l g c E) as (_ & _ & -> & _). done.
  - rewrite teardown_nextCh. destruct (decide (c_link c = Some l)) as [E|E].
    + destruct (teardown_current l g c Hst E) as (_ & _ & _ & -> & _). done.
    + destruct (teardown_other l g c E) as (_ & _ & _ & -> & _). done.
  - rewrite El. intros l' Hl'. rewrite lookup_insert_is_Some'. right. by apply HL.
Qed.

Lemma upholds_writeFrame L l encode : l ∈ L -> sized encode -> upholds L (writeFrame (Some l) encode).
Proof.
  intros HlL Hsz c Hc. simpl. destruct (encode []) as [buf|e] eqn:He; [|done]. specialize (Hsz buf He).
  rewrite cmd_bind_eq. unfold gets. destruct (negb _ && _) eqn:Hmax; [done|]. rewrite !cmd_bind_eq.
  unfold conn_write. destruct (negb (cn_closed _) && _) eqn:Hw.
  - simpl. destruct Hc as [Hwf HL]. destruct (HL l HlL) as [lk Hlk].
    assert (Hthe : the_link c l = lk) by (by apply lookup_total_correct). rewrite Hthe in *.
    destruct (wc_socket c Hwf l lk Hlk) as (cn & Hcn & Hws). assert (Htot : c_conns c !!! l_conn lk = cn) by (by apply lookup_total_correct).
    rewrite Htot. apply (good_upd_conn L c (l_conn lk) (set_cn_w (cn_w cn ++ [buf]))); [|by split].
    intros l' lk' cn' Hl' Hcn' Ek [Hcl (connect & frames & Hfr & Hle)].
    assert (l' = l) as -> by (by eapply (wc_inj c Hwf)). assert (lk' = lk) as -> by congruence. assert (cn' = cn) as -> by congruence.
    split; [done|]. exists connect, (frames ++ [buf]). csimp. rewrite Hfr. split; [done|]. intros Hm. apply Forall_app. split; [by apply Hle|].
    constructor; [|done]. apply andb_false_iff in Hmax as [Hz|Hgt].
    + apply negb_false_iff, Z.eqb_eq in Hz. congruence.
    + rewrite u32_id in Hgt by done. rewrite Z.gtb_ltb in Hgt. apply Z.ltb_ge in Hgt. done.
  - rewrite cmd_bind_eq. simpl. by apply good_teardown.
Qed.

Lemma upholds_bare {A} (a : A) L f : (forall c, good L c -> good L (f c)) -> upholds L (fun c => (a, f c)).
Proof. intros Hf c. apply Hf. Qed.
End upholds.

#[export] Hint Resolve upholds_ret upholds_skip upholds_gets upholds_writeFrame good_teardown good_register good_remove good_signal good_receive
  good_release good_ids sized_publish sized_ack sized_disconnect sized_subscribe sized_unsubscribe sized_ping : client.

(** Walk through a command: statements, branches, returns. *)
Ltac uphold_step :=
  lazymatch goal with
  | |- upholds _ (_ ≫= _) => apply upholds_bind; [|intros ?]
  | |- upholds _ (match ?x with _ => _ end) => destruct x
  | |- upholds _ (upd _) => apply upholds_upd; intros ? ?
  | |- upholds _ _ => solve [eauto with client]
  | |- good _ (upd_link _ _ _) => apply good_upd_link; [eauto with client|done..|done]
  | |- good _ _ => first [solve [eauto with client] | solve [eapply good_fields; [..|eassumption]; reflexivity]]
  end.
Ltac uphold := repeat uphold_step.

Section operations.
Context {St : Type} {HS : SessionStore St} {HC : ContainsStore St} {HE : Environment St} {HH : Handlers St}.
Implicit Types c : client St.
Set Default Proof Using "Type*".

Lemma upholds_sendAckReason L l t id rc : l ∈ L -> upholds L (sendAckReason (St := St) l t id rc).
Proof. intros Hl. unfold sendAckReason. uphold. Qed.
Hint Resolve upholds_sendAckReason : client.

Lemma upholds_protocolError L l rc : l ∈ L -> upholds L (protocolError (St := St) l rc).
Proof. intros Hl. unfold protocolError. uphold. Qed.
Hint Resolve upholds_protocolError : client.

Lemma upholds_signalWaiter L id got r : upholds L (signalWaiter (St := St) id got r).
Proof. intros c. apply good_signal. Qed.
Hint Resolve upholds_signalWaiter : client.

Lemma good_dispatch L msg c : good L c -> good L (client_dispatch msg c).
Proof.
  unfold client_dispatch. generalize (dispatch msg (c_table c)).1. intros hs. revert c.
  induction hs as [|h hs IH]; intros c Hc; [done|]. simpl. apply IH. unfold call_handler. apply callback_good.
  by eapply good_fields; [..|exact Hc].
Qed.
Hint Resolve good_dispatch : client.

(** ** The read loop and the keep-alive loop *)

Lemma upholds_resolveTopicAlias L l pub : l ∈ L -> upholds L (resolveTopicAlias (St := St) l pub).
Proof. intros Hl. unfold resolveTopicAlias. uphold. Qed.
Hint Resolve upholds_resolveTopicAlias : client.

Lemma upholds_handlePublish L l frame : l ∈ L -> upholds L (handlePublish l frame).
Proof. intros Hl. unfold handlePublish, handleInboundQoS2, sendAck. uphold. Qed.

Lemma upholds_handleInboundPubrel L l frame : l ∈ L -> upholds L (handleInboundPubrel (St := St) l frame).
Proof. intros Hl. unfold handleInboundPubrel, sendAck. uphold. Qed.

Lemma upholds_completeOutbound L l id kind r : l ∈ L -> upholds L (completeOutbound (St := St) l id kind r).
Proof. intros Hl. unfold completeOutbound. uphold. Qed.

Lemma upholds_handlePubrec L l ack reason : l ∈ L -> upholds L (handlePubrec (St := St) l ack reason).
Proof. intros Hl. unfold handlePubrec, sendAck. uphold. Qed.
Hint Resolve upholds_completeOutbound upholds_handlePubrec : client.

Lemma upholds_handleAck L l frame t : l ∈ L -> upholds L (handleAck (St := St) l frame t).
Proof. intros Hl. unfold handleAck. uphold. Qed.
Hint Resolve upholds_handlePublish upholds_handleInboundPubrel upholds_handleAck : client.

Lemma upholds_handleFrame L l frame : l ∈ L -> upholds L (handleFrame l frame).
Proof. intros Hl. unfold handleFrame, handleSuback, handleUnsuback, handleServerDisconnect. uphold. Qed.
Hint Resolve upholds_handleFrame : client.

(** Reading from a socket. *)
Lemma good_read L c k r : good L c -> good L (upd_conn k (set_cn_r r) c).
Proof. apply good_upd_conn. intros l lk cn _ _ _ [Hc Hf]. by split. Qed.
Hint Resolve good_read : client.

Lemma upholds_readLoop_turn L l : l ∈ L -> upholds L (readLoop_turn l).
Proof. intros Hl. unfold readLoop_turn. uphold. Qed.

Lemma upholds_keepAlive L l : l ∈ L -> upholds L (keepAliveLoop_tick (St := St) l).
Proof. intros Hl. unfold keepAliveLoop_tick. uphold. Qed.

(** ** Publish, Subscribe and Unsubscribe *)

Lemma good_acquire L c : good L c -> good L (set_ids (idAllocator_Acquire (c_ids c)).2 c).
Proof. intros Hc. apply good_ids; [apply wf_acquire, Hc|done]. Qed.

#[local] Strategy opaque [idAllocator_Acquire].

Lemma upholds_pub_step L l pkt ev pc : l ∈ L -> upholds L (pub_step (St := St) l pkt ev pc).
Proof.
  intros Hl c Hc. destruct pc as [|w|qg|qg id ig|qg id ig|qg id ig ch|qg id ig ch err|qg id ig err|qg id ig err|qg id ig err|qg err|id ch|id ch err|err];
    cbn [pub_step]; try (by eapply good_fields; [..|exact Hc]).
  - destruct (quota_acquire_turn _) as [[g|g|w] q]; by eapply good_fields; [..|exact Hc].
  - by destruct ev.
  - pose proof (good_acquire L c Hc) as Ha. by destruct (idAllocator_Acquire (c_ids c)) as [[id g|g] a].
  - destruct (Save _ _); by eapply good_fields; [..|exact Hc].
  - apply (good_register L c id ackClassPublish Hc).
  - pose proof (upholds_writeFrame L l (PublishPacket_Encode (with_PacketID id pkt)) Hl (sized_publish _) c Hc) as Hw.
    by destruct (writeFrame _ _ c) as [[e|] c1].
  - by apply good_remove.
  - by apply good_release.
  - destruct ev; simpl; try done; destruct (c_chans c !! ch); simpl; try done; by apply good_receive.
  - by apply good_remove.
Qed.

Lemma upholds_req_step L l packet want mk ev pc : l ∈ L -> (forall id, sized (mk id)) ->
  upholds L (req_step (St := St) l packet want mk ev pc).
Proof.
  intros Hl Hmk c Hc. destruct pc as [|id g|id g ch|id g ch|id g ch err|id g out|out]; cbn [req_step].
  - pose proof (good_acquire L c Hc) as Ha. by destruct (idAllocator_Acquire (c_ids c)) as [[id g|g] a].
  - apply (good_register L c id want Hc).
  - pose proof (upholds_writeFrame L l (mk id) Hl (Hmk id) c Hc) as Hw. by destruct (writeFrame _ _ c) as [[e|] c1].
  - destruct ev; simpl; try done; destruct (c_chans c !! ch); simpl; try done; by apply good_receive.
  - by apply good_remove.
  - by apply good_release.
  - done.
Qed.

Lemma good_table L c t : good L c -> good L (set_table t c).
Proof. intros Hc. by eapply good_fields; [..|exact Hc]. Qed.

Lemma upholds_subscribe_step L l f o subID h ev pc : l ∈ L -> upholds L (subscribe_step (St := St) l f o subID h ev pc).
Proof.
  intros Hl c Hc. unfold subscribe_step. destruct pc as [|prev|prev token pc|prev token err|out]; try done.
  - destruct (addSubscription _ _ _ _ _). by apply good_table.
  - assert (Hr := upholds_req_step L l "SUBSCRIBE" ackClassSuback
      (fun id => SubscribePacket_Encode (subscribePacket (c_version c) f o subID id)) ev pc Hl (fun id => sized_subscribe _) c Hc).
    destruct pc as [| | | | | |[err|r]]; try done; by destruct (req_step _ _ _ _ _ _ _).
  - by apply good_table.
Qed.

Lemma upholds_unsubscribe_step L l f ev pc : l ∈ L -> upholds L (unsubscribe_step (St := St) l f ev pc).
Proof.
  intros Hl c Hc. unfold unsubscribe_step. destruct pc as [|snap pc|e]; try done.
  assert (Hr := upholds_req_step L l "UNSUBSCRIBE" ackClassUnsuback
      (fun id => UnsubscribePacket_Encode (mkUnsubscribe (c_version c) id [f] None)) ev pc Hl (fun id => sized_unsubscribe _) c Hc).
  destruct snap, pc as [| | | | | |[err|r]]; try done; try (by destruct (req_step _ _ _ _ _ _ _)). by apply good_table.
Qed.

Lemma upholds_awaitResubscribe L ev pc : upholds L (awaitResubscribe_step (St := St) ev pc).
Proof.
  intros c Hc. destruct pc as [id g ch|id g ch|id g|]; cbn [awaitResubscribe_step].
  - destruct ev; simpl; try done; destruct (c_chans c !! ch); simpl; try done; by apply good_receive.
  - by apply good_remove.
  - by apply good_release.
  - done.
Qed.

(** ** Connect and Disconnect *)

Lemma good_weaken L L' c : L ⊆ L' -> good L' c -> good L c.
Proof. intros Hs [Hw HL]. split; [done|]. intros l Hl. by apply HL, Hs. Qed.

Lemma sized_replay v m encode : replay_encoder v m = Some encode -> sized encode.
Proof.
  unfold replay_encoder. repeat case_match; intros [= <-]; [apply sized_publish|apply sized_ack].
Qed.

Lemma upholds_replaySession L l : l ∈ L -> upholds L (replaySession (St := St) l).
Proof.
  intros Hl. unfold replaySession. uphold_step; [apply upholds_gets|]. destruct a as [msgs|]; [|apply upholds_skip].
  induction msgs as [|m msgs IH]; [apply upholds_skip|]. cbn [replaySession_loop]. uphold_step; [apply upholds_gets|].
  uphold_step; [|exact IH]. destruct (replay_encoder a m) as [encode|] eqn:E; [|apply upholds_ret].
  apply upholds_writeFrame; [done|by eapply sized_replay].
Qed.

Lemma upholds_replaySubscriptions L l : l ∈ L -> upholds L (replaySubscriptions (St := St) l).
Proof.
  intros Hl. unfold replaySubscriptions. uphold_step; [apply upholds_gets|]. induction a as [|s subs IH]; [apply upholds_ret|].
  cbn [replaySubscriptions_loop]. uphold_step.
  - intros c Hc. pose proof (good_acquire L c Hc) as Ha. by destruct (idAllocator_Acquire (c_ids c)) as [r a].
  - destruct a as [id g|g]; [|exact IH]. uphold_step; [intros c; apply good_register|]. uphold_step; [apply upholds_gets|].
    uphold_step; [apply upholds_writeFrame; [done|apply sized_subscribe]|]. destruct a1 as [err|].
    + uphold_step; [uphold|]. uphold_step; [uphold|]. exact IH.
    + uphold_step; [exact IH|apply upholds_ret].
Qed.

(** A socket no link refers to. *)
Definition unlinked (k : nat) c : Prop := forall l lk, c_links c !! l = Some lk -> l_conn lk <> k.

Lemma good_unlinked L c k f : unlinked k c -> good L c -> good L (upd_conn k f c) /\ unlinked k (upd_conn k f c).
Proof.
  intros Hu Hc. split; [|exact Hu]. apply good_upd_conn; [|done]. intros l lk cn Hl _ E. by destruct (Hu l lk Hl).
Qed.

Lemma good_applySession L c r : good L c -> good L (applySession r c).
Proof.
  intros Hc. unfold applySession. set (c1 := if resetsSession r c then _ else c).
  assert (H1 : good L c1).
  { unfold c1. destruct (resetsSession r c); [|done]. apply good_ids; [apply wf_Reset_ids|]. by eapply good_fields; [..|exact Hc]. }
  clearbody c1. by eapply good_fields; [..|exact H1].
Qed.

(** A new link on a socket that carries the CONNECT only. *)
Lemma good_newLink L c k r cn connect : c_conns c !! k = Some cn -> cn_w cn = [connect] -> unlinked k c -> good L c ->
  let l := fresh (dom (c_links c)) in good (l :: L) (set_links (<[l := newLink k r c]> (c_links c)) c).
Proof.
  intros Hk Hw1 Hu [[Hi Hs Hj Hl Hw Ho Hc] HL] l.
  assert (Hn : c_links c !! l = None) by (apply not_elem_of_dom, is_fresh).
  split; [split; try done; csimp|].
  - intros l' lk' [[<- <-]|[_ Hx]]%lookup_insert_Some; [|by apply Hs in Hx].
    exists cn. split; [done|]. split; [done|]. exists connect, []. split; [done|]. intros _. constructor.
  - intros l1 l2 k1 k2 [[<- <-]|[_ H1]]%lookup_insert_Some [[<- <-]|[_ H2]]%lookup_insert_Some; cbn [l_conn newLink]; try done; intros E.
    + symmetry in E. by destruct (Hu _ _ H2).
    + by destruct (Hu _ _ H1).
    + by eapply Hj.
  - intros l' Hl'. destruct (Hl l' Hl') as (lk & Hlk & Hst). exists lk. rewrite lookup_insert_ne; [done|]. congruence.
  - intros l' [->|Hl']%elem_of_cons; csimp; rewrite lookup_insert_is_Some'; [by left|right; by apply HL].
Qed.

Lemma good_set_link L c l : is_Some (c_links c !! l) -> isStopping l c = false -> good L c -> good L (set_link (Some l) c).
Proof.
  intros [lk Hlk] Hst [[Hi Hs Hj Hl Hw Ho Hc] HL]. split; [|done]. split; try done. csimp. intros l' [= <-].
  exists lk. split; [done|]. unfold isStopping, the_link in Hst. by rewrite (lookup_total_correct _ _ _ Hlk) in Hst.
Qed.

Lemma good_establish L c k now ack cn connect : c_conns c !! k = Some cn -> cn_w cn = [connect] -> unlinked k c -> good L c ->
  good L (establish k now ack c).2.
Proof.
  intros Hk Hw1 Hu Hc. unfold establish. rewrite cmd_bind_eq. unfold gets at 1. set (l := fresh (dom (c_links c))).
  set (r := buildConnectResult ack). rewrite cmd_bind_eq. unfold upd at 1.
  pose proof (good_newLink L c k r cn connect Hk Hw1 Hu Hc) as H1. cbv zeta in H1. fold l in H1.
  set (c1 := set_links _ c) in *. clearbody c1. apply (good_weaken L (l :: L)); [set_solver|].
  assert (Hl : l ∈ l :: L) by apply list_elem_of_here.
  rewrite cmd_bind_eq. unfold upd at 1. apply (good_applySession _ _ r) in H1. set (c2 := applySession r c1) in *. clearbody c2.
  revert c2 H1. change (upholds (l :: L) (_ ← upd (captureGenerations l); _ ← replaySession l; awaiting ← replaySubscriptions l;
    stopping ← gets (isStopping l); if (stopping : bool) then mret (Some [ErrConnectionLost], awaiting)
    else _ ← upd (fun c => set_connectedAt (Some now) (set_link (Some l) (set_result (Some r) c))); mret (None, awaiting))).
  uphold_step; [uphold_step; unfold captureGenerations; by apply good_upd_link|].
  uphold_step; [by apply upholds_replaySession|]. uphold_step; [by apply upholds_replaySubscriptions|].
  intros c3 H3. rewrite cmd_bind_eq. unfold gets. destruct (isStopping l c3) eqn:Hst; [done|]. rewrite cmd_bind_eq. unfold upd.
  cbn [snd mret cmd_ret].
  apply (good_fields (l :: L) (set_link (Some l) (set_result (Some r) c3))); [reflexivity..|].
  apply (good_set_link (l :: L) (set_result (Some r) c3) l); [by apply H3|done|]. by eapply good_fields; [..|exact H3].
Qed.

(** A socket that no link refers to yet, with [n] frames written. *)
Definition pending_conn (L : list nat) (k n : nat) c : Prop :=
  good L c /\ unlinked k c /\ exists cn, c_conns c !! k = Some cn /\ length (cn_w cn) = n.

Lemma pending_upd L k n c f : (forall cn, length (cn_w (f cn)) = length (cn_w cn)) -> pending_conn L k n c ->
  pending_conn L k n (upd_conn k f c).
Proof.
  intros Hf (Hg & Hu & cn & Hk & Hn). destruct (good_unlinked L c k f Hu Hg) as [Hg' Hu']. split_and!; [done|done|].
  exists (f cn). csimp. rewrite lookup_insert_eq, (lookup_total_correct _ _ _ Hk), Hf. done.
Qed.

Lemma pending_write L k n c frame : pending_conn L k n c ->
  let '(ok, c') := conn_write k frame c in pending_conn L k (if ok then S n else n) c'.
Proof.
  intros Hp. unfold conn_write. destruct (negb _ && _); [|done]. destruct Hp as (Hg & Hu & cn & Hk & Hn).
  rewrite (lookup_total_correct _ _ _ Hk). destruct (good_unlinked L c k (set_cn_w (cn_w cn ++ [frame])) Hu Hg) as [Hg' Hu'].
  split_and!; [done|done|]. exists (set_cn_w (cn_w cn ++ [frame]) cn). csimp.
  rewrite lookup_insert_eq, (lookup_total_correct _ _ _ Hk). csimp. rewrite length_app. simpl. split; [done|lia].
Qed.

Lemma good_handshake L c d k : pending_conn L k 0 c ->
  let '(r, c') := handshake d k c in good L c' /\ forall ack, r = inr ack -> pending_conn L k 1 c'.
Proof.
  assert (Habandon : forall n c err, pending_conn L k n c ->
    let '(r, c') := ((_ ← upd (close_conn k); mret (inl err)) : cmd St (goerror + ConnackPacket)) c in
    good L c' /\ forall ack, r = inr ack -> pending_conn L k 1 c').
  { intros n c0 err Hp. split; [|done]. by apply (pending_upd L k n c0 (set_cn_closed true)). }
  assert (Hrefuse : forall c err, pending_conn L k 1 c ->
    let '(o, c') := refuseConnack (St := St) k err c in o = Some err /\ good L c').
  { intros c0 err Hp. unfold refuseConnack. rewrite cmd_bind_eq. unfold gets. rewrite cmd_bind_eq.
    assert (Hclose : forall n c1, pending_conn L k n c1 -> good L (close_conn k c1)) by
      (intros n c1 H1; by apply (pending_upd L k n c1 (set_cn_closed true))).
    destruct (c_version c0 =? V50); [|split; [done|by eapply Hclose]].
    destruct (DisconnectPacket_Encode _ _) as [frame|e]; [|split; [done|by eapply Hclose]].
    pose proof (pending_write L k 1 c0 frame Hp) as Hw. destruct (conn_write k frame c0) as [ok c1]. split; [done|by eapply Hclose]. }
  intros Hp. unfold handshake. rewrite cmd_bind_eq. unfold gets at 1.
  destruct (ConnectPacket_Encode _ _) as [frame|e]; [|by apply (Habandon 0%nat)].
  rewrite cmd_bind_eq. pose proof (pending_write L k 0 c frame Hp) as Hw. destruct (conn_write k frame c) as [[] c1];
    [|by apply (Habandon 0%nat)]. cbn [negb]. rewrite cmd_bind_eq. unfold gets at 1.
  destruct (ReadFrame _ _) as [[fr rest]|e]; [|by apply (Habandon 1%nat)]. rewrite cmd_bind_eq. unfold upd at 1.
  apply (pending_upd L k 1 c1 (set_cn_r rest)) in Hw; [|done]. set (c2 := upd_conn k _ c1) in *. clearbody c2.
  destruct (negb _); [by apply (Habandon 1%nat)|]. rewrite cmd_bind_eq. unfold gets at 1.
  destruct (DecodeConnack _ _) as [ack|e]; [|by apply (Habandon 1%nat)].
  destruct (ReasonCode_IsError _); [by apply (Habandon 1%nat)|]. rewrite cmd_bind_eq.
  destruct (validateConnackLimits _ _) as [err|].
  - specialize (Hrefuse c2 err Hw). destruct (refuseConnack k err c2) as [o c3]. destruct Hrefuse as [-> Hg]. by split.
  - rewrite cmd_bind_eq. unfold gets at 1. destruct (_ && _).
    + specialize (Hrefuse c2 [ProtocolErr ErrProtocolViolation] Hw). destruct (refuseConnack k _ c2) as [o c3].
      destruct Hrefuse as [-> Hg]. by split.
    + cbn [mret cmd_ret]. destruct (d_ctx d); [by apply (Habandon 1%nat)|]. split; [apply Hw|done].
Qed.

Lemma upholds_Connect L d : upholds L (client_Connect (St := St) d).
Proof.
  intros c Hc. unfold client_Connect. rewrite cmd_bind_eq. unfold gets at 1. destruct (c_link c); [done|].
  destruct (d_url d); [done|]. rewrite cmd_bind_eq. unfold gets at 1. destruct (validWill c); [|done].
  destruct (d_dial d); [done|]. rewrite cmd_bind_eq. unfold gets at 1. set (k := fresh (dom (c_conns c))).
  rewrite cmd_bind_eq. unfold upd at 1. set (c1 := set_conns _ c).
  assert (Hu : unlinked k c).
  { intros l lk Hl E. destruct (wc_socket c (proj1 Hc) l lk Hl) as (cn & Hk & _). rewrite E in Hk.
    assert (Hn : c_conns c !! k = None) by (apply not_elem_of_dom, is_fresh). congruence. }
  assert (Hp : pending_conn L k 0 c1).
  { destruct (good_unlinked L c k (fun _ => mkConn (d_bytes d) [] false) Hu Hc) as [Hg Hu']. split_and!; [exact Hg|exact Hu'|].
    exists (mkConn (d_bytes d) [] false). unfold c1. csimp. by rewrite lookup_insert_eq. }
  clearbody c1. rewrite cmd_bind_eq. pose proof (good_handshake L c1 d k Hp) as Hh. destruct (handshake d k c1) as [[err|ack] c2].
  - apply Hh.
  - destruct Hh as [_ Hp2]. destruct (Hp2 ack eq_refl) as (Hg & Hu2 & cn & Hk & Hn).
    destruct (cn_w cn) as [|f [|? ?]] eqn:Ew; try done. by eapply good_establish.
Qed.

Lemma upholds_Disconnect L : upholds L (client_Disconnect (St := St)).
Proof.
  intros c Hc. unfold client_Disconnect. rewrite cmd_bind_eq. unfold gets at 1. destruct (c_link c) as [l|] eqn:Hl; [|done].
  apply (good_weaken L (l :: L)); [set_solver|].
  assert (Hc' : good (l :: L) c).
  { destruct Hc as [Hw HL]. split; [done|]. intros l' [->|Hl']%elem_of_cons; [|by apply HL].
    destruct (wc_link c Hw l Hl) as (lk & Hlk & _). by exists lk. }
  revert Hc'. generalize c. clear c Hc Hl.
  change (upholds (l :: L) (_ ← upd (upd_link l (set_l_graceful true)); v ← gets c_version;
    _ ← writeFrame (Some l) (DisconnectPacket_Encode (mkDisconnect v NormalDisconnection None)); upd (teardownLink l true))).
  assert (l ∈ l :: L) by apply list_elem_of_here. uphold.
Qed.

(** * The operations of a client, in any order

    One critical section of a publishing, subscribing or unsubscribing call, a
    frame of the read loop, a tick of the keep-alive loop, a Connect, a
    Disconnect or a teardown.  A call works on a link the client once had, not
    necessarily the current one. *)
Inductive client_step : client St -> client St -> Prop :=
| step_publish c l pkt ev pc : is_Some (c_links c !! l) -> client_step c (pub_step l pkt ev pc c).2
| step_publish0 c l pkt : is_Some (c_links c !! l) -> client_step c (writeFrame (Some l) (PublishPacket_Encode pkt) c).2
| step_subscribe c l f o subID h ev pc : is_Some (c_links c !! l) -> client_step c (subscribe_step l f o subID h ev pc c).2
| step_unsubscribe c l f ev pc : is_Some (c_links c !! l) -> client_step c (unsubscribe_step l f ev pc c).2
| step_resubscribe c ev pc : client_step c (awaitResubscribe_step ev pc c).2
| step_frame c l : is_Some (c_links c !! l) -> client_step c (readLoop_turn l c).2
| step_tick c l : is_Some (c_links c !! l) -> client_step c (keepAliveLoop_tick l c).2
| step_connect c d : client_step c (client_Connect d c).2
| step_disconnect c : client_step c (client_Disconnect c).2
| step_teardown c l g : is_Some (c_links c !! l) -> client_step c (teardownLink l g c).

Lemma good_one c l : wf_client c -> is_Some (c_links c !! l) -> good [l] c.
Proof. intros Hw Hl. split; [done|]. by intros l' ->%list_elem_of_singleton. Qed.

Lemma step_wf c c' : client_step c c' -> wf_client c -> wf_client c'.
Proof.
  assert (H0 : forall A (m : cmd St A) c, upholds [] m -> wf_client c -> wf_client (m c).2).
  { intros A m c0 Hm Hw. apply Hm. split; [done|]. by intros l ?%elem_of_nil. }
  assert (H1 : forall A (m : cmd St A) c l, is_Some (c_links c !! l) -> (l ∈ [l] -> upholds [l] m) -> wf_client c -> wf_client (m c).2).
  { intros A m c0 l Hl Hm Hw. apply Hm; [apply list_elem_of_here|]. by apply good_one. }
  destruct 1.
  - apply (H1 _ (pub_step l pkt ev pc) c l H). intros. by apply upholds_pub_step.
  - apply (H1 _ (writeFrame (Some l) (PublishPacket_Encode pkt)) c l H). intros. apply upholds_writeFrame; [done|apply sized_publish].
  - apply (H1 _ (subscribe_step l f o subID h ev pc) c l H). intros. by apply upholds_subscribe_step.
  - apply (H1 _ (unsubscribe_step l f ev pc) c l H). intros. by apply upholds_unsubscribe_step.
  - apply (H0 _ (awaitResubscribe_step ev pc) c), upholds_awaitResubscribe.
  - apply (H1 _ (readLoop_turn l) c l H). intros. by apply upholds_readLoop_turn.
  - apply (H1 _ (keepAliveLoop_tick l) c l H). intros. by apply upholds_keepAlive.
  - apply (H0 _ (client_Connect d) c), upholds_Connect.
  - apply (H0 _ client_Disconnect c), upholds_Disconnect.
  - intros Hw. apply (good_teardown [l]); [apply list_elem_of_here|by apply good_one].
Qed.

Lemma steps_wf c c' : rtc client_step c c' -> wf_client c -> wf_client c'.
Proof. induction 1 as [c|c c1 c' Hs _ IH]; [done|]. intros Hw. by apply IH, (step_wf c). Qed.
End operations.

Lemma wf_NewTCPClient cfg : wf_client (NewTCPClient cfg).
Proof.
  split; simpl; try done; try (intros *; rewrite ?lookup_empty; done). apply wf_newIds.
Qed.

#[export] Instance quiet_handlers : Handlers memStore.
Proof. by split. Qed.

(** * Theorems *)

(** C13.  Every reachable client is well formed.  Whatever operations run, in any
    order and on whichever link, starting from NewTCPClient: the allocator never
    hands out 0; every link has a socket of its own, closed once the link is
    stopped; the current link exists and is not stopped; every registered waiter
    has a channel of its own that nobody else writes to and that is still empty,
    so that its result is never dropped. *)
Theorem client_wellformed {HE : Environment memStore} {HH : Handlers memStore} (cfg : TCPConfig) (c : client memStore) :
  rtc client_step (NewTCPClient cfg) c ->
  wf_ids (c_ids c) /\
  (forall l lk, c_links c !! l = Some lk -> is_Some (c_conns c !! l_conn lk) /\
    (l_stop lk = true -> cn_closed (c_conns c !!! l_conn lk) = true)) /\
  (forall l l' lk lk', c_links c !! l = Some lk -> c_links c !! l' = Some lk' -> l_conn lk = l_conn lk' -> l = l') /\
  (forall l, c_link c = Some l -> exists lk, c_links c !! l = Some lk /\ l_stop lk = false) /\
  (forall id w r, c_waiters c !! id = Some w ->
    c_chans (signalWaiter id (w_want w) r c).2 !! w_ch w = Some r /\
    forall id' w', c_waiters c !! id' = Some w' -> w_ch w' = w_ch w -> id' = id).
Proof.
  intros Hr. destruct (steps_wf _ _ Hr (wf_NewTCPClient cfg)) as [Hi Hs Hj Hl Hw Ho Hc]. split_and!; try done.
  - intros l lk Hlk. destruct (Hs l lk Hlk) as (cn & Hcn & [Hcl _]). rewrite (lookup_total_correct _ _ _ Hcn). split; [by exists cn|done].
  - intros id w r Hid. split; [|intros id' w' Hid'; by eapply Ho]. destruct (Hw id w Hid) as [_ Hn]. unfold signalWaiter.
    rewrite Hid, bool_decide_true by done. cbn [snd]. csimp. by rewrite chan_send_spec, decide_True, Hn.
Qed.

Lemma client_wellformed_witness :
  rtc client_step (NewTCPClient demo_cfg) demo /\
  exists l lk, c_link demo = Some l /\ c_links demo !! l = Some lk /\ l_stop lk = false.
Proof.
  assert (Hr : rtc client_step (NewTCPClient demo_cfg) demo) by apply rtc_once, step_connect.
  split; [exact Hr|]. destruct (client_wellformed demo_cfg _ Hr) as (_ & _ & _ & Hl & _).
  assert (E : c_link demo = Some 0%nat) by (vm_compute; reflexivity).
  destruct (Hl 0%nat E) as (lk & H1 & H2). by exists 0%nat, lk.
Defined.

(** C14.  No packet exceeds the broker's Maximum Packet Size.  When the CONNACK of
    a connection announced a limit, every frame written to its socket after the
    CONNECT is at most that long, whichever operation sends it: publishes,
    acknowledgements, replayed messages and subscriptions, pings, DISCONNECT. *)
Theorem packet_size_respected {HE : Environment memStore} {HH : Handlers memStore} (cfg : TCPConfig) (c : client memStore)
    (l : nat) (lk : link) :
  rtc client_step (NewTCPClient cfg) c -> c_links c !! l = Some lk -> l_outboundMax lk <> 0 ->
  exists connect frames, cn_w (c_conns c !!! l_conn lk) = connect :: frames /\
    Forall (fun f => len f <= l_outboundMax lk) frames.
Proof.
  intros Hr Hl Hm. destruct (wc_socket c (steps_wf _ _ Hr (wf_NewTCPClient cfg)) l lk Hl) as (cn & Hcn & [_ (connect & frames & Hw & Hf)]).
  rewrite (lookup_total_correct _ _ _ Hcn). exists connect, frames. split; [done|by apply Hf].
Qed.

(** A broker with a Maximum Packet Size of 8: the PUBLISH of 7 bytes fits, one of
    9 bytes is refused. *)
Definition tight_connack : list Z := [0x20; 8; 1; 0; 5; 0x27; 0; 0; 0; 8].
Definition small_pkt : PublishPacket := mkPublish V50 (gostr "t") [1] 0 false false 0 None.
Definition large_pkt : PublishPacket := mkPublish V50 (gostr "t") [1; 2; 3] 0 false false 0 None.
Definition tight0 : client memStore := (client_Connect (demo_dial tight_connack) (NewTCPClient demo_cfg)).2.
Definition tight1 : client memStore := (writeFrame (Some 0%nat) (PublishPacket_Encode small_pkt) tight0).2.
Definition tight : client memStore := (writeFrame (Some 0%nat) (PublishPacket_Encode large_pkt) tight1).2.

Lemma tight_reached : rtc client_step (NewTCPClient demo_cfg) tight.
Proof.
  assert (H0 : is_Some (c_links tight0 !! 0%nat)) by (eexists; vm_compute; reflexivity).
  assert (H1 : is_Some (c_links tight1 !! 0%nat)) by (eexists; vm_compute; reflexivity).
  apply rtc_l with tight0; [apply step_connect|]. apply rtc_l with tight1; [unfold tight1; by apply step_publish0|].
  apply rtc_once. unfold tight. by apply step_publish0.
Qed.

Lemma packet_size_respected_witness :
  exists connect frames, cn_w (c_conns tight !!! l_conn (c_links tight !!! 0%nat)) = connect :: frames /\
    len frames = 1 /\ Forall (fun f => len f <= 8) frames.
Proof.
  destruct (packet_size_respected demo_cfg tight 0 (c_links tight !!! 0%nat) tight_reached) as (connect & frames & Hw & Hf).
  - vm_compute. reflexivity.
  - vm_compute. done.
  - exists connect, frames. split; [done|].
    assert (E8 : l_outboundMax (c_links tight !!! 0%nat) = 8) by (vm_compute; reflexivity). rewrite E8 in Hf. split; [|done].
    assert (El : len (cn_w (c_conns tight !!! l_conn (c_links tight !!! 0%nat))) = 2) by (vm_compute; reflexivity).
    rewrite Hw in El. simpl in El. lia.
Defined.
