(* ===== verification/Buffers.v ===== *)
(** Buffer ownership of a publish (storedCopy in publish.go): byte slices are
    references to shared buffers, which the caller of [Publish] may rewrite as
    soon as the call returns.

    The rest of the development passes byte slices as values; [stored_copy_immune]
    is what justifies it for the messages kept in the session store. *)

From S2P Require Import Prelude GoStrings Codes Wire Props PublishPackets Connection.
From stdpp Require Import options.

(** * Slices *)

Abbreviation buffers := (gmap nat (list Z)).

(** A byte slice over the whole of a buffer, or nil. *)
Definition slice_ref : Type := option nat.

Definition bytes_of (h : buffers) (s : slice_ref) : list Z :=
  match s with None => [] | Some r => default [] (h !! r) end.

(** bytes.Clone: nil stays nil. *)
Definition bytes_Clone (s : slice_ref) (h : buffers) : slice_ref * buffers :=
  match s with
  | None => (None, h)
  | Some r => let r' := fresh (dom h) in (Some r', <[r' := default [] (h !! r)]> h)
  end.

(** A PUBLISH as it sits in memory: its payload and its Correlation Data are
    slices; [pk_rest] and the properties hold the fields that are values. *)
Record packetRef : Type := mkPacketRef {
  pk_rest : PublishPacket;
  pk_Payload : slice_ref;
  pk_Properties : option (Properties * slice_ref)
}.

(** The packet that the encoder sees. *)
Definition packet_of (h : buffers) (p : packetRef) : PublishPacket :=
  let q := pk_rest p in
  mkPublish (pub_Version q) (pub_Topic q) (bytes_of h (pk_Payload p)) (pub_QoS q) (pub_Retain q) (pub_Dup q) (pub_PacketID q)
    (match pk_Properties p with
     | None => None
     | Some (props, cd) => Some (set_CorrelationData (bytes_of h cd) props)
     end).

Definition storedCopy (pkt : packetRef) (h : buffers) : packetRef * buffers :=
  let '(payload, h) := bytes_Clone (pk_Payload pkt) h in
  match pk_Properties pkt with
  | None => (mkPacketRef (pk_rest pkt) payload None, h)
  | Some (props, cd) =>
    let '(cd, h) := bytes_Clone cd h in
    (mkPacketRef (pk_rest pkt) payload (Some (props, cd)), h)
  end.

(** * Lemmas *)

Definition allocated (h : buffers) (s : slice_ref) : Prop := match s with None => True | Some r => r ∈ dom h end.

(** The new buffer holds the bytes of the old one, is none of the old ones, and
    the old ones are as they were. *)
Lemma bytes_Clone_spec s h s' h' : allocated h s -> bytes_Clone s h = (s', h') ->
  h ⊆ h' /\ bytes_of h' s' = bytes_of h s /\ allocated h' s' /\ (forall r, s' = Some r -> r ∉ dom h).
Proof.
  intros Hs. destruct s as [r|]; simpl; intros [= <- <-]; [|by split_and!].
  assert (Hf : fresh (dom h) ∉ dom h) by apply is_fresh. split_and!.
  - by apply insert_subseteq, not_elem_of_dom.
  - unfold bytes_of. by rewrite lookup_insert_eq.
  - simpl. rewrite dom_insert. set_solver.
  - by intros r' [= <-].
Qed.

(** Bytes in buffers outside [D] survive changes of the buffers in [D]. *)
Lemma bytes_of_outside (D : gset nat) h h2 s : (forall r, r ∉ D -> h2 !! r = h !! r) ->
  (forall r, s = Some r -> r ∉ D) -> bytes_of h2 s = bytes_of h s.
Proof. intros Hh Hs. destruct s as [r|]; [|done]. simpl. by rewrite Hh by (by apply Hs). Qed.

Lemma bytes_of_mono h h' s : h ⊆ h' -> allocated h s -> bytes_of h' s = bytes_of h s.
Proof.
  intros Hh Hs. destruct s as [r|]; [|done]. simpl in *. apply elem_of_dom in Hs as [b Hb].
  by rewrite Hb, (lookup_weaken _ _ _ _ Hb Hh).
Qed.

(** * Theorems *)

(** C24.  The stored message does not alias the caller's buffers.  Whatever is
    written afterwards to any buffer that existed when storedCopy ran, the copy
    still is the packet as it was: the frame that a replay sends, with DUP set,
    has the bytes that were published. *)
Theorem stored_copy_immune (pkt copy : packetRef) (h h' later : buffers) :
  allocated h (pk_Payload pkt) -> (forall props cd, pk_Properties pkt = Some (props, cd) -> allocated h cd) ->
  storedCopy pkt h = (copy, h') -> (forall r, r ∉ dom h -> later !! r = h' !! r) ->
  packet_of later copy = packet_of h pkt /\
  PublishPacket_Encode (with_Dup (packet_of later copy)) [] = PublishPacket_Encode (with_Dup (packet_of h pkt)) [].
Proof.
  intros Hp Hc Hcopy Hl. enough (E : packet_of later copy = packet_of h pkt) by (split; [done|by rewrite E]).
  unfold storedCopy in Hcopy. destruct (bytes_Clone (pk_Payload pkt) h) as [pl h1] eqn:E1.
  destruct (bytes_Clone_spec _ _ _ _ Hp E1) as (Hsub1 & Hb1 & Ha1 & Hn1). unfold packet_of.
  destruct (pk_Properties pkt) as [[props cd]|]; [|simplify_eq; simpl; by rewrite (bytes_of_outside (dom h) h' later pl), Hb1].
  destruct (bytes_Clone cd h1) as [cd' h2] eqn:E2. assert (Hcd : allocated h cd) by (by eapply Hc).
  assert (Hcd1 : allocated h1 cd) by (destruct cd; [|done]; simpl in *; eapply subseteq_dom; eassumption).
  destruct (bytes_Clone_spec _ _ _ _ Hcd1 E2) as (Hsub2 & Hb2 & Ha2 & Hn2). simplify_eq. simpl.
  assert (Hcd' : forall r, cd' = Some r -> r ∉ dom h).
  { intros r Hr Hd. apply (Hn2 r Hr). eapply subseteq_dom; eassumption. }
  rewrite (bytes_of_outside (dom h) h' later pl), (bytes_of_outside (dom h) h' later cd') by done. rewrite Hb2, (bytes_of_mono h h1 cd) by done.
  by rewrite (bytes_of_mono h1 h' pl), Hb1.
Qed.

(** A caller that publishes out of buffer 0 and then overwrites it. *)
Definition scratch_pkt : packetRef := mkPacketRef (mkPublish V50 (gostr "t") [] 1 false false 7 None) (Some 0%nat) None.

Lemma stored_copy_immune_witness :
  exists copy h', storedCopy scratch_pkt {[0%nat := [1; 2]]} = (copy, h') /\
    pub_Payload (packet_of (<[0%nat := [9; 9]]> h') scratch_pkt) = [9; 9] /\
    packet_of (<[0%nat := [9; 9]]> h') copy = packet_of {[0%nat := [1; 2]]} scratch_pkt.
Proof.
  assert (H0 : 0%nat ∈ dom ({[0%nat := [1; 2]]} : buffers)) by (apply elem_of_dom; eexists; vm_compute; reflexivity).
  destruct (storedCopy scratch_pkt {[0%nat := [1; 2]]}) as [copy h'] eqn:E. exists copy, h'. split; [done|]. split.
  - unfold packet_of, bytes_of. cbn [pub_Payload pk_Payload scratch_pkt]. by rewrite lookup_insert_eq.
  - refine (proj1 (stored_copy_immune scratch_pkt copy {[0%nat := [1; 2]]} h' _ H0 _ E _)); [done|].
    intros r Hr. rewrite lookup_insert_ne; [done|]. by intros <-.
Defined.
