(* ===== verification/Bridge.v ===== *)
(** The contracts a consumer of the library programs against (client.go), the
    adapters between them, and the common composition: a circuit breaker in
    front of the publishing half of a client.

    A Go interface value is a record of operations on the state [W] of whatever
    implements it. *)

From S2P Require Import Prelude GoStrings Codes Wire Props PublishPackets ControlPackets SubscribePackets Errors Breaker.
From S2P Require Import SessionStore IdAllocator Quota Subscriptions Client Requests ClientFacts.
From stdpp Require Import options.

Record publish_args : Type := mkPublishArgs {
  pa_topic : list Z;
  pa_payload : list Z;
  pa_qos : Z;
  pa_retain : bool;
  pa_opts : list PublishOption
}.
Record subscribe_args : Type := mkSubscribeArgs {
  sa_filter : list Z;
  sa_qos : Z;
  sa_handler : Z;
  sa_opts : list SubscribeOption
}.

Record Publisher (W : Type) : Type := mkPublisher { publish : publish_args -> W -> option goerror * W }.
Record Subscriber (W : Type) : Type := mkSubscriber {
  subscribe : subscribe_args -> W -> (goerror + SubscribeResult) * W;
  unsubscribe : list Z -> W -> option goerror * W
}.
Arguments mkPublisher {W}.
Arguments publish {W}.
Arguments mkSubscriber {W}.
Arguments subscribe {W}.
Arguments unsubscribe {W}.

(** The struct [splitClient] embeds the two halves of a [Client]. *)
Record splitClient (W : Type) : Type := mkSplitClient { sc_Publisher : Publisher W; sc_Subscriber : Subscriber W }.
Arguments mkSplitClient {W}.
Arguments sc_Publisher {W}.
Arguments sc_Subscriber {W}.

Definition SplitClient {W} (p : Publisher W) (s : Subscriber W) : splitClient W := mkSplitClient p s.

(** A handler of the old shape, as a function of a message. *)
Definition LegacyHandler {A} (fn : list Z -> list Z -> bool -> A) : Message -> A :=
  fun msg => fn (msg_Topic msg) (msg_Payload msg) (msg_Retain msg).

(** * A breaker in front of a publisher *)

Section guarded.
Context {W : Type}.

(** [Publish] of a [Breaker] around [p], with nothing else running; the state is
    that of the client and of the breaker.  [t0] and [t1] are the instants before
    and after, [ctxErr] is [ctx.Err()]. *)
Definition guard (t0 t1 : Z) (ctxErr : option sentinel) (p : Publisher W) : Publisher (W * Breaker) :=
  mkPublisher (fun args '(w, b) =>
    match Breaker_admit t0 b with
    | (None, _, b) => (Some [ErrCircuitOpen], (w, b))
    | (Some adm, fire, b) =>
      let b := if (fire : bool) then (fireStateChanges b).2 else b in
      let '(err, w) := publish p args w in
      let '(fire, b) := record t1 ctxErr adm err b in
      (err, (w, if (fire : bool) then (fireStateChanges b).2 else b))
    end).

(** The undecorated half works on the client alone. *)
Definition beside (s : Subscriber W) : Subscriber (W * Breaker) :=
  mkSubscriber (fun args '(w, b) => let '(r, w) := subscribe s args w in (r, (w, b)))
               (fun filter '(w, b) => let '(r, w) := unsubscribe s filter w in (r, (w, b))).

(** What a consumer calls on its session. *)
Inductive call : Type :=
| CPublish (t0 t1 : Z) (ctxErr : option sentinel) (args : publish_args)
| CSubscribe (args : subscribe_args)
| CUnsubscribe (filter : list Z).

Inductive answer : Type :=
| RPublish (err : option goerror)
| RSubscribe (r : goerror + SubscribeResult)
| RUnsubscribe (err : option goerror).

(** A call on the session [SplitClient(NewBreaker(p), s)]. *)
Definition session_call (p : Publisher W) (s : Subscriber W) (k : call) (st : W * Breaker) : answer * (W * Breaker) :=
  match k with
  | CPublish t0 t1 ctxErr args =>
    let '(e, st) := publish (sc_Publisher (SplitClient (guard t0 t1 ctxErr p) (beside s))) args st in (RPublish e, st)
  | CSubscribe args => let '(r, st) := subscribe (sc_Subscriber (SplitClient (guard 0 0 None p) (beside s))) args st in (RSubscribe r, st)
  | CUnsubscribe f => let '(e, st) := unsubscribe (sc_Subscriber (SplitClient (guard 0 0 None p) (beside s))) f st in (RUnsubscribe e, st)
  end.

Fixpoint session_run (p : Publisher W) (s : Subscriber W) (ks : list call) (st : W * Breaker) : list answer * (W * Breaker) :=
  match ks with
  | [] => ([], st)
  | k :: ks => let '(a, st) := session_call p s k st in let '(rest, st) := session_run p s ks st in (a :: rest, st)
  end.

(** The same calls with every publish refused at once. *)
Fixpoint outage_run (s : Subscriber W) (ks : list call) (w : W) : list answer * W :=
  match ks with
  | [] => ([], w)
  | CPublish _ _ _ _ :: ks => let '(rest, w) := outage_run s ks w in (RPublish (Some [ErrCircuitOpen]) :: rest, w)
  | CSubscribe args :: ks =>
    let '(r, w) := subscribe s args w in let '(rest, w) := outage_run s ks w in (RSubscribe r :: rest, w)
  | CUnsubscribe f :: ks =>
    let '(r, w) := unsubscribe s f w in let '(rest, w) := outage_run s ks w in (RUnsubscribe r :: rest, w)
  end.

(** A publish call falls before [t]. *)
Definition before (t : Z) (k : call) : Prop := match k with CPublish t0 _ _ _ => t0 < t | _ => True end.

(** The decorated publish is [Breaker_Publish] with the outcome of the client,
    which is not called when the circuit is open. *)
Lemma guard_Publish t0 t1 ctxErr (p : Publisher W) args w b :
  let outcome := publish p args w in
  let '(err, _, b') := Breaker_Publish t0 t1 ctxErr outcome.1 b in
  publish (guard t0 t1 ctxErr p) args (w, b) = (err, (if is_some (Breaker_admit t0 b).1.1 then outcome.2 else w, b')).
Proof.
  unfold Breaker_Publish. cbn [publish guard]. destruct (Breaker_admit t0 b) as [[[adm|] fire] b1]; [|done]. cbn [fst is_some].
  destruct (publish p args w) as [err w1]. cbn [fst snd]. destruct fire.
  - destruct (fireStateChanges b1) as [told b2]. cbn [snd]. destruct (record t1 ctxErr adm err b2) as [[] b3]; [|done].
    by destruct (fireStateChanges b3).
  - destruct (record t1 ctxErr adm err b1) as [[] b3]; [|done]. by destruct (fireStateChanges b3).
Qed.
End guarded.

(** * Theorems *)

(** C28.  During an outage a guarded session fails fast and still subscribes.  From
    an open circuit, over any sequence of calls whose publishes fall within the
    recovery timeout, every publish returns ErrCircuitOpen without reaching the
    client, the breaker does not move, and subscribe and unsubscribe calls go to
    the client as if there were no breaker. *)
Theorem outage_fails_fast {W} (p : Publisher W) (s : Subscriber W) (ks : list call) (w : W) (b : Breaker) :
  state b = BreakerOpen -> Forall (before (openedAt b + RecoveryTimeout (cfg b))) ks ->
  session_run p s ks (w, b) = let '(answers, w') := outage_run s ks w in (answers, (w', b)).
Proof.
  intros Hs Hk. revert w. induction Hk as [|k ks Hb Hks IH]; intros w; [done|]. cbn [session_run outage_run].
  destruct k as [t0 t1 ctxErr args|args|f]; cbn [session_call SplitClient sc_Publisher sc_Subscriber].
  - assert (Ha : Breaker_admit t0 b = (None, false, b)).
    { unfold Breaker_admit. rewrite Hs. simpl in Hb. by rewrite (proj2 (Z.ltb_lt _ _)) by lia. }
    cbn [publish guard]. rewrite Ha, IH. by destruct (outage_run s ks w).
  - cbn [subscribe beside]. destruct (subscribe s args w) as [r w1]. rewrite IH. by destruct (outage_run s ks w1).
  - cbn [unsubscribe beside]. destruct (unsubscribe s f w) as [r w1]. rewrite IH. by destruct (outage_run s ks w1).
Qed.

(** A client that counts its calls. *)
Definition counting_publisher : Publisher (nat * nat) := mkPublisher (fun _ '(n, m) => (None, (S n, m))).
Definition counting_subscriber : Subscriber (nat * nat) :=
  mkSubscriber (fun _ '(n, m) => (inr (mkSubscribeResult 0 0), (n, S m))) (fun _ '(n, m) => (None, (n, S m))).
Definition open_breaker : Breaker := mkBreaker cfg3 BreakerOpen 1 0 1000 0 [] false.

Lemma outage_fails_fast_witness :
  (session_run counting_publisher counting_subscriber
    [CPublish 1050 1051 None (mkPublishArgs (gostr "t") [1] 1 false []); CUnsubscribe (gostr "a");
     CPublish 1099 1100 None (mkPublishArgs (gostr "t") [2] 1 false [])] ((0, 0)%nat, open_breaker)).2 =
  ((0, 1)%nat, open_breaker).
Proof.
  rewrite outage_fails_fast; [reflexivity|reflexivity|]. repeat constructor; simpl; lia.
Defined.
