(* ===== verification/Delivery.v ===== *)
(** Delivery of QoS 1 and QoS 2 messages as a protocol between two parties.

    The sender keeps an entry per unfinished exchange and retransmits it when a
    session is resumed; the receiver is that of MQTT 4.3: it passes a QoS 1
    message on every time, and a QoS 2 message once until its identifier is
    released.  Packets travel in order and are lost when the connection is.
    EndToEnd shows that the client is such a sender. *)

From S2P Require Import Prelude GoStrings Codes Wire WireFacts Props PropsFacts PublishPackets.
From stdpp Require Import options.

(** * The parties *)

(** An unfinished exchange of the sender: its PUBLISH or its PUBREL is to be
    acknowledged. *)
Inductive outgoing : Type := OPub (p : PublishPacket) | ORel.

(** What travels to the receiver. *)
Inductive upward : Type := UPub (p : PublishPacket) | URel (id : Z).
Definition up_id (u : upward) : Z := match u with UPub p => pub_PacketID p | URel id => id end.

(** The application message in a PUBLISH: everything but the identifier and the
    DUP flag. *)
Definition content (p : PublishPacket) : PublishPacket :=
  mkPublish (pub_Version p) (pub_Topic p) (pub_Payload p) (pub_QoS p) (pub_Retain p) false 0 (pub_Properties p).

(** The receiver of MQTT 4.3: the QoS 2 identifiers received and not released,
    and the messages passed on. *)
Record receiver : Type := mkReceiver { r_awaiting : list Z; r_got : list PublishPacket }.

(** What it does with a packet, and the type, identifier and reason code of its
    answer. *)
Definition receive (u : upward) (b : receiver) : receiver * option (Z * Z * Z) :=
  match u with
  | UPub p =>
    let id := pub_PacketID p in
    if pub_QoS p =? 0 then (mkReceiver (r_awaiting b) (r_got b ++ [content p]), None)
    else if pub_QoS p =? 1 then (mkReceiver (r_awaiting b) (r_got b ++ [content p]), Some (Puback, id, Success))
    else if bool_decide (id ∈ r_awaiting b) then (b, Some (Pubrec, id, Success))
    else (mkReceiver (id :: r_awaiting b) (r_got b ++ [content p]), Some (Pubrec, id, Success))
  | URel id =>
    (mkReceiver (filter (fun i => i <> id) (r_awaiting b)) (r_got b),
     Some (Pubcomp, id, if bool_decide (id ∈ r_awaiting b) then Success else PacketIdentifierNotFound))
  end.

(** * The protocol *)

(** Both parties, the packets and answers under way on the current connection,
    and the messages accepted for sending in this session. *)
Record exchanges : Type := mkExchanges {
  e_live : bool;
  e_out : list (Z * outgoing);
  e_up : list upward;
  e_down : list (Z * Z);
  e_b : receiver;
  e_log : list PublishPacket
}.

(** The packet that retransmits an entry. *)
Definition again (x : Z * outgoing) : upward := match x.2 with OPub p => UPub p | ORel => URel x.1 end.

Definition drop_out (id : Z) (out : list (Z * outgoing)) : list (Z * outgoing) := filter (fun x => x.1 <> id) out.

Inductive estep : exchanges -> exchanges -> Prop :=
| e_publish out up down b log p :
    pub_PacketID p ∉ out.*1 -> pub_QoS p = 1 \/ pub_QoS p = 2 ->
    estep (mkExchanges true out up down b log)
      (mkExchanges true (out ++ [(pub_PacketID p, OPub p)]) (up ++ [UPub p]) down b (log ++ [content p]))
| e_serve out u up down b log :
    estep (mkExchanges true out (u :: up) down b log)
      (mkExchanges true out up (down ++ option_list (fst <$> (receive u b).2)) (receive u b).1 log)
| e_puback out up id down b log :
    estep (mkExchanges true out up ((Puback, id) :: down) b log) (mkExchanges true (drop_out id out) up down b log)
| e_pubrec out up id down b log :
    estep (mkExchanges true out up ((Pubrec, id) :: down) b log)
      (mkExchanges true (drop_out id out ++ [(id, ORel)]) (up ++ [URel id]) down b log)
| e_pubcomp out up id down b log :
    estep (mkExchanges true out up ((Pubcomp, id) :: down) b log) (mkExchanges true (drop_out id out) up down b log)
| e_qos0 live out up down b log m : pub_QoS m = 0 ->
    estep (mkExchanges live out up down b log) (mkExchanges live out up down (mkReceiver (r_awaiting b) (r_got b ++ [m])) log)
| e_drop live out up down b log : estep (mkExchanges live out up down b log) (mkExchanges false out [] [] b log)
| e_resume live out up down b log :
    estep (mkExchanges live out up down b log) (mkExchanges true out (again <$> out) [] b log)
| e_reset live out up down b log : estep (mkExchanges live out up down b log) (mkExchanges false [] [] [] (mkReceiver [] []) []).

(** * The invariant *)

Definition out_pubs (out : list (Z * outgoing)) : list PublishPacket :=
  omap (fun x => match x.2 with OPub p => Some p | ORel => None end) out.
Definition up_pubs (up : list upward) : list PublishPacket :=
  omap (fun u => match u with UPub p => Some p | URel _ => None end) up.

(** QoS 2 packets the receiver has not taken yet, QoS 1 packets it has not
    acknowledged, and the messages with a QoS. *)
Definition untaken (aw : list Z) (ps : list PublishPacket) : list PublishPacket :=
  filter (fun p => pub_QoS p = 2 /\ pub_PacketID p ∉ aw) ps.
Definition unacked (down : list (Z * Z)) (ps : list PublishPacket) : list PublishPacket :=
  filter (fun p => pub_QoS p = 1 /\ (Puback, pub_PacketID p) ∉ down) ps.
Definition with_qos (q : Z) (ps : list PublishPacket) : list PublishPacket := filter (fun p => pub_QoS p = q) ps.

Definition tokens (e : exchanges) : list Z := (up_id <$> e_up e) ++ (e_down e).*2.

(** What an answer under way says about both parties. *)
Definition down_ok (out : list (Z * outgoing)) (aw : list Z) (d : Z * Z) : Prop :=
  (d.1 = Puback /\ exists p, (d.2, OPub p) ∈ out /\ pub_QoS p = 1) \/
  (d.1 = Pubrec /\ d.2 ∈ aw /\ exists p, (d.2, OPub p) ∈ out /\ pub_QoS p = 2) \/
  (d.1 = Pubcomp /\ d.2 ∉ aw /\ (d.2, ORel) ∈ out).

Record einv (e : exchanges) : Prop := {
  v_keys : NoDup (e_out e).*1;
  v_pub id p : (id, OPub p) ∈ e_out e -> pub_PacketID p = id /\ (pub_QoS p = 1 \/ pub_QoS p = 2);
  v_tokens : NoDup (tokens e);
  v_up u : u ∈ e_up e -> exists x, x ∈ e_out e /\ u = again x;
  v_down d : d ∈ e_down e -> down_ok (e_out e) (r_awaiting (e_b e)) d;
  v_awaiting id : id ∈ r_awaiting (e_b e) -> exists o, (id, o) ∈ e_out e /\ forall p, o = OPub p -> pub_QoS p = 2;
  v_log2 : with_qos 2 (e_log e) = with_qos 2 (r_got (e_b e)) ++ (content <$> untaken (r_awaiting (e_b e)) (out_pubs (e_out e)));
  v_log1 : with_qos 1 (e_log e) ⊆+ with_qos 1 (r_got (e_b e)) ++ (content <$> unacked (e_down e) (out_pubs (e_out e)));
  v_dead : e_live e = false -> e_up e = [] /\ e_down e = [];
  v_order : e_live e = true -> untaken (r_awaiting (e_b e)) (up_pubs (e_up e)) = untaken (r_awaiting (e_b e)) (out_pubs (e_out e));
  v_flight id : e_live e = true -> id ∈ (e_out e).*1 -> id ∈ tokens e
}.

(** * Lemmas on the lists of the invariant *)

Implicit Types out : list (Z * outgoing).
Implicit Types aw : list Z.
Implicit Types down : list (Z * Z).

Lemma elem_of_drop_out id x out : x ∈ drop_out id out <-> x.1 <> id /\ x ∈ out.
Proof. unfold drop_out. by rewrite list_elem_of_filter. Qed.

Lemma drop_out_keys id out : (drop_out id out).*1 = filter (fun i => i <> id) out.*1.
Proof.
  induction out as [|x out IH]; [done|]. unfold drop_out in *. rewrite fmap_cons, !filter_cons.
  case_decide; [rewrite fmap_cons|]; by rewrite IH.
Qed.

Lemma NoDup_drop_out id out : NoDup out.*1 -> NoDup (drop_out id out).*1.
Proof. rewrite drop_out_keys. apply NoDup_filter. Qed.

Lemma key_unique out id o o' : NoDup out.*1 -> (id, o) ∈ out -> (id, o') ∈ out -> o = o'.
Proof.
  intros Hnd H1 H2. apply list_elem_of_lookup in H1 as [i Hi], H2 as [j Hj].
  assert (i = j) as ->; [|congruence].
  eapply (NoDup_lookup _ i j id Hnd); by rewrite list_lookup_fmap, ?Hi, ?Hj.
Qed.

Lemma out_pubs_app out out' : out_pubs (out ++ out') = out_pubs out ++ out_pubs out'.
Proof. apply omap_app. Qed.
Lemma up_pubs_app up up' : up_pubs (up ++ up') = up_pubs up ++ up_pubs up'.
Proof. apply omap_app. Qed.

Lemma elem_of_out_pubs p out : p ∈ out_pubs out <-> exists id, (id, OPub p) ∈ out.
Proof.
  unfold out_pubs. rewrite list_elem_of_omap. split.
  - intros ([id [q|]] & Hx & Hq); simplify_eq/=. by exists id.
  - intros [id Hx]. by exists (id, OPub p).
Qed.
Lemma elem_of_up_pubs p up : p ∈ up_pubs up <-> UPub p ∈ up.
Proof.
  unfold up_pubs. rewrite list_elem_of_omap. split.
  - intros ([q|] & Hx & Hq); by simplify_eq/=.
  - intros Hx. by exists (UPub p).
Qed.

Lemma out_pubs_drop id out : (forall i p, (i, OPub p) ∈ out -> pub_PacketID p = i) ->
  out_pubs (drop_out id out) = filter (fun p => pub_PacketID p <> id) (out_pubs out).
Proof.
  induction out as [|[i o] out IH]; intros Hid; [done|]. unfold drop_out, out_pubs. rewrite filter_cons.
  assert (IH' := IH (fun j p Hj => Hid j p (list_elem_of_further _ _ _ Hj))). unfold drop_out, out_pubs in IH'.
  destruct o as [p|]; cbn [omap list_omap fst snd].
  - assert (Hp : pub_PacketID p = i) by (apply Hid, list_elem_of_here). rewrite filter_cons.
    case_decide; case_decide; try congruence; cbn [omap list_omap fst snd]; by rewrite IH'.
  - case_decide; cbn [omap list_omap fst snd]; by rewrite IH'.
Qed.

Lemma up_pubs_again out : up_pubs (again <$> out) = out_pubs out.
Proof. induction out as [|[i [p|]] out IH]; [done|..]; unfold out_pubs, up_pubs in *; cbn; by rewrite IH. Qed.

Lemma untaken_app aw ps ps' : untaken aw (ps ++ ps') = untaken aw ps ++ untaken aw ps'.
Proof. apply filter_app. Qed.
Lemma unacked_app down ps ps' : unacked down (ps ++ ps') = unacked down ps ++ unacked down ps'.
Proof. apply filter_app. Qed.
Lemma with_qos_app q ps ps' : with_qos q (ps ++ ps') = with_qos q ps ++ with_qos q ps'.
Proof. apply filter_app. Qed.

Lemma filter_ext {A} (P Q : A -> Prop) `{!forall x, Decision (P x)} `{!forall x, Decision (Q x)} (l : list A) :
  (forall x, x ∈ l -> P x <-> Q x) -> filter P l = filter Q l.
Proof.
  induction l as [|x l IH]; intros HPQ; [done|]. rewrite !filter_cons, IH by (intros y Hy; apply HPQ; by right).
  specialize (HPQ x (list_elem_of_here _ _)). repeat case_decide; tauto.
Qed.

Lemma untaken_ext aw aw' ps : (forall p, p ∈ ps -> pub_QoS p = 2 -> pub_PacketID p ∈ aw <-> pub_PacketID p ∈ aw') ->
  untaken aw ps = untaken aw' ps.
Proof. intros Hp. apply filter_ext. intros p Hi. specialize (Hp p Hi). tauto. Qed.

Lemma untaken_cons_aw id aw ps : untaken (id :: aw) ps = filter (fun p => pub_PacketID p <> id) (untaken aw ps).
Proof. unfold untaken. rewrite list_filter_filter. apply list_filter_iff. intros p. rewrite not_elem_of_cons. tauto. Qed.

Lemma filter_all {A} (P : A -> Prop) `{!forall x, Decision (P x)} (l : list A) : Forall P l -> filter P l = l.
Proof. induction 1 as [|x l Hx _ IH]; [done|]. by rewrite filter_cons_True, IH. Qed.

Lemma filter_none {A} (P : A -> Prop) `{!forall x, Decision (P x)} (l : list A) : (forall x, x ∈ l -> ~ P x) -> filter P l = [].
Proof.
  induction l as [|x l IH]; intros Hl; [done|]. rewrite filter_cons_False by (apply Hl, list_elem_of_here).
  apply IH. intros y Hy. apply Hl. by right.
Qed.

(** * Preservation *)

Lemma again_id e x : einv e -> x ∈ e_out e -> up_id (again x) = x.1.
Proof. intros He. destruct x as [id [p|]]; [|done]. intros Hx. apply (v_pub e He id p Hx). Qed.

Lemma down_stored out aw d : down_ok out aw d -> d.2 ∈ out.*1.
Proof. intros [[_ (p & Hp & _)]|[(_ & _ & p & Hp & _)|(_ & _ & Hp)]]; exact (list_elem_of_fmap_2 fst _ _ Hp). Qed.

Lemma token_stored e id : einv e -> id ∈ tokens e -> id ∈ (e_out e).*1.
Proof.
  intros He. unfold tokens. intros [(u & -> & Hu)%list_elem_of_fmap|(d & -> & Hd)%list_elem_of_fmap]%elem_of_app.
  - destruct (v_up e He u Hu) as (x & Hx & ->). rewrite (again_id e x He Hx). by apply list_elem_of_fmap_2.
  - eapply down_stored, (v_down e He d Hd).
Qed.

(** Entries that stay keep an answer justified. *)
Lemma down_ok_mono out out' aw aw' d : down_ok out aw d ->
  (forall o, (d.2, o) ∈ out -> (d.2, o) ∈ out') -> (d.2 ∈ aw <-> d.2 ∈ aw') -> down_ok out' aw' d.
Proof. unfold down_ok. naive_solver. Qed.

Lemma einv_publish out up down b log p :
  pub_PacketID p ∉ out.*1 -> pub_QoS p = 1 \/ pub_QoS p = 2 ->
  einv (mkExchanges true out up down b log) ->
  einv (mkExchanges true (out ++ [(pub_PacketID p, OPub p)]) (up ++ [UPub p]) down b (log ++ [content p])).
Proof.
  intros Hn Hq He. assert (Ht := fun id => token_stored _ id He). destruct He as [Hk Hp HT Hu Hd Ha H2 H1 Hdd Ho Hf].
  cbn [e_live e_out e_up e_down e_b e_log] in *. unfold tokens in *; cbn [e_up e_down] in *.
  assert (Haw : pub_PacketID p ∉ r_awaiting b).
  { intros Hi. destruct (Ha _ Hi) as (o & Hx & _). apply Hn. exact (list_elem_of_fmap_2 fst _ _ Hx). }
  assert (Hdn : (Puback, pub_PacketID p) ∉ down).
  { intros Hi. apply Hn, Ht. apply elem_of_app. right. exact (list_elem_of_fmap_2 snd _ _ Hi). }
  split; cbn [e_live e_out e_up e_down e_b e_log]; unfold tokens; cbn [e_up e_down].
  - rewrite fmap_app, NoDup_app. split_and!; [done| |apply NoDup_singleton]. by intros i Hi ->%list_elem_of_singleton.
  - intros id q [Hx|[= -> ->]%list_elem_of_singleton]%elem_of_app; [by apply Hp|done].
  - rewrite fmap_app, <- app_assoc. cbn [fmap list_fmap up_id app]. rewrite <- Permutation_middle. apply NoDup_cons.
    split; [intros Hi; by apply Hn, Ht|done].
  - intros u [Hx| ->%list_elem_of_singleton]%elem_of_app.
    + destruct (Hu u Hx) as (x & Hin & ->). exists x. split; [|done]. apply elem_of_app. by left.
    + exists (pub_PacketID p, OPub p). split; [|done]. apply elem_of_app. right. apply list_elem_of_here.
  - intros d Hx. eapply down_ok_mono; [by apply Hd| |done]. intros o Ho'. apply elem_of_app. by left.
  - intros id Hi. destruct (Ha id Hi) as (o & Hx & Hy). exists o. split; [apply elem_of_app; by left|done].
  - rewrite with_qos_app, H2, out_pubs_app, untaken_app, fmap_app, <- app_assoc. f_equal. f_equal.
    change (out_pubs [(pub_PacketID p, OPub p)]) with [p]. unfold with_qos, untaken. rewrite !filter_cons, !filter_nil.
    cbn [content pub_QoS]. repeat case_decide; naive_solver.
  - rewrite with_qos_app, out_pubs_app, unacked_app, fmap_app, app_assoc. apply submseteq_app; [done|].
    change (out_pubs [(pub_PacketID p, OPub p)]) with [p]. unfold with_qos, unacked. rewrite !filter_cons, !filter_nil.
    cbn [content pub_QoS]. repeat case_decide; naive_solver.
  - done.
  - intros _. rewrite up_pubs_app, out_pubs_app, !untaken_app, Ho by done. done.
  - intros id _. rewrite fmap_app, !elem_of_app, fmap_app, elem_of_app. cbn [fmap list_fmap up_id fst].
    intros [Hi|Hi]; [|tauto]. specialize (Hf id eq_refl Hi). rewrite elem_of_app in Hf. tauto.
Qed.

(** The receiver takes a packet and answers it. *)
Lemma einv_answer out u up down b log t b' :
  einv (mkExchanges true out (u :: up) down b log) ->
  (forall i, i <> up_id u -> i ∈ r_awaiting b <-> i ∈ r_awaiting b') ->
  down_ok out (r_awaiting b') (t, up_id u) ->
  (up_id u ∈ r_awaiting b' -> exists o, (up_id u, o) ∈ out /\ forall p, o = OPub p -> pub_QoS p = 2) ->
  with_qos 2 log = with_qos 2 (r_got b') ++ (content <$> untaken (r_awaiting b') (out_pubs out)) ->
  with_qos 1 log ⊆+ with_qos 1 (r_got b') ++ (content <$> unacked (down ++ [(t, up_id u)]) (out_pubs out)) ->
  untaken (r_awaiting b') (up_pubs up) = untaken (r_awaiting b') (out_pubs out) ->
  einv (mkExchanges true out up (down ++ [(t, up_id u)]) b' log).
Proof.
  intros [Hk Hp HT Hu Hd Ha H2 H1 Hdd Ho Hf] Haw Hok Hin Hlog2 Hlog1 Hord.
  cbn [e_live e_out e_up e_down e_b e_log] in *. unfold tokens in *; cbn [e_up e_down fmap list_fmap] in *.
  assert (Hperm : (up_id <$> up) ++ (down ++ [(t, up_id u)]).*2 ≡ₚ (up_id u :: (up_id <$> up)) ++ down.*2).
  { rewrite fmap_app, app_assoc. cbn [fmap list_fmap snd]. rewrite (Permutation_app_comm _ [up_id u]). done. }
  assert (Hdn : forall d, d ∈ down -> d.2 <> up_id u).
  { intros d Hx E. cbn [app] in HT. apply NoDup_cons in HT as [HT _]. apply HT, elem_of_app. right. rewrite <- E. by apply list_elem_of_fmap_2. }
  split; cbn [e_live e_out e_up e_down e_b e_log]; unfold tokens; cbn [e_up e_down]; try done.
  - by rewrite Hperm.
  - intros v Hv. apply Hu. by right.
  - intros d [Hx| ->%list_elem_of_singleton]%elem_of_app; [|done].
    eapply down_ok_mono; [by apply Hd|done|]. apply Haw. by apply Hdn.
  - intros id Hi. destruct (decide (id = up_id u)) as [->|Hne]; [by apply Hin|]. apply Ha. by apply Haw.
  - intros id _ Hi. rewrite Hperm. by apply Hf.
Qed.

Lemma untaken_head aw p (ps qs : list PublishPacket) : pub_QoS p = 2 -> pub_PacketID p ∉ aw ->
  untaken aw (p :: ps) = untaken aw qs -> (forall q, q ∈ ps -> pub_PacketID q <> pub_PacketID p) ->
  untaken (pub_PacketID p :: aw) ps = untaken (pub_PacketID p :: aw) qs /\ untaken aw qs = p :: untaken (pub_PacketID p :: aw) qs.
Proof.
  intros Hq Hn E Hne. rewrite !untaken_cons_aw, <- E.
  assert (Hc : untaken aw (p :: ps) = p :: untaken aw ps) by (unfold untaken; by rewrite filter_cons_True).
  assert (Ha : filter (fun q => pub_PacketID q <> pub_PacketID p) (untaken aw ps) = untaken aw ps).
  { apply filter_all, Forall_forall. intros q [_ Hq']%list_elem_of_filter. by apply Hne. }
  rewrite Hc, filter_cons_False by tauto. by rewrite Ha.
Qed.

Lemma out_pubs_ids out : (forall i p, (i, OPub p) ∈ out -> pub_PacketID p = i) -> (pub_PacketID <$> out_pubs out) `sublist_of` out.*1.
Proof.
  induction out as [|[i o] out IH]; intros Hid; [done|].
  assert (IH' := IH (fun j p Hj => Hid j p (list_elem_of_further _ _ _ Hj))).
  destruct o as [p|]; unfold out_pubs in *; cbn [omap list_omap fmap list_fmap fst snd] in *.
  - rewrite (Hid i p) by apply list_elem_of_here. by apply sublist_skip.
  - by apply sublist_cons.
Qed.

Lemma NoDup_out_pubs e : einv e -> NoDup (out_pubs (e_out e)).
Proof.
  intros He. apply (NoDup_fmap_1 pub_PacketID). eapply sublist_NoDup; [exact (v_keys e He)|].
  apply out_pubs_ids. intros i p Hx. apply (v_pub e He i p Hx).
Qed.

(** A QoS 1 packet that has just been passed on covers its own entry. *)
Lemma unacked_covered down ps p : NoDup ps -> (forall q, q ∈ ps -> pub_PacketID q = pub_PacketID p -> q = p) ->
  unacked down ps ⊆+ p :: unacked (down ++ [(Puback, pub_PacketID p)]) ps.
Proof.
  intros Hnd Hp. apply NoDup_submseteq; [by apply NoDup_filter|]. intros q [[Hq Hn] Hin]%list_elem_of_filter.
  destruct (decide (pub_PacketID q = pub_PacketID p)) as [E|E]; [rewrite (Hp q Hin E); apply list_elem_of_here|].
  right. apply list_elem_of_filter. split; [|done]. split; [done|]. rewrite not_elem_of_app, list_elem_of_singleton. naive_solver.
Qed.

Lemma unacked_other down ps t id : t <> Puback -> unacked (down ++ [(t, id)]) ps = unacked down ps.
Proof. intros Ht. apply filter_ext. intros p _. rewrite not_elem_of_app, list_elem_of_singleton. naive_solver. Qed.

Lemma entry_of_id e q p : einv e -> q ∈ out_pubs (e_out e) -> (pub_PacketID p, OPub p) ∈ e_out e ->
  pub_PacketID q = pub_PacketID p -> q = p.
Proof.
  intros He [i Hi]%elem_of_out_pubs Hp E. destruct (v_pub e He i q Hi) as [Hq _]. rewrite <- E, Hq in Hp.
  pose proof (key_unique _ _ _ _ (v_keys e He) Hi Hp). congruence.
Qed.

(** A release takes the identifier from those that are awaited. *)
Lemma einv_serve_rel out id up down b log : einv (mkExchanges true out (URel id :: up) down b log) -> (id, ORel) ∈ out ->
  (forall q, q ∈ up_pubs up -> pub_PacketID q <> id) -> einv (mkExchanges true out up (down ++ [(Pubcomp, id)]) (receive (URel id) b).1 log).
Proof.
  intros He Hx Hud. assert (H2 := v_log2 _ He). assert (H1 := v_log1 _ He). assert (Ho := v_order _ He eq_refl).
  cbn [e_out e_up e_down e_b e_log receive fst] in *. set (b' := mkReceiver _ _).
  assert (Haw : forall q, q ∈ out_pubs out -> pub_PacketID q <> id).
  { intros q [i Hi]%elem_of_out_pubs E. destruct (v_pub _ He i q Hi) as [Hq _].
    rewrite <- Hq, E in Hi. pose proof (key_unique _ _ _ _ (v_keys _ He) Hi Hx). done. }
  assert (E : untaken (r_awaiting b') (out_pubs out) = untaken (r_awaiting b) (out_pubs out)).
  { apply untaken_ext. intros q Hq _. unfold b'. cbn [r_awaiting]. rewrite list_elem_of_filter. specialize (Haw q Hq). tauto. }
  apply (einv_answer out (URel id) up down b log Pubcomp b'); try done; cbn [up_id].
  - intros i Hi. unfold b'. cbn [r_awaiting]. rewrite list_elem_of_filter. tauto.
  - right. right. split_and!; [done| |done]. unfold b'. cbn [r_awaiting snd]. rewrite list_elem_of_filter. tauto.
  - intros Hi. exists ORel. done.
  - by rewrite E.
  - by rewrite unacked_other.
  - rewrite E, <- Ho. unfold up_pubs at 2. cbn [omap list_omap]. apply untaken_ext. intros q Hq _. unfold b'. cbn [r_awaiting].
    rewrite list_elem_of_filter. specialize (Hud q Hq). tauto.
Qed.

Lemma einv_serve out u up down b log : einv (mkExchanges true out (u :: up) down b log) ->
  einv (mkExchanges true out up (down ++ option_list (fst <$> (receive u b).2)) (receive u b).1 log).
Proof.
  intros He. destruct (v_up _ He u (list_elem_of_here _ _)) as (x & Hx & Hu). cbn [e_out] in Hx.
  assert (Hnd := v_tokens _ He). unfold tokens in Hnd. cbn [e_up e_down fmap list_fmap app] in Hnd. apply NoDup_cons in Hnd as [Hn _].
  rewrite not_elem_of_app in Hn. destruct Hn as [Hnu Hnd].
  assert (Hud : forall q, q ∈ up_pubs up -> pub_PacketID q <> up_id u).
  { intros q Hq%elem_of_up_pubs E. apply Hnu. rewrite <- E. exact (list_elem_of_fmap_2 up_id _ _ Hq). }
  assert (H2 := v_log2 _ He). assert (H1 := v_log1 _ He). assert (Ho := v_order _ He eq_refl). cbn [e_out e_up e_down e_b e_log] in *.
  destruct x as [id [p|]].
  - destruct (v_pub _ He id p Hx) as [Hid Hq]. cbn [again snd] in Hu. subst u. cbn [up_id] in *.
    destruct Hq as [Hq|Hq]; cbn [receive]; rewrite Hq; cbn [Z.eqb Pos.eqb option_list fmap option_fmap option_map fst snd].
    + apply (einv_answer out (UPub p) up down b log Puback (mkReceiver (r_awaiting b) (r_got b ++ [content p]))); try done; cbn [up_id r_awaiting r_got].
      * left. split; [done|]. exists p. rewrite Hid. done.
      * intros Hi. apply (v_awaiting _ He _ Hi).
      * rewrite with_qos_app. unfold with_qos at 3. rewrite filter_cons_False by (cbn; lia). by rewrite filter_nil, app_nil_r.
      * etrans; [exact H1|]. rewrite with_qos_app. unfold with_qos at 3. rewrite filter_cons_True, filter_nil, <- app_assoc by done.
        apply submseteq_app; [done|]. change ([content p] ++ ?l) with (content <$> [p] ++ unacked (down ++ [(Puback, pub_PacketID p)]) (out_pubs out)).
        apply fmap_submseteq, unacked_covered; [apply (NoDup_out_pubs _ He)|]. intros q Hq'. apply (entry_of_id _ q p He Hq'). by rewrite Hid.
      * rewrite <- Ho. unfold up_pubs at 2. cbn [omap list_omap]. unfold untaken at 2. rewrite filter_cons_False; [done|lia].
    + case_bool_decide as Hin; cbn [fst snd fmap option_fmap option_map option_list].
      * apply (einv_answer out (UPub p) up down b log Pubrec b); try done; cbn [up_id r_awaiting r_got].
        -- right. left. split_and!; [done..|]. exists p. by rewrite Hid.
        -- intros Hi. apply (v_awaiting _ He _ Hi).
        -- by rewrite unacked_other.
        -- rewrite <- Ho. unfold up_pubs at 2. cbn [omap list_omap]. unfold untaken at 2. rewrite filter_cons_False; [done|tauto].
      * destruct (untaken_head (r_awaiting b) p (up_pubs up) (out_pubs out) Hq Hin Ho Hud) as [E1 E2].
        apply (einv_answer out (UPub p) up down b log Pubrec (mkReceiver (pub_PacketID p :: r_awaiting b) (r_got b ++ [content p])));
          try done; cbn [up_id r_awaiting r_got].
        -- intros i Hi. rewrite elem_of_cons. naive_solver.
        -- right. left. split_and!; [done|apply list_elem_of_here|]. exists p. by rewrite Hid.
        -- intros _. exists (OPub p). rewrite Hid. naive_solver.
        -- rewrite H2, E2, with_qos_app. unfold with_qos at 3. rewrite filter_cons_True, filter_nil, <- app_assoc by done. done.
        -- rewrite unacked_other, with_qos_app by done. unfold with_qos at 3.
           rewrite filter_cons_False by (cbn; lia). by rewrite filter_nil, app_nil_r.
  - cbn [again snd fst] in Hu. subst u. by apply einv_serve_rel.
Qed.

(** The sender takes an answer: nothing else with its identifier is under way. *)
Lemma einv_head live out up t id down b log : einv (mkExchanges live out up ((t, id) :: down) b log) ->
  NoDup ((up_id <$> up) ++ down.*2) /\ (forall u, u ∈ up -> up_id u <> id) /\ (forall d, d ∈ down -> d.2 <> id).
Proof.
  intros He. pose proof (v_tokens _ He) as Hnd. unfold tokens in Hnd. cbn [e_up e_down fmap list_fmap snd] in Hnd.
  rewrite <- Permutation_middle in Hnd. apply NoDup_cons in Hnd as [Hn Hnd]. rewrite not_elem_of_app in Hn. destruct Hn as [Hu Hd].
  split_and!; [done|..].
  - intros u Hx <-. apply Hu. by apply list_elem_of_fmap_2.
  - intros d Hx <-. apply Hd. by apply list_elem_of_fmap_2.
Qed.

Lemma unacked_drop down id ps : unacked down (filter (fun p => pub_PacketID p <> id) ps) = unacked ((Puback, id) :: down) ps.
Proof. unfold unacked. rewrite list_filter_filter. apply list_filter_iff. intros p. rewrite not_elem_of_cons. naive_solver. Qed.

Lemma untaken_drop aw id ps : (forall p, p ∈ ps -> pub_PacketID p = id -> pub_QoS p = 2 -> id ∈ aw) ->
  untaken aw (filter (fun p => pub_PacketID p <> id) ps) = untaken aw ps.
Proof.
  intros Hp. unfold untaken. rewrite list_filter_filter. apply filter_ext. intros p Hin. specialize (Hp p Hin). naive_solver.
Qed.

(** A PUBACK or a PUBCOMP ends the exchange. *)
Lemma einv_finish out up t id down b log : einv (mkExchanges true out up ((t, id) :: down) b log) ->
  id ∉ r_awaiting b -> (forall p, (id, OPub p) ∈ out -> pub_QoS p <> 2) -> (t = Puback \/ forall p, (id, OPub p) ∉ out) ->
  einv (mkExchanges true (drop_out id out) up down b log).
Proof.
  intros He Haw Hq Ht. destruct (einv_head _ _ _ _ _ _ _ _ He) as (Hnd & Hnu & Hnd').
  assert (Hpid : forall i p, (i, OPub p) ∈ out -> pub_PacketID p = i) by (intros i p Hx; apply (v_pub _ He i p Hx)).
  assert (Hag := fun x => again_id _ x He).
  destruct He as [Hk Hp HT Hu Hd Ha H2 H1 Hdd Ho Hf]. cbn [e_live e_out e_up e_down e_b e_log] in *.
  assert (E2 : untaken (r_awaiting b) (out_pubs (drop_out id out)) = untaken (r_awaiting b) (out_pubs out)).
  { rewrite out_pubs_drop by done. apply untaken_drop. intros p [i Hi]%elem_of_out_pubs E Eq. exfalso. apply (Hq p); [|done].
    by rewrite <- E, (Hpid i p Hi). }
  split; cbn [e_live e_out e_up e_down e_b e_log]; unfold tokens; cbn [e_up e_down]; try done.
  - by apply NoDup_drop_out.
  - intros i p [_ Hx]%elem_of_drop_out. by apply Hp.
  - intros u Hx. destruct (Hu u Hx) as (x & Hin & ->). exists x. split; [|done]. apply elem_of_drop_out. split; [|done].
    rewrite <- (Hag x Hin). by apply Hnu.
  - intros d Hx. eapply down_ok_mono; [apply Hd; by right| |done]. intros o Hin. apply elem_of_drop_out. split; [by apply Hnd'|done].
  - intros i Hi. destruct (Ha i Hi) as (o & Hin & Ho'). exists o. split; [|done]. apply elem_of_drop_out. split; [|done]. simpl. by intros ->.
  - by rewrite E2.
  - replace (unacked down _) with (unacked ((t, id) :: down) (out_pubs out)); [done|]. rewrite out_pubs_drop, unacked_drop by done.
    apply filter_ext. intros p [i Hi]%elem_of_out_pubs.
    assert (t = Puback \/ pub_PacketID p <> id) by (destruct Ht as [|Hno]; [by left|right; intros <-; apply (Hno p); by rewrite (Hpid i p Hi)]).
    rewrite !not_elem_of_cons. naive_solver.
  - intros _. rewrite E2. by apply Ho.
  - intros i _ Hi. rewrite drop_out_keys, list_elem_of_filter in Hi. destruct Hi as [Hne Hi]. specialize (Hf i eq_refl Hi).
    unfold tokens in Hf. cbn [e_up e_down fmap list_fmap snd] in Hf. rewrite elem_of_app, elem_of_cons in Hf. rewrite elem_of_app. tauto.
Qed.

Lemma einv_puback out up id down b log : einv (mkExchanges true out up ((Puback, id) :: down) b log) ->
  einv (mkExchanges true (drop_out id out) up down b log).
Proof.
  intros He. destruct (v_down _ He (Puback, id) (list_elem_of_here _ _)) as [[_ (p & Hp & Hq)]|[(? & _)|(? & _)]]; [|done..].
  cbn [e_out snd] in *. assert (Huq : forall q, (id, OPub q) ∈ out -> pub_QoS q = 1).
  { intros q Hx. pose proof (key_unique _ _ _ _ (v_keys _ He) Hp Hx). naive_solver. }
  eapply einv_finish; [exact He| |intros q Hx; rewrite (Huq q Hx); done|by left].
  intros Hi. destruct (v_awaiting _ He id Hi) as (o & Ho & Hoq). pose proof (key_unique _ _ _ _ (v_keys _ He) Hp Ho) as E.
  specialize (Hoq p (eq_sym E)). lia.
Qed.

Lemma einv_pubcomp out up id down b log : einv (mkExchanges true out up ((Pubcomp, id) :: down) b log) ->
  einv (mkExchanges true (drop_out id out) up down b log).
Proof.
  intros He. destruct (v_down _ He (Pubcomp, id) (list_elem_of_here _ _)) as [[? _]|[(? & _)|(_ & Hn & Hr)]]; [done..|].
  cbn [e_out snd] in *. assert (Hno : forall p, (id, OPub p) ∉ out).
  { intros p Hx. by pose proof (key_unique _ _ _ _ (v_keys _ He) Hr Hx). }
  eapply einv_finish; [exact He|done|intros p Hx; by apply Hno in Hx|by right].
Qed.

(** A PUBREC turns the exchange over to its PUBREL. *)
Lemma einv_pubrec out up id down b log : einv (mkExchanges true out up ((Pubrec, id) :: down) b log) ->
  einv (mkExchanges true (drop_out id out ++ [(id, ORel)]) (up ++ [URel id]) down b log).
Proof.
  intros He. destruct (v_down _ He (Pubrec, id) (list_elem_of_here _ _)) as [[? _]|[(_ & Haw & p & Hp & Hq)|(? & _)]]; [done| |done].
  destruct (einv_head _ _ _ _ _ _ _ _ He) as (Hnd & Hnu & Hnd').
  assert (Hpid : forall i p, (i, OPub p) ∈ out -> pub_PacketID p = i) by (intros i q Hx; apply (v_pub _ He i q Hx)).
  assert (Hag := fun x => again_id _ x He).
  destruct He as [Hk Hpu HT Hu Hd Ha H2 H1 Hdd Ho Hf]. cbn [e_live e_out e_up e_down e_b e_log fst snd] in *.
  assert (Epubs : out_pubs (drop_out id out ++ [(id, ORel)]) = filter (fun p => pub_PacketID p <> id) (out_pubs out))
    by (rewrite out_pubs_app, out_pubs_drop by done; apply app_nil_r).
  assert (E2 : untaken (r_awaiting b) (out_pubs (drop_out id out ++ [(id, ORel)])) = untaken (r_awaiting b) (out_pubs out))
    by (rewrite Epubs; by apply untaken_drop).
  assert (Hkeep : forall i o, i <> id -> (i, o) ∈ out -> (i, o) ∈ drop_out id out ++ [(id, ORel)]).
  { intros i o Hne Hx. apply elem_of_app. left. by apply elem_of_drop_out. }
  split; cbn [e_live e_out e_up e_down e_b e_log]; unfold tokens; cbn [e_up e_down]; try done.
  - rewrite fmap_app. cbn [fmap list_fmap fst]. rewrite drop_out_keys, NoDup_app. split_and!; [by apply NoDup_filter| |apply NoDup_singleton].
    intros i [Hne _]%list_elem_of_filter ->%list_elem_of_singleton. done.
  - intros i q [[_ Hx]%elem_of_drop_out|Hx%list_elem_of_singleton]%elem_of_app; [by apply Hpu|done].
  - rewrite fmap_app, <- app_assoc. cbn [fmap list_fmap up_id app]. rewrite <- Permutation_middle. apply NoDup_cons. split; [|done].
    rewrite not_elem_of_app. split; intros (y & Hy & Hin)%list_elem_of_fmap; [by apply (Hnu y)|by apply (Hnd' y)].
  - intros u [Hx| ->%list_elem_of_singleton]%elem_of_app.
    + destruct (Hu u Hx) as ([i o] & Hin & ->). exists (i, o). split; [|done]. apply Hkeep; [|done]. rewrite <- (Hag (i, o) Hin : _ = i). by apply Hnu.
    + exists (id, ORel). split; [|done]. apply elem_of_app. right. apply list_elem_of_here.
  - intros d Hx. eapply down_ok_mono; [apply Hd; by right| |done]. intros o Hin. apply Hkeep; [by apply Hnd'|done].
  - intros i Hi. destruct (decide (i = id)) as [->|Hne].
    + exists ORel. split; [|done]. apply elem_of_app. right. apply list_elem_of_here.
    + destruct (Ha i Hi) as (o & Hin & Ho'). exists o. split; [by apply Hkeep|done].
  - by rewrite E2.
  - replace (unacked down _) with (unacked ((Pubrec, id) :: down) (out_pubs out)); [done|]. rewrite Epubs, unacked_drop.
    apply filter_ext. intros q [i Hi]%elem_of_out_pubs. rewrite !not_elem_of_cons.
    assert (pub_PacketID q = id -> pub_QoS q = 2); [|naive_solver lia]. intros <-. rewrite <- (Hpid i q Hi) in Hi.
    pose proof (key_unique _ _ _ _ Hk Hp Hi). naive_solver.
  - intros _. rewrite E2, up_pubs_app. cbn. rewrite app_nil_r. by apply Ho.
  - intros i _. rewrite !fmap_app, !elem_of_app. cbn [fmap list_fmap up_id fst]. rewrite list_elem_of_singleton.
    intros [Hi|Hi]; [|tauto]. rewrite drop_out_keys, list_elem_of_filter in Hi. destruct Hi as [Hne Hi]. specialize (Hf i eq_refl Hi).
    unfold tokens in Hf. cbn [e_up e_down fmap list_fmap snd] in Hf. rewrite elem_of_app, elem_of_cons in Hf. tauto.
Qed.

Lemma unacked_fewer down ps : unacked down ps `sublist_of` unacked [] ps.
Proof.
  unfold unacked. induction ps as [|p ps IH]; [done|]. rewrite !filter_cons. destruct (decide (pub_QoS p = 1)) as [Hq|Hq].
  - case_decide; (case_decide as H0; [|exfalso; apply H0; split; [done|apply not_elem_of_nil]]); [by apply sublist_skip|by apply sublist_cons].
  - by rewrite !decide_False by tauto.
Qed.

Lemma einv_drop live out up down b log : einv (mkExchanges live out up down b log) -> einv (mkExchanges false out [] [] b log).
Proof.
  intros [Hk Hp HT Hu Hd Ha H2 H1 Hdd Ho Hf]. cbn [e_live e_out e_up e_down e_b e_log] in *.
  split; cbn [e_live e_out e_up e_down e_b e_log]; try done; try (by intros ? ?%elem_of_nil); [constructor|].
  etrans; [exact H1|]. apply submseteq_app; [done|]. apply fmap_submseteq, sublist_submseteq, unacked_fewer.
Qed.

Lemma einv_resume live out up down b log : einv (mkExchanges live out up down b log) ->
  einv (mkExchanges true out (again <$> out) [] b log).
Proof.
  intros He. assert (Hag := fun x => again_id _ x He). apply einv_drop in He.
  destruct He as [Hk Hp HT Hu Hd Ha H2 H1 Hdd Ho Hf]. cbn [e_live e_out e_up e_down e_b e_log] in *.
  assert (Hids : up_id <$> (again <$> out) = out.*1).
  { rewrite <- list_fmap_compose. apply list_fmap_ext. intros i x Hi. apply Hag. by eapply list_elem_of_lookup_2. }
  split; cbn [e_live e_out e_up e_down e_b e_log]; unfold tokens; cbn [e_up e_down fmap list_fmap]; rewrite ?app_nil_r, ?Hids; try done.
  - intros u (x & -> & Hx)%list_elem_of_fmap. by exists x.
  - by rewrite up_pubs_again.
Qed.

Lemma einv_init : einv (mkExchanges false [] [] [] (mkReceiver [] []) []).
Proof.
  split; cbn; try done; try (by intros ? ?%elem_of_nil); try (by intros ? ? ?%elem_of_nil); constructor.
Qed.

Lemma einv_qos0 live out up down b log m : pub_QoS m = 0 -> einv (mkExchanges live out up down b log) ->
  einv (mkExchanges live out up down (mkReceiver (r_awaiting b) (r_got b ++ [m])) log).
Proof.
  intros Hm [Hk Hp HT Hu Hd Ha H2 H1 Hdd Ho Hf]. cbn [e_live e_out e_up e_down e_b e_log] in *.
  assert (E : forall q, 0 < q -> with_qos q (r_got b ++ [m]) = with_qos q (r_got b)).
  { intros q Hq. rewrite with_qos_app. unfold with_qos at 2. rewrite filter_cons_False, filter_nil by lia. apply app_nil_r. }
  split; cbn [e_live e_out e_up e_down e_b e_log r_awaiting r_got]; rewrite ?E by lia; done.
Qed.

Lemma estep_inv e e' : estep e e' -> einv e -> einv e'.
Proof.
  destruct 1; eauto using einv_publish, einv_serve, einv_puback, einv_pubrec, einv_pubcomp, einv_qos0, einv_drop, einv_resume, einv_init.
Qed.

Lemma esteps_inv e e' : rtc estep e e' -> einv e -> einv e'.
Proof. induction 1; eauto using estep_inv. Qed.

(** Nothing is made up: what is under way and what was passed on, QoS 0 apart, was
    accepted for sending. *)
Definition genuine (e : exchanges) : Prop :=
  (forall id p, (id, OPub p) ∈ e_out e -> content p ∈ e_log e) /\ (forall m, m ∈ r_got (e_b e) -> pub_QoS m = 0 \/ m ∈ e_log e).

Lemma receive_got u b m : m ∈ r_got (receive u b).1 -> m ∈ r_got b \/ exists p, u = UPub p /\ m = content p.
Proof.
  destruct u as [p|id]; cbn [receive]; [|by left]. assert (Hnew : m ∈ r_got b ++ [content p] -> m ∈ r_got b \/ exists p0, UPub p = UPub p0 /\ m = content p0).
  { rewrite elem_of_app, list_elem_of_singleton. intros [?| ->]; [by left|]. right. by exists p. }
  repeat (case_match || case_bool_decide); try done. by left.
Qed.

Lemma estep_genuine e e' : estep e e' -> einv e -> genuine e -> genuine e'.
Proof.
  intros Hs Hi [H1 H2]. assert (Hdrop : forall id i p, (i, OPub p) ∈ drop_out id (e_out e) -> content p ∈ e_log e)
    by (intros id i p [_ Hx]%elem_of_drop_out; by eapply H1).
  destruct Hs; split; cbn [e_out e_log e_b r_got] in *; try done; try (by intros ? ? ?%elem_of_nil); try (by intros ? ?%elem_of_nil); try (by intros; eapply Hdrop).
  - intros id q [Hx|[= -> ->]%list_elem_of_singleton]%elem_of_app; apply elem_of_app; [left; by eapply H1|right; apply list_elem_of_here].
  - intros m Hm. rewrite elem_of_app. destruct (H2 m Hm); tauto.
  - intros m [Hm|(p & -> & ->)]%receive_got; [by apply H2|right]. destruct (v_up _ Hi _ (list_elem_of_here _ _)) as ([i [q|]] & Hx & E); [|done].
    injection E as ->. by eapply H1.
  - intros i p [Hx|Hx%list_elem_of_singleton]%elem_of_app; [by eapply Hdrop|done].
  - intros m' [Hm| ->%list_elem_of_singleton]%elem_of_app; [by apply H2|by left].
Qed.

Lemma esteps_genuine e e' : rtc estep e e' -> einv e -> genuine e -> genuine e'.
Proof. induction 1; eauto using estep_inv, estep_genuine. Qed.

(** * Rest *)

(** With nothing under way, nothing is unfinished. *)
Lemma einv_rest e : einv e -> e_live e = true -> e_up e = [] -> e_down e = [] -> e_out e = [].
Proof.
  intros He Hl Hu Hd. destruct (e_out e) as [|x out] eqn:Ho; [done|].
  assert (Hx : x.1 ∈ tokens e) by (apply (v_flight e He _ Hl); rewrite Ho; apply list_elem_of_here).
  unfold tokens in Hx. rewrite Hu, Hd in Hx. by apply elem_of_nil in Hx.
Qed.

(** How many packets are still to be handled on behalf of what is under way. *)
Definition hops_up (u : upward) : nat := match u with UPub p => if pub_QoS p =? 1 then 2 else 4 | URel _ => 2 end.
Definition hops_down (d : Z * Z) : nat := if d.1 =? Pubrec then 3 else 1.
Definition load (e : exchanges) : nat := (sum_list_with hops_up (e_up e) + sum_list_with hops_down (e_down e))%nat.

Lemma serve_load out u up down b log a : (forall p, u = UPub p -> pub_QoS p = 1 \/ pub_QoS p = 2) -> (receive u b).2 = Some a ->
  (sum_list_with hops_up up + sum_list_with hops_down (down ++ [a.1]) < load (mkExchanges true out (u :: up) down b log))%nat.
Proof.
  intros Hq Ha. unfold load. cbn [e_up e_down sum_list_with]. rewrite sum_list_with_app. cbn [sum_list_with].
  assert (hops_down a.1 < hops_up u)%nat; [|lia]. destruct u as [p|id]; cbn [receive hops_up] in *; [|injection Ha as <-; unfold hops_down; cbn; lia].
  destruct (Hq p eq_refl) as [E|E]; rewrite E in *; cbn [Z.eqb Pos.eqb] in *; [|case_bool_decide]; injection Ha as <-; unfold hops_down; cbn; lia.
Qed.

(** * What an acknowledgement vouches for *)

(** A message that is acknowledged, or whose identifier the receiver keeps, has
    been passed on. *)
Definition vouched (e : exchanges) : Prop :=
  (forall id p, (Puback, id) ∈ e_down e -> (id, OPub p) ∈ e_out e -> content p ∈ r_got (e_b e)) /\
  (forall id p, id ∈ r_awaiting (e_b e) -> (id, OPub p) ∈ e_out e -> content p ∈ r_got (e_b e)).

Lemma receive_grows u b m : m ∈ r_got b -> m ∈ r_got (receive u b).1.
Proof.
  destruct u as [p|id]; cbn [receive]; [|done]. intros Hm. repeat (case_match || case_bool_decide); try done; apply elem_of_app; by left.
Qed.

Lemma served_vouched out u up down b log : einv (mkExchanges true out (u :: up) down b log) -> vouched (mkExchanges true out (u :: up) down b log) ->
  vouched (mkExchanges true out up (down ++ option_list (fst <$> (receive u b).2)) (receive u b).1 log).
Proof.
  intros He [V1 V2]. cbn [e_down e_out e_b] in *. destruct (v_up _ He u (list_elem_of_here _ _)) as ([i o] & Hx & Eu).
  assert (Huniq : forall p q, u = UPub p -> (pub_PacketID p, OPub q) ∈ out -> q = p).
  { intros p q -> Hq. destruct o as [p'|]; [|done]. injection Eu as ->. rewrite (proj1 (v_pub _ He i p' Hx)) in Hq.
    by injection (key_unique _ _ _ _ (v_keys _ He) Hq Hx). }
  split; cbn [e_down e_out e_b].
  - intros id q Hd Hq. apply elem_of_app in Hd as [Hd|Hd]; [by apply receive_grows, (V1 id)|].
    destruct u as [p|id']; cbn [receive] in *; [|by apply list_elem_of_singleton in Hd].
    destruct (pub_QoS p =? 0); [by apply elem_of_nil in Hd|]. destruct (pub_QoS p =? 1).
    + apply list_elem_of_singleton in Hd as [= ->]. rewrite (Huniq p q eq_refl Hq). cbn. apply elem_of_app. right. apply list_elem_of_here.
    + case_bool_decide; by apply list_elem_of_singleton in Hd.
  - intros id q Ha Hq. destruct u as [p|id']; cbn [receive] in *.
    + destruct (pub_QoS p =? 0); [cbn in *; apply elem_of_app; left; by apply (V2 id)|].
      destruct (pub_QoS p =? 1); [cbn in *; apply elem_of_app; left; by apply (V2 id)|]. case_bool_decide; [by apply (V2 id)|]. cbn in *.
      apply elem_of_app. apply elem_of_cons in Ha as [->|Ha]; [right; rewrite (Huniq p q eq_refl Hq); apply list_elem_of_here|left; by apply (V2 id)].
    + cbn in *. apply list_elem_of_filter in Ha as [_ Ha]. by apply (V2 id).
Qed.

Lemma estep_vouched e e' : estep e e' -> einv e -> vouched e -> vouched e'.
Proof.
  intros Hs He Hv. assert (Hold := fun id => token_stored e id He). pose proof Hv as [V1 V2].
  assert (Hdrop : forall id i p, (i, OPub p) ∈ drop_out id (e_out e) -> (i, OPub p) ∈ e_out e) by (intros id i p [_ Hx]%elem_of_drop_out; done).
  destruct Hs; try (by apply served_vouched); split; cbn [e_out e_down e_b r_got r_awaiting] in *;
    try (by intros ? ? ?%elem_of_nil); try (by intros ? ? _ ?%elem_of_nil).
  - intros id q Hd [Hx|[= -> ->]%list_elem_of_singleton]%elem_of_app; [by apply (V1 id)|]. exfalso. apply H, Hold. unfold tokens. cbn [e_up e_down].
    apply elem_of_app. right. exact (list_elem_of_fmap_2 snd _ _ Hd).
  - intros id q Ha [Hx|[= -> ->]%list_elem_of_singleton]%elem_of_app; [by apply (V2 id)|]. exfalso. destruct (v_awaiting _ He _ Ha) as (o & Ho & _).
    apply H. exact (list_elem_of_fmap_2 fst _ _ Ho).
  - intros i q Hd Hx%Hdrop. apply (V1 i); [by right|done].
  - intros i q Ha Hx%Hdrop. by apply (V2 i).
  - intros i q Hd [Hx%Hdrop|Hx%list_elem_of_singleton]%elem_of_app; [|done]. apply (V1 i); [by right|done].
  - intros i q Ha [Hx%Hdrop|Hx%list_elem_of_singleton]%elem_of_app; [|done]. by apply (V2 i).
  - intros i q Hd Hx%Hdrop. apply (V1 i); [by right|done].
  - intros i q Ha Hx%Hdrop. by apply (V2 i).
  - intros i q Hd Hx. apply elem_of_app. left. by apply (V1 i).
  - intros i q Ha Hx. apply elem_of_app. left. by apply (V2 i).
  - exact V2.
  - exact V2.
Qed.

Lemma esteps_vouched e e' : rtc estep e e' -> einv e -> vouched e -> vouched e'.
Proof. induction 1; eauto using estep_inv, estep_vouched. Qed.
