(* ===== verification/World.v ===== *)
(** The client at work against a broker, across connections.

    The broker reads the frames of the current connection in order and answers
    as the receiver of Delivery does; its answers arrive as bytes on the socket.
    Connections are lost between any two actions, in the middle of a publish
    ([WTorn]) and while a message handler runs ([Observers]); sessions are resumed
    or renewed; next to the publishes, subscribe and unsubscribe calls, whose
    critical sections are actions of their own, and the keep-alive loop run.

    A publish is one action up to its return or its wait: nothing but the loss of
    its connection comes between its critical sections.  Flow and Exchange have
    them interleaved with everything else. *)

From S2P Require Import Prelude GoStrings Codes Wire WireFacts Props PropsFacts PublishPackets ControlPackets.
From S2P Require Import SubscribePackets Topic SessionStore Errors IdAllocator Quota Subscriptions Lifecycle.
From S2P Require Import Client Pump Requests Connection ClientFacts SessionFacts Delivery.
From stdpp Require Import options.

(** * The broker's side of the wire *)

Definition undup (p : PublishPacket) : PublishPacket :=
  mkPublish (pub_Version p) (pub_Topic p) (pub_Payload p) (pub_QoS p) (pub_Retain p) false (pub_PacketID p) (pub_Properties p).

(** What a broker makes of a frame: a PUBLISH, whose DUP flag it does not rely on,
    a PUBREL, or something that is no part of an outbound exchange. *)
Definition hear (v : Z) (f : list Z) : option upward :=
  match ReadFrame f 4294967295 with
  | Err _ => None
  | Ok (frame, _) =>
    if Frame_PacketType frame =? Publish then
      match DecodePublish v (Header frame) (Body frame) with Ok p => Some (UPub (undup p)) | Err _ => None end
    else if Frame_PacketType frame =? Pubrel then
      match DecodeAck v Pubrel (Body frame) with Ok a => Some (URel (ack_PacketID a)) | Err _ => None end
    else None
  end.

(** What it makes of the client's answers to its own messages: the type and the
    identifier of an acknowledgement. *)
Definition overhear (v : Z) (f : list Z) : option (Z * Z) :=
  match ReadFrame f 4294967295 with
  | Err _ => None
  | Ok (frame, _) =>
    let t := Frame_PacketType frame in
    if bool_decide (t ∈ [Puback; Pubrec; Pubcomp]) then
      match DecodeAck v t (Body frame) with Ok a => Some (t, ack_PacketID a) | Err _ => None end
    else None
  end.

(** The bytes of an answer. *)
Definition reply (v : Z) (a : Z * Z * Z) : list Z :=
  match AckPacket_EncodeAck (mkAck v a.1.1 a.1.2 a.2 None) [] with Ok f => f | Err _ => [] end.

(** * Calls that hold an identifier of their own *)

Inductive task : Type :=
| TSub (l : nat) (filter : list Z) (options : SubscribeOptions) (subID handler : Z) (pc : sub_pc)
| TUns (l : nat) (filter : list Z) (pc : uns_pc)
| TAwait (pc : await_pc).

Definition req_holds (pc : req_pc) : option (Z * Z) :=
  match pc with
  | RRegister id g | RWrite id g _ | RWait id g _ | RForget id g _ _ | RFree id g _ => Some (id, g)
  | RId | RDone _ => None
  end.

(** The identifier a call holds, with its generation. *)
Definition holds (t : task) : option (Z * Z) :=
  match t with
  | TSub _ _ _ _ _ (SubRequest _ _ pc) => req_holds pc
  | TUns _ _ (UnsRequest _ pc) => req_holds pc
  | TAwait (AWait id g _ | AForget id g _ | AFree id g) => Some (id, g)
  | _ => None
  end.

(** Message handlers that do not use the client.  While one of them runs, the
    connection may be lost. *)
Class Observers (St : Type) {HE : Environment St} : Prop := observes h m (c : client St) :
  callback h m c = c \/ exists l g, c_link c = Some l /\ callback h m c = teardownLink l g c.

Section world.
Context {St : Type} {HS : SessionStore St} {HC : ContainsStore St} {HE : Environment St}.
Implicit Types c : client St.

Definition task_step (ev : wake_event) (t : task) : cmd St task := fun c =>
  match t with
  | TSub l filter options subID h pc =>
    let '(pc, c) := subscribe_step l filter options subID h ev pc c in (TSub l filter options subID h pc, c)
  | TUns l filter pc => let '(pc, c) := unsubscribe_step l filter ev pc c in (TUns l filter pc, c)
  | TAwait pc => let '(pc, c) := awaitResubscribe_step ev pc c in (TAwait pc, c)
  end.

(** * Client and broker together *)

(** The client, the calls in progress, how many frames of the current connection
    the broker has read, the broker's session, and the messages that Publish has
    sent in this session. *)
Record world : Type := mkWorld {
  w_c : client St;
  w_tasks : list task;
  w_read : nat;
  w_b : receiver;
  w_log : list PublishPacket
}.

Definition with_client c (w : world) : world := mkWorld c (w_tasks w) (w_read w) (w_b w) (w_log w).

Inductive waction : Type :=
| WPublish (topic payload : list Z) (qos : Z) (retain : bool) (opts : list PublishOption)
| WServe
| WRead
| WInject (frame : list Z)
| WDrop (graceful : bool)
| WTick
| WDisconnect
| WConnect (d : dialling)
| WSubscribe (filter : list Z) (qos handler : Z) (opts : list SubscribeOption)
| WUnsubscribe (filter : list Z)
| WTask (i : nat) (ev : wake_event)
| WTorn (topic payload : list Z) (qos : Z) (retain : bool) (opts : list PublishOption) (n : nat) (graceful : bool).

(** The message a call of Publish sends: as the broker will see it, without
    identifier and DUP flag. *)
Definition message (p : PublishPacket) : PublishPacket := content (canon_publish p).

Definition arrive (l : nat) (bytes : list Z) c : client St :=
  upd_conn (l_conn (the_link c l)) (fun cn => set_cn_r (cn_r cn ++ bytes) cn) c.

(** The client after the read loop has taken a frame from the socket. *)
Definition taken_from (l : nat) (rest : list Z) c : client St := upd_conn (l_conn (the_link c l)) (set_cn_r rest) c.

(** A Publish runs until it returns or waits: ten turns are enough. *)
Definition publish_turns : list wake_event := replicate 10 Run.

(** A Publish that loses its connection after [n] of its critical sections, and
    goes on until it returns. *)
Definition torn_publish (l : nat) (pkt : PublishPacket) (n : nat) (graceful : bool) : cmd St pub_pc := fun c =>
  let '(pc, c) := publishAcked l pkt (replicate n Run) c in
  fold_left (fun '(pc, c) ev => pub_step l pkt ev pc c) publish_turns (pc, teardownLink l graceful c).

(** With QoS 0 there is one section, the write.  With QoS 1 and 2 the frame goes
    out in the fifth: a connection lost after it is a [WPublish] and a [WDrop]. *)
Definition torn_call (topic payload : list Z) (qos : Z) (retain : bool) (opts : list PublishOption) (n : nat) (graceful : bool) :
    client St -> option (nat * PublishPacket * (pub_pc * client St)) := fun c =>
  match Publish_check topic payload qos retain opts c with
  | inl _ => None
  | inr (l, pkt) =>
    if qos =? 0 then let '(err, c') := writeFrame (Some l) (PublishPacket_Encode pkt) (teardownLink l graceful c) in Some (l, pkt, (PDone err, c'))
    else if (n <? 5)%nat then Some (l, pkt, torn_publish l pkt n graceful c) else None
  end.

Definition wstep (a : waction) (w : world) : option world :=
  let c := w_c w in
  match a with
  | WPublish topic payload qos retain opts =>
    let '(pc, c') := client_Publish topic payload qos retain opts publish_turns c in
    let log := match Publish_check topic payload qos retain opts c, pc with
      | inr (_, pkt), PWait _ _ => w_log w ++ [message pkt]
      | _, _ => w_log w
      end in
    Some (mkWorld c' (w_tasks w) (w_read w) (w_b w) log)
  | WServe =>
    l ← c_link c;
    f ← written c l !! w_read w;
    match hear (c_version c) f with
    | None => Some (mkWorld c (w_tasks w) (S (w_read w)) (w_b w) (w_log w))
    | Some u =>
      let '(b, answer) := receive u (w_b w) in
      let c' := match answer with Some a => arrive l (reply (c_version c) a) c | None => c end in
      Some (mkWorld c' (w_tasks w) (S (w_read w)) b (w_log w))
    end
  | WRead =>
    l ← c_link c;
    if bool_decide (cn_r (the_conn c l) = []) then None else Some (with_client (readLoop_turn l c).2 w)
  | WInject frame => l ← c_link c; Some (with_client (arrive l frame c) w)
  | WDrop graceful => l ← c_link c; Some (with_client (teardownLink l graceful c) w)
  | WTick => l ← c_link c; Some (with_client (keepAliveLoop_tick l c).2 w)
  | WDisconnect => Some (with_client (client_Disconnect c).2 w)
  | WConnect d =>
    if is_some (c_link c) then None
    else
      let '((_, awaiting), c') := client_Connect d c in
      let tasks := w_tasks w ++ (TAwait <$> awaiting) in
      if gen (c_ids c') =? gen (c_ids c) then Some (mkWorld c' tasks 0 (w_b w) (w_log w))
      else Some (mkWorld c' tasks 0 (mkReceiver [] []) [])
  | WSubscribe filter qos handler opts =>
    match Subscribe_check filter qos opts c with
    | inl _ => None
    | inr (l, options, subID) =>
      Some (mkWorld c (w_tasks w ++ [TSub l filter options subID handler SubSnapshot]) (w_read w) (w_b w) (w_log w))
    end
  | WUnsubscribe filter =>
    match Unsubscribe_check filter c with
    | inl _ => None
    | inr l => Some (mkWorld c (w_tasks w ++ [TUns l filter UnsSnapshot]) (w_read w) (w_b w) (w_log w))
    end
  | WTask i ev =>
    t ← w_tasks w !! i;
    let '(t', c') := task_step ev t c in
    Some (mkWorld c' (<[i := t']> (w_tasks w)) (w_read w) (w_b w) (w_log w))
  | WTorn topic payload qos retain opts n graceful =>
    '(_, (_, c')) ← torn_call topic payload qos retain opts n graceful c;
    Some (with_client c' w)
  end.

Fixpoint wsteps (acts : list waction) (w : world) : option world :=
  match acts with [] => Some w | a :: acts => wstep a w ≫= wsteps acts end.

Definition start c : world := mkWorld c [] 0 (mkReceiver [] []) [].

(** * What is assumed of a run

    Arguments have the values of their Go types; the store has a sequence number
    to give; what the broker sends on its own is any packet within the client's
    limit, but no acknowledgement of a publish; a CONNACK comes alone and
    announces the limit [M] each time (0 for none). *)

Context {HL : SessionStoreLaws St}.

Definition lawful (M : Z) (a : waction) (w : world) : Prop :=
  let c := w_c w in
  match a with
  | WPublish _ _ qos _ opts | WTorn _ _ qos _ opts _ _ =>
    in_u8 qos /\ opt_in in_u32 (po_messageExpiry (fold_left (fun o opt => opt o) opts noPublishOptions)) /\ store_room (c_store c)
  | WRead => store_room (c_store c)
  | WInject frame => exists h body, frame = packet_bytes h body /\ len frame <= c_inboundMax c /\ len body <= maxVarint /\
      Z.shiftr h 4 ∉ [Puback; Pubrec; Pubcomp]
  | WConnect d => in_u64 (gen (c_ids c) + 1) /\
      forall frame rest ack, ReadFrame (d_bytes d) (c_inboundMax c) = Ok (frame, rest) -> rest = [] /\
        (DecodeConnack (c_version c) (Body frame) = Ok ack -> cr_MaximumPacketSize (buildConnectResult ack) = M)
  | _ => True
  end.

Fixpoint lawful_run (M : Z) (acts : list waction) (w : world) : Prop :=
  match acts with
  | [] => True
  | a :: acts => lawful M a w /\ match wstep a w with Some w' => lawful_run M acts w' | None => True end
  end.
End world.
