(* ===== verification/WorldFacts.v ===== *)
(** What the operations of the client do to the outbound exchanges: most leave
    them alone, a write adds a frame to the connection or brings it down. *)

From S2P Require Import Prelude GoStrings Codes Wire WireFacts Props PropsFacts PublishPackets ControlPackets.
From S2P Require Import SubscribePackets Topic SessionStore Errors IdAllocator Quota Subscriptions Lifecycle.
From S2P Require Import Client Pump Requests Connection ClientFacts SessionFacts RequestFacts LinkFacts Wellformed Delivery World.
From stdpp Require Import options.

(** The part of a frame that belongs to an exchange: a PUBLISH with an identifier
    or a PUBREL. *)
Definition heed (v : Z) (f : list Z) : option upward :=
  match hear v f with
  | Some (UPub p) => if pub_QoS p =? 0 then None else Some (UPub p)
  | r => r
  end.

(** No part of an exchange of the client's messages; no part of any exchange. *)
Definition unheeded (v : Z) (f : list Z) : Prop := heed v f = None.
Definition muted (v : Z) (f : list Z) : Prop := unheeded v f /\ overhear v f = None.

Lemma muted_unheeded v fs : Forall (muted v) fs -> Forall (unheeded v) fs.
Proof. intros H. eapply Forall_impl; [exact H|]. by intros f []. Qed.

Lemma omap_unheeded v fs : Forall (unheeded v) fs -> omap (heed v) fs = [].
Proof. induction 1 as [|f fs Hf _ IH]; [done|]. cbn. by rewrite Hf. Qed.

Lemma omap_unacknowledged v fs : Forall (muted v) fs -> omap (overhear v) fs = [].
Proof. induction 1 as [|f fs [_ Hf] _ IH]; [done|]. cbn. by rewrite Hf. Qed.

Section facts.
Context {St : Type} {HS : SessionStore St} {HC : ContainsStore St} {HE : Environment St}.
Implicit Types c : client St.

(** * Steps that keep the connection *)

(** The current link stays, and [fs] went out on it. *)
Definition steady (fs : list (list Z)) c c' : Prop :=
  c_link c' = c_link c /\ forall l, c_link c = Some l ->
    l_idGen (the_link c' l) = l_idGen (the_link c l) /\ l_outboundMax (the_link c' l) = l_outboundMax (the_link c l) /\
    l_inboundMax (the_link c' l) = l_inboundMax (the_link c l) /\ cn_r (the_conn c' l) = cn_r (the_conn c l) /\
    written c' l = written c l ++ fs.

Definition kept_session c c' : Prop :=
  c_store c' = c_store c /\ c_version c' = c_version c /\ c_inboundMax c' = c_inboundMax c.

(** Nothing of the exchanges changed, unless the connection went down. *)
Definition hushed c c' : Prop :=
  kept_session c c' /\ (c_link c' = None \/ exists fs, steady fs c c' /\ Forall (muted (c_version c)) fs).

#[export] Instance hushed_refl : Reflexive hushed.
Proof.
  intros c. split; [done|]. right. exists []. split; [|constructor]. split; [done|]. intros l _. by rewrite app_nil_r.
Qed.

Lemma steady_trans fs fs' c c1 c2 : steady fs c c1 -> steady fs' c1 c2 -> steady (fs ++ fs') c c2.
Proof.
  intros [E1 H1] [E2 H2]. split; [congruence|]. intros l Hl. destruct (H1 l Hl) as (? & ? & ? & ? & ?).
  destruct (H2 l) as (? & ? & ? & ? & ?); [congruence|]. split_and!; try congruence. rewrite app_assoc. congruence.
Qed.

#[export] Instance hushed_trans : Transitive hushed.
Proof.
  intros c c1 c2 [(S1 & V1 & I1) H1] [(S2 & V2 & I2) H2]. split; [split_and!; congruence|].
  destruct H2 as [H2|(fs2 & H2 & M2)]; [by left|]. destruct H1 as [H1|(fs1 & H1 & M1)].
  - left. destruct H2 as [-> _]. done.
  - right. exists (fs1 ++ fs2). split; [by eapply steady_trans|]. apply Forall_app. rewrite V1 in M2. done.
Qed.

(** A change of fields that the connection does not depend on. *)
Lemma steady_fields c c' : c_link c' = c_link c -> c_links c' = c_links c -> c_conns c' = c_conns c -> steady [] c c'.
Proof.
  intros El Elk Ek. split; [done|]. intros l _. unfold written, the_conn, the_link. by rewrite Elk, Ek, app_nil_r.
Qed.

Lemma hushed_fields c c' : c_link c' = c_link c -> c_links c' = c_links c -> c_conns c' = c_conns c ->
  c_store c' = c_store c -> c_version c' = c_version c -> c_inboundMax c' = c_inboundMax c -> hushed c c'.
Proof. intros El Elk Ek Es Ev Ei. split; [done|]. right. exists []. split; [by apply steady_fields|constructor]. Qed.

Lemma steady_upd_link l f c : (forall k, l_conn (f k) = l_conn k) -> (forall k, l_idGen (f k) = l_idGen k) ->
  (forall k, l_outboundMax (f k) = l_outboundMax k) -> (forall k, l_inboundMax (f k) = l_inboundMax k) -> steady [] c (upd_link l f c).
Proof.
  intros H1 H2 H3 H4. split; [done|]. intros l' _. unfold written, the_conn. rewrite the_link_upd, app_nil_r.
  change (c_conns (upd_link l f c)) with (c_conns c). case_decide; subst; rewrite ?H1, ?H2, ?H3, ?H4; done.
Qed.

(** ** Teardown *)

Lemma unstopped_link l c : isStopping l c = false -> is_Some (c_links c !! l).
Proof.
  unfold isStopping, the_link. rewrite lookup_total_alt. destruct (c_links c !! l) as [lk|] eqn:E; [by exists lk|]. intros H. discriminate H.
Qed.

Lemma teardown_steady l g c : wf_client c -> c_link (teardownLink l g c) = None \/ steady [] c (teardownLink l g c).
Proof.
  intros Hw. destruct (isStopping l c) eqn:Hst; [right; rewrite teardown_idem by done; by apply steady_fields|].
  destruct (decide (c_link c = Some l)) as [Hl|Hl]; [left; by apply (teardown_current l g c)|]. right.
  destruct (teardown_other l g c Hl) as (El & _). destruct (teardown_links l g c Hst) as [Elk Ek]. split; [done|].
  intros l' Hl'. assert (Hne : l' <> l) by congruence. destruct (wc_link c Hw l' Hl') as (lk' & Hlk' & _).
  destruct (unstopped_link l c Hst) as [lk Hlk].
  assert (Hthe : the_link (teardownLink l g c) l' = the_link c l') by (unfold the_link; by rewrite Elk, lookup_total_insert_ne by done).
  assert (Hk : l_conn (the_link c l) <> l_conn (the_link c l')).
  { unfold the_link. rewrite (lookup_total_correct _ _ _ Hlk), (lookup_total_correct _ _ _ Hlk'). intros E. apply Hne.
    by eapply (wc_inj c Hw). }
  unfold written, the_conn. rewrite Hthe, Ek, lookup_total_insert_ne, app_nil_r by done. done.
Qed.

Lemma teardown_hushed l g c : wf_client c -> hushed c (teardownLink l g c).
Proof.
  intros Hw. pose proof (teardown_same l g c) as Hs. split; [by destruct Hs|].
  destruct (teardown_steady l g c Hw) as [H|H]; [by left|right]. exists []. split; [done|constructor].
Qed.

(** ** Writing a frame *)

(** What a write on an existing link does: it is refused, it fails, or it puts
    the frame on the connection. *)
Inductive wrote (l : nat) (encode : list Z -> res (list Z)) c : option goerror * client St -> Prop :=
| wrote_refused e :
    (forall f, encode [] = Ok f -> l_outboundMax (the_link c l) <> 0 /\ l_outboundMax (the_link c l) < u32 (len f)) ->
    wrote l encode c (Some e, c)
| wrote_failed e c' : same_session c c' -> (c_link c = Some l -> c_link c' = None) ->
    c_link c' = None \/ steady [] c c' -> wrote l encode c (Some e, c')
| wrote_sent f k g : encode [] = Ok f -> l_outboundMax (the_link c l) = 0 \/ u32 (len f) <= l_outboundMax (the_link c l) ->
    steady (if decide (c_link c = Some l) then [f] else []) c (upd_conn k g c) ->
    wrote l encode c (None, upd_conn k g c).

Lemma steady_write l f c : wf_client c -> is_Some (c_links c !! l) ->
  steady (if decide (c_link c = Some l) then [f] else []) c
    (upd_conn (l_conn (the_link c l)) (set_cn_w (cn_w (c_conns c !!! l_conn (the_link c l)) ++ [f])) c).
Proof.
  intros Hw [lk Hlk]. split; [done|]. intros l' Hl'. unfold written, the_conn.
  change (the_link (upd_conn ?k ?g c) l') with (the_link c l'). split_and!; try done; unfold upd_conn; csimp.
  - destruct (decide (l_conn (the_link c l) = l_conn (the_link c l'))) as [E|E].
    + rewrite <- E, lookup_total_insert_eq. done.
    + by rewrite lookup_total_insert_ne.
  - case_decide as Hd.
    + assert (l' = l) as -> by congruence. by rewrite lookup_total_insert_eq.
    + rewrite lookup_total_insert_ne, app_nil_r; [done|]. destruct (wc_link c Hw l' Hl') as (lk' & Hlk' & _). unfold the_link.
      rewrite (lookup_total_correct _ _ _ Hlk), (lookup_total_correct _ _ _ Hlk'). intros E. apply Hd. rewrite Hl'. f_equal.
      by eapply (wc_inj c Hw).
Qed.

Lemma writeFrame_wrote l encode c : wf_client c -> is_Some (c_links c !! l) -> wrote l encode c (writeFrame (Some l) encode c).
Proof.
  intros Hw Hlk. cbn [writeFrame]. destruct (encode []) as [f|e] eqn:He; [|apply wrote_refused; intros f Hf; congruence]. rewrite cmd_bind_eq. unfold gets.
  destruct (negb _ && _) eqn:Hmax.
  { apply wrote_refused. intros f' Hf'. assert (f' = f) as -> by congruence. apply andb_true_iff in Hmax as [H1 H2]. lia. }
  rewrite !cmd_bind_eq. unfold conn_write. destruct (negb (cn_closed _) && _).
  - apply (wrote_sent l encode c f _ _ He); [|by apply steady_write]. apply andb_false_iff in Hmax as [H1|H1]; [left|right]; lia.
  - rewrite cmd_bind_eq. unfold upd. cbn [mret cmd_ret]. apply wrote_failed; [apply teardown_same| |by apply teardown_steady].
    intros Hl. apply (teardown_current l _ c); [|done]. destruct (wc_link c Hw l Hl) as (lk & Hk & Hst). unfold isStopping, the_link.
    by rewrite (lookup_total_correct _ _ _ Hk).
Qed.

(** An encoder whose frames are no part of an exchange. *)
Definition mute v (encode : list Z -> res (list Z)) : Prop := forall f, encode [] = Ok f -> muted v f.

Lemma writeFrame_hushed l encode c : wf_client c -> is_Some (c_links c !! l) -> mute (c_version c) encode ->
  hushed c (writeFrame (Some l) encode c).2.
Proof.
  intros Hw Hl Hm. destruct (writeFrame_wrote l encode c Hw Hl) as [e _|e c' Hs _ Hst|f k g He _ Hst]; cbn [snd]; [done|..].
  - split; [by destruct Hs|]. destruct Hst as [|Hst]; [by left|right]. exists []. split; [done|constructor].
  - split; [done|]. right. eexists. split; [exact Hst|]. case_decide; [|constructor]. constructor; [by apply Hm|constructor].
Qed.

Lemma writeFrame_ids l encode c : c_ids (writeFrame l encode c).2 = c_ids c.
Proof. apply writeFrame_same. Qed.
End facts.

(** ** Frames outside the exchanges *)

Lemma hear_packet v h body : len body <= maxVarint -> len (packet_bytes h body) < 4294967296 ->
  Z.shiftr h 4 <> Publish -> Z.shiftr h 4 <> Pubrel -> hear v (packet_bytes h body) = None.
Proof.
  intros Hb Hl H1 H2. unfold hear. rewrite <- (app_nil_r (packet_bytes h body)), ReadFrame_packet by (done || unfold in_u32; lia).
  unfold Frame_PacketType. cbn [Header]. by rewrite !(proj2 (Z.eqb_neq _ _)).
Qed.

Lemma packet_len h body : len body <= maxVarint -> len (packet_bytes h body) < 4294967296.
Proof. intros Hb. rewrite length_packet_bytes by done. pose proof (varintLen_range (len body)). unfold maxVarint in *. lia. Qed.

Lemma unheeded_writePacket v h body f : writePacket [] h body = Ok f -> Z.shiftr h 4 <> Publish -> Z.shiftr h 4 <> Pubrel -> unheeded v f.
Proof.
  intros [Hb ->]%writePacket_inv H1 H2. unfold unheeded, heed. cbn [app]. by rewrite hear_packet by (done || by apply packet_len).
Qed.

Lemma overhear_packet v h body : len body <= maxVarint -> overhear v (packet_bytes h body) =
  if bool_decide (Z.shiftr h 4 ∈ [Puback; Pubrec; Pubcomp]) then
    match DecodeAck v (Z.shiftr h 4) body with Ok a => Some (Z.shiftr h 4, ack_PacketID a) | Err _ => None end
  else None.
Proof.
  intros Hb. unfold overhear. pose proof (packet_len h body Hb).
  rewrite <- (app_nil_r (packet_bytes h body)), ReadFrame_packet by (done || unfold in_u32; lia). done.
Qed.

Lemma mute_writePacket v h body f : writePacket [] h body = Ok f -> Z.shiftr h 4 <> Publish -> Z.shiftr h 4 <> Pubrel ->
  Z.shiftr h 4 ∉ [Puback; Pubrec; Pubcomp] -> muted v f.
Proof.
  intros Hw H1 H2 H3. split; [by eapply unheeded_writePacket|]. apply writePacket_inv in Hw as [Hb ->]. cbn [app].
  by rewrite overhear_packet, bool_decide_eq_false_2.
Qed.

Definition muting (v : Z) (r : res (list Z)) : Prop := forall f, r = Ok f -> muted v f.

Lemma muting_Err v e : muting v (Err e).
Proof. done. Qed.
Lemma muting_bind v {A} (m : res A) (f : A -> res (list Z)) : (forall a, muting v (f a)) -> muting v (m ≫= f).
Proof. intros Hf. destruct m as [a|e]; [apply Hf|done]. Qed.

Ltac muting_steps :=
  repeat first [apply muting_Err | apply muting_bind; intros ? | (intros ? Hf; eapply mute_writePacket; [exact Hf|done|done|by_decide])
               | match goal with |- muting _ (match ?x with _ => _ end) => destruct x end].

Lemma mute_disconnect v p : mute v (DisconnectPacket_Encode p).
Proof. change (muting v (DisconnectPacket_Encode p [])). unfold DisconnectPacket_Encode. muting_steps. Qed.
Lemma mute_subscribe v p : mute v (SubscribePacket_Encode p).
Proof. change (muting v (SubscribePacket_Encode p [])). unfold SubscribePacket_Encode. muting_steps. Qed.
Lemma mute_unsubscribe v p : mute v (UnsubscribePacket_Encode p).
Proof. change (muting v (UnsubscribePacket_Encode p [])). unfold UnsubscribePacket_Encode. muting_steps. Qed.
Lemma mute_ping v : mute v EncodePingReq.
Proof. change (muting v (EncodePingReq [])). unfold EncodePingReq. muting_steps. Qed.
Lemma mute_connect v p : mute v (ConnectPacket_Encode p).
Proof. change (muting v (ConnectPacket_Encode p [])). unfold ConnectPacket_Encode. muting_steps. Qed.

(** * Calls with an identifier of their own *)

(** How a call moves an identifier: not at all, in from the allocator, or back. *)
Inductive id_move (a : idAllocator) : option (Z * Z) -> idAllocator -> option (Z * Z) -> Prop :=
| move_none h : id_move a h a h
| move_acquired id g a' : idAllocator_Acquire a = (Acquired id g, a') -> id_move a None a' (Some (id, g))
| move_exhausted g a' : idAllocator_Acquire a = (PacketIDExhausted g, a') -> id_move a None a' None
| move_released id g : id_move a (Some (id, g)) (idAllocator_ReleaseAt id g a) None.

Section tasks.
Context {St : Type} {HS : SessionStore St} {HC : ContainsStore St} {HE : Environment St}.
Implicit Types c : client St.
#[local] Strategy opaque [idAllocator_Acquire].

Lemma register_hushed id want c : hushed c (registerWaiter id want c).2.
Proof. by apply hushed_fields. Qed.

Lemma remove_hushed id ch c : hushed c (removeWaiter id ch c) /\ c_ids (removeWaiter id ch c) = c_ids c.
Proof.
  unfold removeWaiter. destruct (c_waiters c !! id); [destruct (_ =? _)%nat|]; (split; [|done]); by apply hushed_fields.
Qed.

Lemma signal_hushed id got r c : hushed c (signalWaiter id got r c).2 /\ c_ids (signalWaiter id got r c).2 = c_ids c.
Proof.
  unfold signalWaiter. destruct (c_waiters c !! id); [case_bool_decide|]; (split; [|done]); by apply hushed_fields.
Qed.

(** A call on an existing link keeps the exchanges and moves only its own
    identifier. *)
Definition tame (l : option nat) {A} (h : A -> option (Z * Z)) (x : A) (m : cmd St A) : Prop :=
  forall c, wf_client c -> (forall l', l = Some l' -> is_Some (c_links c !! l')) ->
    hushed c (m c).2 /\ id_move (c_ids c) (h x) (c_ids (m c).2) (h (m c).1).

Lemma req_tame l packet want mk ev pc : (forall v id, mute v (mk id)) ->
  tame (Some l) req_holds pc (req_step (St := St) l packet want mk ev pc).
Proof.
  intros Hmk c Hw Hl. specialize (Hl l eq_refl). destruct pc as [|id g|id g ch|id g ch|id g ch err|id g out|out]; cbn [req_step req_holds].
  - destruct (idAllocator_Acquire (c_ids c)) as [[id g|g] a] eqn:Ea; (split; [by apply hushed_fields|]); by econstructor.
  - split; [apply (register_hushed id want c)|constructor].
  - pose proof (writeFrame_hushed l (mk id) c Hw Hl (Hmk _ id)) as Hh. pose proof (writeFrame_ids (Some l) (mk id) c) as Hi.
    destruct (writeFrame _ _ c) as [[e|] c1]; cbn [snd fst] in *; (split; [done|]); rewrite Hi; constructor.
  - destruct ev; cbn; try (split; [done|constructor]); destruct (c_chans c !! ch); cbn;
      (split; [by apply hushed_fields|constructor]).
  - destruct (remove_hushed id ch c) as [Hh Hi]. cbn. rewrite Hi. split; [done|constructor].
  - split; [by apply hushed_fields|constructor].
  - split; [done|constructor].
Qed.

Lemma sub_tame l filter options subID h ev pc :
  tame (Some l) (fun pc => holds (TSub l filter options subID h pc)) pc (subscribe_step (St := St) l filter options subID h ev pc).
Proof.
  intros c Hw Hl. unfold subscribe_step. destruct pc as [|prev|prev token pc|prev token err|out]; try (split; [done|constructor]).
  - destruct (addSubscription _ _ _ _ _). split; [by apply hushed_fields|constructor].
  - destruct (req_tame l "SUBSCRIBE" ackClassSuback
      (fun id => SubscribePacket_Encode (subscribePacket (c_version c) filter options subID id)) ev pc
      (fun v id => mute_subscribe v _) c Hw Hl) as [Hh Hm].
    destruct pc as [| | | | | |[err|r]]; try (split; [done|constructor]); destruct (req_step _ _ _ _ _ _ _); by split.
  - split; [by apply hushed_fields|constructor].
Qed.

Lemma uns_tame l filter ev pc : tame (Some l) (fun pc => holds (TUns l filter pc)) pc (unsubscribe_step (St := St) l filter ev pc).
Proof.
  intros c Hw Hl. unfold unsubscribe_step. destruct pc as [|snap pc|e]; try (split; [done|constructor]).
  destruct (req_tame l "UNSUBSCRIBE" ackClassUnsuback (fun id => UnsubscribePacket_Encode (mkUnsubscribe (c_version c) id [filter] None))
    ev pc (fun v id => mute_unsubscribe v _) c Hw Hl) as [Hh Hm].
  destruct snap, pc as [| | | | | |[err|r]]; try (split; [done|constructor]); 
    first [by destruct (req_step _ _ _ _ _ _ _)|split; [by apply hushed_fields|constructor]].
Qed.

Lemma await_tame ev pc : tame None (fun pc => holds (TAwait pc)) pc (awaitResubscribe_step (St := St) ev pc).
Proof.
  intros c Hw _. destruct pc as [id g ch|id g ch|id g|]; cbn [awaitResubscribe_step holds].
  - destruct ev; cbn; try (split; [done|constructor]); destruct (c_chans c !! ch); cbn; (split; [by apply hushed_fields|constructor]).
  - destruct (remove_hushed id ch c) as [Hh Hi]. cbn. rewrite Hi. split; [done|constructor].
  - split; [by apply hushed_fields|constructor].
  - split; [done|constructor].
Qed.

Definition task_link (t : task) : option nat := match t with TSub l _ _ _ _ _ | TUns l _ _ => Some l | TAwait _ => None end.

Lemma task_tame ev t : tame (task_link t) holds t (task_step (St := St) ev t).
Proof.
  intros c Hw Hl. destruct t as [l filter options subID h pc|l filter pc|pc]; cbn [task_step].
  - pose proof (sub_tame l filter options subID h ev pc c Hw Hl). by destruct (subscribe_step _ _ _ _ _ _ _ c).
  - pose proof (uns_tame l filter ev pc c Hw Hl). by destruct (unsubscribe_step _ _ _ _ c).
  - pose proof (await_tame ev pc c Hw Hl). by destruct (awaitResubscribe_step _ _ c).
Qed.

Lemma task_step_link ev t c : task_link (task_step (St := St) ev t c).1 = task_link t.
Proof. destruct t; cbn [task_step]; by case_match. Qed.

(** * Pings, DISCONNECT and replies without an exchange *)


(** Well-formed, on the link [l], and nothing of the exchanges changed since [c]. *)
Definition serene (l : nat) c c' : Prop := good [l] c' /\ hushed c c' /\ c_ids c' = c_ids c.

Lemma good_link l lk c : wf_client c -> c_links c !! l = Some lk -> good [l] c.
Proof. intros Hw Hl. split; [done|]. intros l' ->%list_elem_of_singleton. by exists lk. Qed.

Lemma serene_refl l c : good [l] c -> serene l c c.
Proof. intros Hg. exact (conj Hg (conj (hushed_refl c) eq_refl)). Qed.

Lemma serene_writeFrame l encode c c' : sized encode -> (forall v, mute v encode) -> serene l c c' ->
  serene l c (writeFrame (Some l) encode c').2.
Proof.
  intros Hs Hm ([Hw Hl] & Hh & Hi). assert (l ∈ [l]) by apply list_elem_of_here. split_and!.
  - by apply upholds_writeFrame.
  - etrans; [exact Hh|]. apply writeFrame_hushed; auto.
  - by rewrite writeFrame_ids.
Qed.

Lemma serene_teardown l g c c' : serene l c c' -> serene l c (teardownLink l g c').
Proof.
  intros (Hg & Hh & Hi). split_and!.
  - apply good_teardown; [apply list_elem_of_here|done].
  - etrans; [exact Hh|]. apply teardown_hushed, Hg.
  - by rewrite (ss_ids _ _ (teardown_same l g c')).
Qed.

Lemma serene_upd_link l f c c' : (forall k, l_conn (f k) = l_conn k) -> (forall k, l_stop (f k) = l_stop k) ->
  (forall k, l_idGen (f k) = l_idGen k) -> (forall k, l_outboundMax (f k) = l_outboundMax k) ->
  (forall k, l_inboundMax (f k) = l_inboundMax k) -> serene l c c' -> serene l c (upd_link l f c').
Proof.
  intros H1 H2 H3 H4 H5 (Hg & Hh & Hi). split_and!; [apply good_upd_link; [apply list_elem_of_here|done..]| |done].
  etrans; [exact Hh|]. split; [done|]. right. exists []. split; [by apply steady_upd_link|constructor].
Qed.

Lemma serene_signal l id got r c c' : serene l c c' -> serene l c (signalWaiter id got r c').2.
Proof.
  intros (Hg & Hh & Hi). destruct (signal_hushed id got r c') as [Hh' Hi']. split_and!; [by apply good_signal|by etrans|congruence].
Qed.

Lemma serene_protocolError l rc c c' : serene l c c' -> serene l c (protocolError l rc c').2.
Proof.
  intros Hs. unfold protocolError. rewrite cmd_bind_eq. unfold gets. rewrite cmd_bind_eq. destruct (_ =? V50).
  - assert (Hw := serene_writeFrame l (DisconnectPacket_Encode (mkDisconnect (c_version c') rc None)) c c' (sized_disconnect _)
      (fun v => mute_disconnect v _) Hs). destruct (writeFrame _ _ c') as [? c1]. by apply serene_teardown.
  - by apply serene_teardown.
Qed.

Lemma tick_serene l c : good [l] c -> serene l c (keepAliveLoop_tick l c).2.
Proof.
  intros Hg. apply serene_refl in Hg. unfold keepAliveLoop_tick. rewrite cmd_bind_eq. unfold gets.
  destruct (_ >=? _); [by apply serene_teardown|]. rewrite cmd_bind_eq. unfold upd. rewrite cmd_bind_eq.
  assert (Hs := serene_upd_link l (set_l_outstandingPings (l_outstandingPings (the_link c l) + 1)) c c (fun _ => eq_refl) (fun _ => eq_refl)
    (fun _ => eq_refl) (fun _ => eq_refl) (fun _ => eq_refl) Hg).
  assert (Hw := serene_writeFrame l EncodePingReq c _ sized_ping mute_ping Hs).
  destruct (writeFrame _ _ _) as [[e|] c1]; [by apply serene_teardown|done].
Qed.

Lemma Disconnect_hushed c : wf_client c -> hushed c (client_Disconnect c).2 /\ c_ids (client_Disconnect c).2 = c_ids c.
Proof.
  intros Hw. unfold client_Disconnect. rewrite cmd_bind_eq. unfold gets. destruct (c_link c) as [l|] eqn:Hl; [|done].
  destruct (wc_link c Hw l Hl) as (lk & Hlk & _). assert (Hs : serene l c c) by (by eapply serene_refl, good_link).
  rewrite cmd_bind_eq. unfold upd. rewrite !cmd_bind_eq.
  assert (H1 := serene_upd_link l (set_l_graceful true) c c (fun _ => eq_refl) (fun _ => eq_refl)
    (fun _ => eq_refl) (fun _ => eq_refl) (fun _ => eq_refl) Hs).
  assert (H2 := serene_writeFrame l (DisconnectPacket_Encode (mkDisconnect (c_version (upd_link l (set_l_graceful true) c)) NormalDisconnection None))
    c _ (sized_disconnect _) (fun v => mute_disconnect v _) H1).
  destruct (writeFrame _ _ _) as [? c1]. apply (serene_teardown l true c c1) in H2. apply H2.
Qed.
End tasks.
