(* ===== verification/PublishFacts.v ===== *)
(** The outcomes of a publish that runs until it returns or waits. *)

From S2P Require Import Prelude GoStrings Codes Wire WireFacts Props PropsFacts PublishPackets ControlPackets.
From S2P Require Import SubscribePackets Topic SessionStore Errors IdAllocator Quota Subscriptions Lifecycle.
From S2P Require Import Client Pump Requests Connection ClientFacts SessionFacts RequestFacts LinkFacts Wellformed.
From S2P Require Import Delivery World WorldFacts.
From stdpp Require Import options.

Section outcomes.
Context {St : Type} {HS : SessionStore St} {HC : ContainsStore St} {HE : Environment St}.
Context {HL : SessionStoreLaws St} {HR : ReliableStore St}.
Implicit Types c : client St.
Set Default Proof Using "Type*".
#[local] Strategy opaque [idAllocator_Acquire].

(** A goroutine that does not move. *)
Lemma pub_stuck l pkt pc c n : pub_step l pkt Run pc c = (pc, c) ->
  fold_left (fun '(pc, c) ev => pub_step l pkt ev pc c) (replicate n Run) (pc, c) = (pc, c).
Proof. intros Hs. induction n as [|n IH]; [done|]. cbn [replicate fold_left]. by rewrite Hs. Qed.

(** The message is stored under a new identifier and its frame is out ... *)
Definition published (l : nat) (pkt : PublishPacket) c (out : pub_pc * client St) : Prop :=
  exists id ig a f, out.1 = PWait id (c_nextCh c) /\ idAllocator_Acquire (c_ids c) = (Acquired id ig, a) /\ c_ids out.2 = a /\
    store_ok (c_store out.2) /\
    contents (c_store out.2) = contents (c_store c) ++ [((id, StoredPublish), Some (with_PacketID id pkt))] /\
    PublishPacket_Encode (with_PacketID id pkt) [] = Ok f /\
    (l_outboundMax (the_link c l) = 0 \/ len f <= l_outboundMax (the_link c l)) /\ steady [f] c out.2.

(** ... or nothing of it is left, and the connection may be down. *)
Definition unpublished c (out : pub_pc * client St) : Prop :=
  (forall id ch, out.1 <> PWait id ch) /\ store_ok (c_store out.2) /\ contents (c_store out.2) = contents (c_store c) /\
  gen (c_ids out.2) = gen (c_ids c) /\ (forall i, in_u16 i -> in_use (c_ids out.2) i = in_use (c_ids c) i) /\
  (c_link out.2 = None \/ steady [] c out.2).

Lemma unpublished_idle pc c c' : (forall id ch, pc <> PWait id ch) -> store_ok (c_store c) -> c_store c' = c_store c ->
  gen (c_ids c') = gen (c_ids c) -> used (c_ids c') = used (c_ids c) -> c_link c' = c_link c -> c_links c' = c_links c ->
  c_conns c' = c_conns c -> unpublished c (pc, c').
Proof.
  intros Hpc Hok Es Eg Eu El Ek En. split_and!; cbn [fst snd]; rewrite ?Es, ?Eg; try done.
  - intros i _. unfold in_use. by rewrite Eu.
  - right. by apply steady_fields.
Qed.

Lemma at_write_steady c id a s : steady [] c (at_write c id a s).
Proof using Type. by apply steady_fields. Qed.

Lemma at_write_wf L c id ig a s : good L c -> idAllocator_Acquire (c_ids c) = (Acquired id ig, a) -> good L (at_write c id a s).
Proof.
  intros Hg Ha. unfold at_write. apply good_register. eapply good_fields; [..|apply (good_ids L c a)]; try done.
  pose proof (wf_acquire (c_ids c) (wc_ids _ (proj1 Hg))) as Hw. by rewrite Ha in Hw.
Qed.

Lemma fresh_unstored c id ig a : wf_ids (c_ids c) -> idAllocator_Acquire (c_ids c) = (Acquired id ig, a) ->
  (forall i, stored i StoredPublish c -> in_use (c_ids c) i = true) -> ~ stored id StoredPublish c.
Proof. intros Hw Ha Hu Hs. pose proof (Acquire_spec _ Hw) as H. rewrite Ha in H. destruct H as (_ & _ & _ & Hf & _). apply Hu in Hs. congruence. Qed.

Lemma write_outcome l pkt c id ig a s : wf_client c -> store_ok (c_store c) -> store_room (c_store c) -> c_link c = Some l ->
  idAllocator_Acquire (c_ids c) = (Acquired id ig, a) -> ~ stored id StoredPublish c ->
  Save (mkStored (Some (with_PacketID id pkt)) 0 id StoredPublish) (c_store c) = Some s ->
  let out := fold_left (fun '(pc, c) ev => pub_step l pkt ev pc c) (replicate 5 Run)
      (pub_step l pkt Run (PWrite (qgen (c_quota c)) id ig (c_nextCh c)) (at_write c id a s)) in
  published l pkt c out \/ unpublished c out.
Proof.
  intros Hw Hok Hroom Hl Hacq Hns Hsave out. subst out. destruct (wc_link c Hw l Hl) as (lk & Hlk & _).
  destruct (Save_law _ _ _ Hok Hroom Hsave) as [Hok' Hcs]. set (c4 := at_write c id a s).
  assert (Hst4 : steady [] c c4) by apply at_write_steady.
  destruct (at_write_wf [l] c id ig a s (good_link l lk c Hw Hlk) Hacq) as [Hw4 Hl4]. fold c4 in Hw4, Hl4.
  assert (Hwr := writeFrame_wrote l (PublishPacket_Encode (with_PacketID id pkt)) c4 Hw4 (Hl4 l (list_elem_of_here _ _))).
  assert (Estep : pub_step l pkt Run (PWrite (qgen (c_quota c)) id ig (c_nextCh c)) c4 =
    match writeFrame (Some l) (PublishPacket_Encode (with_PacketID id pkt)) c4 with
    | (None, c5) => (PWait id (c_nextCh c), c5)
    | (Some err, c5) => (PUnregister (qgen (c_quota c)) id ig (c_nextCh c) err, c5)
    end) by done.
  rewrite Estep. destruct (writeFrame (Some l) _ c4) as [[err|] c5] eqn:Ew.
  - right. destruct (failed_send_session l pkt c id ig a s err (c_nextCh c) c4 c5) as (Hr & Hok5 & Hc5 & Hi5); try done; [apply Hw|].
    rewrite Hr. split_and!; cbn [fst snd]; try done.
    + pose proof (Acquire_spec _ (wc_ids _ Hw)) as Hs. rewrite Hacq in Hs. destruct Hs as (_ & Ea & _).
      destruct (removeWaiter_same id (c_nextCh c) c5) as [Hs5 _]. pose proof (writeFrame_same (Some l) (PublishPacket_Encode (with_PacketID id pkt)) c4) as Hs4.
      rewrite Ew in Hs4. cbn [snd] in Hs4. csimp. rewrite (ss_ids _ _ Hs5), (ss_ids _ _ Hs4). change (c_ids c4) with a. rewrite Ea.
      by rewrite gen_ReleaseAt.
    + assert (H5 : c_link c5 = None \/ steady [] c c5).
      { inversion Hwr as [e Hx|e c5' _ _ Hor|]; subst; [by right|]. destruct Hor as [|Hor]; [by left|right]. exact (steady_trans [] [] _ _ _ Hst4 Hor). }
      assert (H6 : steady [] c5 (quota_releaseAt' (qgen (c_quota c)) (ids_ReleaseAt id ig (store_Delete id StoredPublish (removeWaiter id (c_nextCh c) c5))))).
      { unfold removeWaiter. destruct (c_waiters c5 !! id); [destruct (_ =? _)%nat|]; by apply steady_fields. }
      destruct H5 as [H5|H5]; [left; by rewrite (proj1 H6)|right]. exact (steady_trans [] [] _ _ _ H5 H6).
  - left. inversion Hwr as [| |f k g He Hmax Hst5]; subst.
    rewrite pub_stuck.
    2: { cbn [pub_step]. destruct (c_chans _ !! c_nextCh c) as [r|] eqn:Ec; [|done]. exfalso.
      pose proof (wc_chan c Hw (c_nextCh c) r Ec). lia. }
    pose proof (sized_publish (with_PacketID id pkt) f He) as Hu. rewrite u32_id in Hmax by done.
    change (c_link c4) with (c_link c) in Hst5. rewrite decide_True in Hst5 by done.
    exists id, ig, a, f. split_and!; cbn [fst snd]; try done.
    change (c_store (upd_conn k g c4)) with s. rewrite Hcs. unfold save_entry. by rewrite decide_False.
Qed.

Lemma publishAcked_outcome l pkt c : wf_client c -> store_ok (c_store c) -> store_room (c_store c) -> c_link c = Some l ->
  (forall i, stored i StoredPublish c -> in_use (c_ids c) i = true) ->
  published l pkt c (publishAcked l pkt publish_turns c) \/ unpublished c (publishAcked l pkt publish_turns c).
Proof.
  intros Hw Hok Hroom Hl Huse. unfold publish_turns.
  destruct (failed (c_quota c)) eqn:Hf; [|destruct (decide (0 < avail (c_quota c))) as [Hav|Hav]].
  - right. change (publishAcked l pkt (replicate 10 Run) c) with
      (fold_left (fun '(pc, c) ev => pub_step l pkt ev pc c) (replicate 9 Run) (pub_step l pkt Run PQuota c)).
    assert (E : pub_step l pkt Run PQuota c = (PDone (Some [ErrConnectionLost]), set_quota (c_quota c) c))
      by (cbn [pub_step]; unfold quota_acquire_turn; by rewrite Hf).
    rewrite E, pub_stuck by done. by apply unpublished_idle.
  - destruct (idAllocator_Acquire (c_ids c)) as [[id ig|g] a] eqn:Ha.
    + destruct (Save_total (mkStored (Some (with_PacketID id pkt)) 0 id StoredPublish) (c_store c)) as [s Hsave].
      change 10%nat with (4 + S 5)%nat. rewrite (publishAcked_to_write l pkt c id ig a s 5 Hf Hav Ha Hsave).
      apply write_outcome; try done. eapply fresh_unstored; [apply Hw|exact Ha|done].
    + right. unfold publishAcked. change 10%nat with (3 + 7)%nat. rewrite replicate_add, fold_left_app. set (q := mkQuota (wake (c_quota c))
        (i64 (avail (c_quota c) - 1)) (qgen (c_quota c)) (failed (c_quota c))).
      assert (E1 : pub_step l pkt Run PQuota c = (PId (qgen (c_quota c)), set_quota q c)).
      { cbn [pub_step]. unfold q, quota_acquire_turn. rewrite Hf. by replace (avail (c_quota c) >? 0) with true by lia. }
      assert (E2 : pub_step l pkt Run (PId (qgen (c_quota c))) (set_quota q c) =
        (PGiveBack (qgen (c_quota c)) [ErrPacketIDExhausted], set_ids a (set_quota q c))).
      { cbn [pub_step]. change (c_ids (set_quota q c)) with (c_ids c). by rewrite Ha. }
      assert (E3 : fold_left (fun '(pc, c) ev => pub_step l pkt ev pc c) (replicate 3 Run) (PQuota, c) =
        (PDone (Some [ErrPacketIDExhausted]), quota_releaseAt' (qgen (c_quota c)) (set_ids a (set_quota q c))))
        by (cbn [replicate fold_left]; by rewrite E1, E2).
      rewrite E3, pub_stuck by done. pose proof (Acquire_spec _ (wc_ids _ Hw)) as Hs. rewrite Ha in Hs. destruct Hs as (_ & _ & _ & Hu & Hg).
      by apply unpublished_idle.
  - right. change (publishAcked l pkt (replicate 10 Run) c) with
      (fold_left (fun '(pc, c) ev => pub_step l pkt ev pc c) (replicate 9 Run) (pub_step l pkt Run PQuota c)).
    assert (E : pub_step l pkt Run PQuota c = (PPark (wake (c_quota c)), set_quota (c_quota c) c)).
    { cbn [pub_step]. unfold quota_acquire_turn. rewrite Hf. by replace (avail (c_quota c) >? 0) with false by lia. }
    rewrite E, pub_stuck; [by apply unpublished_idle|].
    cbn [pub_step]. unfold woken. csimp. by replace (wake (c_quota c) <? wake (c_quota c))%nat with false by lia.
Qed.
End outcomes.

(** * What the broker hears *)

Lemma heed_publish p f : wf_publish p -> publishable p -> pub_QoS p = 1 \/ pub_QoS p = 2 -> PublishPacket_Encode p [] = Ok f ->
  heed (pub_Version p) f = Some (UPub (undup (canon_publish p))).
Proof.
  intros Hwf Hp Hq He. apply PublishPacket_Encode_body in He as (body & Hb & -> & Hq2 & Hd & Hdec); [|done..]. cbn [app].
  destruct (publish_header_flags (pub_Dup p) (pub_Retain p) (pub_QoS p) ltac:(lia) Hd) as (_ & _ & _ & _ & Ht).
  unfold heed, hear. rewrite <- (app_nil_r (packet_bytes _ body)), ReadFrame_packet by
    (done || (unfold in_u32; lia) || (pose proof (packet_len (publish_header (pub_Dup p) (pub_Retain p) (pub_QoS p)) body Hb); lia)).
  rewrite Ht. cbn [Z.eqb Publish Pos.eqb Header Body]. rewrite Hdec. cbn [undup canon_publish pub_QoS]. by destruct Hq as [-> | ->].
Qed.

(** A QoS 0 message is no exchange. *)
Lemma mute_publish0 v p : wf_publish p -> publishable p -> pub_Version p = v -> pub_QoS p = 0 -> mute v (PublishPacket_Encode p).
Proof.
  intros Hwf Hp <- Hq f He. apply PublishPacket_Encode_body in He as (body & Hb & -> & Hq2 & Hd & Hdec); [|done..]. cbn [app].
  destruct (publish_header_flags (pub_Dup p) (pub_Retain p) (pub_QoS p) ltac:(lia) Hd) as (_ & _ & _ & _ & Ht).
  assert (Eh : Z.shiftr (publish_header (pub_Dup p) (pub_Retain p) (pub_QoS p)) 4 = Publish) by exact (Ht []).
  split; [|rewrite overhear_packet by done; by rewrite Eh, bool_decide_eq_false_2 by by_decide].
  unfold unheeded, heed, hear. rewrite <- (app_nil_r (packet_bytes _ body)), ReadFrame_packet by
    (done || (unfold in_u32; lia) || (pose proof (packet_len (publish_header (pub_Dup p) (pub_Retain p) (pub_QoS p)) body Hb); lia)).
  rewrite Ht. cbn [Z.eqb Publish Pos.eqb Header Body]. rewrite Hdec. cbn [undup canon_publish pub_QoS]. by rewrite Hq.
Qed.

(** A retransmission is as long as the original, and heard as the same. *)
Lemma with_Dup_encodes p f : pub_QoS p = 1 \/ pub_QoS p = 2 -> PublishPacket_Encode p [] = Ok f ->
  exists f', PublishPacket_Encode (with_Dup p) [] = Ok f' /\ length f' = length f.
Proof.
  intros Hq He. unfold PublishPacket_Encode in *. cbn [with_Dup pub_Version pub_Topic pub_Payload pub_QoS pub_Retain pub_Dup pub_PacketID pub_Properties].
  destruct (negb (Version_Valid _)); [done|]. destruct (pub_QoS p >? 2); [done|]. destruct ((pub_QoS p >? 0) && _); [done|].
  destruct ((pub_QoS p =? 0) && pub_Dup p); [done|]. replace ((pub_QoS p =? 0) && true) with false by lia. cbn zeta in *.
  destruct (appendString [] (pub_Topic p)) as [b|]; [|done]. rewrite res_bind_Ok in *.
  destruct (if pub_Version p =? V50 then _ else _) as [b'|]; [|done]. rewrite res_bind_Ok in *.
  apply writePacket_inv in He as [Hb ->]. rewrite writePacket_Ok by done. by eexists.
Qed.

Lemma heed_again p f : wf_publish p -> publishable p -> pub_QoS p = 1 \/ pub_QoS p = 2 -> pub_Dup p = false ->
  PublishPacket_Encode p [] = Ok f -> exists f', PublishPacket_Encode (with_Dup p) [] = Ok f' /\ length f' = length f /\
    heed (pub_Version p) f' = Some (UPub (canon_publish p)).
Proof.
  intros Hwf Hp Hq Hd He. destruct (with_Dup_encodes p f Hq He) as (f' & He' & Hl). exists f'. split_and!; [done..|].
  rewrite (heed_publish (with_Dup p) f' Hwf Hp Hq He' : heed (pub_Version p) f' = _).
  unfold undup, canon_publish, with_Dup. cbn. by rewrite Hd.
Qed.

Lemma pubrel_frame_bytes v id : Version_Valid v = true -> 0 < id < 65536 ->
  AckPacket_EncodeAck (mkAck v Pubrel id 0 None) [] = Ok (0x62 :: 2 :: PutUint16 id) /\ heed v (0x62 :: 2 :: PutUint16 id) = Some (URel id).
Proof.
  intros Hv Hid. assert (E : AckPacket_EncodeAck (mkAck v Pubrel id 0 None) [] = Ok (0x62 :: 2 :: PutUint16 id)).
  { unfold AckPacket_EncodeAck. cbn [ack_Version ack_Type ack_PacketID ack_ReasonCode ack_Properties]. rewrite Hv. cbn [negb ackTarget].
    replace (id =? 0) with false by lia. apply Version_Valid_spec in Hv as [-> | ->]; done. }
  split; [done|]. apply AckPacket_EncodeAck_body in E as (body & target & Hb & Ht & E & Hdec);
    [|split_and!; cbn; [unfold in_u16; lia|unfold in_u8; lia|done]]. cbn [app ack_Type] in *. rewrite E.
  unfold heed, hear. rewrite <- (app_nil_r (packet_bytes _ body)), ReadFrame_packet by
    (done || (unfold in_u32; lia) || (pose proof (packet_len (ack_header Pubrel) body Hb); lia)).
  destruct (ack_header_flags Pubrel target body Ht) as [_ ->]. cbn [Z.eqb Publish Pubrel Pos.eqb Body ack_Version] in *. by rewrite Hdec.
Qed.

(** * What Publish sends *)

Lemma ValidateTopicName_legal s : ValidateTopicName s = Ok tt -> s <> [] /\ ContainsAny s (gostr "+#") = false.
Proof. unfold ValidateTopicName. case_bool_decide; [done|]. repeat case_match; naive_solver. Qed.

Lemma buildPublishProps_wf v po : opt_in in_u32 (po_messageExpiry po) -> wf_optprops (buildPublishProps v po).
Proof.
  intros He. unfold buildPublishProps. destruct (negb _); [done|]. destruct (po_messageExpiry po) as [x|] eqn:Ex;
    destruct (po_payloadFormatUTF8 po); cbn zeta; try (destruct (_ && _)); cbn; try done; unfold wf_props, opt_in; cbn; split_and!; try done;
    try (intros ? Hx; simplify_eq; by apply He); constructor.
Qed.

Lemma Publish_check_packet {St} (c : client St) topic payload qos retain opts l pkt : in_u8 qos ->
  opt_in in_u32 (po_messageExpiry (fold_left (fun o opt => opt o) opts noPublishOptions)) ->
  Publish_check topic payload qos retain opts c = inr (l, pkt) ->
  c_link c = Some l /\ pub_Version pkt = c_version c /\ pub_QoS pkt = qos /\ pub_Dup pkt = false /\ pub_PacketID pkt = 0 /\ 0 <= qos <= 2 /\
  forall id, in_u16 id -> wf_publish (with_PacketID id pkt) /\ publishable (with_PacketID id pkt).
Proof.
  intros Hq He H. unfold Publish_check in H. destruct (ValidateTopicName topic) as [[]|] eqn:Ht; [|done].
  destruct (qos >? 2) eqn:Eq; [done|]. destruct (if _ && _ then _ else _) as [?|]; [|done]. destruct (c_link c) as [l'|] eqn:Hl; [|done].
  destruct (match c_result c with Some r => _ | None => _ end); [done|]. injection H as <- <-. cbn. unfold in_u8 in Hq.
  destruct (ValidateTopicName_legal _ Ht) as [H1 H2]. split_and!; try done; [lia..|]. intros id Hid. split.
  - split; [cbn; lia|]. split; [done|]. by apply buildPublishProps_wf.
  - split; [done|by left].
Qed.
