(* ===== verification/Torn.v ===== *)
(** A publish that loses its connection on the way to the socket leaves nothing
    behind: its entry, its identifier and its waiter are gone when it returns,
    and it returns an error. *)

From S2P Require Import Prelude GoStrings Codes Wire WireFacts Props PropsFacts PublishPackets ControlPackets.
From S2P Require Import SubscribePackets Topic SessionStore Errors IdAllocator Quota Subscriptions Lifecycle.
From S2P Require Import Client Pump Requests Connection ClientFacts SessionFacts RequestFacts LinkFacts Wellformed.
From S2P Require Import Delivery World WorldFacts PublishFacts.
From stdpp Require Import options.

Section torn.
Context {St : Type} {HS : SessionStore St} {HC : ContainsStore St} {HE : Environment St}.
Context {HL : SessionStoreLaws St} {HR : ReliableStore St}.
Implicit Types c : client St.
Set Default Proof Using "Type*".
#[local] Strategy opaque [idAllocator_Acquire].

Variables (l : nat) (pkt : PublishPacket) (c0 : client St).

(** * What the call has taken so far *)

Definition entry_kept c : Prop := store_ok (c_store c) /\ contents (c_store c) = contents (c_store c0).
Definition ids_kept c : Prop := gen (c_ids c) = gen (c_ids c0) /\ forall i, in_u16 i -> in_use (c_ids c) i = in_use (c_ids c0) i.
Definition holding id ig c : Prop := idAllocator_Acquire (c_ids c0) = (Acquired id ig, c_ids c).
Definition filed id c : Prop := Save (mkStored (Some (with_PacketID id pkt)) 0 id StoredPublish) (c_store c0) = Some (c_store c).

(** Where the call stands determines what it holds of the session. *)
Definition taken_so_far (pc : pub_pc) c : Prop :=
  qgen (c_quota c) = qgen (c_quota c0) /\
  match pc with
  | PQuota | PPark _ => c_store c = c_store c0 /\ c_ids c = c_ids c0
  | PId qg => qg = qgen (c_quota c0) /\ c_store c = c_store c0 /\ c_ids c = c_ids c0
  | PSave qg id ig => qg = qgen (c_quota c0) /\ c_store c = c_store c0 /\ holding id ig c
  | PRegister qg id ig | PWrite qg id ig _ | PUnregister qg id ig _ _ | PCheck qg id ig _ | PDelete qg id ig _ =>
    qg = qgen (c_quota c0) /\ filed id c /\ holding id ig c
  | PFree _ id ig _ => entry_kept c /\ holding id ig c
  | PGiveBack _ _ | PDone (Some _) => entry_kept c /\ ids_kept c
  | PWait _ _ | PForget _ _ _ | PDone None => False
  end.

Hypothesis Hw0 : wf_client c0.
Hypothesis Hok : store_ok (c_store c0).
Hypothesis Hroom : store_room (c_store c0).
Hypothesis Huse : forall i, stored i StoredPublish c0 -> in_use (c_ids c0) i = true.

Lemma release_holding id ig c : holding id ig c -> ids_kept (ids_ReleaseAt id ig c).
Proof.
  unfold holding. intros Ha. pose proof (Acquire_spec _ (wc_ids _ Hw0)) as Hs. rewrite Ha in Hs. destruct Hs as (_ & Ea & _). split.
  - csimp. cbn [ids_ReleaseAt]. csimp. rewrite gen_ReleaseAt, Ea. done.
  - intros i Hi. by apply (release_acquired _ _ _ _ _ (wc_ids _ Hw0) Ha).
Qed.

Lemma delete_filed id ig c : holding id ig c -> filed id c -> entry_kept (store_Delete id StoredPublish c).
Proof.
  unfold holding, filed. intros Ha Hs. destruct (Save_law _ _ _ Hok Hroom Hs) as [Hok' Hcs]. unfold entry_kept, store_Delete. csimp.
  destruct (Delete_total id StoredPublish (c_store c)) as [s' Hd]. rewrite Hd. destruct (Delete_law _ _ _ _ Hok' Hd) as [Hok'' Hc'].
  split; [done|].
  change (default (c_store c) (Some s')) with s'. rewrite Hc', Hcs. apply (delete_save_entry (entry_of (mkStored (Some (with_PacketID id pkt)) 0 id StoredPublish))).
  exact (fresh_unstored c0 id ig (c_ids c) (wc_ids _ Hw0) Ha Huse).
Qed.

(** A critical section other than a write that succeeds. *)
Lemma section_takes pc c : taken_so_far pc c -> (forall qg id ig ch, pc = PWrite qg id ig ch ->
    (writeFrame (Some l) (PublishPacket_Encode (with_PacketID id pkt)) c).1 <> None) ->
  let '(pc', c') := pub_step l pkt Run pc c in taken_so_far pc' c'.
Proof.
  intros [Eq Ht] Hwr. destruct pc as [|w|qg|qg id ig|qg id ig|qg id ig ch|qg id ig ch err|qg id ig err|qg id ig err|qg id ig err|qg err|id ch|id ch err|[err|]];
    try done; cbn [pub_step]; unfold taken_so_far.
  - destruct Ht as [Es Ei]. unfold quota_acquire_turn. destruct (failed _); [|destruct (_ >? 0)]; split; csimp; try done.
    unfold entry_kept, ids_kept. csimp. by rewrite Es, Ei.
  - destruct (woken _ _); by split.
  - destruct Ht as (-> & Es & Ei). rewrite Ei. pose proof (Acquire_spec _ (wc_ids _ Hw0)) as Hs.
    destruct (idAllocator_Acquire (c_ids c0)) as [[id ig|g] a] eqn:Ha; (split; [done|]); [split_and!; [done|done|exact Ha]|].
    destruct Hs as (_ & _ & _ & Hu & Hg). unfold entry_kept, ids_kept, in_use. csimp. rewrite Es, Hg. split_and!; try done. intros i _. by rewrite Hu.
  - destruct Ht as (-> & Es & Hh). rewrite Es. destruct (Save_total (mkStored (Some (with_PacketID id pkt)) 0 id StoredPublish) (c_store c0)) as [s Hs].
    rewrite Hs. by split.
  - specialize (Hwr _ _ _ _ eq_refl). pose proof (writeFrame_same (Some l) (PublishPacket_Encode (with_PacketID id pkt)) c) as Hs.
    pose proof (writeFrame_quota (Some l) (PublishPacket_Encode (with_PacketID id pkt)) c) as [_ Hg].
    destruct (writeFrame _ _ c) as [[err|] c']; [|done]. cbn [snd] in *. unfold holding, filed. rewrite (ss_ids _ _ Hs), (ss_store _ _ Hs).
    split; [congruence|exact Ht].
  - destruct (removeWaiter_same id ch c) as [Hs Hg]. unfold holding, filed. by rewrite Hg, (ss_ids _ _ Hs), (ss_store _ _ Hs).
  - destruct Ht as (-> & Ht). unfold quota_generation. rewrite Eq, Z.eqb_refl. by split.
  - destruct Ht as (_ & Hf & Hh). split; [done|]. split; [by eapply delete_filed|exact Hh].
  - destruct Ht as [Hk Hh]. split; [done|]. split; [exact Hk|by apply release_holding].
  - split; [|exact Ht]. csimp. unfold quota_releaseAt. destruct (_ =? _); done.
Qed.

(** * Up to the loss of the connection *)

Definition depth (pc : pub_pc) : nat :=
  match pc with
  | PId _ => 1
  | PSave _ _ _ => 2
  | PRegister _ _ _ => 3
  | PWrite _ _ _ _ => 4
  | PUnregister _ _ _ _ _ | PCheck _ _ _ _ | PDelete _ _ _ _ => 5
  | _ => 0
  end.

Record ahead (k : nat) (pc : pub_pc) c : Prop := {
  ah_taken : taken_so_far pc c;
  ah_depth : (depth pc <= k)%nat;
  ah_link : c_link c = c_link c0;
  ah_links : c_links c = c_links c0;
  ah_chans : c_chans c = c_chans c0;
  ah_next : (c_nextCh c0 <= c_nextCh c)%nat;
  ah_park w : pc = PPark w -> (w <= wake (c_quota c))%nat
}.

Lemma ahead_step k pc c : (k < 4)%nat -> ahead k pc c -> let '(pc', c') := pub_step l pkt Run pc c in ahead (S k) pc' c'.
Proof.
  intros Hk [Ht Hd El Els Ec En Hp]. assert (Hs := section_takes pc c Ht). lapply Hs; [clear Hs; intros Hs|intros qg id ig ch ->; cbn in Hd; lia].
  destruct (pub_step l pkt Run pc c) as [pc' c'] eqn:E.
  destruct pc as [|w|qg|qg id ig|qg id ig|qg id ig ch|qg id ig ch err|qg id ig err|qg id ig err|qg id ig err|qg err|id ch|id ch err|[err|]];
    cbn [depth] in Hd; try lia; try (by destruct Ht); cbn [pub_step] in E.
  - unfold quota_acquire_turn in E. destruct (failed _); [|destruct (_ >? 0)]; simplify_eq; split; cbn [depth]; try done; try lia.
    intros w [= <-]. csimp. lia.
  - destruct (woken _ _); simplify_eq; split; cbn [depth]; try done; lia.
  - destruct (idAllocator_Acquire _) as [[id ig|g] a]; simplify_eq; split; cbn [depth]; try done; lia.
  - destruct (Save _ _); simplify_eq; split; cbn [depth]; try done; lia.
  - cbn [registerWaiter] in E. simplify_eq. split; cbn [depth]; csimp; try done; lia.
  - simplify_eq. split; cbn [depth]; try done; lia.
  - simplify_eq. split; cbn [depth]; try done; lia.
  - simplify_eq. split; cbn [depth]; try done; lia.
Qed.

Lemma ahead_turns n k pc c : (k + n <= 4)%nat -> ahead k pc c ->
  let '(pc', c') := fold_left (fun '(pc, c) ev => pub_step l pkt ev pc c) (replicate n Run) (pc, c) in ahead (k + n) pc' c'.
Proof.
  revert k pc c. induction n as [|n IH]; intros k pc c Hn Ha; [by rewrite Nat.add_0_r|]. cbn [replicate fold_left].
  pose proof (ahead_step k pc c ltac:(lia) Ha) as H. destruct (pub_step l pkt Run pc c) as [pc1 c1]. replace (k + S n)%nat with (S k + n)%nat by lia.
  apply IH; [lia|done].
Qed.

(** * After it *)

(** The waiter of the call is the only one, and nobody else is told of success. *)
Record severed (pc : pub_pc) c : Prop := {
  sv_taken : taken_so_far pc c;
  sv_link : c_link c = None;
  sv_stop : isStopping l c = true;
  sv_closed : cn_closed (the_conn c l) = true;
  sv_failed : failed (c_quota c) = true;
  sv_park w : pc = PPark w -> (w < wake (c_quota c))%nat;
  sv_waiters i wt : c_waiters c !! i = Some wt ->
    match pc with PWrite _ id _ ch | PUnregister _ id _ ch _ => i = id /\ w_ch wt = ch | _ => False end;
  sv_chans ch r : c_chans c !! ch = Some r -> c_chans c0 !! ch = Some r \/ r = connectionLost;
  sv_next : (c_nextCh c0 <= c_nextCh c)%nat
}.

Definition rank (pc : pub_pc) : nat :=
  match pc with
  | PId _ => 9
  | PSave _ _ _ => 8
  | PRegister _ _ _ => 7
  | PWrite _ _ _ _ => 6
  | PUnregister _ _ _ _ _ => 5
  | PCheck _ _ _ _ => 4
  | PDelete _ _ _ _ => 3
  | PFree _ _ _ _ | PPark _ => 2
  | PGiveBack _ _ | PQuota => 1
  | _ => 0
  end.

Lemma writeFrame_severed encode c : isStopping l c = true -> cn_closed (the_conn c l) = true ->
  exists err, writeFrame (Some l) encode c = (Some err, c).
Proof using Type.
  intros Hs Hc. cbn [writeFrame]. destruct (encode []) as [buf|e]; [|by eexists]. rewrite cmd_bind_eq. unfold gets at 1.
  destruct (negb _ && _); [by eexists|]. rewrite !cmd_bind_eq. unfold gets, conn_write. unfold the_conn in Hc.
  rewrite cmd_bind_eq, Hc. cbn [negb andb]. rewrite cmd_bind_eq. unfold upd. eexists. by rewrite teardown_idem.
Qed.

Lemma severed_step pc c : severed pc c ->
  let '(pc', c') := pub_step l pkt Run pc c in severed pc' c' /\ (rank pc' <= pred (rank pc))%nat.
Proof.
  intros [Ht El Hst Hcl Hf Hp Hwt Hch En].
  assert (Hs := section_takes pc c Ht). lapply Hs; [clear Hs; intros Hs|].
  2: { intros qg id ig ch _. by destruct (writeFrame_severed (PublishPacket_Encode (with_PacketID id pkt)) c Hst Hcl) as [err ->]. }
  destruct (pub_step l pkt Run pc c) as [pc' c'] eqn:E.
  destruct pc as [|w|qg|qg id ig|qg id ig|qg id ig ch|qg id ig ch err|qg id ig err|qg id ig err|qg id ig err|qg err|id ch|id ch err|[err|]];
    try (by destruct Ht); cbn [pub_step] in E.
  - unfold quota_acquire_turn in E. rewrite Hf in E. simplify_eq. split; [|cbn; lia]. by split.
  - unfold woken in E. replace (w <? wake (c_quota c))%nat with true in E by (symmetry; apply Nat.ltb_lt; by apply Hp). simplify_eq. split; [|cbn; lia]. by split.
  - destruct (idAllocator_Acquire _) as [[id ig|g] a]; simplify_eq; (split; [by split|cbn; lia]).
  - destruct (Save _ _); simplify_eq; (split; [by split|cbn; lia]).
  - cbn [registerWaiter] in E. simplify_eq. split; [|cbn; lia]. split; csimp; try done; [|lia].
    intros i wt [[<- <-]|[_ Hx]]%lookup_insert_Some; [done|by destruct (Hwt i wt Hx)].
  - destruct (writeFrame_severed (PublishPacket_Encode (with_PacketID id pkt)) c Hst Hcl) as [err Ew]. rewrite Ew in E. simplify_eq. split; [by split|cbn; lia].
  - simplify_eq. split; [|cbn; lia]. unfold removeWaiter in *.
    destruct (c_waiters c !! id) as [wt0|] eqn:Hid; [destruct (Hwt _ _ Hid) as [_ Hch0]; rewrite Hch0, Nat.eqb_refl in *|]; split; csimp; try done.
    + intros i wt [Hne Hx]%lookup_delete_Some. by destruct (Hwt i wt Hx) as [-> _].
    + intros i wt Hx. destruct (Hwt i wt Hx) as [-> _]. congruence.
  - destruct (_ =? _) eqn:Eg; simplify_eq; (split; [by split|cbn; lia]).
  - simplify_eq. split; [by split|cbn; lia].
  - simplify_eq. split; [by split|cbn; lia].
  - simplify_eq. split; [|cbn; lia]. split; try done. csimp. unfold quota_releaseAt. by destruct (_ =? _).
  - simplify_eq. split; [by split|cbn; lia].
Qed.

Lemma severed_turns n pc c : severed pc c -> (rank pc <= n)%nat ->
  let '(pc', c') := fold_left (fun '(pc, c) ev => pub_step l pkt ev pc c) (replicate n Run) (pc, c) in severed pc' c' /\ rank pc' = 0%nat.
Proof.
  revert pc c. induction n as [|n IH]; intros pc c Hs Hr; [split; [done|lia]|]. cbn [replicate fold_left].
  pose proof (severed_step pc c Hs) as H. destruct (pub_step l pkt Run pc c) as [pc1 c1]. destruct H as [H1 H2]. apply IH; [done|lia].
Qed.

Hypothesis Hl : c_link c0 = Some l.

Lemma sever k g pc c : ahead k pc c -> severed pc (teardownLink l g c).
Proof.
  intros [Ht _ El Els Ec En Hp]. destruct (wc_link _ Hw0 l Hl) as (lk & Hlk & Hs0).
  assert (Hst : isStopping l c = false) by (unfold isStopping, the_link; rewrite Els, (lookup_total_correct _ _ _ Hlk); exact Hs0).
  destruct (teardown_current l g c Hst) as (Dl & Dq & Dw & Dc & _); [congruence|]. pose proof (teardown_same l g c) as Hss.
  split; rewrite ?Dq, ?Dw, ?Dc; try done.
  - unfold taken_so_far, entry_kept, ids_kept, holding, filed in *. by rewrite Dq, (ss_store _ _ Hss), (ss_ids _ _ Hss).
  - apply teardown_stops.
  - destruct (teardown_links l g c Hst) as [E1 E2]. unfold the_conn, the_link. by rewrite E1, E2, lookup_total_insert_eq, lookup_total_insert_eq.
  - intros w Hw. specialize (Hp w Hw). cbn. lia.
  - intros ch r [Hx| ->]%failAll_cases; [left; congruence|by right].
  - by rewrite teardown_nextCh.
Qed.

(** The call returns an error; of the session nothing has changed, and no waiter
    is left. *)
Lemma torn_outcome n g : (n < 5)%nat -> exists err c', torn_publish l pkt n g c0 = (PDone (Some err), c') /\
  unpublished c0 (PDone (Some err), c') /\ severed (PDone (Some err)) c'.
Proof.
  intros Hn. unfold torn_publish, publishAcked. pose proof (ahead_turns n 0 PQuota c0 ltac:(lia)) as Ha.
  destruct (fold_left _ (replicate n Run) (PQuota, c0)) as [pc c]. lapply Ha; [clear Ha; intros Ha|by split].
  pose proof (severed_turns 10 pc _ (sever _ g _ _ Ha)) as Hs. unfold publish_turns. destruct (fold_left _ _ (pc, _)) as [pc' c'].
  destruct Hs as [Hs Hr]; [destruct pc; cbn; lia|]. pose proof (sv_taken _ _ Hs) as [_ Ht].
  destruct pc' as [| | | | | | | | | | | | |[err|]]; try done. exists err, c'. split; [done|]. split; [|done].
  destruct Ht as [[H1 H2] [H3 H4]]. split_and!; cbn [fst snd]; try done. left. apply (sv_link _ _ Hs).
Qed.
End torn.
