(* ===== verification/Ownership.v ===== *)
(** Who holds a packet identifier when publishes and other calls share the
    allocator: the stored exchanges and the calls in progress. *)

From S2P Require Import Prelude GoStrings Codes Wire Errors IdAllocator.
From S2P Require Import Delivery World WorldFacts.
From stdpp Require Import options.

(** The identifiers of generation [g] among what calls hold. *)
Definition held_now (g : Z) (hs : list (option (Z * Z))) : list Z :=
  omap (fun h : option (Z * Z) => '(id, g') ← h; if g' =? g then Some id else None) hs.

(** The exchanges [out] and the calls [hs] hold distinct identifiers, all marked;
    what a call holds of an older generation is not its own any more. *)
Record owned (a : idAllocator) (out : list Z) (hs : list (option (Z * Z))) : Prop := {
  ow_wf : wf_ids a;
  ow_gen : 0 <= gen a;
  ow_out id : id ∈ out -> 0 < id < 65536 /\ in_use a id = true;
  ow_held id : id ∈ held_now (gen a) hs -> in_use a id = true /\ id ∉ out;
  ow_nodup : NoDup (held_now (gen a) hs);
  ow_old id g : Some (id, g) ∈ hs -> g <= gen a /\ 0 < id < 65536
}.

Lemma held_now_app g hs hs' : held_now g (hs ++ hs') = held_now g hs ++ held_now g hs'.
Proof. apply omap_app. Qed.

Lemma elem_of_held_now g id hs : id ∈ held_now g hs <-> Some (id, g) ∈ hs.
Proof.
  unfold held_now. rewrite list_elem_of_omap. split.
  - intros ([[i g']|] & Hx & Hy); simplify_eq/=. destruct (Z.eqb_spec g' g); simplify_eq/=. done.
  - intros Hx. exists (Some (id, g)). split; [done|]. simpl. by rewrite Z.eqb_refl.
Qed.

(** Replacing what one call holds. *)
Lemma held_now_insert g hs i h h' : hs !! i = Some h ->
  held_now g hs ≡ₚ held_now g [h] ++ held_now g (take i hs ++ drop (S i) hs) /\
  held_now g (<[i := h']> hs) ≡ₚ held_now g [h'] ++ held_now g (take i hs ++ drop (S i) hs).
Proof.
  intros Hi. pose proof (lookup_lt_Some _ _ _ Hi) as Hlt. split.
  - rewrite <- (take_drop_middle hs i h Hi) at 1. rewrite !held_now_app. change (h :: ?l) with ([h] ++ l). rewrite held_now_app.
    rewrite Permutation_app_swap_app. done.
  - rewrite insert_take_drop by done. rewrite !held_now_app. change (h' :: ?l) with ([h'] ++ l). rewrite held_now_app.
    rewrite Permutation_app_swap_app. done.
Qed.

Lemma in_insert {A} (hs : list A) i h' x : x ∈ <[i := h']> hs -> x = h' \/ x ∈ hs.
Proof.
  intros [j Hj]%list_elem_of_lookup. apply list_lookup_insert_Some in Hj as [(-> & <- & _)|[_ Hj]]; [by left|].
  right. by eapply list_elem_of_lookup_2.
Qed.

(** The identifiers in use may change elsewhere. *)
Lemma owned_ext a a' out hs : owned a out hs -> wf_ids a' -> gen a' = gen a ->
  (forall id, in_u16 id -> in_use a id = true -> in_use a' id = true) -> owned a' out hs.
Proof.
  intros [Hw Hg Ho Hh Hn Hold] Hw' Eg Hu. split; rewrite ?Eg; try done.
  - intros id Hid. destruct (Ho id Hid) as [Hr Hi]. split; [done|]. apply Hu; [unfold in_u16; lia|done].
  - intros id Hid. destruct (Hh id Hid) as [Hi Hn']. split; [|done]. apply elem_of_held_now, Hold in Hid. apply Hu; [unfold in_u16; lia|done].
Qed.

Lemma acquired_fresh a id g a' out hs : owned a out hs -> idAllocator_Acquire a = (Acquired id g, a') ->
  owned a' out hs /\ g = gen a' /\ gen a' = gen a /\ 0 < id < 65536 /\ id ∉ out /\ id ∉ held_now (gen a) hs /\ in_use a' id = true.
Proof.
  intros Hown Ha. pose proof (Acquire_spec a (ow_wf _ _ _ Hown)) as Hs. rewrite Ha in Hs. destruct Hs as (-> & -> & Hid & Hf & _).
  assert (Hu : in_u16 id) by (unfold in_u16; lia). assert (Hm : wf_ids (marked a id)) by (apply wf_marked; [apply Hown|done|lia]).
  assert (Huse : forall i, in_u16 i -> in_use (marked a id) i = bool_decide (i = id) || in_use a i)
    by (intros i Hi; apply in_use_mark; [apply Hown|done..]).
  split_and!; try (done || lia).
  - apply (owned_ext a); [done|done|done|]. intros i Hi Hin. rewrite Huse, Hin by done. apply orb_true_r.
  - intros Hin. apply Hown in Hin as [_ Hin]. congruence.
  - intros Hin. apply Hown in Hin as [Hin _]. congruence.
  - rewrite Huse, bool_decide_true by done. done.
Qed.

(** A publish stores its message under the identifier it acquired. *)
Lemma owned_publish a id g a' out hs : owned a out hs -> idAllocator_Acquire a = (Acquired id g, a') -> owned a' (out ++ [id]) hs.
Proof.
  intros Hown Ha. destruct (acquired_fresh _ _ _ _ _ _ Hown Ha) as ([Hw Hg Ho Hh Hn Hold] & -> & Eg & Hid & Hno & Hnh & Hu). split; try done.
  - intros i [Hi| ->%list_elem_of_singleton]%elem_of_app; [by apply Ho|done].
  - intros i Hi. destruct (Hh i Hi) as [Hi1 Hi2]. split; [done|]. rewrite not_elem_of_app, list_elem_of_singleton. split; [done|].
    intros ->. by rewrite Eg in Hi.
Qed.

Lemma release_other a id g i : wf_ids a -> in_u16 id -> in_u16 i -> i <> id -> in_use (idAllocator_ReleaseAt id g a) i = in_use a i.
Proof. intros Hw Hid Hi Hne. rewrite in_use_ReleaseAt by done. rewrite bool_decide_false; [done|]. by intros [? _]. Qed.

(** An exchange is over. *)
Lemma owned_finish a id g out out' hs : owned a out hs -> id ∈ out -> (forall i, i ∈ out' <-> i <> id /\ i ∈ out) ->
  owned (idAllocator_ReleaseAt id g a) out' hs.
Proof.
  intros [Hw Hg Ho Hh Hn Hold] Hid Hout. destruct (Ho id Hid) as [Hr _]. assert (Hu : in_u16 id) by (unfold in_u16; lia).
  assert (Hgen : gen (idAllocator_ReleaseAt id g a) = gen a) by (apply gen_ReleaseAt).
  split; rewrite ?Hgen; try done.
  - by apply wf_ReleaseAt.
  - intros i [Hne Hi]%Hout. destruct (Ho i Hi) as [Hri Hui]. split; [done|].
    rewrite release_other; [done|done|done|unfold in_u16; lia|done].
  - intros i Hi. destruct (Hh i Hi) as [Hui Hni]. pose proof (Hold _ _ (proj1 (elem_of_held_now _ _ _) Hi)) as [_ Hri].
    rewrite release_other; [|done|done|unfold in_u16; lia|by intros ->]. split; [done|]. rewrite Hout. tauto.
Qed.

(** A new session: all identifiers are free, and what calls held is void. *)
Lemma owned_reset a out hs : owned a out hs -> in_u64 (gen a + 1) -> owned (idAllocator_Reset a) [] hs.
Proof.
  intros [Hw Hg Ho Hh Hn Hold] Hr. assert (Eg : gen (idAllocator_Reset a) = gen a + 1) by (simpl; by apply u64_id).
  assert (Hnone : held_now (gen (idAllocator_Reset a)) hs = []).
  { destruct (held_now (gen (idAllocator_Reset a)) hs) as [|i l] eqn:E; [done|].
    assert (Hi : i ∈ held_now (gen (idAllocator_Reset a)) hs) by (rewrite E; apply list_elem_of_here).
    apply elem_of_held_now, Hold in Hi. lia. }
  split; rewrite ?Hnone; try (by intros ? ?%elem_of_nil); [apply wf_Reset_ids|lia|constructor|].
  intros i g Hi. specialize (Hold i g Hi). rewrite Eg. lia.
Qed.

Lemma owned_more a out hs : owned a out hs -> owned a out (hs ++ [None]).
Proof.
  intros [Hw Hg Ho Hh Hn Hold]. assert (E : held_now (gen a) (hs ++ [None]) = held_now (gen a) hs) by (rewrite held_now_app; apply app_nil_r).
  split; rewrite ?E; try done. intros i g [Hi|Hi%list_elem_of_singleton]%elem_of_app; [by apply Hold|done].
Qed.

Lemma owned_less a out hs : owned a out (hs ++ [None]) -> owned a out hs.
Proof.
  intros [Hw Hg Ho Hh Hn Hold]. assert (E : held_now (gen a) (hs ++ [None]) = held_now (gen a) hs) by (rewrite held_now_app; apply app_nil_r).
  rewrite E in *. split; try done. intros i g Hi. apply Hold, elem_of_app. by left.
Qed.

(** A new call that has already acquired its identifier. *)
Lemma owned_acquire a id g a' out hs : owned a out hs -> idAllocator_Acquire a = (Acquired id g, a') -> owned a' out (hs ++ [Some (id, g)]).
Proof.
  intros Hown Ha. destruct (acquired_fresh _ _ _ _ _ _ Hown Ha) as ([Hw Hg Ho Hh Hn Hold] & -> & Eg & Hid & Hno & Hnh & Hu).
  assert (E : held_now (gen a') (hs ++ [Some (id, gen a')]) = held_now (gen a') hs ++ [id])
    by (rewrite held_now_app; unfold held_now at 2; cbn; by rewrite Z.eqb_refl).
  rewrite <- Eg in Hnh. split; rewrite ?E; try done.
  - intros i [Hi| ->%list_elem_of_singleton]%elem_of_app; [by apply Hh|done].
  - apply NoDup_app. split_and!; [done| |apply NoDup_singleton]. by intros i Hi ->%list_elem_of_singleton.
  - intros i g [Hi|[= -> ->]%list_elem_of_singleton]%elem_of_app; [by apply Hold|]. split; [lia|done].
Qed.

(** A call gives its identifier back. *)
Lemma owned_release a out hs i id g : owned a out hs -> hs !! i = Some (Some (id, g)) ->
  owned (idAllocator_ReleaseAt id g a) out (<[i := None]> hs).
Proof.
  intros [Hw Hg Ho Hh Hn Hold] Hi. destruct (Hold id g (list_elem_of_lookup_2 _ _ _ Hi)) as [Hle Hr].
  assert (Hu : in_u16 id) by (unfold in_u16; lia).
  assert (Hgen : gen (idAllocator_ReleaseAt id g a) = gen a) by (apply gen_ReleaseAt).
  destruct (held_now_insert (gen a) hs i (Some (id, g)) None Hi) as [E1 E2]. change (held_now (gen a) [None]) with (@nil Z) in E2. cbn [app] in E2.
  assert (Hsub : forall j, j ∈ held_now (gen a) (<[i := None]> hs) -> j ∈ held_now (gen a) hs).
  { intros j. rewrite E1, E2, elem_of_app. tauto. }
  assert (Hkeep : forall j, in_u16 j -> (g = gen a -> j <> id) -> in_use (idAllocator_ReleaseAt id g a) j = in_use a j).
  { intros j Hj Hne. rewrite in_use_ReleaseAt by done. rewrite bool_decide_false; [done|]. intros [-> ->]. by apply Hne. }
  assert (Hmine : g = gen a -> id ∈ held_now (gen a) hs) by (intros <-; apply elem_of_held_now; by eapply list_elem_of_lookup_2).
  split; rewrite ?Hgen; try done.
  - by apply wf_ReleaseAt.
  - intros j Hj. destruct (Ho j Hj) as [Hrj Huj]. split; [done|]. rewrite Hkeep; [done|unfold in_u16; lia|].
    intros Eg ->. by apply (Hh id (Hmine Eg)).
  - intros j Hj. destruct (Hh j (Hsub j Hj)) as [Huj Hnj]. split; [|done].
    pose proof (Hold _ _ (proj1 (elem_of_held_now _ _ _) (Hsub j Hj))) as [_ Hrj]. rewrite Hkeep; [done|unfold in_u16; lia|].
    intros Eg ->. rewrite E1 in Hn. rewrite E2 in Hj. apply NoDup_app in Hn as (_ & Hn & _). apply (Hn id); [|done].
    apply elem_of_held_now. rewrite Eg. apply list_elem_of_here.
  - rewrite E2. rewrite E1 in Hn. apply NoDup_app in Hn. tauto.
  - intros j g' Hj. apply in_insert in Hj as [Hj|Hj]; [done|by apply Hold].
Qed.

(** A call that held nothing acquires an identifier. *)
Lemma owned_take a out hs i id g a' : owned a out hs -> hs !! i = Some None -> idAllocator_Acquire a = (Acquired id g, a') ->
  owned a' out (<[i := Some (id, g)]> hs).
Proof.
  intros Hown Hi Ha. destruct (acquired_fresh _ _ _ _ _ _ Hown Ha) as ([Hw Hg Ho Hh Hn Hold] & -> & Eg & Hid & Hno & Hnh & Hu).
  destruct (held_now_insert (gen a') hs i None (Some (id, gen a')) Hi) as [E1 E2].
  assert (E : held_now (gen a') [Some (id, gen a')] = [id]) by (unfold held_now; cbn; by rewrite Z.eqb_refl).
  change (held_now (gen a') [None]) with (@nil Z) in E1. rewrite E in E2. cbn [app] in E1, E2. rewrite <- E1 in E2.
  rewrite <- Eg in Hnh. split; try done.
  - intros j. rewrite E2, elem_of_cons. intros [->|Hj]; [done|by apply Hh].
  - rewrite E2. by apply NoDup_cons.
  - intros j g Hj. apply in_insert in Hj as [[= -> ->]|Hj]; [|by apply Hold]. split; [lia|done].
Qed.

Lemma id_move_gen a h a' h' : wf_ids a -> id_move a h a' h' -> gen a' = gen a.
Proof.
  intros Hw [h0|id g a1 Ha|g a1 Ha|id g]; [done|..]; try (pose proof (Acquire_spec a Hw) as Hs; rewrite Ha in Hs).
  - by destruct Hs as (_ & -> & _).
  - by destruct Hs as (_ & _ & _ & _ & Hg).
  - apply gen_ReleaseAt.
Qed.

(** A refused acquisition leaves everything as it was. *)
Lemma owned_exhausted a g a' out hs : owned a out hs -> idAllocator_Acquire a = (PacketIDExhausted g, a') -> owned a' out hs.
Proof.
  intros Hown Ha. pose proof (Acquire_spec a (ow_wf _ _ _ Hown)) as Hs. rewrite Ha in Hs.
  destruct Hs as (_ & _ & Hw' & Hused & Hg). apply (owned_ext a); [done..|]. intros id _. unfold in_use. by rewrite Hused.
Qed.

Lemma owned_move a out hs i h a' h' : owned a out hs -> hs !! i = Some h -> id_move a h a' h' -> owned a' out (<[i := h']> hs).
Proof.
  intros Hown Hi Hm. destruct Hm as [h|id g a' Ha|g a' Ha|id g].
  - by rewrite list_insert_id.
  - by apply (owned_take a).
  - rewrite list_insert_id by done. by eapply owned_exhausted.
  - by apply owned_release.
Qed.
