(* ===== verification/Simulation.v ===== *)
(** The client as a sender of Delivery: the relation between a state of client and
    broker and a state of the abstract protocol, and its preservation by
    publishes, by the broker's turns and by what is no part of an exchange. *)

From S2P Require Import Prelude GoStrings Codes Wire WireFacts Props PropsFacts PublishPackets ControlPackets.
From S2P Require Import SubscribePackets Topic SessionStore Errors IdAllocator Quota Subscriptions Lifecycle.
From S2P Require Import Client Pump Requests Connection ClientFacts SessionFacts RequestFacts LinkFacts OutboundFacts Wellformed.
From S2P Require Import Delivery World WorldFacts Ownership PublishFacts Torn.
From stdpp Require Import options.

(** * The abstraction *)

(** A stored entry as an exchange. *)
Definition abs_entry (e : entry) : option (Z * outgoing) :=
  if e.1.2 =? StoredPublish then (fun p => (e.1.1, OPub (canon_publish p))) <$> e.2
  else if e.1.2 =? StoredPubrel then Some (e.1.1, ORel)
  else None.

(** A packet that can be sent under its identifier, again and again, to a broker
    with the limit [M]. *)
Definition sendable (v M id : Z) (p : PublishPacket) : Prop :=
  pub_Version p = v /\ pub_Dup p = false /\ pub_PacketID p = id /\ wf_publish p /\ publishable p /\
  (pub_QoS p = 1 \/ pub_QoS p = 2) /\ exists f, PublishPacket_Encode p [] = Ok f /\ (M = 0 \/ len f <= M).

Definition good_entry (v M : Z) (e : entry) : Prop :=
  (e.1.2 = StoredPublish -> exists p, e.2 = Some p /\ sendable v M e.1.1 p) /\
  (e.1.2 = StoredPubrel -> M = 0 \/ 4 <= M).

(** What is under way to the client: answers, and frames of no concern. *)
Inductive arrival : Type := Answer (a : Z * Z * Z) | Benign (h : Z) (body : list Z).

Definition arrival_bytes (v : Z) (x : arrival) : list Z :=
  match x with Answer a => reply v a | Benign h body => packet_bytes h body end.
Definition arrival_down (x : arrival) : option (Z * Z) := match x with Answer a => Some a.1 | Benign _ _ => None end.

Definition arrival_ok (max : Z) (x : arrival) : Prop :=
  match x with
  | Answer (t, id, rc) => 0 < id < 65536 /\ (t = Puback /\ rc = Success \/ t = Pubrec /\ rc = Success \/ t = Pubcomp /\ in_u8 rc)
  | Benign h body => len (packet_bytes h body) <= max /\ len body <= maxVarint /\ Z.shiftr h 4 ∉ [Puback; Pubrec; Pubcomp]
  end.

Section refinement.
Context {St : Type} {HS : SessionStore St} {HC : ContainsStore St} {HE : Environment St}.
Context {HL : SessionStoreLaws St} {HR : ReliableStore St} {HH : Handlers St}.
Implicit Types c : client St.
Implicit Types w : world (St := St).
Set Default Proof Using "Type*".

Definition outs c : list (Z * outgoing) := omap abs_entry (contents (c_store c)).

(** What the connection carries. *)
Definition on_link (M : Z) c (read : nat) (up : list upward) (down : list (Z * Z)) (l : nat) : Prop :=
  l_idGen (the_link c l) = gen (c_ids c) /\ l_outboundMax (the_link c l) = M /\ l_inboundMax (the_link c l) = c_inboundMax c /\
  (read <= length (written c l))%nat /\ up = omap (heed (c_version c)) (drop read (written c l)) /\
  exists xs, cn_r (the_conn c l) = concat (arrival_bytes (c_version c) <$> xs) /\
    Forall (arrival_ok (c_inboundMax c)) xs /\ down = omap arrival_down xs.

(** A world and the state of the protocol it stands for. *)
Record matches (M : Z) (w : world) (e : exchanges) : Prop := {
  m_wf : good (omap task_link (w_tasks w)) (w_c w);
  m_version : Version_Valid (c_version (w_c w)) = true;
  m_inbound : 5 <= c_inboundMax (w_c w) < 4294967296;
  m_store : store_ok (c_store (w_c w));
  m_entries : Forall (good_entry (c_version (w_c w)) M) (contents (c_store (w_c w)));
  m_out : e_out e = outs (w_c w);
  m_owned : owned (c_ids (w_c w)) (e_out e).*1 (holds <$> w_tasks w);
  m_b : e_b e = w_b w;
  m_log : e_log e = w_log w;
  m_live : e_live e = is_some (c_link (w_c w));
  m_link l : c_link (w_c w) = Some l -> on_link M (w_c w) (w_read w) (e_up e) (e_down e) l;
  m_inv : einv e
}.

(** * Steps outside the exchanges *)

Lemma is_some_link c l : c_link c = Some l -> is_some (c_link c) = true.
Proof. by intros ->. Qed.

Definition dropped (e : exchanges) : exchanges := mkExchanges false (e_out e) [] [] (e_b e) (e_log e).
Lemma dropped_step e : rtc estep e (dropped e).
Proof using Type. destruct e. apply rtc_once, e_drop. Qed.

(** A step that keeps the stored exchanges ... *)
Definition keeps_stored (M : Z) (w : world) (e : exchanges) c' tasks' : Prop :=
  good (omap task_link tasks') c' /\ store_ok (c_store c') /\ outs c' = outs (w_c w) /\
  Forall (good_entry (c_version (w_c w)) M) (contents (c_store c')) /\
  c_version c' = c_version (w_c w) /\ c_inboundMax c' = c_inboundMax (w_c w) /\ gen (c_ids c') = gen (c_ids (w_c w)) /\
  owned (c_ids c') (e_out e).*1 (holds <$> tasks').

Lemma matches_kept M w e c' tasks' live up down : matches M w e -> keeps_stored M w e c' tasks' -> live = is_some (c_link c') ->
  einv (mkExchanges live (e_out e) up down (e_b e) (e_log e)) -> (forall l, c_link c' = Some l -> on_link M c' (w_read w) up down l) ->
  matches M (mkWorld c' tasks' (w_read w) (w_b w) (w_log w)) (mkExchanges live (e_out e) up down (e_b e) (e_log e)).
Proof.
  intros [Hw Hv Hi Hs He Ho Hown Hb Hlog Hlive Hlink Hinv] (Hg & Hok & Es & Hent & Ev & Ei & Egen & Hown') El Hinv' Hl'.
  split; cbn [w_c w_tasks w_read w_b w_log e_out e_up e_down e_live e_log e_b]; rewrite ?Ev, ?Ei, ?Es; done.
Qed.

(** ... and brings the connection down, ... *)
Lemma matches_down M w e c' tasks' : matches M w e -> keeps_stored M w e c' tasks' -> c_link c' = None ->
  matches M (mkWorld c' tasks' (w_read w) (w_b w) (w_log w)) (dropped e).
Proof.
  intros Hm Hk Hc. apply (matches_kept M w e); rewrite ?Hc; [done..| |done]. exact (esteps_inv _ _ (dropped_step e) (m_inv _ _ _ Hm)).
Qed.

(** ... or keeps it, and only sends what is no part of an exchange. *)
Lemma matches_steady M w e c' tasks' fs : matches M w e -> keeps_stored M w e c' tasks' -> steady fs (w_c w) c' ->
  Forall (unheeded (c_version (w_c w))) fs -> matches M (mkWorld c' tasks' (w_read w) (w_b w) (w_log w)) e.
Proof.
  intros Hm Hk [El Hst] Hfs. assert (Ee : e = mkExchanges (e_live e) (e_out e) (e_up e) (e_down e) (e_b e) (e_log e)) by (by destruct e).
  rewrite Ee. apply (matches_kept M w e); [done|done|rewrite El; apply Hm|rewrite <- Ee; apply Hm|].
  destruct Hk as (_ & _ & _ & _ & Ev & Ei & Egen & _). intros l Hl. rewrite El in Hl. destruct (Hst l Hl) as (E1 & E2 & E3 & E4 & E5).
  destruct (m_link _ _ _ Hm l Hl) as (L1 & L2 & L3 & L4 & L5 & xs & L6 & L7 & L8).
  unfold on_link. rewrite Ev, Ei, E1, E2, E3, E4, E5, Egen. split_and!; try done.
  - rewrite length_app. lia.
  - rewrite drop_app_le by lia. rewrite omap_app, (omap_unheeded _ fs) by done. by rewrite app_nil_r.
  - by exists xs.
Qed.

Lemma matches_still M w e c' tasks' : matches M w e -> keeps_stored M w e c' tasks' ->
  c_link c' = None \/ (exists fs, steady fs (w_c w) c' /\ Forall (muted (c_version (w_c w))) fs) ->
  exists e', rtc estep e e' /\ matches M (mkWorld c' tasks' (w_read w) (w_b w) (w_log w)) e'.
Proof.
  intros Hm Hk [Hc|(fs & Hst & Hfs)].
  - exists (dropped e). split; [apply dropped_step|by apply matches_down].
  - exists e. split; [done|]. eapply matches_steady; [done..|by apply muted_unheeded].
Qed.

Lemma matches_hushed M w e c' tasks' : matches M w e -> good (omap task_link tasks') c' -> hushed (w_c w) c' ->
  gen (c_ids c') = gen (c_ids (w_c w)) -> owned (c_ids c') (e_out e).*1 (holds <$> tasks') ->
  exists e', rtc estep e e' /\ matches M (mkWorld c' tasks' (w_read w) (w_b w) (w_log w)) e'.
Proof.
  intros Hm Hg [(Es & Ev & Ei) Hc] Hgen Hown. apply matches_still; [done| |done]. unfold keeps_stored, outs. rewrite Es. split_and!; try done; apply Hm.
Qed.

(** ... with the identifiers untouched. *)
Lemma matches_serene M w e c' : matches M w e -> good (omap task_link (w_tasks w)) c' -> hushed (w_c w) c' ->
  c_ids c' = c_ids (w_c w) -> exists e', rtc estep e e' /\ matches M (with_client c' w) e'.
Proof.
  intros Hm Hg Hh Ei. apply (matches_hushed M w e c' (w_tasks w)); try done; rewrite Ei; [done|]. apply Hm.
Qed.

Lemma upholds_task_step L ev t : (forall l, task_link t = Some l -> l ∈ L) -> upholds L (task_step (St := St) ev t).
Proof.
  intros Hl c Hc. destruct t as [l filter options subID h pc|l filter pc|pc]; cbn [task_step task_link] in *.
  - pose proof (upholds_subscribe_step L l filter options subID h ev pc (Hl l eq_refl) c Hc). by destruct (subscribe_step _ _ _ _ _ _ _ c).
  - pose proof (upholds_unsubscribe_step L l filter ev pc (Hl l eq_refl) c Hc). by destruct (unsubscribe_step _ _ _ _ c).
  - pose proof (upholds_awaitResubscribe L ev pc c Hc). by destruct (awaitResubscribe_step _ _ c).
Qed.

Lemma omap_insert_same {A B} (f : A -> option B) (l : list A) i x y : l !! i = Some x -> f y = f x -> omap f (<[i := y]> l) = omap f l.
Proof.
  intros Hi E. rewrite insert_take_drop by (by eapply lookup_lt_Some). rewrite <- (take_drop_middle l i x Hi) at 3.
  rewrite !omap_app. cbn [omap list_omap]. by rewrite E.
Qed.

Lemma matches_task M w e i t ev : matches M w e -> w_tasks w !! i = Some t ->
  let '(t', c') := task_step ev t (w_c w) in
  exists e', rtc estep e e' /\ matches M (mkWorld c' (<[i := t']> (w_tasks w)) (w_read w) (w_b w) (w_log w)) e'.
Proof.
  intros Hm Hi. pose proof (m_wf _ _ _ Hm) as [Hw HLs].
  assert (Hl : forall l, task_link t = Some l -> is_Some (c_links (w_c w) !! l)).
  { intros l Hl. apply HLs, list_elem_of_omap. exists t. split; [by eapply list_elem_of_lookup_2|done]. }
  destruct (task_tame ev t (w_c w) Hw Hl) as [Hh Hmv]. pose proof (task_step_link ev t (w_c w)) as Elk.
  assert (Hg : good (omap task_link (w_tasks w)) (task_step ev t (w_c w)).2).
  { apply upholds_task_step; [|by split]. intros l Hl'. apply list_elem_of_omap. exists t. split; [by eapply list_elem_of_lookup_2|done]. }
  destruct (task_step ev t (w_c w)) as [t' c']. cbn [fst snd] in *.
  assert (Elinks := omap_insert_same task_link _ i t t' Hi Elk).
  apply matches_hushed; [done|by rewrite Elinks|done| |].
  - by eapply id_move_gen; [apply Hw|].
  - rewrite list_fmap_insert. eapply owned_move; [apply Hm| |exact Hmv]. by rewrite list_lookup_fmap, Hi.
Qed.

(** * Publish *)

Lemma stored_in_use M w e i : matches M w e -> stored i StoredPublish (w_c w) -> in_use (c_ids (w_c w)) i = true.
Proof.
  intros Hm Hs. unfold stored in Hs. apply list_elem_of_fmap in Hs as ([[i' k] o] & [= <- <-] & Hin).
  pose proof (m_entries _ _ _ Hm) as He. rewrite Forall_forall in He. destruct (proj1 (He _ Hin) eq_refl) as (p & Ho & _).
  cbn in Ho. subst o. apply (ow_out _ _ _ (m_owned _ _ _ Hm)). rewrite (m_out _ _ _ Hm). unfold outs.
  apply (list_elem_of_fmap_2 fst _ (i, OPub (canon_publish p))), list_elem_of_omap. by eexists.
Qed.

Lemma on_link_sent M c c' read up down l f u : on_link M c read up down l -> c_link c = Some l -> c_version c' = c_version c ->
  c_inboundMax c' = c_inboundMax c -> gen (c_ids c') = gen (c_ids c) -> steady [f] c c' -> heed (c_version c) f = Some u ->
  on_link M c' read (up ++ [u]) down l.
Proof.
  intros (L1 & L2 & L3 & L4 & L5 & xs & L6 & L7 & L8) Hl Ev Ei Eg [El Hst] Hf.
  destruct (Hst l Hl) as (E1 & E2 & E3 & E4 & E5). unfold on_link. rewrite Ev, Ei, E1, E2, E3, E4, E5, Eg. split_and!; try done.
  - rewrite length_app. lia.
  - rewrite drop_app_le by lia. rewrite omap_app, L5. cbn. by rewrite Hf.
  - by exists xs.
Qed.

Lemma turns_good L l pkt evs pc c : l ∈ L -> good L c -> good L (fold_left (fun '(pc, c) ev => pub_step l pkt ev pc c) evs (pc, c)).2.
Proof.
  intros Hl. revert pc c. induction evs as [|ev evs IH]; intros pc c Hc; [done|]. cbn [fold_left].
  pose proof (upholds_pub_step L l pkt ev pc Hl c Hc) as H. destruct (pub_step l pkt ev pc c). by apply IH.
Qed.

Lemma publishAcked_good L l pkt evs c : l ∈ L -> good L c -> good L (publishAcked l pkt evs c).2.
Proof. apply turns_good. Qed.

Lemma turns_const l pkt evs pc c : let c' := (fold_left (fun '(pc, c) ev => pub_step l pkt ev pc c) evs (pc, c)).2 in
  c_version c' = c_version c /\ c_inboundMax c' = c_inboundMax c.
Proof.
  assert (Hstep : forall ev pc c, c_version (pub_step l pkt ev pc c).2 = c_version c /\ c_inboundMax (pub_step l pkt ev pc c).2 = c_inboundMax c).
  { intros ev pc0 c0. destruct pc0 as [|w|qg|qg id ig|qg id ig|qg id ig ch|qg id ig ch err|qg id ig err|qg id ig err|qg id ig err|qg err|id ch|id ch err|err];
      cbn [pub_step]; try (by repeat case_match); try done.
    - pose proof (writeFrame_same (Some l) (PublishPacket_Encode (with_PacketID id pkt)) c0) as [].
      by destruct (writeFrame _ _ c0) as [[e|] c1].
    - by destruct (removeWaiter_same id ch c0) as [[] _].
    - by destruct (removeWaiter_same id ch c0) as [[] _]. }
  revert pc c. induction evs as [|ev evs IH]; intros pc c; [done|]. cbn [fold_left].
  destruct (Hstep ev pc c) as [E1 E2]. destruct (pub_step l pkt ev pc c) as [pc1 c1]. cbn [snd] in *. destruct (IH pc1 c1) as [E3 E4].
  split; congruence.
Qed.

Lemma publishAcked_const l pkt evs c : let c' := (publishAcked l pkt evs c).2 in
  c_version c' = c_version c /\ c_inboundMax c' = c_inboundMax c.
Proof. apply turns_const. Qed.

Lemma torn_good L l pkt n g c : l ∈ L -> good L c -> good L (torn_publish l pkt n g c).2.
Proof.
  intros Hl Hg. unfold torn_publish. pose proof (publishAcked_good L l pkt (replicate n Run) c Hl Hg) as H.
  destruct (publishAcked _ _ _ _) as [pc c1]. apply turns_good; [done|by apply good_teardown].
Qed.

Lemma torn_const l pkt n g c : let c' := (torn_publish l pkt n g c).2 in c_version c' = c_version c /\ c_inboundMax c' = c_inboundMax c.
Proof.
  unfold torn_publish. destruct (publishAcked_const l pkt (replicate n Run) c) as [E1 E2]. destruct (publishAcked _ _ _ _) as [pc c1].
  destruct (turns_const l pkt publish_turns pc (teardownLink l g c1)) as [E3 E4]. destruct (teardown_same l g c1). cbn [snd] in *. split; congruence.
Qed.

Lemma matches_published M w e l pkt pc c' : matches M w e -> c_link (w_c w) = Some l ->
  pub_Version pkt = c_version (w_c w) -> pub_QoS pkt = 1 \/ pub_QoS pkt = 2 -> pub_Dup pkt = false ->
  (forall id, in_u16 id -> wf_publish (with_PacketID id pkt) /\ publishable (with_PacketID id pkt)) ->
  good (omap task_link (w_tasks w)) c' -> c_version c' = c_version (w_c w) -> c_inboundMax c' = c_inboundMax (w_c w) ->
  published l pkt (w_c w) (pc, c') ->
  exists e', rtc estep e e' /\ matches M (mkWorld c' (w_tasks w) (w_read w) (w_b w) (w_log w ++ [message pkt])) e'.
Proof.
  intros Hm Hl Hv Hq Hd Hlegal Hg Ev Ei (id & ig & a & f & _ & Hacq & Ea & Hok & Hc & Henc & Hmax & Hst). cbn [snd] in *.
  destruct (acquired_fresh _ _ _ _ _ _ (m_owned _ _ _ Hm) Hacq) as (_ & _ & Egen & Hid & Hno & _ & _).
  destruct (Hlegal id) as [Hwf Hpub]; [unfold in_u16; lia|]. set (p := with_PacketID id pkt) in *.
  assert (Hcp : canon_publish p = undup (canon_publish p)) by (unfold undup, canon_publish, p, with_PacketID; cbn; by rewrite Hd).
  assert (Hpid : pub_PacketID (canon_publish p) = id) by (cbn; by destruct Hq as [-> | ->]).
  assert (Hheed : heed (c_version (w_c w)) f = Some (UPub (canon_publish p))) by (rewrite Hcp, <- Hv; by apply (heed_publish p)).
  destruct e as [live out up down b log]. pose proof (m_live _ _ _ Hm) as Elive. rewrite (is_some_link _ _ Hl) in Elive.
  cbn [e_live] in Elive. subst live. pose proof (m_link _ _ _ Hm l Hl) as Hlink. cbn [e_up e_down] in Hlink.
  assert (Hstep : estep (mkExchanges true out up down b log)
    (mkExchanges true (out ++ [(id, OPub (canon_publish p))]) (up ++ [UPub (canon_publish p)]) down b (log ++ [content (canon_publish p)]))).
  { rewrite <- Hpid at 1. apply e_publish; [by rewrite Hpid|done]. }
  eexists. split; [by apply rtc_once|]. assert (Hinv := estep_inv _ _ Hstep (m_inv _ _ _ Hm)).
  pose proof (proj1 Hst) as El. pose proof Hlink as (_ & HM & _). rewrite HM in Hmax.
  split; cbn [w_c w_tasks w_read w_b w_log e_out e_up e_down e_live e_log e_b]; rewrite ?Ev, ?Ei; try apply Hm; try done.
  - rewrite Hc. apply Forall_app. split; [apply Hm|]. constructor; [|done]. split; [|done]. intros _. exists p. split; [done|]. cbn [fst].
    split_and!; try done. by exists f.
  - unfold outs. rewrite Hc, omap_app. pose proof (m_out _ _ _ Hm) as Ho. cbn [e_out] in Ho. rewrite Ho. done.
  - rewrite fmap_app, Ea. eapply owned_publish; [apply Hm|exact Hacq].
  - pose proof (m_log _ _ _ Hm) as Elog. cbn [e_log] in Elog. by rewrite Elog.
  - by rewrite El, Hl.
  - intros l' Hl'. assert (l' = l) as -> by congruence. eapply on_link_sent; try done. by rewrite Ea.
Qed.

(** A publish that has left no trace. *)
Lemma matches_unpublished M w e pc c' : matches M w e -> good (omap task_link (w_tasks w)) c' -> c_version c' = c_version (w_c w) ->
  c_inboundMax c' = c_inboundMax (w_c w) -> unpublished (w_c w) (pc, c') -> exists e', rtc estep e e' /\ matches M (with_client c' w) e'.
Proof.
  intros Hm Hg Ev Ei (_ & Hok & Hc & Hgen & Huse & Hlnk). cbn [fst snd] in *. apply matches_still; [done| |].
  - unfold keeps_stored, outs. rewrite Hc. split_and!; try done; [apply Hm|]. apply (owned_ext (c_ids (w_c w))); [apply Hm|apply Hg|done|].
    intros i Hi Hin. by rewrite Huse.
  - destruct Hlnk as [|Hst]; [by left|right]. exists []. split; [done|constructor].
Qed.

Lemma matches_publish M w e topic payload qos retain opts : matches M w e -> lawful M (WPublish topic payload qos retain opts) w ->
  exists w' e', wstep (WPublish topic payload qos retain opts) w = Some w' /\ rtc estep e e' /\ matches M w' e'.
Proof.
  intros Hm (Hq & Hexp & Hroom). cbn [wstep]. unfold client_Publish.
  destruct (Publish_check topic payload qos retain opts (w_c w)) as [err|[l pkt]] eqn:Hpc.
  { eexists _, e. split; [done|]. split; [done|]. by destruct w, Hm. }
  destruct (Publish_check_packet (w_c w) topic payload qos retain opts l pkt Hq Hexp Hpc) as (Hl & Hv & Hqos & Hd & Hpid & Hq2 & Hlegal).
  destruct (m_wf _ _ _ Hm) as [Hw HLs]. destruct (wc_link _ Hw l Hl) as (lk & Hlk & _).
  assert (Hgood : good (l :: omap task_link (w_tasks w)) (w_c w)).
  { split; [done|]. intros l' [->|Hl']%elem_of_cons; [by exists lk|by apply HLs]. }
  assert (Hweak : forall c, good (l :: omap task_link (w_tasks w)) c -> good (omap task_link (w_tasks w)) c).
  { intros c. apply good_weaken. set_solver. }
  destruct (Z.eqb_spec qos 0) as [Hz|Hz].
  - assert (Ep : with_PacketID 0 pkt = pkt) by (destruct pkt; cbn in *; by subst).
    destruct (Hlegal 0) as [Hwf Hpub]; [by unfold in_u16|]. rewrite Ep in Hwf, Hpub.
    assert (Hh := writeFrame_hushed l (PublishPacket_Encode pkt) (w_c w) Hw (ex_intro _ lk Hlk)
      (mute_publish0 _ pkt Hwf Hpub Hv (eq_trans Hqos Hz))).
    assert (Hg := upholds_writeFrame _ l (PublishPacket_Encode pkt) (list_elem_of_here _ _) (sized_publish _) _ Hgood).
    assert (Hi := writeFrame_ids (Some l) (PublishPacket_Encode pkt) (w_c w)).
    destruct (writeFrame _ _ (w_c w)) as [err c']. cbn [snd] in *.
    destruct (matches_serene M w e c' Hm (Hweak _ Hg) Hh Hi) as (e' & Hs & Hm'). by eexists _, e'.
  - assert (Hg := publishAcked_good _ l pkt publish_turns _ (list_elem_of_here _ _) Hgood).
    destruct (publishAcked_const l pkt publish_turns (w_c w)) as [Ev Ei].
    destruct (publishAcked_outcome l pkt (w_c w) Hw (m_store _ _ _ Hm) Hroom Hl (fun i => stored_in_use M w e i Hm)) as [Hp|Hu];
      destruct (publishAcked l pkt publish_turns (w_c w)) as [pc c']; cbn [snd] in *.
    + destruct Hp as (id & ig & a & f & Epc & Hrest). cbn [fst] in Epc. subst pc.
      destruct (matches_published M w e l pkt (PWait id (c_nextCh (w_c w))) c') as (e' & Hs & Hm'); try done; [rewrite Hqos; lia|by apply Hweak| |].
      * by exists id, ig, a, f.
      * by eexists _, e'.
    + destruct (matches_unpublished M w e pc c' Hm (Hweak _ Hg) Ev Ei Hu) as (e' & Hs & Hm').
      exists (with_client c' w), e'. split; [|done]. destruct Hu as [Hpc' _]. destruct pc; try done. by destruct (Hpc' id ch).
Qed.

(** A call that has lost its connection: it returns an error, the session is as it
    was, and nobody waits any more. *)
Record gave_up w (pc : pub_pc) c' : Prop := {
  gu_error : exists err, pc = PDone (Some err);
  gu_trace : unpublished (w_c w) (pc, c');
  gu_link : c_link c' = None;
  gu_version : c_version c' = c_version (w_c w);
  gu_inbound : c_inboundMax c' = c_inboundMax (w_c w);
  gu_good : good (omap task_link (w_tasks w)) c';
  gu_waiters i wt : c_waiters c' !! i <> Some wt;
  gu_chans ch r : c_chans c' !! ch = Some r -> c_chans (w_c w) !! ch = Some r \/ r = connectionLost;
  gu_next : (c_nextCh (w_c w) <= c_nextCh c')%nat
}.

Lemma torn_gives_up M w e topic payload qos retain opts n g l pkt pc c' : matches M w e -> lawful M (WTorn topic payload qos retain opts n g) w ->
  torn_call topic payload qos retain opts n g (w_c w) = Some (l, pkt, (pc, c')) -> gave_up w pc c'.
Proof.
  intros Hm (Hq & Hexp & Hroom) Hstep. unfold torn_call in Hstep.
  destruct (Publish_check topic payload qos retain opts (w_c w)) as [err|[l0 pkt0]] eqn:Hpc; [done|].
  destruct (Publish_check_packet (w_c w) topic payload qos retain opts l0 pkt0 Hq Hexp Hpc) as (Hl & _).
  destruct (m_wf _ _ _ Hm) as [Hw HLs]. destruct (wc_link _ Hw l0 Hl) as (lk & Hlk & Hs0).
  assert (Hgood : good (l0 :: omap task_link (w_tasks w)) (w_c w)).
  { split; [done|]. intros l' [->|Hl']%elem_of_cons; [by exists lk|by apply HLs]. }
  assert (Hweak : forall c, good (l0 :: omap task_link (w_tasks w)) c -> good (omap task_link (w_tasks w)) c).
  { intros c. apply good_weaken. set_solver. }
  destruct (qos =? 0); [|destruct (n <? 5)%nat eqn:En; [apply Nat.ltb_lt in En|done]].
  - assert (Ha : ahead pkt0 (w_c w) 0 PQuota (w_c w)) by (split; cbn; done).
    pose proof (sever l0 pkt0 (w_c w) Hw (m_store _ _ _ Hm) Hroom (fun i => stored_in_use M w e i Hm) Hl 0 g PQuota (w_c w) Ha) as Hs.
    destruct (writeFrame_severed l0 (PublishPacket_Encode pkt0) (teardownLink l0 g (w_c w)) (sv_stop _ _ _ _ _ Hs) (sv_closed _ _ _ _ _ Hs)) as [err Ew].
    rewrite Ew in Hstep. injection Hstep as <- <- <- <-. pose proof (teardown_same l0 g (w_c w)) as Hss. split; try apply Hs; try apply Hss.
    + by exists err.
    + split_and!; cbn [fst snd]; rewrite ?(ss_store _ _ Hss), ?(ss_ids _ _ Hss); try done; [apply Hm|left; apply Hs].
    + apply Hweak, good_teardown; [apply list_elem_of_here|done].
    + intros i wt Hx. by apply (sv_waiters _ _ _ _ _ Hs) in Hx.
  - destruct (torn_outcome l0 pkt0 (w_c w) Hw (m_store _ _ _ Hm) Hroom (fun i => stored_in_use M w e i Hm) Hl n g En) as (err & c1 & Et & Hu & Hs).
    pose proof (torn_good _ l0 pkt0 n g _ (list_elem_of_here _ _) Hgood) as Hg. destruct (torn_const l0 pkt0 n g (w_c w)) as [Ev Ei].
    injection Hstep as <- <- Hstep. rewrite Et in Hstep, Hg, Ev, Ei. injection Hstep as <- <-. split; try apply Hs; try done.
    + by exists err.
    + by apply Hweak.
    + intros i wt Hx. by apply (sv_waiters _ _ _ _ _ Hs) in Hx.
Qed.

Lemma matches_torn M w w' e topic payload qos retain opts n g : let a := WTorn topic payload qos retain opts n g in
  matches M w e -> lawful M a w -> wstep a w = Some w' -> exists e', rtc estep e e' /\ matches M w' e'.
Proof.
  intros a Hm Hlaw Hstep. unfold a in Hstep. cbn [wstep] in Hstep.
  destruct (torn_call topic payload qos retain opts n g (w_c w)) as [[[l pkt] [pc c']]|] eqn:Ht; [|done]. cbn [mbind option_bind] in Hstep. injection Hstep as <-.
  destruct (torn_gives_up M w e _ _ _ _ _ _ _ _ _ _ _ Hm Hlaw Ht). by eapply matches_unpublished.
Qed.

(** * The broker takes a frame *)

Lemma arrive_good L l bytes c : good L c -> good L (arrive l bytes c).
Proof.
  intros Hg. unfold arrive. apply good_upd_conn; [|done]. intros l' lk' cn' _ _ _ [H1 H2]. by split.
Qed.

Lemma arrive_written l bytes c : written (arrive l bytes c) l = written c l.
Proof using Type. unfold written, the_conn, arrive, upd_conn. csimp. unfold the_link. csimp. by rewrite lookup_total_insert_eq. Qed.
Lemma arrive_read l bytes c : cn_r (the_conn (arrive l bytes c) l) = cn_r (the_conn c l) ++ bytes.
Proof using Type. unfold the_conn, arrive, upd_conn. csimp. unfold the_link. csimp. by rewrite lookup_total_insert_eq. Qed.

Lemma on_link_arrive M c read up down l x : on_link M c read up down l -> arrival_ok (c_inboundMax c) x ->
  on_link M (arrive l (arrival_bytes (c_version c) x) c) read up (down ++ option_list (arrival_down x)) l.
Proof.
  intros (L1 & L2 & L3 & L4 & L5 & xs & L6 & L7 & L8) Hx.
  unfold on_link. rewrite arrive_written, arrive_read. split_and!; try done. exists (xs ++ [x]). split_and!.
  - rewrite fmap_app, concat_app, L6. cbn. by rewrite app_nil_r.
  - apply Forall_app. split; [done|]. by constructor.
  - rewrite omap_app, L8. cbn [omap list_omap]. by destruct (arrival_down x).
Qed.

(** What the client is told by bytes that arrive. *)
Lemma matches_arrive M w e l x e' read : matches M w e -> c_link (w_c w) = Some l -> arrival_ok (c_inboundMax (w_c w)) x ->
  e_out e' = e_out e -> e_live e' = e_live e -> e_log e' = e_log e -> e_down e' = e_down e ++ option_list (arrival_down x) -> einv e' ->
  on_link M (w_c w) read (e_up e') (e_down e) l ->
  matches M (mkWorld (arrive l (arrival_bytes (c_version (w_c w)) x) (w_c w)) (w_tasks w) read (e_b e') (w_log w)) e'.
Proof.
  intros [Hw Hv Hi Hs He Ho Hown Hb Hlog Hlive Hlink Hinv] Hl Hx Eo El Elog Ed Hinv' Hon.
  split; cbn [w_c w_tasks w_read w_b w_log]; rewrite ?Eo, ?El, ?Elog, ?Ed; try done; [by apply arrive_good|].
  intros l' Hl'. assert (l' = l) as -> by (cbn in Hl'; congruence). by apply on_link_arrive.
Qed.

Lemma receive_answer u b : (forall p, u = UPub p -> pub_QoS p = 1 \/ pub_QoS p = 2) ->
  exists t rc, (receive u b).2 = Some (t, up_id u, rc) /\
    (t = Puback /\ rc = Success \/ t = Pubrec /\ rc = Success \/ t = Pubcomp /\ in_u8 rc).
Proof.
  intros Hq. destruct u as [p|id]; cbn [receive up_id].
  - destruct (Hq p eq_refl) as [E|E]; rewrite E; cbn [Z.eqb Pos.eqb]; [by exists Puback, Success; auto|].
    case_bool_decide; exists Pubrec, Success; auto.
  - eexists Pubcomp, _. split; [done|]. right. right. split; [done|]. case_bool_decide; by_decide.
Qed.

Lemma heed_cases v f : heed v f = hear v f \/ exists p, hear v f = Some (UPub p) /\ pub_QoS p = 0 /\ heed v f = None.
Proof.
  unfold heed. destruct (hear v f) as [[p|id]|]; [|by left..]. destruct (Z.eqb_spec (pub_QoS p) 0); [right; by exists p|by left].
Qed.

(** An answer takes at most five bytes. *)
Lemma answer_encodes v t id rc : Version_Valid v = true -> 0 < id < 65536 -> t = Puback \/ t = Pubrec \/ t = Pubcomp ->
  exists f, AckPacket_EncodeAck (mkAck v t id rc None) [] = Ok f /\ len f <= 5.
Proof using Type.
  intros Hv Hid Htt. unfold AckPacket_EncodeAck. cbn [ack_Version ack_Type ack_PacketID ack_ReasonCode ack_Properties]. rewrite Hv. cbn [negb].
  replace (id =? 0) with false by lia.
  assert (Htg : exists target, ackTarget t = Some target) by (destruct Htt as [-> | [-> | ->]]; by eexists).
  destruct Htg as [target ->]. cbn [is_some].
  assert (Hw : forall h body, len body <= 3 -> exists f, writePacket [] h body = Ok f /\ len f <= 5).
  { intros h body Hb. eexists. split; [apply writePacket_Ok; unfold maxVarint; lia|]. cbn [app].
    rewrite length_packet_bytes by (unfold maxVarint; lia). unfold varintLen. change (Z.shiftl 1 7) with 128.
    replace (len body <? 128) with true by lia. lia. }
  destruct (_ && _); rewrite res_bind_Ok; apply Hw; rewrite ?length_app; cbn [PutUint16 length]; lia.
Qed.

(** Handling a packet brings the exchanges closer to rest, unless it brings the
    connection down. *)
Definition backlog w : nat :=
  match c_link (w_c w) with
  | Some l => length (written (w_c w) l) - w_read w + length (cn_r (the_conn (w_c w) l))
  | None => 0
  end%nat.
Definition calmer w (e : exchanges) w' (e' : exchanges) : Prop :=
  c_link (w_c w') = None \/ (6 * load e' + backlog w' < 6 * load e + backlog w)%nat.

Lemma matches_serve M w w' e : matches M w e -> wstep WServe w = Some w' ->
  exists e', rtc estep e e' /\ matches M w' e' /\ calmer w e w' e'.
Proof.
  intros Hm. cbn [wstep]. destruct (c_link (w_c w)) as [l|] eqn:Hl; [|done]. cbn [mbind option_bind].
  destruct (written (w_c w) l !! w_read w) as [f|] eqn:Hf; [|done]. cbn [mbind option_bind].
  pose proof (m_link _ _ _ Hm l Hl) as (L1 & L2 & L3 & L4 & L5 & L6).
  assert (Hdrop : drop (w_read w) (written (w_c w) l) = f :: drop (S (w_read w)) (written (w_c w) l)) by (by apply drop_S).
  assert (Hlen : (S (w_read w) <= length (written (w_c w) l))%nat) by (apply lookup_lt_Some in Hf; lia).
  rewrite Hdrop in L5. cbn [omap list_omap] in L5.
  assert (Hskip : heed (c_version (w_c w)) f = None -> forall b, b = w_b w \/ (exists m, pub_QoS m = 0 /\ b = mkReceiver (r_awaiting (w_b w)) (r_got (w_b w) ++ [m])) ->
    let w' := mkWorld (w_c w) (w_tasks w) (S (w_read w)) b (w_log w) in exists e', rtc estep e e' /\ matches M w' e' /\ calmer w e w' e').
  { intros Hnone b Hb w1. rewrite Hnone in L5. destruct e as [live out up down b0 log]. pose proof (m_b _ _ _ Hm) as Eb. cbn [e_b] in Eb. subst b0.
    assert (Hstep : rtc estep (mkExchanges live out up down (w_b w) log) (mkExchanges live out up down b log)).
    { destruct Hb as [->|(m & Hm0 & ->)]; [done|]. by apply rtc_once, e_qos0. }
    exists (mkExchanges live out up down b log). split; [done|]. assert (Hinv := esteps_inv _ _ Hstep (m_inv _ _ _ Hm)).
    split; [|right; unfold w1, backlog, load; cbn [w_c w_read e_up e_down]; rewrite Hl; lia].
    destruct Hm as [Hw Hv Hi Hs He Ho Hown Hb' Hlog Hlive Hlink _]. split; try done. intros l' Hl'.
    assert (l' = l) as -> by (cbn in Hl'; congruence). cbn [w_read w_c e_up e_down]. split_and!; try done. }
  destruct (heed_cases (c_version (w_c w)) f) as [Eh|(p & Eh & Hq0 & Hn)].
  - rewrite <- Eh. destruct (heed (c_version (w_c w)) f) as [u|] eqn:Hu; [|intros [= <-]; apply Hskip; [done|by left]].
    destruct e as [live out up down b log]. pose proof (m_b _ _ _ Hm) as Eb. pose proof (m_live _ _ _ Hm) as Elive.
    rewrite Hl in Elive. cbn [e_b e_up e_live is_some] in *. subst b live up.
    destruct (v_up _ (m_inv _ _ _ Hm) u (list_elem_of_here _ _)) as ([id o] & Hin & Hag). cbn [e_out] in Hin.
    assert (Hq : forall p, u = UPub p -> pub_QoS p = 1 \/ pub_QoS p = 2).
    { intros p ->. destruct o as [p'|]; [|done]. injection Hag as ->. apply (v_pub _ (m_inv _ _ _ Hm) id p' Hin). }
    assert (Hid : 0 < up_id u < 65536).
    { apply (ow_out _ _ _ (m_owned _ _ _ Hm)). rewrite Hag, (again_id _ (id, o) (m_inv _ _ _ Hm) Hin).
      exact (list_elem_of_fmap_2 fst _ _ Hin). }
    destruct (receive_answer u (w_b w) Hq) as (t & rc & Ea & Ht).
    assert (Hstep := e_serve out u (omap (heed (c_version (w_c w))) (drop (S (w_read w)) (written (w_c w) l))) down (w_b w) log).
    rewrite (surjective_pairing (receive u (w_b w))), Ea. intros [= <-].
    rewrite Ea in Hstep. cbn [fmap option_fmap option_map fst option_list] in Hstep.
    eexists. split; [by apply rtc_once|]. assert (Hinv := estep_inv _ _ Hstep (m_inv _ _ _ Hm)).
    split.
    2: { right. pose proof (serve_load out u (omap (heed (c_version (w_c w))) (drop (S (w_read w)) (written (w_c w) l))) down (w_b w) log _ Hq Ea) as Hload.
      destruct (answer_encodes (c_version (w_c w)) t (up_id u) rc (m_version _ _ _ Hm) Hid ltac:(tauto)) as (f' & Henc & Hlen').
      assert (Er : reply (c_version (w_c w)) (t, up_id u, rc) = f') by (unfold reply; cbn [fst snd]; by rewrite Henc).
      unfold backlog. cbn [w_c w_read]. change (c_link (arrive _ _ _)) with (c_link (w_c w)). rewrite Hl, arrive_written, arrive_read, Er, length_app.
      unfold load at 1. cbn [e_up e_down fst] in *. change (option_list (Some ?x)) with [x]. lia. }
    refine (matches_arrive M w _ l (Answer (t, up_id u, rc)) _ _ Hm Hl _ _ _ _ _ Hinv _); try done.
  - rewrite Eh. cbn [receive]. rewrite Hq0. cbn [Z.eqb]. intros [= <-]. apply Hskip; [done|]. right. by exists (content p).
Qed.

(** * The client reads a frame *)

(** Bytes that arrive are one frame within the limit; an answer decodes to what
    was sent. *)
Lemma arrival_frame v max x : Version_Valid v = true -> 5 <= max < 4294967296 -> arrival_ok max x -> exists h body,
  arrival_bytes v x = packet_bytes h body /\ len body <= maxVarint /\ len (packet_bytes h body) <= max /\
  match x with
  | Answer (t, id, rc) => Frame_PacketType (mkFrame h body) = t /\ Frame_ValidateFlags (mkFrame h body) = Ok tt /\
      exists ack, DecodeAck v t body = Ok ack /\ ack_PacketID ack = id /\ (rc = Success -> ack_ReasonCode ack = Success)
  | Benign h' body' => h' = h /\ body' = body
  end.
Proof using Type.
  intros Hv Hmax. destruct x as [[[t id] rc]|h body]; intros Hx; [|destruct Hx as (H1 & H2 & _); by exists h, body]. destruct Hx as [Hid Ht].
  assert (Hrc : in_u8 rc) by (destruct Ht as [[_ ->]|[[_ ->]|[_ ?]]]; done).
  assert (Htt : t = Puback \/ t = Pubrec \/ t = Pubcomp) by tauto.
  destruct (answer_encodes v t id rc Hv Hid Htt) as (f & Henc & Hlen). unfold arrival_bytes, reply. cbn [fst snd]. rewrite Henc.
  apply AckPacket_EncodeAck_body in Henc as (body & target & Hb & Htg & -> & Hdec); [|by split_and!; cbn; [unfold in_u16; lia| |]].
  cbn [ack_Type ack_Version app] in *. exists (ack_header t), body. destruct (ack_header_flags t target body Htg) as [Hfl Hty].
  split_and!; try done; [lia|]. eexists. split; [exact Hdec|]. split; [done|]. cbn. intros ->. by destruct (v =? V50).
Qed.

Lemma outs_stored c id o : (id, o) ∈ outs c -> stored id (match o with OPub _ => StoredPublish | ORel => StoredPubrel end) c.
Proof.
  unfold outs. intros ([[i k] op] & Hin & Ha)%list_elem_of_omap. unfold stored. apply list_elem_of_fmap. exists (i, k, op). split; [|done].
  unfold abs_entry in Ha. cbn in Ha. destruct (Z.eqb_spec k StoredPublish); [destruct op; simplify_eq/=; done|].
  destruct (Z.eqb_spec k StoredPubrel); simplify_eq/=; done.
Qed.

Lemma abs_key e id o : abs_entry e = Some (id, o) -> e.1 = (id, match o with OPub _ => StoredPublish | ORel => StoredPubrel end).
Proof using Type.
  destruct e as [[i k] op]. unfold abs_entry. cbn. destruct (Z.eqb_spec k StoredPublish); [destruct op; intros; by simplify_eq/=|].
  destruct (Z.eqb_spec k StoredPubrel); intros; by simplify_eq/=.
Qed.

(** Deleting the entry of an exchange ends the exchange. *)
Lemma abs_delete id o es : NoDup (omap abs_entry es).*1 -> (id, o) ∈ omap abs_entry es ->
  omap abs_entry (delete_entry (id, match o with OPub _ => StoredPublish | ORel => StoredPubrel end) es) = drop_out id (omap abs_entry es).
Proof using Type.
  intros Hnd Hin. set (kind := match o with OPub _ => _ | ORel => _ end).
  assert (Hall : forall e, e ∈ es -> forall o', abs_entry e = Some (id, o') -> e.1 = (id, kind)).
  { intros e He o' Ha. assert (Hin' : (id, o') ∈ omap abs_entry es) by (apply list_elem_of_omap; by exists e).
    assert (o' = o) as -> by (by eapply key_unique). by apply abs_key in Ha. }
  clear Hnd Hin. unfold delete_entry, drop_out. induction es as [|e es IH]; [done|].
  rewrite filter_cons. cbn [omap list_omap].
  assert (IH' := IH (fun e' He' => Hall e' (list_elem_of_further _ _ _ He'))). specialize (Hall e (list_elem_of_here _ _)).
  destruct (abs_entry e) as [[i o']|] eqn:Ha.
  - rewrite filter_cons. cbn [fst]. destruct (decide (i = id)) as [->|Hne].
    + rewrite !decide_False by naive_solver. done.
    + assert (e.1 <> (id, kind)) by (apply abs_key in Ha; rewrite Ha; naive_solver).
      rewrite !decide_True by done. cbn [omap list_omap]. rewrite Ha. by rewrite IH'.
  - case_decide; [|done]. cbn [omap list_omap]. by rewrite Ha.
Qed.

Lemma readLoop_turn_frame l h body rest max c : wf_client c -> c_link c = Some l -> cn_r (the_conn c l) = packet_bytes h body ++ rest ->
  l_inboundMax (the_link c l) = max -> len body <= maxVarint -> in_u32 max -> len (packet_bytes h body) <= max ->
  readLoop_turn l c = match Frame_ValidateFlags (mkFrame h body) with
    | Err _ => (_ ← protocolError l MalformedPacketReason; mret false) (taken_from l rest c)
    | Ok _ => handleFrame l (mkFrame h body) (taken_from l rest c)
    end.
Proof.
  intros Hw Hl Hr Hm Hb Hu Hlen. unfold readLoop_turn. rewrite cmd_bind_eq. unfold gets. rewrite Hr, cmd_bind_eq, Hm.
  rewrite ReadFrame_packet by done. rewrite cmd_bind_eq. unfold upd. rewrite cmd_bind_eq. fold (taken_from l rest c).
  assert (Hst : isStopping l (taken_from l rest c) = false).
  { destruct (wc_link c Hw l Hl) as (lk & Hlk & Hst). unfold isStopping. change (the_link (taken_from l rest c) l) with (the_link c l).
    unfold the_link. by rewrite (lookup_total_correct _ _ _ Hlk). }
  rewrite Hst. by destruct (Frame_ValidateFlags _).
Qed.

Lemma taken_good L l rest c : good L c -> good L (taken_from l rest c).
Proof. apply good_read. Qed.

Lemma taken_written l rest c : written (taken_from l rest c) l = written c l.
Proof using Type. unfold written, the_conn, taken_from, upd_conn. csimp. unfold the_link. csimp. by rewrite lookup_total_insert_eq. Qed.
Lemma taken_read l rest c : cn_r (the_conn (taken_from l rest c) l) = rest.
Proof using Type. unfold the_conn, taken_from, upd_conn. csimp. unfold the_link. csimp. by rewrite lookup_total_insert_eq. Qed.

(** The connection with the first arrival taken. *)
Lemma on_link_taken M c read up down l x xs : on_link M c read up down l -> cn_r (the_conn c l) = concat (arrival_bytes (c_version c) <$> (x :: xs)) ->
  Forall (arrival_ok (c_inboundMax c)) xs ->
  on_link M (taken_from l (concat (arrival_bytes (c_version c) <$> xs)) c) read up (omap arrival_down xs) l.
Proof.
  intros (L1 & L2 & L3 & L4 & L5 & _) _ Hxs. unfold on_link.
  rewrite taken_written. split_and!; try done. exists xs. split_and!; try done. apply taken_read.
Qed.

Lemma complete_effect l id kind r c : store_ok (c_store c) -> stored id kind c -> let c' := (completeOutbound l id kind r c).2 in
  store_ok (c_store c') /\ contents (c_store c') = delete_entry (id, kind) (contents (c_store c)) /\
  c_ids c' = idAllocator_ReleaseAt id (l_idGen (the_link c l)) (c_ids c) /\ steady [] c c' /\
  c_version c' = c_version c /\ c_inboundMax c' = c_inboundMax c.
Proof.
  intros Hok Hst. set (c3 := quota_releaseAt' (l_quotaGen (the_link c l)) (ids_ReleaseAt id (l_idGen (the_link c l)) (store_Delete id kind c))).
  assert (E : (completeOutbound l id kind r c).2 = (signalWaiter id ackClassPublish r c3).2).
  { unfold completeOutbound, mbind, cmd_bind, gets, upd. rewrite (known id) by done. cbn [negb]. by destruct (signalWaiter _ _ _ _). }
  rewrite E. clear E.
  destruct (signal_hushed id ackClassPublish r c3) as [[(E1 & E2 & E3) _] E4].
  assert (Hs : steady [] c (signalWaiter id ackClassPublish r c3).2).
  { unfold signalWaiter. destruct (c_waiters c3 !! id); [case_bool_decide|]; by apply steady_fields. }
  destruct (store_Delete_spec id kind c Hok) as [Hok' Hc'].
  intros c'. subst c'. split_and!; try done.
  - by rewrite E1.
  - rewrite E1. exact Hc'.
Qed.

Lemma good_entries_delete v M k es : Forall (good_entry v M) es -> Forall (good_entry v M) (delete_entry k es).
Proof using Type. rewrite !Forall_forall. intros He e [_ Hin]%list_elem_of_filter. by apply He. Qed.

(** The answer that ends an exchange. *)
Lemma matches_finished M w e l x xs id o c' : matches M w e -> c_link (w_c w) = Some l ->
  cn_r (the_conn (w_c w) l) = concat (arrival_bytes (c_version (w_c w)) <$> (x :: xs)) ->
  Forall (arrival_ok (c_inboundMax (w_c w))) xs -> (id, o) ∈ e_out e ->
  let c1 := taken_from l (concat (arrival_bytes (c_version (w_c w)) <$> xs)) (w_c w) in
  good (omap task_link (w_tasks w)) c' -> store_ok (c_store c') ->
  contents (c_store c') = delete_entry (id, match o with OPub _ => StoredPublish | ORel => StoredPubrel end) (contents (c_store c1)) ->
  c_ids c' = idAllocator_ReleaseAt id (l_idGen (the_link c1 l)) (c_ids c1) -> steady [] c1 c' ->
  c_version c' = c_version c1 -> c_inboundMax c' = c_inboundMax c1 ->
  einv (mkExchanges true (drop_out id (e_out e)) (e_up e) (omap arrival_down xs) (e_b e) (e_log e)) ->
  matches M (with_client c' w) (mkExchanges true (drop_out id (e_out e)) (e_up e) (omap arrival_down xs) (e_b e) (e_log e)).
Proof.
  intros Hm Hl Hr Hxs Hin c1 Hg Hok Hc Hids [El Hst] Hv Hi Hinv.
  assert (Hon := on_link_taken _ _ _ _ _ _ _ _ (m_link _ _ _ Hm l Hl) Hr Hxs). fold c1 in Hon.
  assert (Hgen : gen (c_ids c') = gen (c_ids c1)) by (rewrite Hids; apply gen_ReleaseAt).
  change (c_link c1) with (c_link (w_c w)) in El. change (c_version c1) with (c_version (w_c w)) in Hv.
  change (c_inboundMax c1) with (c_inboundMax (w_c w)) in Hi. change (c_store c1) with (c_store (w_c w)) in Hc.
  pose proof (m_out _ _ _ Hm) as Ho. unfold outs in Ho.
  split; cbn [w_c w_tasks w_read w_b w_log with_client e_out e_up e_down e_live e_log e_b]; rewrite ?Hv, ?Hi; try apply Hm; try done.
  - rewrite Hc. by apply good_entries_delete, Hm.
  - unfold outs. rewrite Hc, Ho. symmetry. apply abs_delete; rewrite <- Ho; [apply (v_keys _ (m_inv _ _ _ Hm))|done].
  - rewrite Hids. change (c_ids c1) with (c_ids (w_c w)). apply (owned_finish _ id _ (e_out e).*1); [apply Hm|exact (list_elem_of_fmap_2 fst _ _ Hin)|].
    intros i. rewrite drop_out_keys, list_elem_of_filter. done.
  - by rewrite El, Hl.
  - intros l' Hl'. assert (l' = l) as -> by congruence. destruct Hon as (L1 & L2 & L3 & L4 & L5 & ys & L6 & L7 & L8).
    destruct (Hst l Hl) as (E1 & E2 & E3 & E4 & E5). change (c_version c1) with (c_version (w_c w)) in *.
    change (c_inboundMax c1) with (c_inboundMax (w_c w)) in *. rewrite app_nil_r in E5.
    unfold on_link. rewrite Hv, Hi, E1, E2, E3, E4, E5, Hgen. split_and!; try done. by exists ys.
Qed.
End refinement.
