(* ===== verification/Traffic.v ===== *)
(** What the broker sends besides the answers to publishes: PUBLISH and PUBREL,
    acknowledgements of subscriptions, pings, DISCONNECT, and whatever violates
    the protocol.  None of it touches an outbound exchange, unless it ends the
    connection. *)

From S2P Require Import Prelude GoStrings Codes Wire WireFacts Props PropsFacts PublishPackets ControlPackets.
From S2P Require Import SubscribePackets Topic SessionStore Errors IdAllocator Quota Subscriptions Lifecycle.
From S2P Require Import Client Pump Requests Connection ClientFacts InboundFacts SessionFacts RequestFacts LinkFacts OutboundFacts Wellformed.
From S2P Require Import Delivery World WorldFacts Ownership PublishFacts Simulation.
From stdpp Require Import options.

(** The client's own acknowledgements are no part of an outbound exchange. *)
Lemma unheeded_ack v p f : ack_Type p = Puback \/ ack_Type p = Pubrec \/ ack_Type p = Pubcomp -> AckPacket_EncodeAck p [] = Ok f -> unheeded v f.
Proof.
  intros Ht. unfold AckPacket_EncodeAck. destruct (negb _); [done|]. destruct (ackTarget _); [|done]. destruct (_ =? 0); [done|]. cbn zeta.
  destruct (if _ && _ then _ else _) as [body|]; [|done]. rewrite res_bind_Ok. intros Hw.
  eapply unheeded_writePacket; [exact Hw|..]; by destruct Ht as [-> | [-> | ->]].
Qed.

Section traffic.
Context {St : Type} {HS : SessionStore St} {HC : ContainsStore St} {HE : Environment St}.
Context {HL : SessionStoreLaws St} {HR : ReliableStore St} {HO : Observers St}.
Implicit Types c : client St.
Set Default Proof Using "Type*".

#[export] Instance observers_handlers : Handlers St.
Proof.
  split. intros L h m c Hg. destruct (observes h m c) as [-> |(l & g & Hl & ->)]; [done|].
  destruct (wc_link c (proj1 Hg) l Hl) as (lk & Hlk & _). assert (Hg' : good (l :: L) c).
  { split; [apply Hg|]. intros l' [->|Hl']%elem_of_cons; [by exists lk|by apply Hg]. }
  destruct (good_teardown (l :: L) c l g (list_elem_of_here _ _) Hg') as [Hw HLs]. split; [done|]. intros l' Hl'. apply HLs. by right.
Qed.

(** * Steps that keep the outbound exchanges *)

(** Only identifiers of inbound messages come and go in the store; at most [n]
    frames went out, none of them part of an exchange; or the connection is
    down. *)
Record quiet (l n : nat) c c' : Prop := {
  q_good : good [l] c';
  q_ok : store_ok (c_store c');
  q_outs : outs c' = outs c;
  q_entries x : x ∈ contents (c_store c') -> x ∈ contents (c_store c) \/ x.1.2 = StoredInboundID;
  q_version : c_version c' = c_version c;
  q_inbound : c_inboundMax c' = c_inboundMax c;
  q_ids : c_ids c' = c_ids c;
  q_link : c_link c' = None \/ exists fs, steady fs c c' /\ Forall (unheeded (c_version c)) fs /\ (length fs <= n)%nat
}.
Lemma abs_inbound id o : abs_entry ((id, StoredInboundID), o) = None.
Proof using Type. done. Qed.

Lemma outs_save_inbound id o es : omap abs_entry (save_entry ((id, StoredInboundID), o) es) = omap abs_entry es.
Proof using Type.
  unfold save_entry. case_decide as Hin; [|rewrite omap_app; cbn; apply app_nil_r]. clear Hin. set (f := fun e' : entry => _).
  assert (Hf : forall e, abs_entry (f e) = abs_entry e) by (intros [k o']; unfold f; case_decide as E; [cbn in E; by subst k|done]).
  induction es as [|e es IH]; [done|]. rewrite fmap_cons. cbn [omap list_omap]. by rewrite Hf, IH.
Qed.

Lemma outs_delete_inbound id es : omap abs_entry (delete_entry (id, StoredInboundID) es) = omap abs_entry es.
Proof using Type.
  unfold delete_entry. induction es as [|[k o] es IH]; [done|]. rewrite filter_cons. case_decide as E; cbn [omap list_omap fst] in *; [by rewrite IH|].
  subst k. by rewrite abs_inbound.
Qed.

Lemma saved_entries m es x : x ∈ save_entry m es -> x ∈ es \/ x = m.
Proof using Type.
  unfold save_entry. case_decide; [|rewrite elem_of_app, list_elem_of_singleton; tauto]. intros (y & -> & Hy)%list_elem_of_fmap. case_decide; auto.
Qed.

Section steps.
Variables (l : nat) (c : client St).

Lemma quiet_refl : good [l] c -> store_ok (c_store c) -> quiet l 0 c c.
Proof using Type.
  intros Hg Hok. split; try done; [by left|]. right. exists []. split_and!; [by apply steady_fields|constructor|done].
Qed.

Lemma quiet_more n c1 : quiet l n c c1 -> quiet l (S n) c c1.
Proof using Type. intros [? ? ? ? ? ? ? [?|(fs & ? & ? & ?)]]; split; try done; [by left|right]. exists fs. split_and!; [done..|lia]. Qed.

(** Nothing of the exchanges is touched. *)
Lemma quiet_step n k c1 c2 : quiet l n c c1 -> good [l] c2 -> c_store c2 = c_store c1 -> c_version c2 = c_version c1 ->
  c_inboundMax c2 = c_inboundMax c1 -> c_ids c2 = c_ids c1 ->
  (c_link c2 = None \/ exists fs, steady fs c1 c2 /\ Forall (unheeded (c_version c1)) fs /\ (length fs <= k)%nat) -> quiet l (n + k) c c2.
Proof using Type.
  intros [Hg Hok Ho He Hv Hi Hids Hl] Hg2 Es Ev Ei Eids Hl2. split; rewrite ?Es; try done; try congruence; [unfold outs in *; by rewrite Es|].
  destruct Hl2 as [|(fs2 & St2 & M2 & N2)]; [by left|]. destruct Hl as [Hn|(fs & St1 & M1 & N1)]; [left; by rewrite (proj1 St2)|].
  right. exists (fs ++ fs2). rewrite Hv in M2. split_and!; [by eapply steady_trans|by apply Forall_app|rewrite length_app; lia].
Qed.

Lemma quiet_still n c1 c2 : quiet l n c c1 -> good [l] c2 -> c_store c2 = c_store c1 -> c_version c2 = c_version c1 ->
  c_inboundMax c2 = c_inboundMax c1 -> c_ids c2 = c_ids c1 -> c_link c2 = None \/ steady [] c1 c2 -> quiet l n c c2.
Proof using Type.
  intros Hq Hg Es Ev Ei Eids Hl. rewrite <- (Nat.add_0_r n). eapply quiet_step; try done. destruct Hl as [|Hl]; [by left|right]. exists [].
  split_and!; [done|constructor|done].
Qed.

Lemma quiet_upd_link n c1 f : (forall k, l_conn (f k) = l_conn k) -> (forall k, l_stop (f k) = l_stop k) ->
  (forall k, l_idGen (f k) = l_idGen k) -> (forall k, l_outboundMax (f k) = l_outboundMax k) ->
  (forall k, l_inboundMax (f k) = l_inboundMax k) -> quiet l n c c1 -> quiet l n c (upd_link l f c1).
Proof using Type.
  intros H1 H2 H3 H4 H5 Hq. eapply quiet_still; try done; [apply good_upd_link; [apply list_elem_of_here|done..|apply Hq]|]. right. by apply steady_upd_link.
Qed.

Lemma quiet_teardown n c1 g : quiet l n c c1 -> quiet l n c (teardownLink l g c1).
Proof using Type.
  intros Hq. pose proof (teardown_same l g c1) as Hs. eapply quiet_still; try apply Hs; [done|apply good_teardown; [apply list_elem_of_here|apply Hq]|].
  apply teardown_steady, Hq.
Qed.

Lemma quiet_write n c1 encode : sized encode -> (forall f, encode [] = Ok f -> unheeded (c_version c) f) -> quiet l n c c1 -> quiet l (n + 1) c (writeFrame (Some l) encode c1).2.
Proof using Type.
  intros Hsz Hm Hq. pose proof (writeFrame_same (Some l) encode c1) as Hs. pose proof (q_good _ _ _ _ Hq) as [Hw Hl]. assert (Hin : l ∈ [l]) by apply list_elem_of_here.
  eapply quiet_step; try apply Hs; [done|by apply upholds_writeFrame|]. rewrite <- (q_version _ _ _ _ Hq) in Hm.
  destruct (writeFrame_wrote l encode c1 Hw (Hl l Hin)) as [e _|e c' _ _ Hst|f k g He _ Hst]; cbn [snd].
  - right. exists []. split_and!; [by apply steady_fields|constructor|cbn; lia].
  - destruct Hst as [|Hst]; [by left|right]. exists []. split_and!; [done|constructor|cbn; lia].
  - right. eexists. split; [exact Hst|]. case_decide; (split; [|cbn; lia]); repeat constructor. by apply Hm.
Qed.

Lemma quiet_signal n c1 id got r : quiet l n c c1 -> quiet l n c (signalWaiter id got r c1).2.
Proof using Type.
  intros Hq. destruct (signal_hushed id got r c1) as [[(Es & Ev & Ei) _] Hi]. eapply quiet_still; try done; [apply good_signal, Hq|].
  right. unfold signalWaiter. destruct (c_waiters c1 !! id); [case_bool_decide|]; by apply steady_fields.
Qed.

Lemma quiet_store n c1 s : quiet l n c c1 -> store_ok s -> omap abs_entry (contents s) = outs c1 ->
  (forall x, x ∈ contents s -> x ∈ contents (c_store c1) \/ x.1.2 = StoredInboundID) -> quiet l n c (set_store s c1).
Proof using Type.
  intros [Hg Hok Ho He Hv Hi Hids Hl] Hs Eo Hx. split; try done.
  - by eapply good_fields; [..|exact Hg].
  - unfold outs at 1. csimp. by rewrite Eo.
  - csimp. intros x Hin. destruct (Hx x Hin) as [Hin1|]; [by apply He|by right].
Qed.

Lemma quiet_save n c1 id : store_room (c_store c1) -> quiet l n c c1 -> quiet l n c (store_Save (mkStored None 0 id StoredInboundID) c1).
Proof.
  intros Hroom Hq. destruct (store_Save_spec (mkStored None 0 id StoredInboundID) c1 (q_ok _ _ _ _ Hq) Hroom) as [Hok Hc]. apply quiet_store; [done|done|..].
  - etrans; [|by apply (outs_save_inbound id None)]. f_equal. exact Hc.
  - intros x Hx. assert (Hx' : x ∈ save_entry (entry_of (mkStored None 0 id StoredInboundID)) (contents (c_store c1))) by (rewrite <- Hc; exact Hx).
    apply saved_entries in Hx' as [| ->]; [by left|by right].
Qed.

Lemma quiet_delete n c1 id : quiet l n c c1 -> quiet l n c (store_Delete id StoredInboundID c1).
Proof.
  intros Hq. destruct (store_Delete_spec id StoredInboundID c1 (q_ok _ _ _ _ Hq)) as [Hok Hc]. apply quiet_store; [done|done|..].
  - etrans; [|by apply (outs_delete_inbound id)]. f_equal. exact Hc.
  - intros x Hx. assert (Hx' : x ∈ delete_entry (id, StoredInboundID) (contents (c_store c1))) by (rewrite <- Hc; exact Hx).
    apply list_elem_of_filter in Hx' as [_ ?]. by left.
Qed.
End steps.
(** * The handlers *)

Lemma quiet_protocolError l rc n c c1 : quiet l n c c1 -> quiet l (n + 1) c (protocolError l rc c1).2.
Proof.
  intros Hq. unfold protocolError. rewrite cmd_bind_eq. unfold gets. rewrite cmd_bind_eq. destruct (_ =? V50).
  - assert (Hw := quiet_write l c n c1 (DisconnectPacket_Encode (mkDisconnect (c_version c1) rc None)) (sized_disconnect _) (fun f Hf => proj1 (mute_disconnect _ _ f Hf)) Hq).
    destruct (writeFrame _ _ c1) as [? c2]. by apply quiet_teardown.
  - rewrite Nat.add_1_r. by apply quiet_more, quiet_teardown.
Qed.

Lemma quiet_ack l t id rc n c c1 : t = Puback \/ t = Pubrec \/ t = Pubcomp -> quiet l n c c1 -> quiet l (n + 1) c (sendAckReason l t id rc c1).2.
Proof.
  intros Ht Hq. unfold sendAckReason. rewrite !cmd_bind_eq. unfold gets. rewrite cmd_bind_eq.
  assert (Hw := quiet_write l c n c1 (AckPacket_EncodeAck (mkAck (c_version c1) t id rc None)) (sized_ack _) (fun f => unheeded_ack _ (mkAck (c_version c1) t id rc None) f Ht) Hq). by destruct (writeFrame _ _ c1).
Qed.

(** The calls do not show in the teardown of a link. *)
Lemma teardown_calls l g k c : teardownLink l g (set_calls k c) = set_calls k (teardownLink l g c).
Proof using Type.
  unfold teardownLink. change (isStopping l (set_calls k c)) with (isStopping l c). destruct (isStopping l c); [done|]. cbn zeta.
  destruct c. cbn. by destruct (negb (bool_decide _)); [|destruct (negb g)].
Qed.

(** Every handler is called; meanwhile the connection may be lost. *)
Lemma dispatch_observed m c : let c1 := set_calls (c_calls c ++ routed (c_table c) m) c in
  client_dispatch m c = c1 \/ exists l g, c_link c = Some l /\ client_dispatch m c = teardownLink l g c1.
Proof using HO.
  unfold client_dispatch, routed. generalize (dispatch m (c_table c)).1 as hs. intros hs. revert c. induction hs as [|h hs IH]; intros c; cbn [fold_left].
  - left. destruct c. cbn. by rewrite app_nil_r.
  - unfold call_handler at 2 4. set (c0 := set_calls (c_calls c ++ [(h, m)]) c).
    assert (Hc : c_calls c ++ ((fun h => (h, m)) <$> h :: hs) = c_calls c0 ++ ((fun h => (h, m)) <$> hs)) by (rewrite fmap_cons; unfold c0; csimp; by rewrite <- app_assoc).
    rewrite Hc. change (set_calls ?k c) with (set_calls k c0). destruct (observes h m c0) as [E|(l & g & Hl & E)]; rewrite E; [exact (IH c0)|].
    assert (Ek : c_calls (teardownLink l g c0) = c_calls c0) by apply teardown_same.
    destruct (IH (teardownLink l g c0)) as [E1|(l1 & g1 & Hl1 & E1)]; rewrite E1, Ek.
    + right. exists l, g. split; [done|]. by rewrite teardown_calls.
    + destruct (isStopping l c0) eqn:Hst; [rewrite (teardown_idem l g c0 Hst) in *; eauto|].
      exfalso. destruct (teardown_current l g c0 Hst Hl) as (Hn & _). congruence.
Qed.

Lemma dispatch_session m c : let c' := client_dispatch m c in
  c_store c' = c_store c /\ c_ids c' = c_ids c /\ c_version c' = c_version c /\ c_inboundMax c' = c_inboundMax c /\
  c_calls c' = c_calls c ++ routed (c_table c) m.
Proof using HO.
  destruct (dispatch_observed m c) as [E|(l & g & _ & E)]; cbn zeta; rewrite E; [done|]. set (c1 := set_calls _ c).
  destruct (teardown_same l g c1). done.
Qed.

Lemma quiet_dispatch l m n c c1 : quiet l n c c1 -> quiet l n c (client_dispatch m c1).
Proof.
  intros Hq. destruct (dispatch_session m c1) as (E1 & E2 & E3 & E4 & _). eapply quiet_still; try done.
  - apply good_dispatch, Hq.
  - destruct (dispatch_observed m c1) as [-> |(l' & g & _ & ->)]; [right; by apply steady_fields|].
    rewrite teardown_calls. destruct (teardown_steady l' g c1) as [Hn|Hst]; [apply (q_good _ _ _ _ Hq)|by left|right].
    apply (steady_trans [] [] c1 (teardownLink l' g c1)); [done|by apply steady_fields].
Qed.

Lemma quiet_alias l pub n c c1 : quiet l n c c1 -> quiet l n c (resolveTopicAlias l pub c1).2 /\ c_store (resolveTopicAlias l pub c1).2 = c_store c1.
Proof.
  intros Hq. unfold resolveTopicAlias. destruct (pub_Properties pub) as [pr|]; [|done]. destruct (TopicAlias pr) as [alias|]; [|done].
  rewrite cmd_bind_eq. unfold gets. destruct (_ || _); [done|]. case_bool_decide; [done|]. rewrite cmd_bind_eq. unfold upd. cbn [mret cmd_ret snd].
  split; [by apply quiet_upd_link|done].
Qed.

Lemma quiet_QoS2 l pub n c c1 : store_room (c_store c1) -> quiet l n c c1 -> quiet l (n + 1) c (handleInboundQoS2 l pub c1).2.
Proof.
  intros Hroom Hq. unfold handleInboundQoS2. rewrite cmd_bind_eq. unfold gets. destruct (storeContains _ _ _).
  - rewrite cmd_bind_eq. pose proof (quiet_ack l Pubrec (pub_PacketID pub) Success n c c1 ltac:(auto) Hq) as H. unfold sendAck. by destruct (sendAckReason _ _ _ _ c1).
  - rewrite cmd_bind_eq. unfold upd. rewrite cmd_bind_eq. assert (Hd := quiet_dispatch l (toMessage pub) n c c1 Hq).
    destruct (isStopping l _); [rewrite Nat.add_1_r; by apply quiet_more|]. rewrite !cmd_bind_eq.
    assert (Hroom' : store_room (c_store (client_dispatch (toMessage pub) c1))) by (by rewrite (proj1 (dispatch_session _ _))).
    assert (Hs := quiet_save l c n _ (pub_PacketID pub) Hroom' Hd).
    match goal with |- context [sendAck l Pubrec ?i ?x] => pose proof (quiet_ack l Pubrec i Success n c x ltac:(auto) Hs) as H; unfold sendAck; by destruct (sendAckReason l Pubrec i Success x) end.
Qed.

Lemma quiet_publish l frame n c c1 : store_room (c_store c1) -> quiet l n c c1 -> quiet l (n + 1) c (handlePublish l frame c1).2.
Proof.
  intros Hroom Hq. assert (Herr : forall rc c2, quiet l n c c2 -> quiet l (n + 1) c ((_ ← protocolError l rc; mret false) c2).2).
  { intros rc c2 H2. rewrite cmd_bind_eq. pose proof (quiet_protocolError l rc n c c2 H2). by destruct (protocolError _ _ c2). }
  unfold handlePublish. rewrite cmd_bind_eq. unfold gets. destruct (DecodePublish _ _ _) as [pub|]; [|by apply Herr]. rewrite cmd_bind_eq.
  destruct (quiet_alias l pub n c c1 Hq) as [Ha Es]. destruct (resolveTopicAlias l pub c1) as [[topic|] c2]; cbn [snd] in *; [|by apply Herr].
  set (pub' := with_Topic topic pub). assert (Hd := quiet_dispatch l (toMessage pub') n c c2 Ha). destruct (pub_QoS pub' =? 0).
  { rewrite cmd_bind_eq. unfold upd. cbn [mret cmd_ret snd]. rewrite Nat.add_1_r. by apply quiet_more. }
  destruct (pub_QoS pub' =? 1).
  { rewrite cmd_bind_eq. unfold upd. rewrite cmd_bind_eq. destruct (isStopping l _); [rewrite Nat.add_1_r; by apply quiet_more|]. rewrite cmd_bind_eq.
    pose proof (quiet_ack l Puback (pub_PacketID pub') Success n c _ ltac:(auto) Hd) as H. unfold sendAck. by destruct (sendAckReason l Puback _ _ _). }
  destruct (pub_QoS pub' =? 2); [apply quiet_QoS2; [by rewrite Es|done]|]. rewrite Nat.add_1_r. by apply quiet_more.
Qed.

Lemma quiet_pubrel l frame n c c1 : quiet l n c c1 -> quiet l (n + 1) c (handleInboundPubrel l frame c1).2.
Proof.
  intros Hq. unfold handleInboundPubrel. rewrite cmd_bind_eq. unfold gets. destruct (DecodeAck _ _ _) as [ack|]; rewrite cmd_bind_eq.
  - destruct (negb _); rewrite cmd_bind_eq.
    + pose proof (quiet_ack l Pubcomp (ack_PacketID ack) PacketIdentifierNotFound n c c1 ltac:(auto) Hq) as H. by destruct (sendAckReason l _ _ _ c1).
    + unfold upd. rewrite cmd_bind_eq. pose proof (quiet_ack l Pubcomp (ack_PacketID ack) Success n c _ ltac:(auto) (quiet_delete l c n c1 (ack_PacketID ack) Hq)) as H.
      unfold sendAck. by destruct (sendAckReason l _ _ _ _).
  - pose proof (quiet_protocolError l MalformedPacketReason n c c1 Hq). by destruct (protocolError _ _ c1).
Qed.

(** A frame that is no answer to a publish. *)
Lemma quiet_frame l frame c : good [l] c -> store_ok (c_store c) -> store_room (c_store c) -> Frame_PacketType frame ∉ [Puback; Pubrec; Pubcomp] ->
  quiet l 1 c (handleFrame l frame c).2.
Proof.
  intros Hg Hok Hroom Ht. assert (Hq := quiet_refl l c Hg Hok). rewrite !not_elem_of_cons in Ht. destruct Ht as (H1 & H2 & H3 & _).
  assert (Herr : forall rc, quiet l 1 c ((_ ← protocolError l rc; mret false) c).2).
  { intros rc. rewrite cmd_bind_eq. pose proof (quiet_protocolError l rc 0 c c Hq). by destruct (protocolError _ _ c). }
  unfold handleFrame. destruct (_ =? Publish); [by apply (quiet_publish l frame 0)|]. replace (Frame_PacketType frame =? Puback) with false by lia.
  replace (Frame_PacketType frame =? Pubrec) with false by lia. destruct (_ =? Pubrel); [by apply (quiet_pubrel l frame 0)|].
  replace (Frame_PacketType frame =? Pubcomp) with false by lia. destruct (_ =? Suback).
  { unfold handleSuback. rewrite cmd_bind_eq. unfold gets. destruct (DecodeSuback _ _); [|by apply Herr]. rewrite cmd_bind_eq.
    match goal with |- context [signalWaiter ?i ?k ?r c] => pose proof (quiet_signal l c 0 c i k r Hq); destruct (signalWaiter i k r c); by apply quiet_more end. }
  destruct (_ =? Unsuback).
  { unfold handleUnsuback. rewrite cmd_bind_eq. unfold gets. destruct (DecodeUnsuback _ _); [|by apply Herr]. rewrite cmd_bind_eq.
    match goal with |- context [signalWaiter ?i ?k ?r c] => pose proof (quiet_signal l c 0 c i k r Hq); destruct (signalWaiter i k r c); by apply quiet_more end. }
  destruct (_ =? Pingresp); [by apply quiet_more, quiet_upd_link|]. destruct (_ =? Disconnect); [by apply quiet_more, quiet_teardown|].
  destruct (_ =? Auth); by apply Herr.
Qed.

(** ... as the read loop takes it. *)
Lemma quiet_taken l frame c : good [l] c -> store_ok (c_store c) -> store_room (c_store c) -> Frame_PacketType frame ∉ [Puback; Pubrec; Pubcomp] ->
  quiet l 1 c (match Frame_ValidateFlags frame with
    | Err _ => (_ ← protocolError l MalformedPacketReason; mret false) c | Ok _ => handleFrame l frame c end).2.
Proof.
  intros Hg Hok Hroom Ht. destruct (Frame_ValidateFlags frame); [by apply quiet_frame|]. rewrite cmd_bind_eq.
  pose proof (quiet_protocolError l MalformedPacketReason 0 c c (quiet_refl l c Hg Hok)). by destruct (protocolError _ _ c).
Qed.
End traffic.
