(* ===== verification/Answers.v ===== *)
(** The client takes what the broker sent: every answer of an exchange is the
    answer of the abstract protocol, everything else leaves the exchanges alone. *)

From S2P Require Import Prelude GoStrings Codes Wire WireFacts Props PropsFacts PublishPackets ControlPackets.
From S2P Require Import SubscribePackets Topic SessionStore Errors IdAllocator Quota Subscriptions Lifecycle.
From S2P Require Import Client Pump Requests Connection ClientFacts SessionFacts RequestFacts LinkFacts OutboundFacts Wellformed.
From S2P Require Import Delivery World WorldFacts Ownership PublishFacts Simulation Traffic.
From stdpp Require Import options.

(** A PUBLISH is never shorter than a PUBREL. *)
Lemma publish_frame_len p f : wf_publish p -> publishable p -> PublishPacket_Encode p [] = Ok f -> 4 <= len f.
Proof.
  intros Hwf Hp He. apply PublishPacket_Encode_body in He as (body & Hb & -> & _ & _ & Hdec); [|done..]. cbn [app].
  rewrite length_packet_bytes by done. pose proof (varintLen_range (len body)).
  assert (2 <= len body); [|lia]. destruct body as [|x [|y body]]; [..|cbn [length]; lia]; exfalso; revert Hdec; unfold DecodePublish;
    by repeat destruct (Z.eqb _ 3); repeat destruct (_ && _).
Qed.

Lemma owned_keys a out out' hs : (forall i, i ∈ out' <-> i ∈ out) -> owned a out hs -> owned a out' hs.
Proof.
  intros Hi [Hw Hg Ho Hh Hn Hold]. split; try done.
  - intros i Hx. by apply Ho, Hi.
  - intros i Hx. destruct (Hh i Hx) as [H1 H2]. split; [done|]. by rewrite Hi.
Qed.

Section answers.
Context {St : Type} {HS : SessionStore St} {HC : ContainsStore St} {HE : Environment St}.
Context {HL : SessionStoreLaws St} {HR : ReliableStore St} {HO : Observers St}.
Implicit Types c : client St.
Implicit Types w : world (St := St).
Set Default Proof Using "Type*".

(** * PUBREC *)

(** The PUBREL takes the place of the PUBLISH in the store before it is sent. *)
Lemma pubrec_stores l ack reason c : let id := ack_PacketID ack in
  store_ok (c_store c) -> store_room (c_store c) -> stored id StoredPublish c -> ~ stored id StoredPubrel c ->
  ReasonCode_IsError (ack_ReasonCode ack) = false -> exists s,
  handlePubrec l ack reason c = sendAck l Pubrel id (set_store s c) /\ store_ok s /\
  contents s = delete_entry (id, StoredPublish) (contents (c_store c) ++ [((id, StoredPubrel), None)]).
Proof.
  intros id Hok Hroom Hs Hn Hrc. unfold handlePubrec. fold id. rewrite cmd_bind_eq. unfold gets. rewrite known, Hrc by done.
  rewrite !cmd_bind_eq. unfold upd. destruct (store_Save_spec (mkStored None 0 id StoredPubrel) c Hok Hroom) as [Hok1 Hc1].
  destruct (store_Delete_spec id StoredPublish (store_Save (mkStored None 0 id StoredPubrel) c) Hok1) as [Hok2 Hc2].
  eexists. split; [rewrite cmd_bind_eq; reflexivity|]. split; [exact Hok2|]. etrans; [exact Hc2|]. rewrite Hc1.
  unfold save_entry. rewrite decide_False; [done|]. exact Hn.
Qed.

(** ... and the frame goes out, or the connection goes down. *)
Lemma pubrel_sent M l id c : wf_client c -> c_link c = Some l -> Version_Valid (c_version c) = true -> 0 < id < 65536 ->
  l_outboundMax (the_link c l) = M -> M = 0 \/ 4 <= M -> let c' := (sendAck l Pubrel id c).2 in
  same_session c c' /\ (c_link c' = None \/ steady [0x62 :: 2 :: PutUint16 id] c c').
Proof.
  intros Hw Hl Hv Hid HM Hfit c'. destruct (wc_link c Hw l Hl) as (lk & Hlk & _).
  destruct (pubrel_frame_bytes (c_version c) id Hv Hid) as [Henc _].
  set (encode := AckPacket_EncodeAck (mkAck (c_version c) Pubrel id Success None)).
  assert (E : c' = (writeFrame (Some l) encode c).2)
    by (unfold c', sendAck, sendAckReason; rewrite !cmd_bind_eq; unfold gets; rewrite cmd_bind_eq; by destruct (writeFrame _ _ c)).
  split; [rewrite E; apply writeFrame_same|]. rewrite E.
  assert (Hwr := writeFrame_wrote l encode c Hw (ex_intro _ lk Hlk)).
  destruct Hwr as [e Hx|e c1 _ Hdown _|f k g He _ Hst]; cbn [snd].
  - exfalso. destruct (Hx _ Henc) as [H1 H2]. rewrite u32_id in H2 by by_decide. cbn [length PutUint16] in H2. lia.
  - left. by apply Hdown.
  - right. rewrite decide_True in Hst by done. by injection (eq_trans (eq_sym He) Henc) as ->.
Qed.
Lemma entry_fits M w e id p : matches M w e -> (id, OPub p) ∈ e_out e -> M = 0 \/ 4 <= M.
Proof.
  intros Hm Hin. rewrite (m_out _ _ _ Hm) in Hin. unfold outs in Hin. apply list_elem_of_omap in Hin as ([[i k] o] & Hx & Ha).
  pose proof (abs_key _ _ _ Ha) as [= -> ->]. pose proof (m_entries _ _ _ Hm) as He. rewrite Forall_forall in He.
  destruct (proj1 (He _ Hx) eq_refl) as (q & _ & _ & _ & _ & Hwf & Hpub & _ & f & Hf & [?|Hfit]); [by left|right].
  pose proof (publish_frame_len q f Hwf Hpub Hf). lia.
Qed.

Lemma abs_release id p es : NoDup (omap abs_entry es).*1 -> (id, OPub p) ∈ omap abs_entry es ->
  omap abs_entry (delete_entry (id, StoredPublish) (es ++ [((id, StoredPubrel), None)])) = drop_out id (omap abs_entry es) ++ [(id, ORel)].
Proof using Type.
  intros Hnd Hin. unfold delete_entry. rewrite filter_app, omap_app. rewrite <- (abs_delete id (OPub p) es Hnd Hin). f_equal.
  rewrite filter_cons_True by done. done.
Qed.

(** A turn takes a frame and writes at most one. *)
Lemma backlog_turn w l x xs c' fs : c_link (w_c w) = Some l ->
  cn_r (the_conn (w_c w) l) = concat (arrival_bytes (c_version (w_c w)) <$> (x :: xs)) -> (length fs <= 1)%nat ->
  steady fs (taken_from l (concat (arrival_bytes (c_version (w_c w)) <$> xs)) (w_c w)) c' -> (backlog (with_client c' w) <= S (backlog w))%nat.
Proof using Type.
  intros Hl Hr Hfs [El Hst]. destruct (Hst l Hl) as (_ & _ & _ & E4 & E5). unfold backlog. cbn [w_c with_client w_read]. rewrite El.
  change (c_link (taken_from _ _ _)) with (c_link (w_c w)). rewrite Hl, E4, E5, taken_written, taken_read, Hr, fmap_cons, concat_cons, !length_app. lia.
Qed.

Lemma matches_released M w e l x xs id p c' : matches M w e -> c_link (w_c w) = Some l ->
  cn_r (the_conn (w_c w) l) = concat (arrival_bytes (c_version (w_c w)) <$> (x :: xs)) ->
  Forall (arrival_ok (c_inboundMax (w_c w))) xs -> (id, OPub p) ∈ e_out e -> e_down e = (Pubrec, id) :: omap arrival_down xs ->
  let c1 := taken_from l (concat (arrival_bytes (c_version (w_c w)) <$> xs)) (w_c w) in
  good (omap task_link (w_tasks w)) c' -> store_ok (c_store c') ->
  contents (c_store c') = delete_entry (id, StoredPublish) (contents (c_store c1) ++ [((id, StoredPubrel), None)]) ->
  c_ids c' = c_ids c1 -> c_version c' = c_version c1 -> c_inboundMax c' = c_inboundMax c1 ->
  c_link c' = None \/ steady [0x62 :: 2 :: PutUint16 id] c1 c' ->
  exists e', rtc estep e e' /\ matches M (with_client c' w) e' /\ (c_link c' = None \/ load e' < load e /\ backlog (with_client c' w) <= S (backlog w))%nat.
Proof.
  intros Hm Hl Hr Hxs Hin Hdown c1 Hg Hok Hc Hids Hv Hi Hst.
  assert (Hon := on_link_taken _ _ _ _ _ _ _ _ (m_link _ _ _ Hm l Hl) Hr Hxs). fold c1 in Hon.
  assert (Hid : 0 < id < 65536) by (apply (ow_out _ _ _ (m_owned _ _ _ Hm)); exact (list_elem_of_fmap_2 fst _ _ Hin)).
  assert (Hfit := entry_fits _ _ _ _ _ Hm Hin).
  destruct (pubrel_frame_bytes (c_version (w_c w)) id (m_version _ _ _ Hm) Hid) as [_ Hheed].
  pose proof (m_out _ _ _ Hm) as Ho. unfold outs in Ho. pose proof (v_keys _ (m_inv _ _ _ Hm)) as Hnd.
  pose proof (m_live _ _ _ Hm) as Elive. rewrite (is_some_link _ _ Hl) in Elive. pose proof (m_inv _ _ _ Hm) as Hinv0.
  destruct e as [live out up down b log]. cbn [e_out e_up e_down e_live e_log e_b] in *. subst live down.
  assert (H1 := e_pubrec out up id (omap arrival_down xs) b log).
  assert (Hbase : forall live up' down', live = is_some (c_link c') -> (forall l, c_link c' = Some l -> on_link M c' (w_read w) up' down' l) ->
    einv (mkExchanges live (drop_out id out ++ [(id, ORel)]) up' down' b log) ->
    matches M (with_client c' w) (mkExchanges live (drop_out id out ++ [(id, ORel)]) up' down' b log)).
  { intros live up' down' El Hlink Hinv. change (c_version c1) with (c_version (w_c w)) in Hv. change (c_ids c1) with (c_ids (w_c w)) in Hids.
    change (c_inboundMax c1) with (c_inboundMax (w_c w)) in Hi. change (c_store c1) with (c_store (w_c w)) in Hc.
    split; cbn [w_c w_tasks w_read w_b w_log with_client e_out e_up e_down e_live e_log e_b]; rewrite ?Hv, ?Hi, ?Hids; try apply Hm; try done.
    - rewrite Hc. apply good_entries_delete, Forall_app. split; [apply Hm|]. constructor; [|done]. by split.
    - unfold outs. rewrite Hc, Ho. symmetry. apply (abs_release id p); by rewrite <- Ho.
    - eapply owned_keys; [|apply Hm]. intros i. rewrite fmap_app, drop_out_keys, elem_of_app, list_elem_of_filter. cbn [fmap list_fmap fst].
      rewrite list_elem_of_singleton. split; [|destruct (decide (i = id)); tauto]. intros [[_ ?]| ->]; [done|]. exact (list_elem_of_fmap_2 fst _ _ Hin). }
  destruct Hst as [Hnone|[El Hst]].
  - assert (Hs : rtc estep (mkExchanges true out up ((Pubrec, id) :: omap arrival_down xs) b log)
      (mkExchanges false (drop_out id out ++ [(id, ORel)]) [] [] b log)) by (eapply rtc_l; [exact H1|]; apply rtc_once, e_drop).
    eexists. split; [exact Hs|]. split; [|by left]. apply Hbase; rewrite ?Hnone; [done|done|]. by eapply esteps_inv.
  - eexists. split; [by apply rtc_once|].
    split; [|right; split; [unfold load; cbn [e_up e_down sum_list_with]; rewrite sum_list_with_app; cbn; lia|apply (backlog_turn w l x xs c' [0x62 :: 2 :: PutUint16 id] Hl Hr); [cbn; lia|by split]]]. apply Hbase; [by rewrite El; cbn; rewrite Hl| |by eapply estep_inv].
    intros l' Hl'. assert (l' = l) as -> by (rewrite El in Hl'; cbn in Hl'; congruence).
    eapply on_link_sent; [exact Hon|done|done|done|by rewrite Hids|done|done].
Qed.

(** * One turn of the read loop *)

Lemma Answer_turn l h body c t ack : Frame_PacketType (mkFrame h body) = t -> t = Puback \/ t = Pubrec \/ t = Pubcomp ->
  DecodeAck (c_version c) t body = Ok ack -> (handleFrame l (mkFrame h body) c).2 =
    (if t =? Puback then completeOutbound l (ack_PacketID ack) StoredPublish (mkAckResult None (reasonStringOf (ack_Properties ack)) (ack_ReasonCode ack)) c
     else if t =? Pubcomp then completeOutbound l (ack_PacketID ack) StoredPubrel (mkAckResult None (reasonStringOf (ack_Properties ack)) (ack_ReasonCode ack)) c
     else handlePubrec l ack (reasonStringOf (ack_Properties ack)) c).2.
Proof.
  intros Ht Htt Hdec.
  assert (E : handleFrame l (mkFrame h body) c = handleAck l (mkFrame h body) t c) by (unfold handleFrame; rewrite Ht; by destruct Htt as [-> | [-> | ->]]).
  rewrite E. unfold handleAck. rewrite cmd_bind_eq. unfold gets. cbn [Body]. rewrite Hdec, cmd_bind_eq.
  destruct Htt as [-> | [-> | ->]]; cbn [Z.eqb Pos.eqb Puback Pubrec Pubcomp];
    match goal with |- context [let '(_, _) := ?m c in _] => by destruct (m c) end.
Qed.
(** An answer is about a stored exchange. *)
Lemma answer_entry e t id down : einv e -> e_down e = (t, id) :: down ->
  t = Puback /\ (exists p, (id, OPub p) ∈ e_out e) \/ t = Pubrec /\ (exists p, (id, OPub p) ∈ e_out e) \/ t = Pubcomp /\ (id, ORel) ∈ e_out e.
Proof using Type.
  intros Hinv Hd. assert (Hin : (t, id) ∈ e_down e) by (rewrite Hd; apply list_elem_of_here).
  destruct (v_down e Hinv _ Hin) as [[E (p & Hp & _)]|[(E & _ & p & Hp & _)|(E & _ & Hp)]]; cbn in *; eauto 6.
Qed.

Lemma matches_answer M w e l t id rc xs ack h body : matches M w e -> store_room (c_store (w_c w)) -> c_link (w_c w) = Some l ->
  cn_r (the_conn (w_c w) l) = concat (arrival_bytes (c_version (w_c w)) <$> (Answer (t, id, rc) :: xs)) ->
  e_down e = (t, id) :: omap arrival_down xs -> Forall (arrival_ok (c_inboundMax (w_c w))) xs ->
  arrival_ok (c_inboundMax (w_c w)) (Answer (t, id, rc)) -> Frame_PacketType (mkFrame h body) = t ->
  DecodeAck (c_version (w_c w)) t body = Ok ack -> ack_PacketID ack = id -> (rc = Success -> ack_ReasonCode ack = Success) ->
  let c' := (handleFrame l (mkFrame h body) (taken_from l (concat (arrival_bytes (c_version (w_c w)) <$> xs)) (w_c w))).2 in
  good (omap task_link (w_tasks w)) c' ->
  exists e', rtc estep e e' /\ matches M (with_client c' w) e' /\ (c_link c' = None \/ load e' < load e /\ backlog (with_client c' w) <= S (backlog w))%nat.
Proof.
  intros Hm Hroom Hl Hr Hd Hxs [Hid Ht] Hty Hdec Hpid Hsucc c' Hg. set (c1 := taken_from l _ (w_c w)) in *.
  assert (Htt : t = Puback \/ t = Pubrec \/ t = Pubcomp) by tauto.
  assert (Hstored : forall o, (id, o) ∈ e_out e -> stored id (match o with OPub _ => StoredPublish | ORel => StoredPubrel end) c1).
  { intros o Hin. rewrite (m_out _ _ _ Hm) in Hin. by apply (outs_stored (w_c w)). }
  assert (Hfin : forall o r, (id, o) ∈ e_out e -> estep e (mkExchanges true (drop_out id (e_out e)) (e_up e) (omap arrival_down xs) (e_b e) (e_log e)) ->
    c' = (completeOutbound l id (match o with OPub _ => StoredPublish | ORel => StoredPubrel end) r c1).2 ->
    exists e', rtc estep e e' /\ matches M (with_client c' w) e' /\ (c_link c' = None \/ load e' < load e /\ backlog (with_client c' w) <= S (backlog w))%nat).
  { intros o r Hin Hstep Ec. eexists. split; [by apply rtc_once|]. assert (Hinv := estep_inv _ _ Hstep (m_inv _ _ _ Hm)).
    destruct (complete_effect l id _ r c1 (m_store _ _ _ Hm) (Hstored o Hin)) as (E1 & E2 & E3 & E4 & E5 & E6). rewrite <- Ec in E1, E2, E3, E4, E5, E6.
    split; [by eapply matches_finished|right]. split; [|apply (backlog_turn w l (Answer (t, id, rc)) xs c' [] Hl Hr); [cbn; lia|done]].
    unfold load. rewrite Hd. cbn [e_up e_down sum_list_with]. unfold hops_down at 2. destruct (_ =? Pubrec); lia. }
  pose proof (Answer_turn l h body c1 t ack Hty Htt Hdec) as Ec. fold c' in Ec. rewrite Hpid in Ec. pose proof (m_inv _ _ _ Hm) as Hinv.
  pose proof (m_live _ _ _ Hm) as Elive. rewrite (is_some_link _ _ Hl) in Elive.
  assert (He : e = mkExchanges true (e_out e) (e_up e) ((t, id) :: omap arrival_down xs) (e_b e) (e_log e)) by (rewrite <- Hd, <- Elive; by destruct e).
  destruct (answer_entry e t id _ Hinv Hd) as [[-> [p Hp]]|[[-> [p Hp]]|[-> Hp]]]; cbn [Z.eqb Pos.eqb Puback Pubcomp Pubrec] in Ec.
  - eapply (Hfin (OPub p)); [done| |exact Ec]. rewrite He at 1. apply e_puback.
  - assert (Hrc : ReasonCode_IsError (ack_ReasonCode ack) = false) by (rewrite Hsucc; [done|]; by destruct Ht as [[? ?]|[[_ ?]|[? ?]]]).
    assert (Hnrel : ~ stored id StoredPubrel c1).
    { unfold stored. intros (([i k] & o) & [= <- <-] & Hin)%list_elem_of_fmap. assert (Hrel : (id, ORel) ∈ e_out e).
      { rewrite (m_out _ _ _ Hm). apply list_elem_of_omap. by eexists. }
      by pose proof (key_unique _ _ _ _ (v_keys _ Hinv) Hp Hrel). }
    destruct (pubrec_stores l ack (reasonStringOf (ack_Properties ack)) c1) as (s & E & Hoks & Hcs); rewrite ?Hpid; try done;
      [apply Hm|exact (Hstored _ Hp)|].
    rewrite Hpid in E, Hcs. rewrite E in Ec. assert (Hg1 : good (omap task_link (w_tasks w)) (set_store s c1)).
    { eapply good_fields; [..|apply (taken_good _ l), (m_wf _ _ _ Hm)]; done. }
    pose proof (m_link _ _ _ Hm l Hl) as (_ & HM & _).
    destruct (pubrel_sent M l id (set_store s c1) (proj1 Hg1) Hl (m_version _ _ _ Hm) Hid HM (entry_fits _ _ _ _ _ Hm Hp)) as [Hss Hst].
    rewrite <- Ec in Hss, Hst. eapply matches_released; try done.
    + by rewrite (ss_store _ _ Hss).
    + by rewrite (ss_store _ _ Hss).
    + by rewrite (ss_ids _ _ Hss).
    + by rewrite (ss_version _ _ Hss).
    + by destruct Hss.
  - eapply (Hfin ORel); [done| |exact Ec]. rewrite He at 1. apply e_pubcomp.
Qed.

(** A frame of no concern leaves only the bytes behind it. *)
Lemma matches_taken M w e l h body xs : matches M w e -> c_link (w_c w) = Some l ->
  cn_r (the_conn (w_c w) l) = concat (arrival_bytes (c_version (w_c w)) <$> (Benign h body :: xs)) ->
  e_down e = omap arrival_down xs -> Forall (arrival_ok (c_inboundMax (w_c w))) xs ->
  matches M (with_client (taken_from l (concat (arrival_bytes (c_version (w_c w)) <$> xs)) (w_c w)) w) e.
Proof.
  intros Hm Hl Hr Hd Hxs. assert (Hon := on_link_taken _ _ _ _ _ _ _ _ (m_link _ _ _ Hm l Hl) Hr Hxs). destruct Hm as [Hw Hv Hi Hs He Ho Hown Hb Hlog Hlive Hlink Hinv].
  split; cbn [w_c w_tasks w_read w_b w_log with_client]; try done; [by apply taken_good|].
  intros l' Hl'. assert (l' = l) as -> by (cbn in Hl'; congruence). by rewrite Hd.
Qed.

Lemma matches_read M w e : matches M w e -> lawful M WRead w -> forall w', wstep WRead w = Some w' ->
  exists e', rtc estep e e' /\ matches M w' e' /\ calmer w e w' e'.
Proof.
  intros Hm Hroom w'. cbn [wstep lawful] in *. destruct (c_link (w_c w)) as [l|] eqn:Hl; [|done]. cbn [mbind option_bind].
  case_bool_decide as Hne; [done|]. intros [= <-]. destruct (m_wf _ _ _ Hm) as [Hw HLs]. destruct (wc_link _ Hw l Hl) as (lk & Hlk & _).
  assert (Hgood : good (l :: omap task_link (w_tasks w)) (w_c w)).
  { split; [done|]. intros l' [->|Hl']%elem_of_cons; [by exists lk|by apply HLs]. }
  assert (Hg : good (omap task_link (w_tasks w)) (readLoop_turn l (w_c w)).2).
  { eapply good_weaken; [|exact (upholds_readLoop_turn _ l (list_elem_of_here _ _) _ Hgood)]. set_solver. }
  pose proof (m_link _ _ _ Hm l Hl) as (L1 & L2 & L3 & L4 & L5 & xs & Hr & Hxs & Hd). destruct xs as [|x xs]; [by rewrite Hr in Hne|].
  apply Forall_cons in Hxs as [Hx Hxs].
  destruct (arrival_frame (c_version (w_c w)) (c_inboundMax (w_c w)) x (m_version _ _ _ Hm) (m_inbound _ _ _ Hm) Hx) as (h & body & Eb & Hb & Hlen & Hrest).
  pose proof Hr as Hr'. rewrite fmap_cons, concat_cons, Eb in Hr'. pose proof (m_inbound _ _ _ Hm).
  assert (Et := readLoop_turn_frame l h body _ (c_inboundMax (w_c w)) (w_c w) Hw Hl Hr' L3 Hb ltac:(unfold in_u32; lia) Hlen). rewrite Et in Hg |- *. clear Et.
  destruct x as [[[t id] rc]|h' body'].
  - destruct Hrest as (Hty & Hfl & ack & Hdec & Hpid & Hs). rewrite Hfl in Hg |- *.
    destruct (matches_answer M w e l t id rc xs ack h body) as (e' & H1 & H2 & H3); try done. exists e'. split_and!; [done..|].
    destruct H3 as [H3|H3]; [by left|right; lia].
  - destruct Hrest as [-> ->]. assert (Hm1 := matches_taken M w e l h body xs Hm Hl Hr Hd Hxs). set (c1 := taken_from l _ (w_c w)) in *.
    assert (Hg1 : good [l] c1) by (by eapply taken_good, good_link).
    assert (Hq := quiet_taken l (mkFrame h body) c1 Hg1 (m_store _ _ _ Hm1) Hroom ltac:(apply Hx)). match type of Hq with quiet _ _ _ ?x => set (c' := x) in * end.
    destruct Hq as [_ Hok Ho He Hv Hi Hids Hst]. assert (Hks : keeps_stored M (with_client c1 w) e c' (w_tasks w)).
    { split_and!; rewrite ?Hids; try done; [|apply Hm1]. rewrite Forall_forall. intros y Hy. pose proof (m_entries _ _ _ Hm1) as Hent. rewrite Forall_forall in Hent.
      destruct (He y Hy) as [|Hk]; [by apply Hent|]. destruct y as [[i k] o]. cbn in Hk. subst k. by split. }
    destruct Hst as [Hst|(fs & Hst & Hmu & Hn)].
    + exists (dropped e). split_and!; [apply dropped_step|by apply (matches_down M (with_client c1 w))|by left].
    + exists e. split_and!; [done|by apply (matches_steady M (with_client c1 w) e c' (w_tasks w) fs)|]. right.
      destruct Hst as [El Hst]. destruct (Hst l Hl) as (_ & _ & _ & E4 & E5). unfold backlog. cbn [w_c with_client w_read]. rewrite El.
      change (c_link c1) with (c_link (w_c w)). rewrite Hl, E4, E5. unfold c1.
      rewrite taken_written, taken_read, Hr, fmap_cons, concat_cons, !length_app. cbn [arrival_bytes]. pose proof (length_packet_bytes h body Hb).
      pose proof (varintLen_range (len body)). lia.
Qed.
End answers.
