(* ===== verification/Resume.v ===== *)
(** A connect in a run of client and broker: what is stored goes out again, heard
    as the same messages, before anything else, or the session starts anew. *)

From S2P Require Import Prelude GoStrings Codes Wire WireFacts Props PropsFacts PublishPackets ControlPackets.
From S2P Require Import SubscribePackets Topic SessionStore Errors IdAllocator Quota Subscriptions Lifecycle.
From S2P Require Import Client Pump Requests Connection ClientFacts SessionFacts RequestFacts LinkFacts OutboundFacts Wellformed.
From S2P Require Import Delivery World WorldFacts Ownership PublishFacts Simulation Traffic Answers.
From stdpp Require Import options.

(** * Retransmission *)

Lemma frame_of_fits max encode f : encode [] = Ok f -> in_u32 (len f) -> max = 0 \/ len f <= max -> frame_of max encode = Some f.
Proof.
  intros He Hu Hmax. unfold frame_of. rewrite He, u32_id by done. destruct (Z.eqb_spec max 0); [done|]. cbn [negb andb].
  replace (len f >? max) with false by lia. done.
Qed.

(** A stored message that can be sent goes out again and is heard as the same. *)
Lemma replay_entry v M m : Version_Valid v = true -> good_entry v M (entry_of m) ->
  (forall id o, abs_entry (entry_of m) = Some (id, o) -> 0 < id < 65536) ->
  omap (heed v) (option_list (replay_encoder v m ≫= frame_of M)) = again <$> option_list (abs_entry (entry_of m)).
Proof.
  intros Hv [Hp Hr] Hid. unfold replay_encoder, abs_entry in *. cbn [entry_of key_of fst snd] in *.
  destruct (Z.eqb_spec (sm_Kind m) StoredPublish) as [E|_].
  - destruct (Hp E) as (p & Ep & Hver & Hd & Hpid & Hwf & Hpub & Hq & f & Hf & Hfit). rewrite Ep. cbn [mbind option_bind fmap option_fmap option_map].
    destruct (heed_again p f Hwf Hpub Hq Hd Hf) as (f' & Hf' & Hlen & Hheed).
    rewrite Hver in Hheed. rewrite (frame_of_fits M _ f' Hf'); [|by eapply sized_publish|rewrite Hlen; done].
    cbn. by rewrite Hheed.
  - destruct (Z.eqb_spec (sm_Kind m) StoredPubrel) as [E|_]; [|done]. cbn [mbind option_bind].
    destruct (pubrel_frame_bytes v (sm_ID m) Hv (Hid _ _ eq_refl)) as [Hf Hheed].
    rewrite (frame_of_fits M _ _ Hf); [|by_decide|by apply Hr]. change (option_list (Some ?x)) with [x].
    unfold omap, list_omap. by rewrite Hheed.
Qed.

Lemma replay_heard v M msgs : Version_Valid v = true -> Forall (good_entry v M) (entry_of <$> msgs) ->
  (forall id, id ∈ (omap abs_entry (entry_of <$> msgs)).*1 -> 0 < id < 65536) ->
  omap (heed v) (replay_frames v M msgs) = again <$> omap abs_entry (entry_of <$> msgs).
Proof.
  intros Hv. induction msgs as [|m msgs IH]; intros Hg Hid; [done|]. apply Forall_cons in Hg as [Hm Hg].
  assert (Hhead : forall id o, abs_entry (entry_of m) = Some (id, o) -> 0 < id < 65536).
  { intros id o E. apply Hid. cbn [fmap list_fmap omap list_omap]. rewrite E. apply list_elem_of_here. }
  assert (Htail : forall id, id ∈ (omap abs_entry (entry_of <$> msgs)).*1 -> 0 < id < 65536).
  { intros id Hx. apply Hid. cbn [fmap list_fmap omap list_omap]. destruct (abs_entry (entry_of m)); [by right|done]. }
  specialize (IH Hg Htail). assert (Hh := replay_entry v M m Hv Hm Hhead). unfold replay_frames in *. rewrite fmap_cons.
  cbn [omap list_omap fmap list_fmap] in *. destruct (replay_encoder v m ≫= frame_of M) as [f|]; destruct (abs_entry (entry_of m)) as [x|];
    cbn in Hh |- *; try destruct (heed v f); simplify_eq/=; by rewrite IH.
Qed.

Section resume.
Context {St : Type} {HS : SessionStore St} {HC : ContainsStore St} {HE : Environment St}.
Implicit Types c : client St.
#[local] Strategy opaque [idAllocator_Acquire].

(** * A connection that is being set up *)

(** The session is kept and, unless the link was torn down, [fs] went out on it. *)
Definition carried (l : nat) (fs : list (list Z)) c c' : Prop :=
  kept_session c c' /\ c_link c' = c_link c /\
  (isStopping l c' = false -> isStopping l c = false /\ the_link c' l = the_link c l /\
    cn_r (the_conn c' l) = cn_r (the_conn c l) /\ written c' l = written c l ++ fs).

Lemma carried_trans l fs fs' c c1 c2 : carried l fs c c1 -> carried l fs' c1 c2 -> carried l (fs ++ fs') c c2.
Proof.
  intros ((S1 & V1 & I1) & L1 & H1) ((S2 & V2 & I2) & L2 & H2). split; [split_and!; congruence|]. split; [congruence|].
  intros Hst. destruct (H2 Hst) as (St2 & E2 & R2 & W2). destruct (H1 St2) as (St1 & E1 & R1 & W1). split_and!; [done|congruence..|].
  rewrite W2, W1. by rewrite app_assoc.
Qed.

Lemma carried_fields l c c' : c_link c' = c_link c -> c_links c' = c_links c -> c_conns c' = c_conns c ->
  c_store c' = c_store c -> c_version c' = c_version c -> c_inboundMax c' = c_inboundMax c -> carried l [] c c'.
Proof.
  intros El Elk Ek Es Ev Ei. assert (Htl : the_link c' l = the_link c l) by (unfold the_link; congruence). split; [done|]. split; [done|].
  unfold isStopping, written, the_conn. rewrite Htl, Ek, app_nil_r. done.
Qed.

Lemma writeFrame_carried l encode c : c_link c <> Some l ->
  carried l (option_list (frame_of (l_outboundMax (the_link c l)) encode)) c (writeFrame (Some l) encode c).2.
Proof.
  intros Hl. pose proof (writeFrame_same (Some l) encode c) as Hs. destruct (writeFrame_progress l encode c Hl) as [Hp Hw].
  split; [by destruct Hs|]. split; [apply Hp|]. intros Hst. specialize (Hw Hst).
  assert (Hst0 : isStopping l c = false) by (destruct (isStopping l c) eqn:E; [by rewrite (pg_stop _ _ _ Hp E) in Hst|done]).
  split; [done|]. rewrite Hw. clear Hw Hp Hs. cbn [writeFrame] in *. destruct (encode []) as [f|e]; [|done].
  rewrite cmd_bind_eq in *. unfold gets in *. destruct (negb _ && _); [done|]. rewrite !cmd_bind_eq in *. unfold conn_write in *.
  destruct (negb (cn_closed _) && _); [|rewrite cmd_bind_eq in Hst; unfold upd in Hst; cbn [mret cmd_ret snd] in Hst; by rewrite teardown_stops in Hst].
  cbn [mret cmd_ret snd]. split_and!; [done| |done]. unfold the_conn, the_link, upd_conn. csimp. by rewrite lookup_total_insert_eq.
Qed.

Lemma removeWaiter_carried l id ch c : carried l [] c (removeWaiter id ch c).
Proof. unfold removeWaiter. destruct (c_waiters c !! id); [destruct (_ =? _)%nat|]; by apply carried_fields. Qed.

Lemma replaySession_loop_ids l msgs c : c_ids (replaySession_loop l msgs c).2 = c_ids c.
Proof.
  revert c. induction msgs as [|m msgs IH]; intros c; [done|]. cbn [replaySession_loop]. rewrite cmd_bind_eq. unfold gets. rewrite cmd_bind_eq.
  destruct (replay_encoder _ m) as [encode|]; [|apply IH]. pose proof (writeFrame_ids (Some l) encode c) as Hi.
  destruct (writeFrame _ _ c) as [err c1]. cbn [snd] in Hi. by rewrite IH.
Qed.

Lemma replaySession_loop_carried l msgs c : c_link c <> Some l ->
  carried l (replay_frames (c_version c) (l_outboundMax (the_link c l)) msgs) c (replaySession_loop l msgs c).2.
Proof.
  revert c. induction msgs as [|m msgs IH]; intros c Hl; [by apply carried_fields|].
  cbn [replaySession_loop]. rewrite cmd_bind_eq. unfold gets. rewrite cmd_bind_eq. unfold replay_frames. cbn [omap list_omap].
  fold (replay_frames (c_version c) (l_outboundMax (the_link c l)) msgs).
  destruct (replay_encoder (c_version c) m) as [encode|]; cbn [mbind option_bind]; [|by apply IH].
  pose proof (writeFrame_carried l encode c Hl) as H1. pose proof (writeFrame_progress l encode c Hl) as [Hp _].
  destruct (writeFrame _ _ c) as [err c1]. cbn [snd] in *. specialize (IH c1 ltac:(by rewrite (pg_link _ _ _ Hp))).
  rewrite (pg_version _ _ _ Hp) in IH. destruct (pg_same _ _ _ Hp) as (_ & Emax & _). rewrite Emax in IH.
  assert (H2 := carried_trans _ _ _ _ _ _ H1 IH). by destruct (frame_of _ _).
Qed.

(** The subscriptions go out without a word about the exchanges; each holds an
    identifier of its own until it is answered. *)
Lemma replaySubscriptions_loop_carried l subs c out hs : c_link c <> Some l -> owned (c_ids c) out hs ->
  let '(aw, c') := replaySubscriptions_loop l subs c in
  owned (c_ids c') out (hs ++ (holds <$> (TAwait <$> aw))) /\ gen (c_ids c') = gen (c_ids c) /\
  exists fs, Forall (muted (c_version c)) fs /\ carried l fs c c'.
Proof.
  revert c hs. induction subs as [|s subs IH]; intros c hs Hl Hown.
  { cbn. rewrite app_nil_r. split_and!; [done|done|]. exists []. split; [constructor|by apply carried_fields]. }
  cbn [replaySubscriptions_loop]. rewrite cmd_bind_eq. destruct (idAllocator_Acquire (c_ids c)) as [[id g|g] a] eqn:Ha.
  - rewrite cmd_bind_eq. unfold registerWaiter. rewrite cmd_bind_eq. unfold gets. rewrite cmd_bind_eq.
    destruct (acquired_fresh _ _ _ _ _ _ Hown Ha) as (_ & _ & Eg & _). assert (Hown1 := owned_acquire _ _ _ _ _ _ Hown Ha).
    match goal with |- context [writeFrame (Some l) ?e ?c1] =>
      assert (H1 : carried l [] c c1) by (by apply carried_fields);
      pose proof (writeFrame_carried l e c1 Hl) as H2; pose proof (writeFrame_ids (Some l) e c1) as Hids;
      assert (Hmute : Forall (muted (c_version c)) (option_list (frame_of (l_outboundMax (the_link c1 l)) e))) by
        (unfold frame_of; destruct (e []) as [f|] eqn:He; [|constructor]; destruct (negb _ && _); repeat constructor; by eapply mute_subscribe);
      destruct (writeFrame (Some l) e c1) as [err c2] end.
    cbn [snd] in *. assert (H3 := carried_trans _ _ _ _ _ _ H1 H2). cbn [app] in H3.
    assert (Hl2 : c_link c2 <> Some l) by (destruct H3 as (_ & -> & _); done).
    assert (Ev2 : c_version c2 = c_version c) by (by destruct H3 as ((_ & -> & _) & _)). change (c_ids c2 = a) in Hids. rewrite <- Hids in Hown1, Eg.
    destruct err as [e|].
    + rewrite !cmd_bind_eq. unfold upd. change (c_nextCh (set_ids a c)) with (c_nextCh c). rewrite cmd_bind_eq. set (c3 := ids_ReleaseAt id g (removeWaiter id (c_nextCh c) c2)).
      destruct (remove_hushed id (c_nextCh c) c2) as [_ Eids]. assert (H4 := removeWaiter_carried l id (c_nextCh c) c2).
      assert (H5 : carried l [] (removeWaiter id (c_nextCh c) c2) c3) by (by apply carried_fields).
      assert (H6 := carried_trans _ _ _ _ _ _ H3 (carried_trans _ _ _ _ _ _ H4 H5)). rewrite !app_nil_r in H6.
      assert (Hown3 : owned (c_ids c3) out hs).
      { unfold c3. csimp. rewrite Eids. apply owned_less.
        assert (E : <[length hs := None]> (hs ++ [Some (id, g)]) = hs ++ [None]) by (by rewrite <- (Nat.add_0_r (length hs)), insert_app_r).
        rewrite <- E. apply owned_release; [done|]. by apply list_lookup_middle. }
      specialize (IH c3 hs ltac:(destruct H6 as (_ & -> & _); done) Hown3). destruct (replaySubscriptions_loop l subs c3) as [aw c'].
      destruct IH as (E1 & E2 & fs & Hfs & E3). split_and!; [done| |].
      * rewrite E2. unfold c3. csimp. rewrite Eids, <- Eg. apply gen_ReleaseAt.
      * eexists. split; [|exact (carried_trans _ _ _ _ _ _ H6 E3)]. apply Forall_app. split; [done|]. destruct H6 as ((_ & Ev & _) & _). by rewrite Ev in Hfs.
    + rewrite cmd_bind_eq. specialize (IH c2 _ Hl2 Hown1). destruct (replaySubscriptions_loop l subs c2) as [aw c'].
      destruct IH as (E1 & E2 & fs & Hfs & E3). cbn [mret cmd_ret]. rewrite !fmap_cons. cbn [holds].
      rewrite <- app_assoc in E1. split_and!; [done|congruence|]. eexists. split; [|exact (carried_trans _ _ _ _ _ _ H3 E3)].
      apply Forall_app. rewrite Ev2 in Hfs. done.
  - assert (Hm := move_exhausted _ _ _ Ha). assert (H1 : carried l [] c (set_ids a c)) by (by apply carried_fields).
    specialize (IH (set_ids a c) hs Hl (owned_exhausted _ _ _ _ _ Hown Ha)). destruct (replaySubscriptions_loop l subs _) as [aw c'].
    destruct IH as (E1 & E2 & fs & Hfs & E3). split_and!; [done|rewrite E2; by eapply id_move_gen, Hm; apply Hown|].
    exists fs. split; [done|]. exact (carried_trans _ _ _ _ _ _ H1 E3).
Qed.
(** The rest of a connect: the stored messages, then the subscriptions. *)
Lemma finish_carried l now r msgs c out hs : c_link c = None -> All (c_store c) = Some msgs -> owned (c_ids c) out hs ->
  let '((_, aw), c') := finish l now r c in
  kept_session c c' /\ owned (c_ids c') out (hs ++ (holds <$> (TAwait <$> aw))) /\ gen (c_ids c') = gen (c_ids c) /\
  (c_link c' = None \/ c_link c' = Some l /\ the_link c' l = the_link c l /\ cn_r (the_conn c' l) = cn_r (the_conn c l) /\
    exists fs, Forall (muted (c_version c)) fs /\
      written c' l = written c l ++ replay_frames (c_version c) (l_outboundMax (the_link c l)) msgs ++ fs).
Proof.
  intros Hl Hall Hown. unfold finish, replaySession. rewrite !cmd_bind_eq. unfold gets. rewrite Hall.
  assert (Hl0 : c_link c <> Some l) by congruence.
  pose proof (replaySession_loop_carried l msgs c Hl0) as H1. pose proof (replaySession_loop_ids l msgs c) as Hi.
  destruct (replaySession_loop l msgs c) as [[] c1]. cbn [snd] in *. rewrite cmd_bind_eq. unfold replaySubscriptions. rewrite cmd_bind_eq. unfold gets.
  assert (Hl1 : c_link c1 <> Some l) by (destruct H1 as (_ & -> & _); done). rewrite <- Hi in Hown.
  pose proof (replaySubscriptions_loop_carried l (subs (c_table c1)) c1 out hs Hl1 Hown) as H2.
  destruct (replaySubscriptions_loop l (subs (c_table c1)) c1) as [aw c2]. destruct H2 as (Hown2 & Hgen & fs & Hfs & H2).
  assert (H3 := carried_trans _ _ _ _ _ _ H1 H2). rewrite Hi in Hgen. destruct H1 as ((_ & Ev1 & _) & _). rewrite Ev1 in Hfs.
  destruct H3 as (Hk & El & H3). rewrite cmd_bind_eq. destruct (isStopping l c2) eqn:Hst.
  - cbn [mret cmd_ret]. split_and!; [done..|]. left. congruence.
  - rewrite cmd_bind_eq. unfold upd. cbn [mret cmd_ret]. destruct (H3 eq_refl) as (_ & E1 & E2 & E3).
    split_and!; [done|done|done|]. right. split_and!; [done|exact E1|exact E2|]. exists fs. split; [done|exact E3].
Qed.

(** * The handshake *)

Lemma handshake_accepted d k c ack c1 : cn_w (c_conns c !!! k) = [] -> handshake d k c = (inr ack, c1) ->
  exists connect frame rest, mute (c_version c) (fun _ => Ok connect) /\ ReadFrame (d_bytes d) (c_inboundMax c) = Ok (frame, rest) /\
    DecodeConnack (c_version c) (Body frame) = Ok ack /\ cn_w (c_conns c1 !!! k) = [connect] /\ cn_r (c_conns c1 !!! k) = rest.
Proof.
  intros Hw0 H. unfold handshake in H. rewrite cmd_bind_eq in H. unfold gets at 1 in H.
  destruct (ConnectPacket_Encode _ _) as [connect|e] eqn:Henc; [|done]. rewrite cmd_bind_eq in H. unfold conn_write in H at 1.
  destruct (negb (cn_closed _) && _); [|done]. cbn [negb] in H. rewrite Hw0 in H. cbn [app] in H. rewrite cmd_bind_eq in H. unfold gets at 1 in H.
  set (c0 := upd_conn k (set_cn_w [connect]) c) in *. change (c_inboundMax c0) with (c_inboundMax c) in H.
  destruct (ReadFrame _ _) as [[frame rest]|e] eqn:Hr; [|done]. rewrite cmd_bind_eq in H. unfold upd at 1 in H.
  destruct (negb _); [done|]. rewrite cmd_bind_eq in H. unfold gets at 1 in H. set (c2 := upd_conn k (set_cn_r rest) c0) in *.
  change (c_version c2) with (c_version c) in H. destruct (DecodeConnack _ _) as [ack'|e] eqn:Hd; [|done].
  destruct (ReasonCode_IsError _); [done|]. rewrite cmd_bind_eq in H.
  assert (Hacc : forall err, refuseConnack k err c2 = (Some err, (refuseConnack k err c2).2))
    by (intros err; by destruct (refuseConnack_only k err c2) as (? & -> & _)).
  destruct (validateConnackLimits _ _) as [err|]; [by rewrite Hacc in H|]. rewrite cmd_bind_eq in H. unfold gets at 1 in H.
  destruct (_ && _); [by rewrite Hacc in H|]. unfold mret at 1, cmd_ret at 1 in H. destruct (d_ctx d); [done|]. injection H as <- <-.
  exists connect, frame, rest. split_and!; [|done|done|..].
  - intros f [= <-]. by eapply mute_connect.
  - unfold c2, c0, upd_conn. csimp. by rewrite !lookup_total_insert_eq.
  - unfold c2, c0, upd_conn. csimp. by rewrite !lookup_total_insert_eq.
Qed.
End resume.

Section connect.
Context {St : Type} {HS : SessionStore St} {HC : ContainsStore St} {HE : Environment St}.
Context {HL : SessionStoreLaws St} {HR : ReliableStore St} {HO : Observers St}.
Implicit Types c : client St.
Implicit Types w : world (St := St).
Set Default Proof Using "Type*".

(** * The session of the new connection *)

Lemma ready_rest k r c : let l := fresh (dom (c_links c)) in let c' := ready k r c in
  c_ids c' = c_ids (applySession r c) /\ c_inboundMax c' = c_inboundMax c /\ l_inboundMax (the_link c' l) = c_inboundMax c.
Proof.
  intros l c'. subst c'. unfold ready, captureGenerations. fold l. set (c1 := set_links _ c).
  destruct (applySession_net r c1) as (H1 & _).
  assert (Hlk : the_link (applySession r c1) l = newLink k r c).
  { unfold the_link. rewrite H1. unfold c1. csimp. by rewrite lookup_total_insert_eq. }
  unfold the_link at 1. unfold upd_link. csimp. rewrite lookup_total_insert_eq, Hlk. csimp.
  split_and!; try done; unfold applySession, c1; by destruct (resetsSession _ _).
Qed.

(** What is left of the stored exchanges. *)
Definition keeps {A} (reset : bool) (out : list A) : list A := if reset then [] else out.

Lemma applySession_contents r c : store_ok (c_store c) ->
  store_ok (c_store (applySession r c)) /\ contents (c_store (applySession r c)) = keeps (resetsSession r c) (contents (c_store c)).
Proof.
  intros Hok. unfold applySession, keeps. destruct (resetsSession r c); csimp; [|done].
  destruct (Reset_total (c_store c)) as [s Hs]. rewrite Hs. by apply (Reset_law (c_store c)).
Qed.

Lemma applySession_owned r c out hs : owned (c_ids c) out hs -> in_u64 (gen (c_ids c) + 1) ->
  owned (c_ids (applySession r c)) (keeps (resetsSession r c) out) hs /\
  gen (c_ids (applySession r c)) = gen (c_ids c) + (if resetsSession r c then 1 else 0).
Proof.
  intros Hown Hg. unfold applySession, keeps. destruct (resetsSession r c); csimp; [|split; [done|lia]].
  split; [by eapply owned_reset|]. simpl. by apply u64_id.
Qed.

Lemma kept_contents r c : store_ok (c_store c) -> entry_of <$> kept r c = keeps (resetsSession r c) (contents (c_store c)).
Proof.
  intros Hok. unfold kept, keeps. destruct (resetsSession r c); [done|]. destruct (All_total (c_store c)) as [out Ho]. rewrite Ho. by apply All_law.
Qed.

Lemma establish_session k now ack c out hs : c_link c = None -> store_ok (c_store c) -> owned (c_ids c) out hs -> in_u64 (gen (c_ids c) + 1) ->
  let r := buildConnectResult ack in let reset := resetsSession r c in
  let '((_, aw), c') := establish k now ack c in
  c_version c' = c_version c /\ c_inboundMax c' = c_inboundMax c /\ store_ok (c_store c') /\
  contents (c_store c') = keeps reset (contents (c_store c)) /\
  owned (c_ids c') (keeps reset out) (hs ++ (holds <$> (TAwait <$> aw))) /\
  gen (c_ids c') = gen (c_ids c) + (if reset then 1 else 0) /\
  (c_link c' = None \/ exists l fs, c_link c' = Some l /\ l_idGen (the_link c' l) = gen (c_ids c') /\
    l_outboundMax (the_link c' l) = cr_MaximumPacketSize r /\ l_inboundMax (the_link c' l) = c_inboundMax c /\
    cn_r (the_conn c' l) = cn_r (c_conns c !!! k) /\ Forall (muted (c_version c)) fs /\
    written c' l = cn_w (c_conns c !!! k) ++ replay_frames (c_version c) (cr_MaximumPacketSize r) (kept r c) ++ fs).
Proof.
  intros Hl Hok Hown Hg r reset. rewrite establish_eq. fold r. set (l := fresh (dom (c_links c))).
  destruct (ready_spec k r c) as (R1 & R2 & R3 & R4 & R5 & R6 & R7 & R8 & R9 & R10). destruct (ready_rest k r c) as (Q1 & Q2 & Q3).
  fold l in R4, R6, R8, Q3. destruct (applySession_contents r c Hok) as [S1 S2]. destruct (applySession_owned r c out hs Hown Hg) as [O1 O2].
  set (c1 := ready k r c) in *. rewrite <- R9 in S1, S2. rewrite <- Q1 in O1, O2.
  pose proof (finish_carried l now r (kept r c) c1 _ hs ltac:(congruence) ltac:(rewrite R9; by apply applySession_All) O1) as H.
  destruct (finish l now r c1) as [[err aw] c']. destruct H as ((E1 & E2 & E3) & E4 & E5 & E6). split_and!; [congruence|congruence|..].
  - by rewrite E1.
  - by rewrite E1.
  - done.
  - by rewrite E5.
  - destruct E6 as [E6|(E6 & E7 & E8 & fs & Hfs & E9)]; [by left|right]. exists l, fs. rewrite R3 in Hfs, E9. rewrite E7, E8, E9, E5.
    unfold written, the_conn. rewrite R4, R2, R6. split_and!; try done; congruence.
Qed.
(** * The new connection *)

Definition renewed (reset : bool) (e : exchanges) : exchanges :=
  if reset then mkExchanges false [] [] [] (mkReceiver [] []) [] else e.

Lemma renewed_step reset e : rtc estep e (renewed reset e).
Proof using Type. destruct reset; [|done]. destruct e. apply rtc_once, e_reset. Qed.

Lemma resumed_step e : rtc estep e (mkExchanges true (e_out e) (again <$> e_out e) [] (e_b e) (e_log e)).
Proof using Type. destruct e. apply rtc_once, e_resume. Qed.

Lemma omap_keeps {A B} (f : A -> option B) reset l : omap f (keeps reset l) = keeps reset (omap f l).
Proof using Type. by destruct reset. Qed.

Lemma replay_up M w e r fs c connect : matches M w e -> c_store c = c_store (w_c w) -> muted (c_version (w_c w)) connect -> Forall (muted (c_version (w_c w))) fs ->
  omap (heed (c_version (w_c w))) ([connect] ++ replay_frames (c_version (w_c w)) M (kept r c) ++ fs) = again <$> keeps (resetsSession r c) (e_out e).
Proof.
  intros Hm Es Hc Hfs. rewrite !omap_app, (omap_unheeded _ fs (muted_unheeded _ _ Hfs)), app_nil_r. cbn [omap list_omap]. rewrite (proj1 Hc). cbn [app].
  pose proof (kept_contents r c) as Hk. rewrite Es in Hk. specialize (Hk (m_store _ _ _ Hm)).
  assert (Ho : omap abs_entry (entry_of <$> kept r c) = keeps (resetsSession r c) (e_out e)).
  { rewrite Hk, omap_keeps. f_equal. symmetry. apply (m_out _ _ _ Hm). }
  rewrite <- Ho. apply replay_heard; [apply Hm|rewrite Hk; unfold keeps; destruct (resetsSession r c); [constructor|apply Hm]|].
  intros id. rewrite Ho. unfold keeps. destruct (resetsSession r c); [by intros ?%elem_of_nil|]. apply (ow_out _ _ _ (m_owned _ _ _ Hm)).
Qed.

Lemma awaits_unlinked aw : omap task_link (TAwait <$> aw) = [].
Proof using Type. induction aw as [|x aw IH]; [done|]. exact IH. Qed.

Lemma matches_established M w e c1 k now ack connect : matches M w e -> c_link (w_c w) = None -> c1 = set_conns (c_conns c1) (w_c w) ->
  cn_w (c_conns c1 !!! k) = [connect] -> muted (c_version (w_c w)) connect -> cn_r (c_conns c1 !!! k) = [] ->
  cr_MaximumPacketSize (buildConnectResult ack) = M -> in_u64 (gen (c_ids (w_c w)) + 1) ->
  let '((_, aw), c') := establish k now ack c1 in
  good (omap task_link (w_tasks w)) c' -> let reset := negb (gen (c_ids c') =? gen (c_ids (w_c w))) in
  exists e', rtc estep e e' /\ matches M (mkWorld c' (w_tasks w ++ (TAwait <$> aw)) 0
    (if reset then mkReceiver [] [] else w_b w) (if reset then [] else w_log w)) e'.
Proof.
  intros Hm Hl Ec1 Hw Hmute Hr HM Hg. assert (Hl1 : c_link c1 = None) by (by rewrite Ec1). assert (Es1 : c_store c1 = c_store (w_c w)) by (by rewrite Ec1).
  assert (Ei1 : c_ids c1 = c_ids (w_c w)) by (by rewrite Ec1). assert (Ev1 : c_version c1 = c_version (w_c w)) by (by rewrite Ec1).
  assert (Em1 : c_inboundMax c1 = c_inboundMax (w_c w)) by (by rewrite Ec1).
  pose proof (establish_session k now ack c1 (e_out e).*1 (holds <$> w_tasks w) Hl1) as H. cbn zeta in H. rewrite Es1, Ei1, Ev1, Em1, Hw, Hr, HM in H.
  specialize (H (m_store _ _ _ Hm) (m_owned _ _ _ Hm) Hg). set (r := buildConnectResult ack) in *. set (rs := resetsSession r c1) in *.
  destruct (establish k now ack c1) as [[err aw] c']. cbn zeta in H. destruct H as (E1 & E2 & E3 & E4 & E5 & E6 & E7). intros Hgood.
  assert (Ereset : negb (gen (c_ids c') =? gen (c_ids (w_c w))) = rs) by (rewrite E6; destruct rs; lia). rewrite Ereset. cbn zeta.
  set (e1 := renewed rs e). assert (Hs1 : rtc estep e e1) by apply renewed_step. assert (Hinv1 := esteps_inv _ _ Hs1 (m_inv _ _ _ Hm)).
  assert (Eo : e_out e1 = keeps rs (e_out e)) by (unfold e1; by destruct rs).
  assert (Eb : e_b e1 = (if rs then mkReceiver [] [] else w_b w)) by (unfold e1; destruct rs; [done|apply Hm]).
  assert (El : e_log e1 = (if rs then [] else w_log w)) by (unfold e1; destruct rs; [done|apply Hm]).
  assert (Elinks : omap task_link (w_tasks w ++ (TAwait <$> aw)) = omap task_link (w_tasks w)).
  { rewrite omap_app. assert (omap task_link (TAwait <$> aw) = []) as -> by apply awaits_unlinked. apply app_nil_r. }
  assert (Hbase : forall live up, live = is_some (c_link c') -> einv (mkExchanges live (e_out e1) up [] (e_b e1) (e_log e1)) ->
    (forall l, c_link c' = Some l -> on_link M c' 0 up [] l) ->
    matches M (mkWorld c' (w_tasks w ++ (TAwait <$> aw)) 0 (if rs then mkReceiver [] [] else w_b w) (if rs then [] else w_log w))
      (mkExchanges live (e_out e1) up [] (e_b e1) (e_log e1))).
  { intros live up Elive Hinv Hlink. split; cbn [w_c w_tasks w_read w_b w_log e_out e_up e_down e_live e_log e_b]; rewrite ?E1, ?E2; try apply Hm; try done.
    - by rewrite Elinks.
    - rewrite E4. unfold keeps. destruct rs; [constructor|apply Hm].
    - unfold outs. rewrite E4, omap_keeps, Eo. f_equal. apply (m_out _ _ _ Hm).
    - rewrite fmap_app, Eo. unfold keeps in *. by destruct rs. }
  destruct E7 as [E7|(l & fs & E7 & L1 & L2 & L3 & L4 & Hfs & L5)].
  - assert (Hs2 := dropped_step e1). eexists. split; [etrans; [exact Hs1|exact Hs2]|]. apply Hbase; rewrite ?E7; [done|by eapply esteps_inv|done].
  - assert (Hs2 := resumed_step e1). eexists. split; [etrans; [exact Hs1|exact Hs2]|]. apply Hbase; rewrite ?E7; [done|by eapply esteps_inv|].
    intros l' [= <-]. unfold on_link. rewrite L2, L3, L4, E1, E2, L5. split_and!; try done; [lia| |by exists []].
    rewrite drop_0, Eo. symmetry. by apply (replay_up M w).
Qed.

Lemma matches_unlinked M w e read : c_link (w_c w) = None -> matches M w e -> matches M (mkWorld (w_c w) (w_tasks w) read (w_b w) (w_log w)) e.
Proof. intros Hl [Hw Hv Hi Hs He Ho Hown Hb Hlog Hlive Hlink Hinv]. split; try done. intros l Hl'. cbn in Hl'. congruence. Qed.

(** A connect ends early, with only its socket to show for it, or it sets up the
    session after an accepted CONNACK. *)
Lemma Connect_cases d c : c_link c = None ->
  (exists err c', client_Connect d c = ((err, []), c') /\ c' = set_conns (c_conns c') c) \/
  (exists k c1 ack connect frame rest, client_Connect d c = establish k (d_now d) ack c1 /\ c1 = set_conns (c_conns c1) c /\
    muted (c_version c) connect /\ ReadFrame (d_bytes d) (c_inboundMax c) = Ok (frame, rest) /\
    DecodeConnack (c_version c) (Body frame) = Ok ack /\ cn_w (c_conns c1 !!! k) = [connect] /\ cn_r (c_conns c1 !!! k) = rest).
Proof using Type.
  intros Hl. assert (Hid : c = set_conns (c_conns c) c) by (by destruct c).
  unfold client_Connect. rewrite cmd_bind_eq. unfold gets. rewrite Hl. destruct (d_url d); [left; by eexists _, _|].
  rewrite cmd_bind_eq. destruct (validWill c); [|left; by eexists _, _]. destruct (d_dial d); [left; by eexists _, _|].
  rewrite !cmd_bind_eq. unfold upd. set (k := fresh (dom (c_conns c))). set (c0 := set_conns (<[k := _]> _) c). rewrite cmd_bind_eq.
  pose proof (handshake_settled d k c0) as [[Heq _] _]. destruct (handshake d k c0) as [[e0|ack] c1] eqn:Hhs; cbn [fst snd] in *.
  - left. eexists _, c1. split; [done|]. rewrite Heq at 1. done.
  - right. destruct (handshake_accepted d k c0 ack c1) as (connect & frame & rest & Hmute & Hr & Hdec & Hw1 & Hr1);
      [unfold c0; csimp; by rewrite lookup_total_insert_eq|done|].
    exists k, c1, ack, connect, frame, rest. split_and!; try done. by apply (Hmute connect).
Qed.

Lemma matches_connect M w e d : matches M w e -> lawful M (WConnect d) w -> forall w', wstep (WConnect d) w = Some w' ->
  exists e', rtc estep e e' /\ matches M w' e'.
Proof.
  intros Hm [Hg Hlaw] w'. cbn [wstep]. destruct (c_link (w_c w)) eqn:Hl; [done|]. cbn [is_some].
  assert (Hgood := upholds_Connect _ d _ (m_wf _ _ _ Hm)).
  destruct (Connect_cases d (w_c w) Hl) as [(err & c' & E & Ec)|(k & c1 & ack & connect & frame & rest & E & Ec & Hmute & Hr & Hdec & Hw1 & Hr1)];
    rewrite E in *; cbn [snd] in Hgood.
  - assert (gen (c_ids c') =? gen (c_ids (w_c w)) = true) as -> by (rewrite Ec; apply Z.eqb_refl). intros [= <-].
    destruct (matches_serene M w e c') as (e' & Hs & Hm'); try done; [|by rewrite Ec|].
    + split; [by rewrite Ec|left; by rewrite Ec].
    + exists e'. split; [done|]. cbn [fmap list_fmap]. rewrite app_nil_r. apply (matches_unlinked M (with_client c' w)); [by rewrite Ec|done].
  - destruct (Hlaw frame rest ack Hr) as [-> HM].
    pose proof (matches_established M w e c1 k (d_now d) ack connect Hm Hl Ec Hw1 Hmute Hr1 (HM Hdec) Hg) as He.
    destruct (establish k (d_now d) ack c1) as [[err aw] c']. specialize (He Hgood). cbn zeta in He.
    destruct (gen (c_ids c') =? gen (c_ids (w_c w))); intros [= <-]; exact He.
Qed.
End connect.
