(* ===== verification/EndToEnd.v ===== *)
(** Delivery from one end to the other: a client and a broker that follows MQTT 4.3,
    over connections that come and go, with everything else the client does
    going on. *)

From S2P Require Import Prelude GoStrings Codes Wire WireFacts Props PropsFacts PublishPackets ControlPackets.
From S2P Require Import SubscribePackets Topic SessionStore Errors IdAllocator Quota Subscriptions Lifecycle.
From S2P Require Import Client Pump Requests Connection ClientFacts SessionFacts RequestFacts LinkFacts OutboundFacts Wellformed.
From S2P Require Import Delivery World WorldFacts Ownership PublishFacts Simulation Traffic Answers Resume.
From stdpp Require Import options.

(** A client as NewTCPClient makes it: nothing connected, nothing stored. *)
Record fresh_client {St} {HS : SessionStore St} {HL : SessionStoreLaws St} (c : client St) : Prop := {
  fc_wf : wf_client c;
  fc_link : c_link c = None;
  fc_store : store_ok (c_store c);
  fc_empty : contents (c_store c) = [];
  fc_gen : 0 <= gen (c_ids c);
  fc_version : Version_Valid (c_version c) = true;
  fc_inbound : 5 <= c_inboundMax c < 4294967296
}.

Section runs.
Context {St : Type} {HS : SessionStore St} {HC : ContainsStore St} {HE : Environment St}.
Context {HL : SessionStoreLaws St} {HR : ReliableStore St} {HO : Observers St}.
Implicit Types c : client St.
Implicit Types w : world (St := St).
Set Default Proof Using "Type*".

(** * Every action *)

Lemma matches_with_task M w e t : matches M w e -> holds t = None -> (forall l, task_link t = Some l -> c_link (w_c w) = Some l) ->
  matches M (mkWorld (w_c w) (w_tasks w ++ [t]) (w_read w) (w_b w) (w_log w)) e.
Proof.
  intros [[Hw HLs] Hv Hi Hs He Ho Hown Hb Hlog Hlive Hlink Hinv] Hh Hl. split; cbn [w_c w_tasks w_read w_b w_log]; try done.
  - split; [done|]. intros l. rewrite omap_app, elem_of_app. intros [Hx|Hx]; [by apply HLs|].
    apply list_elem_of_omap in Hx as (t' & ->%list_elem_of_singleton & Ht). destruct (wc_link _ Hw l (Hl l Ht)) as (lk & Hlk & _). by exists lk.
  - rewrite fmap_app. cbn [fmap list_fmap]. rewrite Hh. by apply owned_more.
Qed.

Lemma link_good M w e l : matches M w e -> c_link (w_c w) = Some l ->
  good (l :: omap task_link (w_tasks w)) (w_c w) /\ good [l] (w_c w).
Proof.
  intros Hm Hl. destruct (m_wf _ _ _ Hm) as [Hw HLs]. destruct (wc_link _ Hw l Hl) as (lk & Hlk & _). split; [|by eapply good_link].
  split; [done|]. intros l' [->|Hl']%elem_of_cons; [by exists lk|by apply HLs].
Qed.

Lemma Subscribe_check_link filter qos opts c l options subID : Subscribe_check filter qos opts c = inr (l, options, subID) -> c_link c = Some l.
Proof using Type. unfold Subscribe_check. intros. repeat case_match; by simplify_eq. Qed.
Lemma Unsubscribe_check_link filter c l : Unsubscribe_check filter c = inr l -> c_link c = Some l.
Proof using Type. unfold Unsubscribe_check. intros. repeat case_match; by simplify_eq. Qed.

Lemma matches_step M a w w' e : matches M w e -> lawful M a w -> wstep a w = Some w' ->
  exists e', rtc estep e e' /\ matches M w' e'.
Proof.
  intros Hm Hlaw Hstep. assert (Hweak : forall l c, good (l :: omap task_link (w_tasks w)) c -> good (omap task_link (w_tasks w)) c).
  { intros l c. apply good_weaken. set_solver. }
  destruct a as [topic payload qos retain opts| | |frame|graceful| | |d|filter qos handler opts|filter|i ev|topic payload qos retain opts n graceful].
  - destruct (matches_publish M w e topic payload qos retain opts Hm Hlaw) as (w1 & e' & E & Hs & Hm'). rewrite E in Hstep. simplify_eq. by exists e'.
  - destruct (matches_serve M w w' e Hm Hstep) as (e' & ? & ? & _). by exists e'.
  - destruct (matches_read M w e Hm Hlaw w' Hstep) as (e' & ? & ? & _). by exists e'.
  - cbn [wstep] in Hstep. destruct (c_link (w_c w)) as [l|] eqn:Hl; [|done]. cbn [mbind option_bind] in Hstep. injection Hstep as <-.
    destruct Hlaw as (h & body & -> & Hmax & Hb & Ht). exists e. split; [done|].
    pose proof (matches_arrive M w e l (Benign h body) e (w_read w) Hm Hl) as H. cbn [arrival_down option_list] in H. rewrite app_nil_r in H.
    rewrite (m_b _ _ _ Hm) in H. apply H; try done; [by apply Hm|by apply (m_link _ _ _ Hm)].
  - cbn [wstep] in Hstep. destruct (c_link (w_c w)) as [l|] eqn:Hl; [|done]. cbn [mbind option_bind] in Hstep. injection Hstep as <-.
    destruct (link_good M w e l Hm Hl) as [Hg _]. apply matches_serene; [done| |apply teardown_hushed, Hg|apply teardown_same].
    apply (Hweak l), good_teardown; [apply list_elem_of_here|done].
  - cbn [wstep] in Hstep. destruct (c_link (w_c w)) as [l|] eqn:Hl; [|done]. cbn [mbind option_bind] in Hstep. injection Hstep as <-.
    destruct (link_good M w e l Hm Hl) as [Hg Hg1]. destruct (tick_serene l (w_c w) Hg1) as (_ & Hh & Hi). apply matches_serene; try done.
    apply (Hweak l), upholds_keepAlive; [apply list_elem_of_here|done].
  - injection Hstep as <-. destruct (Disconnect_hushed (w_c w) (proj1 (m_wf _ _ _ Hm))) as [Hh Hi]. apply matches_serene; try done.
    apply upholds_Disconnect, Hm.
  - by eapply matches_connect.
  - cbn [wstep] in Hstep. destruct (Subscribe_check filter qos opts (w_c w)) as [|[[l options] subID]] eqn:Hc; [done|]. injection Hstep as <-.
    exists e. split; [done|]. apply matches_with_task; [done|done|]. intros l' [= <-]. by eapply Subscribe_check_link.
  - cbn [wstep] in Hstep. destruct (Unsubscribe_check filter (w_c w)) as [|l] eqn:Hc; [done|]. injection Hstep as <-.
    exists e. split; [done|]. apply matches_with_task; [done|done|]. intros l' [= <-]. by eapply Unsubscribe_check_link.
  - cbn [wstep] in Hstep. destruct (w_tasks w !! i) as [t|] eqn:Hi; [|done]. cbn [mbind option_bind] in Hstep.
    pose proof (matches_task M w e i t ev Hm Hi) as H. destruct (task_step ev t (w_c w)) as [t' c']. injection Hstep as <-. exact H.
  - by eapply matches_torn.
Qed.

(** * Every run *)

Definition at_rest : exchanges := mkExchanges false [] [] [] (mkReceiver [] []) [].

Lemma matches_start M c : fresh_client c -> matches M (start c) at_rest.
Proof.
  intros [Hw Hl Hs He Hg Hv Hi]. split; cbn [w_c w_tasks w_read w_b w_log start at_rest e_out e_up e_down e_live e_log e_b]; try done.
  - by split; [|intros ? ?%elem_of_nil].
  - rewrite He. constructor.
  - unfold outs. by rewrite He.
  - split; try done; [apply Hw|by intros ? ?%elem_of_nil..|constructor|by intros ? ? ?%elem_of_nil].
  - by rewrite Hl.
  - intros l Hl'. congruence.
  - apply einv_init.
Qed.

Lemma matches_run M acts w w' e : matches M w e -> lawful_run M acts w -> wsteps acts w = Some w' ->
  exists e', rtc estep e e' /\ matches M w' e'.
Proof.
  revert w e. induction acts as [|a acts IH]; intros w e Hm Hlaw Hrun; cbn [wsteps lawful_run] in *; [simplify_eq; by exists e|].
  destruct Hlaw as [Ha Hrest]. destruct (wstep a w) as [w1|] eqn:Hs; [|done]. cbn [mbind option_bind] in Hrun.
  destruct (matches_step M a w w1 e Hm Ha Hs) as (e1 & H1 & Hm1). destruct (IH w1 e1 Hm1 Hrest Hrun) as (e2 & H2 & Hm2).
  exists e2. split; [by etrans|done].
Qed.

(** * What is still to be delivered *)

(** The PUBLISH packets in the store, in the order they are sent again. *)
Definition stored_publishes c : list PublishPacket :=
  omap (fun e : entry => if e.1.2 =? StoredPublish then e.2 else None) (contents (c_store c)).

(** The messages of those with QoS [q] whose identifiers are not among [taken]. *)
Definition to_deliver (q : Z) (taken : list Z) c : list PublishPacket :=
  message <$> filter (fun p => pub_QoS p = q /\ pub_PacketID p ∉ taken) (stored_publishes c).

Lemma stored_outs c : out_pubs (outs c) = canon_publish <$> stored_publishes c.
Proof using Type.
  unfold out_pubs, outs, stored_publishes. induction (contents (c_store c)) as [|[[id k] o] es IH]; [done|]. cbn [omap list_omap]. unfold abs_entry at 1. cbn [fst snd].
  destruct (k =? StoredPublish); [destruct o as [p|]; cbn; [by rewrite IH|done]|]. by destruct (k =? StoredPubrel).
Qed.

Lemma to_deliver_outs q taken c : q = 1 \/ q = 2 ->
  content <$> filter (fun p => pub_QoS p = q /\ pub_PacketID p ∉ taken) (out_pubs (outs c)) = to_deliver q taken c.
Proof using Type.
  intros Hq. rewrite stored_outs. unfold to_deliver. induction (stored_publishes c) as [|p ps IH]; [done|].
  rewrite fmap_cons, !filter_cons. assert (Hiff : (pub_QoS (canon_publish p) = q /\ pub_PacketID (canon_publish p) ∉ taken) <-> (pub_QoS p = q /\ pub_PacketID p ∉ taken)).
  { cbn [canon_publish pub_QoS pub_PacketID]. destruct (Z.gtb_spec (pub_QoS p) 0); [done|]. split; intros [? _]; lia. }
  repeat case_decide; try tauto; rewrite ?fmap_cons, IH; done.
Qed.

Lemma matches_qos2 M w e : matches M w e -> with_qos 2 (w_log w) = with_qos 2 (r_got (w_b w)) ++ to_deliver 2 (r_awaiting (w_b w)) (w_c w).
Proof using Type.
  intros Hm. rewrite <- to_deliver_outs by auto. rewrite <- (m_log _ _ _ Hm), <- (m_b _ _ _ Hm), <- (m_out _ _ _ Hm). apply (v_log2 _ (m_inv _ _ _ Hm)).
Qed.

Lemma matches_qos1 M w e : matches M w e -> with_qos 1 (w_log w) ⊆+ with_qos 1 (r_got (w_b w)) ++ to_deliver 1 [] (w_c w).
Proof using Type.
  intros Hm. rewrite <- to_deliver_outs by auto. rewrite <- (m_log _ _ _ Hm), <- (m_b _ _ _ Hm), <- (m_out _ _ _ Hm).
  etrans; [apply (v_log1 _ (m_inv _ _ _ Hm))|]. apply submseteq_app; [done|]. apply fmap_submseteq. unfold unacked.
  induction (out_pubs (e_out e)) as [|p ps IH]; [done|]. rewrite !filter_cons. assert (Hnil : pub_PacketID p ∉ []) by (by intros ?%elem_of_nil).
  repeat case_decide; try tauto; [by apply submseteq_skip|by apply submseteq_cons].
Qed.

(** * Coming to rest *)

(** The broker serves, the client reads; nothing new is asked of either. *)
Definition handling (a : waction) : Prop := a = WServe \/ a = WRead.

Lemma sum_omap_le {A B} (f : B -> nat) (g : A -> option B) n l : (forall x y, g x = Some y -> (f y <= n)%nat) -> (sum_list_with f (omap g l) <= n * length l)%nat.
Proof using Type.
  intros Hf. induction l as [|x l IH]; [cbn; lia|]. cbn [omap list_omap length]. destruct (g x) as [y|] eqn:E; cbn [sum_list_with]; [pose proof (Hf x y E)|]; lia.
Qed.

Lemma load_backlog M w e l : matches M w e -> c_link (w_c w) = Some l -> (load e <= 4 * backlog w)%nat.
Proof.
  intros Hm Hl. destruct (m_link _ _ _ Hm l Hl) as (_ & _ & _ & _ & Eu & xs & Hr & Hxs & Ed). unfold load, backlog. rewrite Hl, Hr, Eu, Ed.
  assert (H1 := sum_omap_le hops_up (heed (c_version (w_c w))) 4 (drop (w_read w) (written (w_c w) l))).
  assert (H2 := sum_omap_le hops_down arrival_down 3 xs). rewrite length_drop in H1.
  assert (H3 : (length xs <= length (concat (arrival_bytes (c_version (w_c w)) <$> xs)))%nat).
  { pose proof (m_version _ _ _ Hm) as Hv. pose proof (m_inbound _ _ _ Hm) as Hi. clear Hr H1 H2 Ed. induction Hxs as [|x xs Hx _ IH]; [done|].
    rewrite fmap_cons, concat_cons, length_app. destruct (arrival_frame _ _ _ Hv Hi Hx) as (h & body & -> & _). cbn [packet_bytes length]. lia. }
  lapply H1; [|intros x y _; unfold hops_up; repeat case_match; lia]. lapply H2; [|intros x y _; unfold hops_down; case_match; lia]. lia.
Qed.

Lemma handling_enabled a w w' : handling a -> wstep a w = Some w' -> (0 < backlog w)%nat.
Proof using Type.
  unfold backlog. intros [-> | ->]; cbn [wstep]; (destruct (c_link (w_c w)) as [l|]; [|done]); cbn [mbind option_bind].
  - destruct (written (w_c w) l !! w_read w) as [f|] eqn:Hf; [|done]. apply lookup_lt_Some in Hf. lia.
  - case_bool_decide as Hne; [done|]. destruct (cn_r (the_conn (w_c w) l)); [done|]. cbn [length]. lia.
Qed.

Lemma handling_calmer M a w w' e : matches M w e -> lawful M a w -> handling a -> wstep a w = Some w' ->
  exists e', rtc estep e e' /\ matches M w' e' /\ calmer w e w' e'.
Proof. intros Hm Hlaw [-> | ->] Hs; [by eapply matches_serve|by eapply matches_read]. Qed.

Lemma handling_bound M acts w w' e : matches M w e -> Forall handling acts -> lawful_run M acts w -> wsteps acts w = Some w' ->
  (length acts <= 6 * load e + backlog w)%nat.
Proof.
  revert w e. induction acts as [|a acts IH]; intros w e Hm Hh Hlaw Hrun; [cbn; lia|]. apply Forall_cons in Hh as [Ha Hh].
  cbn [wsteps lawful_run length] in *. destruct Hlaw as [Hla Hlaw]. destruct (wstep a w) as [w1|] eqn:Hs; [|done]. cbn [mbind option_bind] in Hrun.
  pose proof (handling_enabled a w w1 Ha Hs). destruct (handling_calmer M a w w1 e Hm Hla Ha Hs) as (e1 & _ & Hm1 & [Hnone|Hlt]).
  - destruct acts as [|b acts]; [cbn; lia|]. exfalso. apply Forall_cons in Hh as [Hb _]. cbn [wsteps] in Hrun.
    by destruct Hb as [-> | ->]; cbn [wstep] in Hrun; rewrite Hnone in Hrun.
  - specialize (IH w1 e1 Hm1 Hh Hlaw Hrun). lia.
Qed.

(** When neither has anything to handle, nothing is under way. *)
Lemma rest_empty M w e l : matches M w e -> c_link (w_c w) = Some l -> wstep WServe w = None -> wstep WRead w = None -> e_out e = [].
Proof.
  intros Hm Hl Hserve Hread. apply einv_rest; [apply Hm|rewrite (m_live _ _ _ Hm); by rewrite Hl|..];
    destruct (m_link _ _ _ Hm l Hl) as (_ & _ & _ & L4 & Eu & xs & Hr & Hxs & Ed); rewrite ?Eu, ?Ed; cbn [wstep] in *; rewrite Hl in *; cbn [mbind option_bind] in *.
  - destruct (written (w_c w) l !! w_read w) as [f|] eqn:Hf;
      [cbn [mbind option_bind] in Hserve; by destruct (hear (c_version (w_c w)) f) as [u|]; [destruct (receive u (w_b w))|]|]. apply lookup_ge_None in Hf. by rewrite drop_ge by lia.
  - case_bool_decide as Hne; [|done]. destruct Hxs as [|x xs Hx _]; [done|]. exfalso. rewrite Hr, fmap_cons, concat_cons in Hne.
    destruct (arrival_frame _ _ _ (m_version _ _ _ Hm) (m_inbound _ _ _ Hm) Hx) as (h & body & Eb & _). by rewrite Eb in Hne.
Qed.

Lemma outs_empty M w e : matches M w e -> e_out e = [] ->
  (forall id, ~ stored id StoredPublish (w_c w) /\ ~ stored id StoredPubrel (w_c w)) /\ forall q taken, to_deliver q taken (w_c w) = [].
Proof.
  intros Hm He. rewrite (m_out _ _ _ Hm) in He. pose proof (m_entries _ _ _ Hm) as Hg. rewrite Forall_forall in Hg.
  assert (Hno : forall e0 x, e0 ∈ contents (c_store (w_c w)) -> abs_entry e0 = Some x -> False).
  { intros e0 x Hin Hx. assert (Hx' : x ∈ outs (w_c w)) by (apply list_elem_of_omap; by exists e0). rewrite He in Hx'. by apply elem_of_nil in Hx'. }
  split.
  - intros id. split; unfold stored; intros ([[i k] o] & [= <- <-] & Hin)%list_elem_of_fmap.
    + destruct (proj1 (Hg _ Hin) eq_refl) as (p & Ho & _). cbn in Ho. subst o. by eapply Hno.
    + by eapply Hno.
  - intros q taken. unfold to_deliver. assert (stored_publishes (w_c w) = []) as ->; [|done].
    assert (Hc := stored_outs (w_c w)). rewrite He in Hc. symmetry in Hc. by apply fmap_nil_inv in Hc.
Qed.
End runs.

(** * Theorems *)

(** C1.  QoS 2 messages arrive exactly once and in order.  Runs are those of World:
    the client against a broker that follows MQTT 4.3, with connections that are
    lost between any two steps, in the middle of a Publish or while a handler
    runs, sessions that are resumed or renewed, failing writes, subscribe calls,
    pings, and messages of the broker in between.  Handlers do not use the client,
    and on its way to the socket a Publish is interleaved with nothing but the
    loss of its connection.  In every such run the QoS 2 messages whose PUBLISH
    was written in this session are, in order, those the broker has passed on and
    then those that are still stored at the client and that the broker does not
    have yet.  So none is lost, passed on twice, or overtaken. *)
Theorem qos2_exactly_once_in_order {St} {HS : SessionStore St} {HC : ContainsStore St} {HE : Environment St} {HL : SessionStoreLaws St}
    {HR : ReliableStore St} {HO : Observers St} (c : client St) (M : Z) (acts : list waction) (w : world (St := St)) :
  fresh_client c -> lawful_run M acts (start c) -> wsteps acts (start c) = Some w ->
  with_qos 2 (w_log w) = with_qos 2 (r_got (w_b w)) ++ to_deliver 2 (r_awaiting (w_b w)) (w_c w).
Proof.
  intros Hf Hlaw Hrun. destruct (matches_run M acts (start c) w at_rest (matches_start M c Hf) Hlaw Hrun) as (e & _ & Hm).
  exact (matches_qos2 M w e Hm).
Qed.

(** C2.  QoS 1 messages arrive at least once.  In the same runs, with the same
    limits to how a Publish is interleaved, every QoS 1 message whose PUBLISH was
    written in this session is among those the broker has passed on or those
    still stored at the client, counted with repetitions; and the broker has
    passed on nothing, QoS 0 apart, that was not published. *)
Theorem qos1_at_least_once {St} {HS : SessionStore St} {HC : ContainsStore St} {HE : Environment St} {HL : SessionStoreLaws St}
    {HR : ReliableStore St} {HO : Observers St} (c : client St) (M : Z) (acts : list waction) (w : world (St := St)) :
  fresh_client c -> lawful_run M acts (start c) -> wsteps acts (start c) = Some w ->
  with_qos 1 (w_log w) ⊆+ with_qos 1 (r_got (w_b w)) ++ to_deliver 1 [] (w_c w) /\
  forall m, m ∈ r_got (w_b w) -> pub_QoS m = 0 \/ m ∈ w_log w.
Proof.
  intros Hf Hlaw Hrun. destruct (matches_run M acts (start c) w at_rest (matches_start M c Hf) Hlaw Hrun) as (e & Hs & Hm).
  split; [exact (matches_qos1 M w e Hm)|]. rewrite <- (m_b _ _ _ Hm), <- (m_log _ _ _ Hm).
  apply (esteps_genuine _ _ Hs einv_init). split; [by intros ? ? ?%elem_of_nil|by intros ? ?%elem_of_nil].
Qed.

(** On a connection that holds, everything is delivered.  From any state of
    such a run, the broker serving and the client reading what is under way, in
    any order, comes to an end: there are at most 25 such steps for each frame
    and byte under way.  When neither has anything left to handle and the
    connection still stands, no PUBLISH and no PUBREL is stored any more, the
    broker has passed on exactly the QoS 2 messages sent, in order, and every
    QoS 1 message. *)
Theorem exchanges_settle {St} {HS : SessionStore St} {HC : ContainsStore St} {HE : Environment St} {HL : SessionStoreLaws St}
    {HR : ReliableStore St} {HO : Observers St} (c : client St) (M : Z) (before after : list waction) (w w' : world (St := St)) (l l' : nat) :
  fresh_client c -> lawful_run M before (start c) -> wsteps before (start c) = Some w -> c_link (w_c w) = Some l ->
  Forall handling after -> lawful_run M after w -> wsteps after w = Some w' ->
  (length after <= 25 * backlog w)%nat /\
  (c_link (w_c w') = Some l' -> wstep WServe w' = None -> wstep WRead w' = None ->
    (forall id, ~ stored id StoredPublish (w_c w') /\ ~ stored id StoredPubrel (w_c w')) /\
    with_qos 2 (w_log w') = with_qos 2 (r_got (w_b w')) /\ with_qos 1 (w_log w') ⊆+ with_qos 1 (r_got (w_b w'))).
Proof.
  intros Hf Hlaw Hrun Hl Hh Hlaw' Hrun'. destruct (matches_run M before (start c) w at_rest (matches_start M c Hf) Hlaw Hrun) as (e & _ & Hm).
  split; [pose proof (handling_bound M after w w' e Hm Hh Hlaw' Hrun'); pose proof (load_backlog M w e l Hm Hl); lia|].
  intros Hl' Hserve Hread. destruct (matches_run M after w w' e Hm Hlaw' Hrun') as (e' & _ & Hm').
  destruct (outs_empty M w' e' Hm' (rest_empty M w' e' l' Hm' Hl' Hserve Hread)) as [Hs Hd]. split; [done|].
  pose proof (matches_qos2 M w' e' Hm') as H2. pose proof (matches_qos1 M w' e' Hm') as H1. rewrite Hd, app_nil_r in H1, H2. done.
Qed.

(** ** A run with a lost connection *)

(** [lawful], decided for the store of the client. *)
Definition lawfulb (M : Z) (a : waction) (w : world (St := memStore)) : bool :=
  let c := w_c w in
  match a with
  | WPublish _ _ qos _ opts | WTorn _ _ qos _ opts _ _ => bool_decide (in_u8 qos /\ in_u64 (seq (c_store c) + 1)) &&
      match po_messageExpiry (fold_left (fun o opt => opt o) opts noPublishOptions) with Some x => bool_decide (in_u32 x) | None => true end
  | WRead => bool_decide (in_u64 (seq (c_store c) + 1))
  | WInject frame =>
      match ReadFrame frame (c_inboundMax c) with
      | Ok (f, _) => bool_decide (frame = packet_bytes (Header f) (Body f)) && bool_decide (len frame <= c_inboundMax c) &&
          bool_decide (len (Body f) <= maxVarint) && bool_decide (Z.shiftr (Header f) 4 ∉ [Puback; Pubrec; Pubcomp])
      | Err _ => false
      end
  | WConnect d => bool_decide (in_u64 (gen (c_ids c) + 1)) &&
      match ReadFrame (d_bytes d) (c_inboundMax c) with
      | Ok (frame, rest) => bool_decide (rest = []) &&
          match DecodeConnack (c_version c) (Body frame) with Ok ack => cr_MaximumPacketSize (buildConnectResult ack) =? M | Err _ => true end
      | Err _ => true
      end
  | _ => true
  end.

Fixpoint lawful_runb (M : Z) (acts : list waction) (w : world (St := memStore)) : bool :=
  match acts with
  | [] => true
  | a :: acts => lawfulb M a w && match wstep a w with Some w' => lawful_runb M acts w' | None => true end
  end.

Lemma lawfulb_spec M a w : lawfulb M a w = true -> lawful M a w.
Proof.
  assert (Hpub : forall qos opts, lawfulb M (WPublish [] [] qos false opts) w = true -> lawful M (WPublish [] [] qos false opts) w).
  { intros qos opts [[H1 H2]%bool_decide_eq_true He]%andb_true_iff. split_and!; [done| |done]. intros x Hx. rewrite Hx in He. by apply bool_decide_eq_true in He. }
  destruct a; cbn [lawfulb lawful]; try done.
  - by apply Hpub.
  - by intros ?%bool_decide_eq_true.
  - destruct (ReadFrame _ _) as [[f rest]|]; [|done]. rewrite !andb_true_iff, !bool_decide_eq_true. intros [[[H1 H2] H3] H4]. by exists (Header f), (Body f).
  - intros [Hg Hr]%andb_true_iff. apply bool_decide_eq_true in Hg. split; [done|]. intros frame rest ack E. rewrite E in Hr.
    apply andb_true_iff in Hr as [->%bool_decide_eq_true Hm]. split; [done|]. intros Ed. rewrite Ed in Hm. by apply Z.eqb_eq in Hm.
  - by apply Hpub.
Qed.

Lemma lawful_runb_spec M acts w : lawful_runb M acts w = true -> lawful_run M acts w.
Proof.
  revert w. induction acts as [|a acts IH]; intros w; cbn [lawful_runb lawful_run]; [done|]. intros [Ha Hr]%andb_true_iff.
  split; [by apply lawfulb_spec|]. destruct (wstep a w); [by apply IH|done].
Qed.

Lemma fresh_demo : fresh_client (NewTCPClient demo_cfg).
Proof. split; [apply wf_NewTCPClient|done|apply wf_newMemStore|done|done|done|done]. Qed.

#[export] Instance quiet_observers : Observers memStore.
Proof. intros h m c. by left. Qed.

(** A QoS 1 message from the broker. *)
Definition inbound_publish : list Z := [0x32; 7; 0; 1; 116; 0; 7; 0; 9].

(** Two messages, with one from the broker in between; the connection drops when
    the broker has the first one, in the middle of a third Publish; the session
    is resumed and the two are sent again. *)
Definition trip : list waction :=
  [WConnect (demo_dial demo_connack); WPublish (gostr "t") [1] 2 false []; WPublish (gostr "t") [2] 1 false [];
   WInject inbound_publish; WRead; WServe; WServe; WTorn (gostr "t") [3] 2 false [] 4 false;
   WConnect (demo_dial demo_connack); WServe; WServe].
Definition home : list waction := [WServe; WRead; WServe; WRead; WRead].

Definition run_of (acts : list waction) (w : world (St := memStore)) : world (St := memStore) := default w (wsteps acts w).
Definition tripped : world (St := memStore) := run_of trip (start (NewTCPClient demo_cfg)).
Definition arrived : world (St := memStore) := run_of home tripped.

Lemma trip_runs : lawful_run 0 trip (start (NewTCPClient demo_cfg)) /\ wsteps trip (start (NewTCPClient demo_cfg)) = Some tripped.
Proof. split; [apply lawful_runb_spec|]; vm_compute; reflexivity. Qed.

Lemma home_runs : lawful_run 0 home tripped /\ wsteps home tripped = Some arrived.
Proof. split; [apply lawful_runb_spec|]; vm_compute; reflexivity. Qed.

(** The broker got the QoS 2 message on both connections and passed it on once. *)
Lemma qos2_exactly_once_in_order_witness :
  pub_Payload <$> with_qos 2 (w_log tripped) = [[1]] /\ pub_Payload <$> with_qos 2 (r_got (w_b tripped)) = [[1]] /\
  with_qos 2 (w_log tripped) = with_qos 2 (r_got (w_b tripped)) ++ to_deliver 2 (r_awaiting (w_b tripped)) (w_c tripped).
Proof.
  split; [vm_compute; reflexivity|]. split; [vm_compute; reflexivity|].
  exact (qos2_exactly_once_in_order (NewTCPClient demo_cfg) 0 trip tripped fresh_demo (proj1 trip_runs) (proj2 trip_runs)).
Defined.

(** The QoS 1 message is still stored. *)
Lemma qos1_at_least_once_witness :
  pub_Payload <$> with_qos 1 (w_log tripped) = [[2]] /\ with_qos 1 (r_got (w_b tripped)) = [] /\
  with_qos 1 (w_log tripped) ⊆+ to_deliver 1 [] (w_c tripped).
Proof.
  split; [vm_compute; reflexivity|]. split; [vm_compute; reflexivity|].
  exact (proj1 (qos1_at_least_once (NewTCPClient demo_cfg) 0 trip tripped fresh_demo (proj1 trip_runs) (proj2 trip_runs))).
Defined.

Lemma exchanges_settle_witness :
  pub_Payload <$> r_got (w_b arrived) = [[1]; [2]] /\ (5 <= 25 * backlog tripped)%nat /\
  (forall id, ~ stored id StoredPublish (w_c arrived) /\ ~ stored id StoredPubrel (w_c arrived)).
Proof.
  split; [vm_compute; reflexivity|].
  destruct (exchanges_settle (NewTCPClient demo_cfg) 0 trip home tripped arrived 1 1 fresh_demo (proj1 trip_runs) (proj2 trip_runs)) as [H1 H2].
  - vm_compute; reflexivity.
  - apply Forall_forall. intros a Ha. unfold handling. unfold home in Ha. rewrite !elem_of_cons, elem_of_nil in Ha. tauto.
  - exact (proj1 home_runs).
  - exact (proj2 home_runs).
  - split; [exact H1|]. apply H2; vm_compute; reflexivity.
Defined.
