(* ===== verification/Duplex.v ===== *)
(** The broker as a sender of messages, next to everything World has.

    The broker keeps a session of its own: an entry per message it has sent to
    the client and that is not fully acknowledged.  It reads the client's
    acknowledgements, answers a PUBREC with a PUBREL, and sends its entries
    again when a session is resumed. *)

From S2P Require Import Prelude GoStrings Codes Wire WireFacts Props PropsFacts PublishPackets ControlPackets.
From S2P Require Import SubscribePackets Topic SessionStore Errors IdAllocator Quota Subscriptions Lifecycle.
From S2P Require Import Client Pump Requests Connection ClientFacts InboundFacts SessionFacts Delivery World WorldFacts.
From stdpp Require Import options.

(** * What the client is told *)

(** The packet of a frame that concerns the broker's messages, as the client
    decodes it. *)
Definition taken (v : Z) (frame : Frame) : option upward :=
  match Frame_ValidateFlags frame with
  | Err _ => None
  | Ok _ =>
    if Frame_PacketType frame =? Publish then
      match DecodePublish v (Header frame) (Body frame) with Ok p => Some (UPub p) | Err _ => None end
    else if Frame_PacketType frame =? Pubrel then
      match DecodeAck v Pubrel (Body frame) with Ok a => Some (URel (ack_PacketID a)) | Err _ => None end
    else None
  end.

Definition plain (u : upward) : upward := match u with UPub p => UPub (undup p) | URel id => URel id end.

(** What the receiver of MQTT 4.3 passes on. *)
Definition passes (u : upward) (b : receiver) : list PublishPacket :=
  match u with
  | UPub p => if bool_decide (pub_QoS p = 2 /\ pub_PacketID p ∈ r_awaiting b) then [] else [p]
  | URel _ => []
  end.

(** A message that was passed to the handlers: the subscriptions of that moment,
    the packet, and whether the client has taken it over for good.  It has not
    when the connection was lost while the handlers of a QoS 2 message ran: then
    the client neither keeps its identifier nor acknowledges it, and the broker
    sends the message again. *)
Record sighting : Type := mkSighting { sg_table : subTable; sg_packet : PublishPacket; sg_settled : bool }.

(** The handler calls it stands for. *)
Definition handled (s : sighting) : list (Z * Message) := routed (sg_table s) (toMessage (sg_packet s)).

(** The messages taken over, without identifier and DUP flag. *)
Definition arrivals (l : list sighting) : list PublishPacket :=
  (fun s => content (sg_packet s)) <$> filter (fun s => sg_settled s = true) l.

(** The bytes that send an entry again. *)
Definition resend (v : Z) (x : Z * outgoing) : list Z :=
  match x.2 with
  | OPub p => match PublishPacket_Encode (with_Dup p) [] with Ok f => f | Err _ => [] end
  | ORel => reply v (Pubrel, x.1, Success)
  end.

Section duplex.
Context {St : Type} {HS : SessionStore St} {HC : ContainsStore St} {HE : Environment St}.
Implicit Types c : client St.
Implicit Types w : world (St := St).

(** * Both directions *)

(** Client and broker, the broker's unfinished exchanges and the messages it has
    sent in this session; and as a reference, the receiver of MQTT 4.3 that is
    given every packet the client reads, the handler calls of earlier sessions,
    and the messages passed on in this one. *)
Record duplex : Type := mkDuplex {
  x_w : world (St := St);
  x_out : list (Z * outgoing);
  x_log : list PublishPacket;
  x_b : receiver;
  x_earlier : list (Z * Message);
  x_seen : list sighting
}.
Implicit Types x : duplex.

Definition x_c x : client St := w_c (x_w x).
Definition in_world w x : duplex := mkDuplex w (x_out x) (x_log x) (x_b x) (x_earlier x) (x_seen x).
(** All handler calls there have been, in order. *)
Definition all_calls x : list (Z * Message) := x_earlier x ++ (x_seen x ≫= handled).
Definition arriving (l : nat) (bytes : list Z) w : world := with_client (arrive l bytes (w_c w)) w.

Inductive daction : Type :=
| DSend (p : PublishPacket)
| DAct (a : waction).

(** The broker reads an acknowledgement. *)
Definition on_serve w' x : duplex :=
  let c := x_c x in
  match c_link c with
  | None => in_world w' x
  | Some l =>
    match written c l !! w_read (x_w x) ≫= overhear (c_version c) with
    | None => in_world w' x
    | Some (t, id) =>
      if t =? Pubrec then
        mkDuplex (arriving l (reply (c_version c) (Pubrel, id, Success)) w') (drop_out id (x_out x) ++ [(id, ORel)])
          (x_log x) (x_b x) (x_earlier x) (x_seen x)
      else mkDuplex w' (drop_out id (x_out x)) (x_log x) (x_b x) (x_earlier x) (x_seen x)
    end
  end.

(** The connection is lost while the handlers of a QoS 2 message run. *)
Definition interrupted (l : nat) (ps : list PublishPacket) c : bool :=
  match ps with
  | [] => false
  | p :: _ => (pub_QoS p =? 2) && isStopping l (client_dispatch (toMessage p) c)
  end.

(** The client reads a frame, and the reference receiver with it. *)
Definition on_read w' x : duplex :=
  let c := x_c x in
  match c_link c with
  | None => in_world w' x
  | Some l =>
    match ReadFrame (cn_r (the_conn c l)) (l_inboundMax (the_link c l)) with
    | Err _ => in_world w' x
    | Ok (frame, rest) =>
      match taken (c_version c) frame with
      | None => in_world w' x
      | Some u =>
        let ps := passes u (x_b x) in
        let cut := interrupted l ps (taken_from l rest c) in
        mkDuplex w' (x_out x) (x_log x) (if cut then x_b x else (receive (plain u) (x_b x)).1)
          (x_earlier x) (x_seen x ++ ((fun p => mkSighting (c_table c) p (negb cut)) <$> ps))
      end
    end
  end.

(** A session is resumed, or both sides start anew. *)
Definition on_connect w' x : duplex :=
  if gen (c_ids (w_c w')) =? gen (c_ids (x_c x)) then
    match c_link (w_c w') with
    | None => in_world w' x
    | Some l => in_world (arriving l (concat (resend (c_version (x_c x)) <$> x_out x)) w') x
    end
  else mkDuplex w' [] [] (mkReceiver [] []) (all_calls x) [].

Definition dstep (a : daction) x : option duplex :=
  match a with
  | DSend p =>
    l ← c_link (x_c x);
    match PublishPacket_Encode p [] with
    | Err _ => None
    | Ok f => Some (mkDuplex (arriving l f (x_w x)) (x_out x ++ [(pub_PacketID p, OPub p)]) (x_log x ++ [content p]) (x_b x) (x_earlier x) (x_seen x))
    end
  | DAct a =>
    w' ← wstep a (x_w x);
    Some (match a with
          | WServe => on_serve w' x
          | WRead => on_read w' x
          | WConnect _ => on_connect w' x
          | _ => in_world w' x
          end)
  end.

Fixpoint dsteps (acts : list daction) x : option duplex :=
  match acts with [] => Some x | a :: acts => dstep a x ≫= dsteps acts end.

Definition dstart c : duplex := mkDuplex (start c) [] [] (mkReceiver [] []) (c_calls c) [].

(** * What is assumed of a run

    A message has QoS 1 or 2, the form in which the client reads it, no topic
    alias, and a size the client accepts; its identifier is not in use.  What
    the broker sends besides is no part of an exchange, and QoS 0 messages have
    no topic alias either. *)

Context {HL : SessionStoreLaws St}.

Definition deliverable (v max : Z) (p : PublishPacket) : Prop :=
  pub_Version p = v /\ pub_Dup p = false /\ wf_publish p /\ publishable p /\ (pub_QoS p = 1 \/ pub_QoS p = 2) /\
  no_alias (pub_Properties p) = true /\ canon_publish p = p /\ exists f, PublishPacket_Encode p [] = Ok f /\ len f <= max.

Definition dlawful (M : Z) (a : daction) x : Prop :=
  let c := x_c x in
  match a with
  | DSend p => deliverable (c_version c) (c_inboundMax c) p /\ pub_PacketID p ∉ (x_out x).*1
  | DAct a => lawful M a (x_w x) /\
    match a with
    | WInject frame => heed (c_version c) frame = None /\
        forall h body p, frame = packet_bytes h body -> Z.shiftr h 4 = Publish -> DecodePublish (c_version c) h body = Ok p ->
          no_alias (pub_Properties p) = true
    | _ => True
    end
  end.

Fixpoint dlawful_run (M : Z) (acts : list daction) x : Prop :=
  match acts with
  | [] => True
  | a :: acts => dlawful M a x /\ match dstep a x with Some x' => dlawful_run M acts x' | None => True end
  end.
End duplex.
