(* ===== verification/Receiving.v ===== *)
(** The client as a receiver: what it does with the packets of the broker's
    messages, and what leaves that part of it alone. *)

From S2P Require Import Prelude GoStrings Codes Wire WireFacts Props PropsFacts PublishPackets ControlPackets.
From S2P Require Import SubscribePackets Topic SessionStore Errors IdAllocator Quota Subscriptions Lifecycle.
From S2P Require Import Client Pump Requests Connection ClientFacts InboundFacts SessionFacts RequestFacts LinkFacts OutboundFacts Wellformed.
From S2P Require Import Delivery World WorldFacts PublishFacts Simulation Traffic Answers Resume EndToEnd Duplex.
From stdpp Require Import options.

Lemma parser_bind_Ok {A B} (m : parser A) (f : A -> parser B) k r : (m ≫= f) k = Ok r -> exists a k', m k = Ok (a, k') /\ f a k' = Ok r.
Proof. unfold mbind, parser_bind. destruct (m k) as [[a k']|]; [|done]. eauto. Qed.

Lemma DecodePublish_qos v h body p : DecodePublish v h body = Ok p -> 0 <= pub_QoS p <= 2.
Proof.
  unfold DecodePublish. set (qos := Z.land (Z.shiftr _ 1) 3). assert (Hq : 0 <= qos < 4).
  { unfold qos. change 3 with (Z.ones 2). rewrite Z.land_ones by lia. apply Z.mod_pos_bound. lia. }
  destruct (Z.eqb_spec qos 3); [done|]. destruct (_ && _); [done|]. unfold run.
  match goal with |- context [match ?m with Ok _ => _ | Err _ => _ end = Ok p] => destruct m as [[r k]|] eqn:E; [|done] end. intros [= ->].
  apply parser_bind_Ok in E as (topic & k1 & _ & E). destruct (ContainsAny _ _); [done|]. apply parser_bind_Ok in E as (id & k2 & _ & E).
  apply parser_bind_Ok in E as (props & k3 & _ & E). destruct (_ && _); [done|]. apply parser_bind_Ok in E as (payload & k4 & _ & E).
  injection E as <- _. cbn. lia.
Qed.

(** * Operations that call no handler *)

Section silence.
Context {St : Type} {HS : SessionStore St} {HC : ContainsStore St} {HE : Environment St}.
Implicit Types c : client St.

Definition silent {A} (m : cmd St A) : Prop := forall c, c_calls (m c).2 = c_calls c.

Lemma silent_ret {A} (a : A) : silent (mret a).
Proof. done. Qed.
Lemma silent_gets {A} (f : client St -> A) : silent (gets f).
Proof. done. Qed.
Lemma silent_upd f : (forall c, c_calls (f c) = c_calls c) -> silent (upd f).
Proof. intros Hf c. apply Hf. Qed.
Lemma silent_bind {A B} (m : cmd St A) (f : A -> cmd St B) : silent m -> (forall a, silent (f a)) -> silent (m ≫= f).
Proof. intros Hm Hf c. rewrite cmd_bind_eq. specialize (Hm c). destruct (m c) as [a c1]. cbn [snd] in Hm. by rewrite Hf. Qed.
Lemma silent_writeFrame l encode : silent (writeFrame l encode).
Proof. intros c. apply writeFrame_same. Qed.
Lemma silent_teardown l g c : c_calls (teardownLink l g c) = c_calls c.
Proof. apply teardown_same. Qed.
Lemma silent_remove id ch c : c_calls (removeWaiter id ch c) = c_calls c.
Proof. unfold removeWaiter. by repeat case_match. Qed.
Lemma silent_signal id got r : silent (signalWaiter (St := St) id got r).
Proof. intros c. unfold signalWaiter. by repeat case_match. Qed.
Lemma silent_register id want : silent (registerWaiter (St := St) id want).
Proof. done. Qed.
End silence.

Create HintDb silence.
#[export] Hint Resolve silent_ret silent_gets silent_writeFrame silent_teardown silent_remove silent_signal silent_register : silence.

Ltac silencing_step :=
  lazymatch goal with
  | |- silent (_ ≫= _) => apply silent_bind; [|intros ?]
  | |- silent (match ?x with _ => _ end) => destruct x
  | |- silent (upd _) => apply silent_upd; intros ?
  | |- silent skip => apply silent_ret
  | |- _ => solve [eauto with silence | done]
  end.
Ltac silencing := repeat silencing_step.

Section silent_operations.
Context {St : Type} {HS : SessionStore St} {HC : ContainsStore St} {HE : Environment St}.
Implicit Types c : client St.
#[local] Strategy opaque [idAllocator_Acquire].

Lemma silent_tick l : silent (keepAliveLoop_tick (St := St) l).
Proof. unfold keepAliveLoop_tick. silencing. Qed.

Lemma silent_Disconnect : silent (client_Disconnect (St := St)).
Proof. unfold client_Disconnect. silencing. Qed.

Lemma silent_req l packet want mk ev pc : silent (req_step (St := St) l packet want mk ev pc).
Proof.
  intros c. destruct pc as [|id g|id g ch|id g ch|id g ch err|id g out|out]; cbn [req_step]; try done; try apply silent_remove.
  - by destruct (idAllocator_Acquire (c_ids c)) as [[id g|g] a].
  - pose proof (silent_writeFrame (Some l) (mk id) c) as H. by destruct (writeFrame _ _ c) as [[e|] c1].
  - by destruct ev; try done; destruct (c_chans c !! ch).
Qed.

Lemma silent_task ev t : silent (task_step (St := St) ev t).
Proof.
  intros c. destruct t as [l filter options subID h pc|l filter pc|pc]; cbn [task_step].
  - assert (H : c_calls (subscribe_step l filter options subID h ev pc c).2 = c_calls c); [|by destruct (subscribe_step _ _ _ _ _ _ _ c)].
    unfold subscribe_step. destruct pc as [|prev|prev token pc|prev token err|out]; try done.
    pose proof (silent_req l "SUBSCRIBE" ackClassSuback (fun id => SubscribePacket_Encode (subscribePacket (c_version c) filter options subID id)) ev pc c) as H.
    destruct pc as [| | | | | |[err|r]]; try done; by destruct (req_step _ _ _ _ _ _ c).
  - assert (H : c_calls (unsubscribe_step l filter ev pc c).2 = c_calls c); [|by destruct (unsubscribe_step _ _ _ _ c)].
    unfold unsubscribe_step. destruct pc as [|snap pc|e]; try done.
    pose proof (silent_req l "UNSUBSCRIBE" ackClassUnsuback (fun id => UnsubscribePacket_Encode (mkUnsubscribe (c_version c) id [filter] None)) ev pc c) as H.
    destruct snap, pc as [| | | | | |[err|r]]; try done; by destruct (req_step _ _ _ _ _ _ c).
  - assert (H : c_calls (awaitResubscribe_step ev pc c).2 = c_calls c); [|by destruct (awaitResubscribe_step _ _ c)].
    destruct pc as [id g ch|id g ch|id g|]; cbn [awaitResubscribe_step]; try (by repeat case_match). apply silent_remove.
Qed.

Lemma silent_publish l pkt ev pc : silent (pub_step (St := St) l pkt ev pc).
Proof.
  intros c. destruct pc as [|w|qg|qg id ig|qg id ig|qg id ig ch|qg id ig ch err|qg id ig err|qg id ig err|qg id ig err|qg err|id ch|id ch err|err];
    cbn [pub_step]; try (by repeat case_match); try apply silent_remove.
  - done.
  - pose proof (silent_writeFrame (Some l) (PublishPacket_Encode (with_PacketID id pkt)) c) as H. by destruct (writeFrame _ _ c) as [[e|] c1].
Qed.

Lemma silent_turns l pkt evs pc c : c_calls (fold_left (fun '(pc, c) ev => pub_step (St := St) l pkt ev pc c) evs (pc, c)).2 = c_calls c.
Proof.
  revert pc c. induction evs as [|ev evs IH]; intros pc c; [done|]. cbn [fold_left].
  pose proof (silent_publish l pkt ev pc c) as H. destruct (pub_step l pkt ev pc c) as [pc1 c1]. cbn [snd] in H. by rewrite IH.
Qed.

Lemma silent_publishAcked l pkt evs : silent (publishAcked (St := St) l pkt evs).
Proof. intros c. apply silent_turns. Qed.

Lemma silent_torn topic payload qos retain opts n g c l pkt pc c' :
  torn_call topic payload qos retain opts n g c = Some (l, pkt, (pc, c')) -> c_calls c' = c_calls c.
Proof.
  unfold torn_call. destruct (Publish_check _ _ _ _ _ _) as [|[l0 pkt0]]; [done|]. destruct (qos =? 0); [|destruct (n <? 5)%nat; [|done]].
  - pose proof (silent_writeFrame (Some l0) (PublishPacket_Encode pkt0) (teardownLink l0 g c)) as H. destruct (writeFrame _ _ _) as [err c1]. intros [= <- <- <- <-].
    cbn [snd] in H. by rewrite H, silent_teardown.
  - intros [= <- <- Ht]. unfold torn_publish in Ht. pose proof (silent_publishAcked l0 pkt0 (replicate n Run) c) as H.
    destruct (publishAcked _ _ _ _) as [pc1 c1]. pose proof (silent_turns l0 pkt0 publish_turns pc1 (teardownLink l0 g c1)) as H2. rewrite Ht in H2. cbn [snd] in *.
    by rewrite H2, silent_teardown, H.
Qed.

Lemma silent_Connect d : silent (client_Connect (St := St) d).
Proof.
  assert (Hw : forall k frame, silent (conn_write (St := St) k frame)) by (intros k frame c; unfold conn_write; by destruct (negb _ && _)).
  assert (Hr : forall l, silent (replaySession (St := St) l)).
  { intros l. unfold replaySession. apply silent_bind; [apply silent_gets|]. intros [msgs|]; [|apply silent_ret].
    induction msgs as [|m msgs IH]; cbn [replaySession_loop]; [apply silent_ret|]. silencing. }
  assert (Hs : forall l, silent (replaySubscriptions (St := St) l)).
  { intros l. unfold replaySubscriptions. apply silent_bind; [apply silent_gets|]. intros subs.
    induction subs as [|s subs IH]; cbn [replaySubscriptions_loop]; [apply silent_ret|].
    apply silent_bind; [intros c; by destruct (idAllocator_Acquire (c_ids c))|]. intros [id g|g]; [|done]. silencing. }
  assert (Ha : forall r c, c_calls (applySession r c) = c_calls c) by (intros r c; unfold applySession; by destruct (resetsSession r c)).
  unfold client_Connect, handshake, refuseConnack, establish.
  repeat first [apply Hw | apply Hr | apply Hs | apply Ha | silencing_step].
Qed.

Lemma silent_protocolError l rc : silent (protocolError (St := St) l rc).
Proof. intros c. apply protocolError_same. Qed.
End silent_operations.

(** * Steps that leave the receiver alone *)

Section receiving.
Context {St : Type} {HS : SessionStore St} {HC : ContainsStore St} {HE : Environment St}.
Context {HL : SessionStoreLaws St} {HR : ReliableStore St} {HO : Observers St}.
Implicit Types c : client St.
Set Default Proof Using "Type*".

(** No handler was called, no identifier came or went, and no acknowledgement of a
    message was sent, unless the connection is down. *)
Record spared c c' : Prop := {
  sp_stored id : stored id StoredInboundID c' <-> stored id StoredInboundID c;
  sp_version : c_version c' = c_version c;
  sp_inbound : c_inboundMax c' = c_inboundMax c;
  sp_calls : c_calls c' = c_calls c;
  sp_link : c_link c' = None \/ exists fs, steady fs c c' /\ omap (overhear (c_version c)) fs = []
}.

#[export] Instance spared_trans : Transitive spared.
Proof.
  intros c c1 c2 [S1 V1 I1 C1 L1] [S2 V2 I2 C2 L2]. split; try congruence; [intros id; by rewrite S2|].
  destruct L2 as [L2|(fs2 & H2 & O2)]; [by left|]. destruct L1 as [L1|(fs1 & H1 & O1)]; [left; by rewrite (proj1 H2)|right].
  exists (fs1 ++ fs2). split; [by eapply steady_trans|]. rewrite V1 in O2. by rewrite omap_app, O1, O2.
Qed.

Lemma spared_hushed c c' : hushed c c' -> c_calls c' = c_calls c -> spared c c'.
Proof.
  intros [(Es & Ev & Ei) Hl] Ec. split; try done; [intros id; unfold stored; by rewrite Es|].
  destruct Hl as [|(fs & Hst & Hm)]; [by left|right]. exists fs. split; [done|by apply omap_unacknowledged].
Qed.

Lemma spared_steady c c' : (forall id, stored id StoredInboundID c' <-> stored id StoredInboundID c) ->
  c_version c' = c_version c -> c_inboundMax c' = c_inboundMax c -> c_calls c' = c_calls c -> c_link c' = None \/ steady [] c c' -> spared c c'.
Proof. intros Hs Ev Ei Ec Hl. split; try done. destruct Hl as [|Hl]; [by left|right]. by exists []. Qed.

(** The same of a step on the link [l]. *)
Definition aside (l : nat) c c' : Prop := good [l] c' /\ store_ok (c_store c') /\ spared c c'.

Lemma aside_refl l c : good [l] c -> store_ok (c_store c) -> aside l c c.
Proof. intros Hg Hok. split_and!; [done..|]. apply spared_steady; try done. right. by apply steady_fields. Qed.

Lemma aside_serene l c c1 c2 : aside l c c1 -> serene l c1 c2 -> c_calls c2 = c_calls c1 -> aside l c c2.
Proof.
  intros (Hg & Hok & Hs) (Hg2 & Hh & _) Ec. assert (Es : c_store c2 = c_store c1) by apply Hh.
  split_and!; [done|by rewrite Es|]. etrans; [exact Hs|]. by apply spared_hushed.
Qed.

Lemma aside_protocolError l rc c c1 : aside l c c1 -> aside l c (protocolError l rc c1).2.
Proof.
  intros Ha. eapply aside_serene; [exact Ha| |apply silent_protocolError]. apply serene_protocolError, serene_refl, Ha.
Qed.

Lemma aside_signal l id got r c c1 : aside l c c1 -> aside l c (signalWaiter id got r c1).2.
Proof. intros Ha. eapply aside_serene; [exact Ha| |apply silent_signal]. apply serene_signal, serene_refl, Ha. Qed.

Lemma aside_teardown l g c c1 : aside l c c1 -> aside l c (teardownLink l g c1).
Proof. intros Ha. eapply aside_serene; [exact Ha| |apply silent_teardown]. apply serene_teardown, serene_refl, Ha. Qed.

(** Other fields and other entries of the store. *)
Lemma aside_fields l c c1 c2 : aside l c c1 -> good [l] c2 -> store_ok (c_store c2) ->
  (forall id, stored id StoredInboundID c2 <-> stored id StoredInboundID c1) -> c_version c2 = c_version c1 ->
  c_inboundMax c2 = c_inboundMax c1 -> c_calls c2 = c_calls c1 -> steady [] c1 c2 -> aside l c c2.
Proof. intros (_ & _ & Hs) Hg Hok Hst Ev Ei Ec Hl. split_and!; [done..|]. etrans; [exact Hs|]. apply spared_steady; auto. Qed.

Lemma aside_delete l id kind c c1 : kind <> StoredInboundID -> aside l c c1 -> aside l c (store_Delete id kind c1).
Proof.
  intros Hk Ha. destruct Ha as (Hg & Hok & Hs). apply (aside_fields l c c1); try done; [by eapply good_fields; [..|exact Hg]|by apply store_Delete_spec| |by apply steady_fields].
  intros i. rewrite stored_Delete by done. split; [tauto|]. intros Hi. split; [naive_solver|done].
Qed.

Lemma aside_save l m c c1 : sm_Kind m <> StoredInboundID -> store_room (c_store c1) -> aside l c c1 -> aside l c (store_Save m c1).
Proof.
  intros Hk Hroom (Hg & Hok & Hs). apply (aside_fields l c c1); try done; [by eapply good_fields; [..|exact Hg]|by apply store_Save_spec| |by apply steady_fields].
  intros i. rewrite stored_Save by done. split; [|by right]. intros [[= _ E]|Hi]; [|done]. by rewrite <- E in Hk.
Qed.

Lemma aside_release l id g qg c c1 : aside l c c1 -> aside l c (quota_releaseAt' qg (ids_ReleaseAt id g c1)).
Proof.
  intros Ha. destruct Ha as (Hg & Hok & Hs). apply (aside_fields l c c1); try done; [|by apply steady_fields].
  eapply good_fields; [..|apply (good_ids [l] c1 (idAllocator_ReleaseAt id g (c_ids c1)))]; try done. by apply wf_release, Hg.
Qed.

Lemma aside_write l encode c c1 : sized encode -> (forall f, encode [] = Ok f -> overhear (c_version c1) f = None) -> aside l c c1 ->
  aside l c (writeFrame (Some l) encode c1).2.
Proof.
  intros Hsz Hm (Hg & Hok & Hs). assert (Hin : l ∈ [l]) by apply list_elem_of_here. pose proof (writeFrame_same (Some l) encode c1) as Hss.
  split_and!; [by apply upholds_writeFrame|by rewrite (ss_store _ _ Hss)|]. etrans; [exact Hs|]. clear c Hs.
  split; try apply Hss; [intros id; unfold stored; by rewrite (ss_store _ _ Hss)|]. destruct Hg as [Hw Hl].
  destruct (writeFrame_wrote l encode c1 Hw (Hl l Hin)) as [e _|e c' _ _ Hst|f k g He _ Hst]; cbn [snd].
  - right. exists []. split; [by apply steady_fields|done].
  - destruct Hst as [|Hst]; [by left|right]. by exists [].
  - right. eexists. split; [exact Hst|]. case_decide; [|done]. cbn. by rewrite Hm.
Qed.

Lemma encoded_ack p f : AckPacket_EncodeAck p [] = Ok f -> exists body, len body <= maxVarint /\ f = packet_bytes (ack_header (ack_Type p)) body.
Proof using Type.
  unfold AckPacket_EncodeAck. destruct (negb _); [done|]. destruct (ackTarget _); [|done]. destruct (_ =? 0); [done|]. cbn zeta.
  destruct (if _ && _ then _ else _) as [body|]; [|done]. rewrite res_bind_Ok. intros [Hb ->]%writePacket_inv. by exists body.
Qed.

Lemma aside_pubrel l id rc c c1 : aside l c c1 -> aside l c (sendAckReason l Pubrel id rc c1).2.
Proof.
  intros Ha. unfold sendAckReason. rewrite !cmd_bind_eq. unfold gets. rewrite cmd_bind_eq.
  assert (Hw := aside_write l (AckPacket_EncodeAck (mkAck (c_version c1) Pubrel id rc None)) c c1 (sized_ack _)).
  destruct (writeFrame _ _ c1) as [err c2]. apply Hw; [|done].
  intros f (body & Hb & ->)%encoded_ack. rewrite overhear_packet by done. by rewrite bool_decide_eq_false_2 by by_decide.
Qed.

(** * Packets that are no part of the broker's messages *)

Lemma aside_complete l id kind r c c1 : kind <> StoredInboundID -> aside l c c1 -> aside l c (completeOutbound l id kind r c1).2.
Proof.
  intros Hk Ha. unfold completeOutbound. rewrite cmd_bind_eq. unfold gets. destruct (negb _); [done|]. unfold mbind, cmd_bind, upd.
  match goal with |- context [signalWaiter id ?g r ?x] => assert (Hs := aside_signal l id g r c x); destruct (signalWaiter id g r x) end.
  apply Hs, aside_release, aside_delete; done.
Qed.

Lemma aside_pubrec l ack reason c c1 : store_room (c_store c1) -> aside l c c1 -> aside l c (handlePubrec l ack reason c1).2.
Proof.
  intros Hroom Ha. unfold handlePubrec. rewrite cmd_bind_eq. unfold gets. destruct (storeContains _ _ c1).
  - destruct (ReasonCode_IsError _).
    + unfold mbind, cmd_bind, upd.
      match goal with |- context [signalWaiter ?id ?g ?r ?x] => assert (Hs := aside_signal l id g r c x); destruct (signalWaiter id g r x) end.
      apply Hs, aside_release, aside_delete; done.
    + unfold mbind, cmd_bind, upd, sendAck. apply aside_pubrel, aside_delete; [done|]. by apply aside_save.
  - rewrite cmd_bind_eq. unfold sendAck. destruct (storeContains _ _ c1); by apply aside_pubrel.
Qed.

Lemma aside_error l rc c c1 : aside l c c1 -> aside l c ((_ ← protocolError l rc; mret false) c1).2.
Proof. intros Ha. rewrite cmd_bind_eq. pose proof (aside_protocolError l rc c c1 Ha). by destruct (protocolError _ _ c1). Qed.

Lemma aside_ack l frame t c : store_room (c_store c) -> aside l c c -> aside l c (handleAck l frame t c).2.
Proof.
  intros Hroom Ha. unfold handleAck. rewrite cmd_bind_eq. unfold gets. destruct (DecodeAck _ _ _) as [ack|]; [|by apply aside_error].
  rewrite cmd_bind_eq. match goal with |- context [(if t =? Puback then ?a else ?b) c] =>
    assert (H : aside l c ((if t =? Puback then a else b) c).2); [|destruct ((if t =? Puback then a else b) c); exact H] end.
  destruct (_ =? Puback); [by apply aside_complete|]. destruct (_ =? Pubcomp); [by apply aside_complete|]. destruct (_ =? Pubrec); [by apply aside_pubrec|done].
Qed.

(** A frame from which the client takes neither a message nor its release. *)
Lemma aside_turn l frame c : good [l] c -> store_ok (c_store c) -> store_room (c_store c) -> taken (c_version c) frame = None ->
  aside l c (match Frame_ValidateFlags frame with
    | Err _ => (_ ← protocolError l MalformedPacketReason; mret false) c | Ok _ => handleFrame l frame c end).2.
Proof.
  intros Hg Hok Hroom. unfold taken. assert (Ha := aside_refl l c Hg Hok). destruct (Frame_ValidateFlags frame); [|intros _; by apply aside_error].
  unfold handleFrame. destruct (_ =? Publish).
  { unfold handlePublish. rewrite cmd_bind_eq. unfold gets. destruct (DecodePublish _ _ _); [done|]. intros _. by apply aside_error. }
  destruct (_ =? Puback); [intros _; by apply aside_ack|]. destruct (_ =? Pubrec); [intros _; by apply aside_ack|]. destruct (_ =? Pubrel).
  { unfold handleInboundPubrel. rewrite cmd_bind_eq. unfold gets. destruct (DecodeAck _ _ _); [done|]. intros _. by apply aside_error. }
  intros _. destruct (_ =? Pubcomp); [by apply aside_ack|]. destruct (_ =? Suback).
  { unfold handleSuback. rewrite cmd_bind_eq. unfold gets. destruct (DecodeSuback _ _); [|by apply aside_error]. rewrite cmd_bind_eq.
    match goal with |- context [signalWaiter ?i ?k ?r c] => pose proof (aside_signal l i k r c c Ha); by destruct (signalWaiter i k r c) end. }
  destruct (_ =? Unsuback).
  { unfold handleUnsuback. rewrite cmd_bind_eq. unfold gets. destruct (DecodeUnsuback _ _); [|by apply aside_error]. rewrite cmd_bind_eq.
    match goal with |- context [signalWaiter ?i ?k ?r c] => pose proof (aside_signal l i k r c c Ha); by destruct (signalWaiter i k r c) end. }
  destruct (_ =? Pingresp).
  { rewrite cmd_bind_eq. unfold upd. cbn [mret cmd_ret snd]. eapply aside_serene; [exact Ha| |done]. by apply serene_upd_link, serene_refl. }
  destruct (_ =? Disconnect); [by apply aside_teardown|]. destruct (_ =? Auth); by apply aside_error.
Qed.

(** * The broker's messages *)

Lemma answered l t id rc c : good [l] c -> c_link c = Some l -> Version_Valid (c_version c) = true -> 0 < id < 65536 -> in_u8 rc ->
  t = Puback \/ t = Pubrec \/ t = Pubcomp -> l_outboundMax (the_link c l) = 0 \/ 5 <= l_outboundMax (the_link c l) ->
  let c' := (sendAckReason l t id rc c).2 in
  same_session c c' /\ (c_link c' = None \/ exists f, steady [f] c c' /\ overhear (c_version c) f = Some (t, id)).
Proof.
  intros [Hw HLs] Hl Hv Hid Hrc Ht Hmax c'. split; [apply sendAckReason_same|]. destruct (answer_encodes (c_version c) t id rc Hv Hid Ht) as (f & He & Hf).
  assert (E : c' = (writeFrame (Some l) (AckPacket_EncodeAck (mkAck (c_version c) t id rc None)) c).2).
  { unfold c', sendAckReason, mbind, cmd_bind, gets. by destruct (writeFrame _ _ c). }
  rewrite E. clear c' E. pose proof (AckPacket_EncodeAck_body (mkAck (c_version c) t id rc None) [] f) as Hbody.
  destruct Hbody as (body & target & Hb & Htg & Ef & Hdec); [by split_and!; cbn; [unfold in_u16; lia| |]|done|].
  cbn [ack_Type ack_Version app] in *. assert (Hover : overhear (c_version c) f = Some (t, id)).
  { rewrite Ef, overhear_packet by done. assert (Et : Z.shiftr (ack_header t) 4 = t) by exact (proj2 (ack_header_flags t target [] Htg)).
    rewrite Et, Hdec, bool_decide_eq_true_2; [done|]. destruct Ht as [-> | [-> | ->]]; by_decide. }
  destruct (writeFrame_wrote l (AckPacket_EncodeAck (mkAck (c_version c) t id rc None)) c Hw (HLs l (list_elem_of_here _ _)))
    as [e Hno|e c' _ Hdown _|f' k g He' _ Hst]; cbn [snd].
  - exfalso. destruct (Hno f He) as [H1 H2]. rewrite u32_id in H2 by (unfold in_u32; lia). lia.
  - left. by apply Hdown.
  - right. assert (f' = f) as -> by congruence. rewrite decide_True in Hst by done. by exists f.
Qed.

(** The client did with a packet what the receiver [b] does. *)
Record took (u : upward) (b : receiver) c c' : Prop := {
  tk_stored id : stored id StoredInboundID c' <-> id ∈ r_awaiting (receive (plain u) b).1;
  tk_version : c_version c' = c_version c;
  tk_inbound : c_inboundMax c' = c_inboundMax c;
  tk_calls : c_calls c' = c_calls c ++ (passes u b ≫= fun p => routed (c_table c) (toMessage p));
  tk_link : c_link c' = None \/
    exists fs, steady fs c c' /\ omap (overhear (c_version c)) fs = option_list (fst <$> (receive (plain u) b).2)
}.

(** The connection was lost while the handlers of a new QoS 2 message ran: they
    were called, and nothing else has happened. *)
Record cut_short (p : PublishPacket) (b : receiver) c c' : Prop := {
  cs_new : pub_QoS p = 2 /\ pub_PacketID p ∉ r_awaiting b;
  cs_stored id : stored id StoredInboundID c' <-> stored id StoredInboundID c;
  cs_version : c_version c' = c_version c;
  cs_inbound : c_inboundMax c' = c_inboundMax c;
  cs_calls : c_calls c' = c_calls c ++ routed (c_table c) (toMessage p);
  cs_link : c_link c' = None
}.

Section turn.
Variables (l : nat) (c : client St) (b : receiver).
Hypothesis Hgood : good [l] c.
Hypothesis Hlink : c_link c = Some l.
Hypothesis Hok : store_ok (c_store c).
Hypothesis Hroom : store_room (c_store c).
Hypothesis Hversion : Version_Valid (c_version c) = true.
Hypothesis Hmax : l_outboundMax (the_link c l) = 0 \/ 5 <= l_outboundMax (the_link c l).
Hypothesis Hawaiting : forall id, stored id StoredInboundID c <-> id ∈ r_awaiting b.

(** The identifiers and the calls are settled, and the answer goes out. *)
Lemma took_answer u t id rc s calls : (receive (plain u) b).2 = Some (t, id, rc) -> 0 < id < 65536 -> in_u8 rc ->
  t = Puback \/ t = Pubrec \/ t = Pubcomp ->
  (forall i, (i, StoredInboundID) ∈ (contents s).*1 <-> i ∈ r_awaiting (receive (plain u) b).1) ->
  calls = c_calls c ++ (passes u b ≫= fun p => routed (c_table c) (toMessage p)) ->
  took u b c (sendAckReason l t id rc (set_store s (set_calls calls c))).2.
Proof.
  intros Ha Hid Hrc Ht Hs Ek. set (c1 := set_store s (set_calls calls c)). assert (Hg1 : good [l] c1) by (eapply good_fields; [..|exact Hgood]; done).
  destruct (answered l t id rc c1 Hg1 Hlink Hversion Hid Hrc Ht Hmax) as [Hss Hl]. split.
  - intros i. unfold stored. rewrite (ss_store _ _ Hss). apply Hs.
  - apply Hss.
  - apply Hss.
  - rewrite (ss_calls _ _ Hss). exact Ek.
  - destruct Hl as [|(f & Hst & Ho)]; [by left|right]. exists [f]. rewrite Ha.
    split; [|cbn [omap list_omap]; change (c_version c1) with (c_version c) in Ho; by rewrite Ho].
    apply (steady_trans [] [f] c c1); [by apply steady_fields|done].
Qed.

Lemma running : isStopping l c = false.
Proof.
  destruct (wc_link c (proj1 Hgood) l Hlink) as (lk & Hlk & Hst). unfold isStopping, the_link. by rewrite (lookup_total_correct _ _ _ Hlk).
Qed.

(** What a handler call leaves: everything but the calls, or the connection is
    down and the read loop sees it. *)
Lemma dispatched m : let c1 := set_calls (c_calls c ++ routed (c_table c) m) c in
  client_dispatch m c = c1 /\ isStopping l (client_dispatch m c) = false \/
  c_link (client_dispatch m c) = None /\ isStopping l (client_dispatch m c) = true.
Proof.
  destruct (dispatch_observed m c) as [E|(l' & g & Hl & E)]; cbn zeta; rewrite E; [left; split; [done|exact running]|right].
  assert (l' = l) as -> by congruence. set (c1 := set_calls _ c).
  split; [by apply (teardown_current l g c1 running)|apply teardown_stops].
Qed.

(** A duplicate of a QoS 2 message. *)
Lemma took_again pub : pub_QoS pub = 2 -> 0 < pub_PacketID pub < 65536 -> storeContains (pub_PacketID pub) StoredInboundID c = true ->
  took (UPub pub) b c (sendAckReason l Pubrec (pub_PacketID pub) Success c).2.
Proof.
  intros Hq Hid Hseen. rewrite storeContains_spec in Hseen by done.
  pose proof (took_answer (UPub pub) Pubrec (pub_PacketID pub) Success (c_store c) (c_calls c)) as H.
  replace (set_store (c_store c) (set_calls (c_calls c) c)) with c in H by (by destruct c). apply H; auto.
  - cbn. rewrite Hq. cbn. by case_bool_decide.
  - by_decide.
  - intros i. cbn. rewrite Hq. cbn. rewrite bool_decide_eq_true_2 by (by apply Hawaiting). apply Hawaiting.
  - cbn. rewrite bool_decide_eq_true_2 by (by rewrite <- Hawaiting). cbn. by rewrite app_nil_r.
Qed.

(** A QoS 2 message that is not a duplicate, its handlers done. *)
Lemma took_new pub calls : pub_QoS pub = 2 -> 0 < pub_PacketID pub < 65536 -> pub_PacketID pub ∉ r_awaiting b ->
  calls = c_calls c ++ routed (c_table c) (toMessage pub) ->
  took (UPub pub) b c (sendAckReason l Pubrec (pub_PacketID pub) Success
    (store_Save (mkStored None 0 (pub_PacketID pub) StoredInboundID) (set_calls calls c))).2.
Proof.
  intros Hq Hid Hn Ek. set (m := mkStored None 0 (pub_PacketID pub) StoredInboundID).
  assert (Es : store_Save m (set_calls calls c) = set_store (c_store (store_Save m c)) (set_calls calls c)) by done. rewrite Es.
  apply took_answer; auto.
  - cbn. rewrite Hq. cbn. by case_bool_decide.
  - by_decide.
  - intros i. change (stored i StoredInboundID (store_Save m c) <-> i ∈ r_awaiting (receive (plain (UPub pub)) b).1). rewrite stored_Save, Hawaiting by done. cbn. rewrite Hq. cbn.
    rewrite bool_decide_eq_false_2 by done. cbn. rewrite elem_of_cons. apply or_iff_compat_r. split; [by intros [= ->]|by intros ->].
  - cbn. rewrite bool_decide_eq_false_2 by tauto. cbn. by rewrite app_nil_r.
Qed.

Lemma took_qos2 pub : pub_QoS pub = 2 -> 0 < pub_PacketID pub < 65536 -> let c' := (handleInboundQoS2 l pub c).2 in
  if interrupted l (passes (UPub pub) b) c then cut_short pub b c c' else took (UPub pub) b c c'.
Proof.
  intros Hq Hid. unfold handleInboundQoS2. rewrite cmd_bind_eq. unfold gets. destruct (storeContains (pub_PacketID pub) StoredInboundID c) eqn:Hseen.
  - pose proof (took_again pub Hq Hid Hseen) as H. rewrite storeContains_spec in Hseen by done. cbn [passes].
    rewrite bool_decide_eq_true_2 by (by rewrite <- Hawaiting). cbn [interrupted]. rewrite cmd_bind_eq. unfold sendAck.
    by destruct (sendAckReason l Pubrec (pub_PacketID pub) Success c) as [[] c'].
  - assert (Hn : pub_PacketID pub ∉ r_awaiting b) by (rewrite <- Hawaiting, <- storeContains_spec by done; congruence).
    cbn [passes]. rewrite bool_decide_eq_false_2 by tauto. cbn [interrupted]. rewrite Hq. cbn [Z.eqb Pos.eqb andb].
    rewrite cmd_bind_eq. unfold upd. rewrite cmd_bind_eq. destruct (dispatched (toMessage pub)) as [[E Hst]|[Hl Hst]]; rewrite Hst.
    + rewrite E. pose proof (took_new pub (c_calls c ++ routed (c_table c) (toMessage pub)) Hq Hid Hn eq_refl) as H.
      unfold mbind, cmd_bind, sendAck. by destruct (sendAckReason l Pubrec _ _ _) as [[] c'].
    + destruct (dispatch_session (toMessage pub) c) as (E1 & _ & E2 & E3 & E4). cbn [mret cmd_ret snd].
      split; [done| |done..]. intros id. unfold stored. by rewrite E1.
Qed.

Lemma took_pubrel frame ack : DecodeAck (c_version c) Pubrel (Body frame) = Ok ack -> 0 < ack_PacketID ack < 65536 ->
  took (URel (ack_PacketID ack)) b c (handleInboundPubrel l frame c).2.
Proof.
  intros Hd Hid. set (id := ack_PacketID ack) in *. unfold handleInboundPubrel. rewrite cmd_bind_eq. unfold gets. rewrite Hd, cmd_bind_eq. fold id.
  destruct (storeContains id StoredInboundID c) eqn:Hseen; cbn [negb].
  - rewrite storeContains_spec in Hseen by done. unfold mbind, cmd_bind, upd, sendAck.
    pose proof (took_answer (URel id) Pubcomp id Success (c_store (store_Delete id StoredInboundID c)) (c_calls c)) as H.
    replace (set_store _ (set_calls (c_calls c) c)) with (store_Delete id StoredInboundID c) in H by (by destruct c).
    destruct (sendAckReason l Pubcomp _ _ _) as [[] c']. apply H; auto.
    + cbn. by rewrite bool_decide_eq_true_2 by (by apply Hawaiting).
    + by_decide.
    + intros i. change (stored i StoredInboundID (store_Delete id StoredInboundID c) <-> i ∈ r_awaiting (receive (plain (URel id)) b).1).
      rewrite stored_Delete, Hawaiting by done. cbn. rewrite list_elem_of_filter. apply and_iff_compat_r. split; congruence.
    + cbn. by rewrite app_nil_r.
  - assert (Hn : id ∉ r_awaiting b) by (rewrite <- Hawaiting, <- storeContains_spec by done; congruence). rewrite cmd_bind_eq.
    pose proof (took_answer (URel id) Pubcomp id PacketIdentifierNotFound (c_store c) (c_calls c)) as H.
    replace (set_store (c_store c) (set_calls (c_calls c) c)) with c in H by (by destruct c).
    destruct (sendAckReason l Pubcomp _ _ c) as [[] c']. apply H; auto.
    + cbn. by rewrite bool_decide_eq_false_2 by done.
    + by_decide.
    + intros i. change (stored i StoredInboundID c <-> i ∈ r_awaiting (receive (plain (URel id)) b).1). rewrite Hawaiting. cbn.
      rewrite list_elem_of_filter. split; [|tauto]. intros Hi. split; [congruence|done].
    + cbn. by rewrite app_nil_r.
Qed.

(** A message whose handlers were called before the connection went down. *)
Lemma took_lost pub : pub_QoS pub = 0 \/ pub_QoS pub = 1 -> c_link (client_dispatch (toMessage pub) c) = None ->
  took (UPub pub) b c (client_dispatch (toMessage pub) c).
Proof.
  intros Hq Hl. destruct (dispatch_session (toMessage pub) c) as (E1 & _ & E2 & E3 & E4). split; try done.
  - intros i. unfold stored. rewrite E1. change (stored i StoredInboundID c <-> i ∈ r_awaiting (receive (plain (UPub pub)) b).1).
    rewrite Hawaiting. cbn. by destruct Hq as [-> | ->].
  - rewrite E4. cbn. rewrite bool_decide_eq_false_2 by lia. cbn. by rewrite app_nil_r.
  - by left.
Qed.

Lemma took_qos1 pub : pub_QoS pub = 1 -> 0 < pub_PacketID pub < 65536 ->
  took (UPub pub) b c ((_ ← upd (client_dispatch (toMessage pub)); stopping ← gets (isStopping l);
    if (stopping : bool) then mret false else _ ← sendAck l Puback (pub_PacketID pub); mret true) c).2.
Proof.
  intros Hq Hid. rewrite cmd_bind_eq. unfold upd. rewrite cmd_bind_eq. unfold gets.
  destruct (dispatched (toMessage pub)) as [[E Hst]|[Hl Hst]]; rewrite Hst; [|by apply took_lost; [right|]].
  rewrite E, cmd_bind_eq. unfold sendAck. set (calls := c_calls c ++ _).
  replace (set_calls calls c) with (set_store (c_store c) (set_calls calls c)) by (by destruct c).
  pose proof (took_answer (UPub pub) Puback (pub_PacketID pub) Success (c_store c) calls) as H.
  destruct (sendAckReason l Puback _ _ _) as [[] c']. apply H; auto.
  - cbn. by rewrite Hq.
  - by_decide.
  - intros i. change (stored i StoredInboundID c <-> i ∈ r_awaiting (receive (plain (UPub pub)) b).1). rewrite Hawaiting. cbn. by rewrite Hq.
  - cbn. rewrite bool_decide_eq_false_2 by (rewrite Hq; lia). cbn. by rewrite app_nil_r.
Qed.

Lemma took_qos0 pub : pub_QoS pub = 0 -> took (UPub pub) b c (client_dispatch (toMessage pub) c).
Proof.
  intros Hq. destruct (dispatched (toMessage pub)) as [[E _]|[Hl _]]; [|by apply took_lost; [left|]]. rewrite E. split; try done.
  - intros i. change (stored i StoredInboundID c <-> i ∈ r_awaiting (receive (plain (UPub pub)) b).1). rewrite Hawaiting. cbn. by rewrite Hq.
  - cbn. rewrite bool_decide_eq_false_2 by (rewrite Hq; lia). cbn. by rewrite app_nil_r.
  - right. exists []. split; [by apply steady_fields|]. cbn. by rewrite Hq.
Qed.

Lemma uninterrupted pub : pub_QoS pub <> 2 -> interrupted l (passes (UPub pub) b) c = false.
Proof using Type. intros Hq. cbn [passes]. case_bool_decide; [done|]. cbn [interrupted]. by rewrite (proj2 (Z.eqb_neq _ _) Hq). Qed.

(** What the client does with a packet: as the receiver, or cut short. *)
Definition received (u : upward) c c' : Prop :=
  if interrupted l (passes u b) c then exists p, u = UPub p /\ cut_short p b c c' else took u b c c'.

(** A packet of the broker's messages. *)
Lemma took_turn frame u : taken (c_version c) frame = Some u ->
  match u with UPub p => no_alias (pub_Properties p) = true /\ (pub_QoS p = 0 \/ 0 < pub_PacketID p < 65536) | URel id => 0 < id < 65536 end ->
  Frame_ValidateFlags frame = Ok tt /\
  received u c (handleFrame l frame c).2.
Proof.
  unfold taken, handleFrame. destruct (Frame_ValidateFlags frame) as [[]|]; [|done]. intros Hu Hid. split; [done|]. destruct (_ =? Publish).
  - destruct (DecodePublish _ _ _) as [pub|] eqn:Hd; [|done]. injection Hu as <-. destruct Hid as [Hna Hid].
    unfold handlePublish. rewrite cmd_bind_eq. unfold gets at 1. rewrite Hd, cmd_bind_eq.
    assert (Er : resolveTopicAlias l pub c = (Some (pub_Topic pub), c)).
    { unfold resolveTopicAlias. destruct (pub_Properties pub) as [pr|]; [|done]. cbn in Hna. by destruct (TopicAlias pr). }
    rewrite Er. replace (with_Topic (pub_Topic pub) pub) with pub by (by destruct pub). destruct (Z.eqb_spec (pub_QoS pub) 0) as [Hq|Hq].
    { rewrite cmd_bind_eq. unfold upd. cbn [mret cmd_ret snd]. unfold received. rewrite uninterrupted by lia. by apply took_qos0. }
    destruct (Z.eqb_spec (pub_QoS pub) 1) as [Hq1|Hq1]; [unfold received; rewrite uninterrupted by lia; apply took_qos1; [done|lia]|].
    assert (Hq2 : pub_QoS pub = 2) by (pose proof (DecodePublish_qos _ _ _ _ Hd); lia).
    rewrite Hq2. cbn [Z.eqb Pos.eqb]. pose proof (took_qos2 pub Hq2 ltac:(lia)) as H. cbn zeta in H. unfold received. destruct (interrupted _ _ _); eauto.
  - destruct (Z.eqb_spec (Frame_PacketType frame) Pubrel) as [Et|]; [|done]. destruct (DecodeAck _ _ _) as [ack|] eqn:Hd; [|done]. injection Hu as <-.
    rewrite Et. cbn [Z.eqb Pos.eqb Puback Pubrec Pubrel]. by apply took_pubrel.
Qed.
End turn.
End receiving.
