(* ===== verification/Inflow.v ===== *)
(** The client as a receiver of Delivery: the broker's messages reach the handlers
    as the protocol says, over connections that come and go. *)

From S2P Require Import Prelude GoStrings Codes Wire WireFacts Props PropsFacts PublishPackets ControlPackets.
From S2P Require Import SubscribePackets Topic SessionStore Errors IdAllocator Quota Subscriptions Lifecycle.
From S2P Require Import Client Pump Requests Connection ClientFacts InboundFacts SessionFacts RequestFacts LinkFacts OutboundFacts Wellformed.
From S2P Require Import Delivery World WorldFacts Ownership PublishFacts Simulation Traffic Answers Resume EndToEnd Duplex Receiving.
From stdpp Require Import options.

(** * Frames of the broker *)

Definition bytes_of (y : Z * list Z) : list Z := packet_bytes y.1 y.2.

Lemma bytes_of_one y : concat (bytes_of <$> [y]) = bytes_of y.
Proof. apply app_nil_r. Qed.

(** A frame the client can read; a message in it has no topic alias, and a packet
    of an exchange is well formed. *)
Definition frame_ok (v max : Z) (y : Z * list Z) : Prop :=
  len y.2 <= maxVarint /\ len (bytes_of y) <= max /\
  (Z.shiftr y.1 4 = Publish -> forall p, DecodePublish v y.1 y.2 = Ok p -> no_alias (pub_Properties p) = true) /\
  (heed v (bytes_of y) <> None -> Frame_ValidateFlags (mkFrame y.1 y.2) = Ok tt).

(** ... that is no answer to a publish of the client. *)
Definition from_broker (v max : Z) (y : Z * list Z) : Prop := frame_ok v max y /\ Z.shiftr y.1 4 ∉ [Puback; Pubrec; Pubcomp].

Lemma taken_hear v h body u : len body <= maxVarint -> taken v (mkFrame h body) = Some u -> hear v (packet_bytes h body) = Some (plain u).
Proof.
  intros Hb. pose proof (packet_len h body Hb). unfold taken, hear. rewrite <- (app_nil_r (packet_bytes h body)), ReadFrame_packet by (done || unfold in_u32; lia).
  destruct (Frame_ValidateFlags _); [|done]. destruct (_ =? Publish); [cbn [Header Body]; destruct (DecodePublish _ _ _); [|done]; by intros [= <-]|].
  destruct (_ =? Pubrel); [|done]. cbn [Header Body]. destruct (DecodeAck _ _ _); [|done]. by intros [= <-].
Qed.

Lemma hear_taken v h body u : len body <= maxVarint -> Frame_ValidateFlags (mkFrame h body) = Ok tt -> hear v (packet_bytes h body) = Some u ->
  exists u', taken v (mkFrame h body) = Some u' /\ u = plain u'.
Proof.
  intros Hb Hf. pose proof (packet_len h body Hb). unfold taken, hear. rewrite <- (app_nil_r (packet_bytes h body)), ReadFrame_packet, Hf by (done || unfold in_u32; lia).
  destruct (_ =? Publish); [cbn [Header Body]; destruct (DecodePublish _ _ _) as [p|]; [|done]; intros [= <-]; by exists (UPub p)|].
  destruct (_ =? Pubrel); [|done]. cbn [Header Body]. destruct (DecodeAck _ _ _) as [a|]; [|done]. intros [= <-]. by exists (URel (ack_PacketID a)).
Qed.

(** Bytes that carry the packet [u]. *)
Definition carry (v max : Z) (bytes : list Z) (u : upward) : Prop :=
  exists y, bytes = bytes_of y /\ from_broker v max y /\ heed v bytes = Some u.

Lemma publish_nonzero p f : PublishPacket_Encode p [] = Ok f -> pub_QoS p = 1 \/ pub_QoS p = 2 -> pub_PacketID p <> 0.
Proof.
  unfold PublishPacket_Encode. intros He Hq Hid. destruct (negb (Version_Valid _)); [done|]. destruct (pub_QoS p >? 2); [done|].
  rewrite Hid in He. replace (pub_QoS p >? 0) with true in He by lia. done.
Qed.

Lemma carry_publish v max p f : wf_publish p -> publishable p -> pub_Version p = v -> pub_QoS p = 1 \/ pub_QoS p = 2 ->
  no_alias (pub_Properties (canon_publish p)) = true -> PublishPacket_Encode p [] = Ok f -> len f <= max -> carry v max f (UPub (undup (canon_publish p))).
Proof.
  intros Hwf Hp <- Hq Hna He Hlen. pose proof (heed_publish p f Hwf Hp Hq He) as Hh.
  apply PublishPacket_Encode_body in He as (body & Hb & -> & Hq2 & Hd & Hdec); [|done..]. cbn [app] in *.
  destruct (publish_header_flags (pub_Dup p) (pub_Retain p) (pub_QoS p) ltac:(lia) Hd) as (_ & _ & _ & Hfl & Ht).
  exists (publish_header (pub_Dup p) (pub_Retain p) (pub_QoS p), body). split_and!; [done| |done]. split.
  - split_and!; [done|done| |intros _; apply Hfl]. cbn [fst snd]. intros _ q Hd'. congruence.
  - cbn [fst]. rewrite (Ht [] : Z.shiftr (publish_header (pub_Dup p) (pub_Retain p) (pub_QoS p)) 4 = Publish). by_decide.
Qed.

Lemma carry_pubrel v max id : Version_Valid v = true -> 0 < id < 65536 -> 5 <= max -> carry v max (reply v (Pubrel, id, Success)) (URel id).
Proof.
  intros Hv Hid Hmax. destruct (pubrel_frame_bytes v id Hv Hid) as [He Hh]. unfold reply. cbn [fst snd]. change Success with 0. rewrite He.
  pose proof He as (body & Hb & Ef)%encoded_ack. cbn [ack_Type] in Ef. exists (ack_header Pubrel, body). unfold bytes_of. cbn [fst snd]. rewrite <- Ef.
  destruct (ack_header_flags Pubrel tgPubrel body eq_refl) as [Hfl _]. split_and!; [done| |done]. split; [|by_decide].
  unfold frame_ok, bytes_of. cbn [fst snd]. rewrite <- Ef. split_and!; [done| |done|done]. cbn. lia.
Qed.

(** An entry that can be sent again and again. *)
Definition entry_ok (v max : Z) (x : Z * outgoing) : Prop :=
  0 < x.1 < 65536 /\ match x.2 with OPub p => deliverable v max p | ORel => True end.

Lemma undup_id p : pub_Dup p = false -> undup p = p.
Proof. intros Hd. unfold undup. rewrite <- Hd. by destruct p. Qed.

Lemma carry_send v max p f : deliverable v max p -> PublishPacket_Encode p [] = Ok f -> carry v max f (UPub p) /\ 0 < pub_PacketID p < 65536.
Proof.
  intros (Hv & Hd & Hwf & Hp & Hq & Hna & Hc & f' & Hf' & Hlen) Hf. assert (f' = f) as -> by congruence. split.
  - pose proof (carry_publish v max p f Hwf Hp Hv Hq) as H. rewrite Hc, undup_id in H by done. by apply H.
  - pose proof (publish_nonzero p f Hf Hq). destruct Hwf as (_ & Hid & _). unfold in_u16 in Hid. lia.
Qed.

Lemma carry_again v max x : Version_Valid v = true -> 5 <= max -> entry_ok v max x -> carry v max (resend v x) (again x).
Proof.
  intros Hv Hmax [Hid Hx]. destruct x as [id [p|]]; unfold resend, again; cbn [fst snd] in *; [|by apply carry_pubrel].
  destruct Hx as (Hver & Hd & Hwf & Hp & Hq & Hna & Hc & f & Hf & Hlen). destruct (with_Dup_encodes p f Hq Hf) as (f' & Hf' & Hl). rewrite Hf'.
  assert (Eu : undup (canon_publish (with_Dup p)) = p).
  { rewrite <- Hc at 2. unfold undup, canon_publish, with_Dup. cbn. by rewrite Hd. }
  assert (Hna' : no_alias (pub_Properties (canon_publish (with_Dup p))) = true).
  { change (no_alias (pub_Properties (canon_publish p)) = true). by rewrite Hc. }
  pose proof (carry_publish v max (with_Dup p) f' Hwf Hp Hver Hq Hna' Hf') as H. rewrite Eu in H. apply H. lia.
Qed.

Lemma carry_all v max (xs : list (Z * outgoing)) : Version_Valid v = true -> 5 <= max -> Forall (entry_ok v max) xs ->
  exists ys, concat (resend v <$> xs) = concat (bytes_of <$> ys) /\ Forall (from_broker v max) ys /\ omap (heed v) (bytes_of <$> ys) = again <$> xs.
Proof.
  intros Hv Hmax. induction 1 as [|x xs Hx _ (ys & E & Hys & Hh)]; [by exists []|].
  destruct (carry_again v max x Hv Hmax Hx) as (y & Ey & Hy & Hu). exists (y :: ys). rewrite !fmap_cons, !concat_cons, E, Ey. split_and!; [done|by constructor|].
  cbn [omap list_omap]. rewrite <- Ey, Hu. by rewrite Hh.
Qed.

(** The answers of the broker to the client's packets are no concern of these
    exchanges. *)
Lemma reply_frame v t id rc max : t = Puback \/ t = Pubrec \/ t = Pubcomp -> 5 <= max ->
  exists ys, reply v (t, id, rc) = concat (bytes_of <$> ys) /\ Forall (frame_ok v max) ys /\ omap (heed v) (bytes_of <$> ys) = [].
Proof.
  intros Ht Hmax. unfold reply. cbn [fst snd]. destruct (AckPacket_EncodeAck _ _) as [f|e] eqn:He; [|by exists []].
  pose proof (unheeded_ack v (mkAck v t id rc None) f Ht He) as Hn. pose proof He as (body & Hb & Ef)%encoded_ack. cbn [ack_Type] in Ef.
  exists [(ack_header t, body)]. unfold bytes_of at 1 2. cbn [fmap list_fmap concat fst snd]. rewrite <- Ef, app_nil_r. split_and!; [done| |cbn; by rewrite Hn].
  constructor; [|constructor]. unfold frame_ok, bytes_of. cbn [fst snd]. rewrite <- Ef. split_and!; [done| | |by rewrite Hn].
  - clear -He Hmax Ht. unfold AckPacket_EncodeAck in He. cbn [ack_Version ack_Type ack_PacketID ack_ReasonCode ack_Properties] in He.
    destruct (negb _); [done|]. destruct (ackTarget _); [|done]. destruct (_ =? 0); [done|]. cbn zeta in He.
    assert (Hw : forall h body, len body <= 3 -> writePacket [] h body = Ok f -> len f <= max).
    { intros h body Hl [Hb ->]%writePacket_inv. cbn [app]. rewrite length_packet_bytes by done. unfold varintLen. change (Z.shiftl 1 7) with 128.
      replace (len body <? 128) with true by lia. lia. }
    cbn [is_some] in He. destruct (_ && _); rewrite res_bind_Ok in He; (eapply Hw; [|exact He]); rewrite ?length_app; cbn [PutUint16 length]; lia.
  - destruct Ht as [-> | [-> | ->]]; done.
Qed.

Section inflow.
Context {St : Type} {HS : SessionStore St} {HC : ContainsStore St} {HE : Environment St}.
Context {HL : SessionStoreLaws St} {HR : ReliableStore St} {HO : Observers St}.
Implicit Types c : client St.
Implicit Types w : world (St := St).
Implicit Types x : duplex (St := St).
Set Default Proof Using "Type*".

(** * The abstraction *)

(** What the connection carries. *)
Definition on_in c (read : nat) (up : list upward) (down : list (Z * Z)) (l : nat) : Prop :=
  (read <= length (written c l))%nat /\ down = omap (overhear (c_version c)) (drop read (written c l)) /\
  exists ys, cn_r (the_conn c l) = concat (bytes_of <$> ys) /\ Forall (frame_ok (c_version c) (c_inboundMax c)) ys /\
    up = omap (heed (c_version c)) (bytes_of <$> ys).

(** The broker's messages and the client [c] as a state of the protocol. *)
Record inflow c (read : nat) x (e : exchanges) : Prop := {
  f_out : e_out e = x_out x;
  f_b : e_b e = x_b x;
  f_log : e_log e = x_log x;
  f_live : e_live e = is_some (c_link c);
  f_entries : Forall (entry_ok (c_version c) (c_inboundMax c)) (x_out x);
  f_stored id : stored id StoredInboundID c <-> id ∈ r_awaiting (x_b x);
  f_calls : c_calls c = all_calls x;
  f_got : r_got (x_b x) = arrivals (x_seen x);
  f_link l : c_link c = Some l -> on_in c read (e_up e) (e_down e) l;
  f_inv : einv e
}.

(** Both directions: [e0] for the client's messages, [e] for the broker's. *)
Definition imatches (M : Z) x (e0 e : exchanges) : Prop := matches M (x_w x) e0 /\ inflow (x_c x) (w_read (x_w x)) x e.

(** Handling a packet brings both closer to rest. *)
Definition closer x (e0 e : exchanges) x' (e0' e' : exchanges) : Prop :=
  c_link (x_c x') = None \/ (6 * (load e0' + load e') + backlog (x_w x') < 6 * (load e0 + load e) + backlog (x_w x))%nat.

Lemma inflow_world c read x e w : inflow c read x e -> inflow c read (in_world w x) e.
Proof. intros []. by split. Qed.

(** A step that leaves the receiver alone. *)
Lemma inflow_spared c c' read x e : inflow c read x e -> spared c c' ->
  exists e', rtc estep e e' /\ (c_link c' = None \/ (load e' <= load e)%nat) /\ inflow c' read x e'.
Proof.
  intros [Ho Hb Hlog Hlive Hent Hs Hc Hgot Hl Hinv] [S V I C [Hn|(fs & [El Hst] & Hov)]].
  - exists (dropped e). assert (Hd := dropped_step e). split; [done|]. split; [by left|]. split; cbn [dropped e_out e_b e_log e_live e_up e_down]; rewrite ?V, ?I, ?Hn; try done.
    + intros id. by rewrite S.
    + congruence.
    + exact (esteps_inv _ _ Hd Hinv).
  - exists e. split; [done|]. split; [by right|]. split; rewrite ?V, ?I, ?El; try done; [intros id; by rewrite S|congruence|].
    intros l Hl'. destruct (Hl l Hl') as (Hr & Hd & ys & E & Hys & Hu). destruct (Hst l Hl') as (_ & _ & _ & E4 & E5). unfold on_in.
    rewrite V, I, E4, E5, length_app. split_and!; [lia| |by exists ys]. rewrite drop_app_le, omap_app, Hov, app_nil_r by lia. done.
Qed.

(** Bytes of the broker arrive, or it reads on. *)
Lemma inflow_arrive c c' read x e l ys read' x' e' : inflow c read x e -> c_link c = Some l ->
  c_link c' = c_link c -> c_version c' = c_version c -> c_inboundMax c' = c_inboundMax c -> c_calls c' = c_calls c -> c_store c' = c_store c ->
  written c' l = written c l -> cn_r (the_conn c' l) = cn_r (the_conn c l) ++ concat (bytes_of <$> ys) ->
  Forall (frame_ok (c_version c) (c_inboundMax c)) ys ->
  e_out e' = x_out x' -> e_b e' = x_b x -> e_log e' = x_log x' -> e_live e' = true -> x_b x' = x_b x -> x_earlier x' = x_earlier x -> x_seen x' = x_seen x ->
  Forall (entry_ok (c_version c) (c_inboundMax c)) (x_out x') ->
  e_up e' = e_up e ++ omap (heed (c_version c)) (bytes_of <$> ys) -> (read' <= length (written c l))%nat ->
  e_down e' = omap (overhear (c_version c)) (drop read' (written c l)) -> einv e' -> inflow c' read' x' e'.
Proof.
  intros [Ho Hb Hlog Hlive Hent Hs Hc Hgot Hl Hinv] Hl0 El Ev Ei Ec Es Ew Er Hys Eo Eb Elog Elive Ebx Eex Esx Hent' Eup Hread Edown Hinv'.
  split; unfold all_calls in *; rewrite ?Ev, ?Ei, ?Ebx, ?Eex, ?Esx; try done; [by rewrite El, Hl0|intros id; unfold stored; rewrite Es; apply Hs|congruence|].
  intros l' Hl'. assert (l' = l) as -> by congruence. destruct (Hl l Hl0) as (_ & _ & zs & Ez & Hzs & Eu). unfold on_in.
  rewrite Ev, Ei, Ew, Er, Eup, Edown. split_and!; [done..|]. exists (zs ++ ys). rewrite fmap_app, concat_app, omap_app, Ez, Eu.
  split_and!; [done| |done]. by apply Forall_app.
Qed.

Lemma matches_arriving M w e l ys : matches M w e -> c_link (w_c w) = Some l ->
  Forall (from_broker (c_version (w_c w)) (c_inboundMax (w_c w))) ys -> matches M (arriving l (concat (bytes_of <$> ys)) w) e.
Proof.
  intros [Hw Hv Hi Hs He Ho Hown Hb Hlog Hlive Hlink Hinv] Hl Hys. split; cbn [arriving with_client w_c w_tasks w_read w_b w_log]; try done; [by apply arrive_good|].
  intros l' Hl'. assert (l' = l) as -> by (cbn in Hl'; congruence). destruct (Hlink l Hl) as (L1 & L2 & L3 & L4 & L5 & xs & L6 & L7 & L8).
  unfold on_link. rewrite arrive_written, arrive_read. split_and!; try done. exists (xs ++ ((fun y => Benign y.1 y.2) <$> ys)). split_and!.
  - rewrite L6, fmap_app, concat_app. f_equal. rewrite <- list_fmap_compose. done.
  - apply Forall_app. split; [done|]. apply Forall_fmap. eapply Forall_impl; [exact Hys|]. intros y [(H1 & H2 & _) H3]. done.
  - rewrite omap_app, L8. rewrite <- (app_nil_r (omap arrival_down xs)) at 1. f_equal. clear. induction ys as [|y ys IH]; [done|]. exact IH.
Qed.

(** * The broker's own steps *)

Lemma imatches_send M x x' e0 e p : imatches M x e0 e -> dlawful M (DSend p) x -> dstep (DSend p) x = Some x' ->
  exists e', rtc estep e e' /\ imatches M x' e0 e'.
Proof.
  intros [Hm Hi] [Hdel Hnew]. cbn [dstep]. destruct (c_link (x_c x)) as [l|] eqn:Hl; [|done]. cbn [mbind option_bind].
  destruct (PublishPacket_Encode p []) as [f|] eqn:Hf; [|done]. intros [= <-].
  destruct (carry_send _ _ p f Hdel Hf) as [(y & -> & Hy & Hu) Hid]. pose proof (f_live _ _ _ _ Hi) as Elive. rewrite Hl in Elive.
  destruct e as [live out up down b log]. cbn [e_live is_some] in Elive. subst live. pose proof (f_out _ _ _ _ Hi) as Eo. cbn [e_out] in Eo. subst out.
  assert (Hstep : estep (mkExchanges true (x_out x) up down b log) (mkExchanges true (x_out x ++ [(pub_PacketID p, OPub p)]) (up ++ [UPub p]) down b (log ++ [content p]))).
  { apply e_publish; [done|]. by destruct Hdel as (_ & _ & _ & _ & Hq & _). }
  eexists. split; [by apply rtc_once|]. rewrite <- (bytes_of_one y). split.
  - apply matches_arriving; [done|done|]. by constructor.
  - destruct (f_link _ _ _ _ Hi l Hl) as (Hr & Hd & _). eapply (inflow_arrive (x_c x) _ (w_read (x_w x)) x _ l [y]); try done.
    + apply arrive_written.
    + apply arrive_read.
    + constructor; [apply Hy|done].
    + apply Hi.
    + cbn. by rewrite <- (f_log _ _ _ _ Hi).
    + cbn. apply Forall_app. split; [apply Hi|]. by constructor.
    + cbn [e_up]. cbn [fmap list_fmap omap list_omap]. by rewrite Hu.
    + exact (estep_inv _ _ Hstep (f_inv _ _ _ _ Hi)).
Qed.

Lemma imatches_inject M x e0 e frame l : imatches M x e0 e -> dlawful M (DAct (WInject frame)) x -> c_link (x_c x) = Some l ->
  imatches M (in_world (arriving l frame (x_w x)) x) e0 e.
Proof.
  intros [Hm Hi] [(h & body & -> & Hlen & Hb & Ht) [Hn Hna]] Hl.
  assert (Hy : from_broker (c_version (x_c x)) (c_inboundMax (x_c x)) (h, body)).
  { split; [|done]. split_and!; [done|done| |]; unfold bytes_of; cbn [fst snd]; [|by rewrite Hn]. intros Hp p Hd. by eapply Hna. }
  change (packet_bytes h body) with (bytes_of (h, body)) in *.
  rewrite <- (bytes_of_one (h, body)). split.
  - apply matches_arriving; [done|done|]. by constructor.
  - destruct (f_link _ _ _ _ Hi l Hl) as (Hr & Hd & _). eapply (inflow_arrive (x_c x) _ (w_read (x_w x)) x _ l [(h, body)]); try done; try apply Hi.
    + apply arrive_written.
    + apply arrive_read.
    + constructor; [apply Hy|done].
    + rewrite (f_live _ _ _ _ Hi). by rewrite Hl.
    + cbn [fmap list_fmap omap list_omap]. rewrite Hn. by rewrite app_nil_r.
Qed.

Lemma overhear_hear v f d : overhear v f = Some d -> hear v f = None /\ (d.1 = Puback \/ d.1 = Pubrec \/ d.1 = Pubcomp).
Proof using Type.
  unfold overhear, hear. destruct (ReadFrame f _) as [[frame rest]|]; [|done]. case_bool_decide as Ht; [|done].
  destruct (DecodeAck _ _ _); [|done]. intros [= <-]. cbn [fst]. rewrite !elem_of_cons, elem_of_nil in Ht. destruct Ht as [Ht|[Ht|[Ht|[]]]]; rewrite Ht; auto.
Qed.

Lemma receive_type u b t id rc : (receive u b).2 = Some (t, id, rc) -> t = Puback \/ t = Pubrec \/ t = Pubcomp.
Proof using Type. destruct u as [p|i]; cbn [receive]; [|naive_solver]. repeat case_match; naive_solver. Qed.

Lemma backlog_arriving l bytes w : c_link (w_c w) = Some l -> backlog (arriving l bytes w) = (backlog w + length bytes)%nat.
Proof using Type.
  intros Hl. unfold backlog, arriving. cbn [with_client w_c w_read]. change (c_link (arrive l bytes (w_c w))) with (c_link (w_c w)).
  rewrite Hl, arrive_written, arrive_read, length_app. lia.
Qed.

(** The broker reads an acknowledgement of the client: its exchange ends, or turns
    over to its PUBREL. *)
Lemma inflow_acknowledged M x e e0 e0' l f t id : matches M (x_w x) e0 -> inflow (x_c x) (w_read (x_w x)) x e -> c_link (x_c x) = Some l ->
  written (x_c x) l !! w_read (x_w x) = Some f -> overhear (c_version (x_c x)) f = Some (t, id) ->
  let w' := mkWorld (x_c x) (w_tasks (x_w x)) (S (w_read (x_w x))) (w_b (x_w x)) (w_log (x_w x)) in
  matches M w' e0' -> calmer (x_w x) e0 w' e0' ->
  exists e', rtc estep e e' /\ imatches M (on_serve w' x) e0' e' /\ closer x e0 e (on_serve w' x) e0' e'.
Proof.
  intros Hm Hi Hl Hf Hov w' Hm' Hcalm. destruct (overhear_hear _ f _ Hov) as [_ Ht]. cbn [fst] in Ht. pose proof (m_inbound _ _ _ Hm) as Hmax.
  unfold on_serve. rewrite Hl, Hf. cbn [mbind option_bind]. rewrite Hov. set (v := c_version (x_c x)) in *.
  destruct (f_link _ _ _ _ Hi l Hl) as (_ & Hd & _). fold v in Hd. rewrite (drop_S _ _ _ Hf) in Hd. cbn [omap list_omap] in Hd. rewrite Hov in Hd.
  assert (Hread : (S (w_read (x_w x)) <= length (written (x_c x) l))%nat) by (apply lookup_lt_Some in Hf; lia).
  destruct Hcalm as [Hcalm|Hcalm]; [change (c_link (w_c w')) with (c_link (x_c x)) in Hcalm; congruence|].
  pose proof (f_live _ _ _ _ Hi) as Elive. rewrite Hl in Elive. pose proof (f_entries _ _ _ _ Hi) as Hent. fold v in Hent. pose proof (f_inv _ _ _ _ Hi) as Hinv.
  destruct e as [live out up down b log]. cbn [e_live e_down is_some] in *. subst live down. pose proof (f_out _ _ _ _ Hi) as Eo. cbn [e_out] in Eo. subst out.
  set (rest := omap (overhear v) _) in *.
  assert (Hkeep : Forall (entry_ok v (c_inboundMax (x_c x))) (drop_out id (x_out x)))
    by (rewrite Forall_forall in Hent |- *; intros y [_ Hy]%elem_of_drop_out; by apply Hent).
  set (e := mkExchanges true (x_out x) up ((t, id) :: rest) b log) in *.
  assert (Hfin : estep e (mkExchanges true (drop_out id (x_out x)) up rest b log) -> let x' := mkDuplex w' (drop_out id (x_out x)) (x_log x) (x_b x) (x_earlier x) (x_seen x) in
    exists e', rtc estep e e' /\ imatches M x' e0' e' /\ closer x e0 e x' e0' e').
  { intros Hst x'. eexists. split; [by apply rtc_once|]. split; [split; [done|]|].
    - eapply (inflow_arrive (x_c x) (x_c x) _ x _ l []); try done; try apply Hi; [by rewrite app_nil_r|by rewrite app_nil_r|]. exact (estep_inv _ _ Hst Hinv).
    - right. unfold load, e, x'. unfold load in Hcalm. cbn [e_up e_down x_w sum_list_with] in *. lia. }
  destruct Ht as [-> | [-> | ->]]; cbn [Z.eqb Pos.eqb Puback Pubrec Pubcomp]; [apply Hfin, e_puback| |apply Hfin, e_pubcomp].
  assert (Hid : 0 < id < 65536).
  { assert (Hin : id ∈ (x_out x).*1) by (exact (down_stored _ _ _ (v_down _ Hinv (Pubrec, id) (list_elem_of_here _ _)))).
    apply list_elem_of_fmap in Hin as (y & -> & Hy). rewrite Forall_forall in Hent. apply (Hent y Hy). }
  assert (Hlen : length (reply v (Pubrel, id, Success)) = 4%nat) by (unfold reply; cbn [fst snd]; change Success with 0; by rewrite (proj1 (pubrel_frame_bytes v id (m_version _ _ _ Hm) Hid))).
  destruct (carry_pubrel v (c_inboundMax (x_c x)) id (m_version _ _ _ Hm) Hid ltac:(apply Hmax)) as (y & Ey & Hy & Hu). rewrite Ey in Hu, Hlen |- *. rewrite <- (bytes_of_one y).
  eexists. split; [apply rtc_once, e_pubrec|]. split; [split; [apply matches_arriving; [done|done|by constructor]|]|].
  - eapply (inflow_arrive (x_c x) _ _ x _ l [y]); try done; try apply Hi.
    + apply arrive_written.
    + apply arrive_read.
    + constructor; [apply Hy|done].
    + cbn. apply Forall_app. split; [done|]. by constructor.
    + cbn [e_up fmap list_fmap omap list_omap]. fold v. by rewrite Hu.
    + exact (estep_inv _ _ (e_pubrec _ _ _ _ _ _) Hinv).
  - right. unfold load, e. cbn [e_up e_down x_w sum_list_with]. rewrite backlog_arriving by exact Hl. rewrite bytes_of_one, Hlen, sum_list_with_app.
    change (hops_down (Pubrec, id)) with 3%nat. unfold load in Hcalm. cbn [sum_list_with hops_up] in *. lia.
Qed.

(** The broker reads a frame of the client. *)
Lemma imatches_serve M x x' e0 e : imatches M x e0 e -> dstep (DAct WServe) x = Some x' ->
  exists e0' e', rtc estep e e' /\ imatches M x' e0' e' /\ closer x e0 e x' e0' e'.
Proof.
  intros [Hm Hi]. cbn [dstep]. destruct (wstep WServe (x_w x)) as [w'|] eqn:Hstep; [|done]. cbn [mbind option_bind]. intros [= <-].
  destruct (matches_serve M (x_w x) w' e0 Hm Hstep) as (e0' & _ & Hm' & Hcalm). cbn [wstep] in Hstep. fold (x_c x) in Hstep.
  destruct (c_link (x_c x)) as [l|] eqn:Hl; [|done]. cbn [mbind option_bind] in Hstep.
  destruct (written (x_c x) l !! w_read (x_w x)) as [f|] eqn:Hf; [|done]. cbn [mbind option_bind] in *. set (v := c_version (x_c x)) in *.
  destruct (overhear v f) as [[t id]|] eqn:Hov.
  { destruct (overhear_hear v f _ Hov) as [Hno _]. rewrite Hno in Hstep. injection Hstep as <-. exists e0'.
    exact (inflow_acknowledged M x e e0 e0' l f t id Hm Hi Hl Hf Hov Hm' Hcalm). }
  destruct (f_link _ _ _ _ Hi l Hl) as (Hr & Hd & _). fold v in Hd. rewrite (drop_S _ _ _ Hf) in Hd. cbn [omap list_omap] in Hd. rewrite Hov in Hd.
  assert (Hread : (S (w_read (x_w x)) <= length (written (x_c x) l))%nat) by (apply lookup_lt_Some in Hf; lia).
  pose proof (f_live _ _ _ _ Hi) as Elive. rewrite Hl in Elive. pose proof (m_inbound _ _ _ Hm) as Hmax.
  unfold on_serve. rewrite Hl, Hf. cbn [mbind option_bind]. fold v. rewrite Hov. exists e0', e. split; [done|]. split; [split; [done|]|].
  2: { destruct Hcalm as [|Hcalm]; [by left|right]. cbn [in_world x_w]. lia. }
  cbn [x_c in_world x_w].
  assert (Hgo : forall c' ys, w_c w' = c' -> w_read w' = S (w_read (x_w x)) -> c_link c' = c_link (x_c x) -> c_version c' = v -> c_inboundMax c' = c_inboundMax (x_c x) ->
    c_calls c' = c_calls (x_c x) -> c_store c' = c_store (x_c x) -> written c' l = written (x_c x) l ->
    cn_r (the_conn c' l) = cn_r (the_conn (x_c x) l) ++ concat (bytes_of <$> ys) -> Forall (frame_ok v (c_inboundMax (x_c x))) ys ->
    omap (heed v) (bytes_of <$> ys) = [] -> inflow (w_c w') (w_read w') (in_world w' x) e).
  { intros c' ys -> -> H1 H2 H3 H4 H5 H6 H7 H8 H9. eapply (inflow_arrive (x_c x) c' _ x e l ys); try done; try apply Hi. fold v. rewrite H9. by rewrite app_nil_r. }
  assert (Hsame : w_c w' = x_c x -> w_read w' = S (w_read (x_w x)) -> inflow (w_c w') (w_read w') (in_world w' x) e).
  { intros E1 E2. apply (Hgo (x_c x) []); try done. by rewrite app_nil_r. }
  destruct (hear v f) as [u|]; [|injection Hstep as <-; by apply Hsame]. destruct (receive u (w_b (x_w x))) as [b' [[[t id] rc]|]] eqn:Hrec; injection Hstep as <-; [|by apply Hsame].
  destruct (reply_frame v t id rc (c_inboundMax (x_c x))) as (ys & Ey & Hys & Hn); [|apply Hmax|].
  { eapply receive_type. by rewrite Hrec. }
  eapply (Hgo _ ys); try done; [apply arrive_written|]. rewrite Ey. apply arrive_read.
Qed.

Lemma taken_qos v frame u : taken v frame = Some u -> forall p, u = UPub p -> 0 <= pub_QoS p <= 2.
Proof using Type.
  unfold taken. intros H p ->. destruct (Frame_ValidateFlags frame); [|done]. destruct (_ =? Publish).
  - destruct (DecodePublish _ _ _) as [q|] eqn:E; [|done]. injection H as ->. by eapply DecodePublish_qos.
  - destruct (_ =? Pubrel); [|done]. by destruct (DecodeAck _ _ _).
Qed.

(** * The client reads a frame *)

Section read.
Variables (M : Z) (x : duplex (St := St)) (e : exchanges) (l : nat) (y : Z * list Z) (ys : list (Z * list Z)).
Hypothesis Hfits : M = 0 \/ 5 <= M.
Hypothesis Hm : exists e0, matches M (x_w x) e0.
Hypothesis Hi : inflow (x_c x) (w_read (x_w x)) x e.
Hypothesis Hl : c_link (x_c x) = Some l.
Hypothesis Hroom : store_room (c_store (x_c x)).
Hypothesis Hr : cn_r (the_conn (x_c x) l) = concat (bytes_of <$> (y :: ys)).
Hypothesis Hy : frame_ok (c_version (x_c x)) (c_inboundMax (x_c x)) y.
Hypothesis Hys : Forall (frame_ok (c_version (x_c x)) (c_inboundMax (x_c x))) ys.
Hypothesis Hup : e_up e = omap (heed (c_version (x_c x))) (bytes_of <$> (y :: ys)).

Let c := x_c x.
Let v := c_version c.
Let c1 := taken_from l (concat (bytes_of <$> ys)) c.
Let frame := mkFrame y.1 y.2.

Lemma read_frame : ReadFrame (cn_r (the_conn c l)) (l_inboundMax (the_link c l)) = Ok (frame, concat (bytes_of <$> ys)) /\
  readLoop_turn l c = match Frame_ValidateFlags frame with
    | Err _ => (_ ← protocolError l MalformedPacketReason; mret false) c1 | Ok _ => handleFrame l frame c1 end.
Proof.
  destruct Hm as [e0 Hm0]. pose proof (m_inbound _ _ _ Hm0) as Hmax. destruct (m_link _ _ _ Hm0 l Hl) as (_ & _ & L3 & _). destruct Hy as (Hb & Hlen & _).
  pose proof Hr as Hr'. rewrite fmap_cons, concat_cons in Hr'. fold c in Hr'. unfold bytes_of at 1 in Hr'. fold (x_c x) in L3, Hmax. fold c in L3, Hmax. split.
  - rewrite Hr', L3. apply ReadFrame_packet; [done|unfold in_u32; lia|done].
  - apply (readLoop_turn_frame l y.1 y.2 _ (c_inboundMax c)); try done; [apply Hm0|unfold in_u32; lia].
Qed.

Lemma taken_ready : good [l] c1 /\ store_ok (c_store c1) /\ Version_Valid v = true /\
  (l_outboundMax (the_link c1 l) = 0 \/ 5 <= l_outboundMax (the_link c1 l)).
Proof.
  destruct Hm as [e0 Hm0]. destruct (link_good M (x_w x) e0 l Hm0 Hl) as [_ Hg]. destruct (m_link _ _ _ Hm0 l Hl) as (_ & L2 & _).
  split_and!; [by apply taken_good|apply Hm0|apply Hm0|]. change (the_link c1 l) with (the_link (w_c (x_w x)) l). by rewrite L2.
Qed.

(** Without its first frame the connection carries the rest. *)
Lemma inflow_skip : heed v (bytes_of y) = None -> inflow c1 (w_read (x_w x)) x e.
Proof.
  intros Hn. pose proof Hup as Hup'. rewrite fmap_cons in Hup'. cbn [omap list_omap] in Hup'. fold c v in Hup'. rewrite Hn in Hup'.
  destruct Hi as [Ho Hb Hlog Hlive Hent Hs Hc Hgot Hlk Hinv]. split; try done. intros l' Hl'. assert (l' = l) as -> by (cbn in Hl'; fold c in Hl; congruence).
  destruct (Hlk l Hl) as (Hread & Hd & _). unfold on_in, c1. rewrite taken_written, taken_read. split_and!; [done..|]. by exists ys.
Qed.

Lemma took_load u : heed v (bytes_of y) = Some (plain u) \/ heed v (bytes_of y) = None /\ (exists p, u = UPub p /\ pub_QoS p = 0) ->
  (load (mkExchanges true (x_out x) (omap (heed v) (bytes_of <$> ys)) (e_down e ++ option_list (fst <$> (receive (plain u) (x_b x)).2))
    (receive (plain u) (x_b x)).1 (x_log x)) <= load e)%nat.
Proof.
  intros Hu. pose proof Hup as Hup'. rewrite fmap_cons in Hup'. cbn [omap list_omap] in Hup'. fold c v in Hup'.
  destruct Hu as [Hu|[Hu (p & -> & Hq)]]; rewrite Hu in Hup'.
  - assert (Hq : forall p, plain u = UPub p -> pub_QoS p = 1 \/ pub_QoS p = 2).
    { intros p Ep. destruct (v_up _ (f_inv _ _ _ _ Hi) (plain u)) as ([i o] & Hz & Eu); [rewrite Hup'; apply list_elem_of_here|]. rewrite Ep in Eu.
      destruct o as [q|]; [|done]. injection Eu as ->. apply (v_pub _ (f_inv _ _ _ _ Hi) i q Hz). }
    destruct (receive_answer (plain u) (x_b x) Hq) as (t & rc & Ea & _). pose proof (serve_load (x_out x) (plain u) (omap (heed v) (bytes_of <$> ys)) (e_down e) (x_b x) (x_log x) _ Hq Ea) as H.
    rewrite Ea. unfold load in *. rewrite Hup'. cbn [e_up e_down fmap option_fmap option_map] in *. change (option_list (Some ?z)) with [z]. lia.
  - unfold load. rewrite Hup'. cbn [plain receive undup pub_QoS]. rewrite Hq. cbn [Z.eqb e_up e_down fst snd fmap option_fmap option_map option_list]. by rewrite app_nil_r.
Qed.

(** What is noted down about a packet. *)
Definition noted (u : upward) (w' : world (St := St)) (cut : bool) : duplex (St := St) :=
  mkDuplex w' (x_out x) (x_log x) (if cut then x_b x else (receive (plain u) (x_b x)).1) (x_earlier x)
    (x_seen x ++ ((fun p => mkSighting (c_table c) p (negb cut)) <$> passes u (x_b x))).

Lemma noted_calls u w' cut : all_calls (noted u w' cut) = all_calls x ++ (passes u (x_b x) ≫= fun p => routed (c_table c) (toMessage p)).
Proof using Type.
  unfold all_calls, noted. cbn [x_earlier x_seen]. rewrite bind_app, app_assoc. f_equal. clear.
  induction (passes u (x_b x)) as [|p ps IH]; [done|]. cbn. by rewrite IH.
Qed.

Lemma noted_got u w' cut : (forall p, u = UPub p -> 0 <= pub_QoS p <= 2) -> r_got (x_b x) = arrivals (x_seen x) -> r_got (x_b (noted u w' cut)) = arrivals (x_seen (noted u w' cut)).
Proof using Type.
  intros Hq Hgot. clear -Hq Hgot. unfold arrivals, noted. cbn [x_b x_seen]. rewrite filter_app, fmap_app. fold (arrivals (x_seen x)). rewrite <- Hgot. destruct cut; cbn [negb].
  - destruct (passes u (x_b x)) as [|p [|q ps]] eqn:E; cbn; rewrite ?app_nil_r; try done. by destruct u; cbn in E; [case_bool_decide|].
  - destruct u as [p|id]; cbn; [|by rewrite app_nil_r]. specialize (Hq p eq_refl).
    repeat case_match; bool_prop; cbn; rewrite ?app_nil_r; try done; exfalso; naive_solver lia.
Qed.

(** The packet was taken as the receiver takes it. *)
Lemma inflow_took u c' : (forall p, u = UPub p -> 0 <= pub_QoS p <= 2) -> took u (x_b x) c1 c' ->
  (heed v (bytes_of y) = Some (plain u) \/ heed v (bytes_of y) = None /\ exists p, u = UPub p /\ pub_QoS p = 0) ->
  forall w', w_c w' = c' -> w_read w' = w_read (x_w x) -> exists e', rtc estep e e' /\ (c_link c' = None \/ (load e' <= load e)%nat) /\
    inflow c' (w_read w') (noted u w' false) e'.
Proof.
  intros Hqos [S V I C L] Hu w' Ew ->. pose proof (took_load u Hu) as Hload. pose proof Hup as Hup'. rewrite fmap_cons in Hup'. cbn [omap list_omap] in Hup'. fold c v in Hup'.
  destruct e as [live out up down b log]. destruct Hi as [Ho Hb Hlog Hlive Hent Hs Hc Hgot Hlk Hinv]. cbn [e_out e_b e_log e_live e_up] in *. subst out b log.
  rewrite Hl in Hlive. cbn [is_some] in Hlive. subst live. destruct (Hlk l Hl) as (Hread & Hd & _). cbn [e_down] in Hd. fold c v in Hd, Hread.
  set (e' := mkExchanges true (x_out x) (omap (heed v) (bytes_of <$> ys)) (down ++ option_list (fst <$> (receive (plain u) (x_b x)).2)) (receive (plain u) (x_b x)).1 (x_log x)).
  assert (Hsteps : rtc estep (mkExchanges true (x_out x) up down (x_b x) (x_log x)) e').
  { apply rtc_once. unfold e'. destruct Hu as [Hu|[Hu (p & -> & Hq)]]; rewrite Hu in Hup'; rewrite Hup'; [apply e_serve|].
    cbn [plain receive pub_QoS undup]. rewrite Hq. cbn [Z.eqb fst snd fmap option_fmap option_map option_list]. rewrite app_nil_r. by apply e_qos0. }
  assert (Hcalls : c_calls c' = all_calls (noted u w' false)) by (rewrite noted_calls, C, <- Hc; done).
  pose proof (noted_got u w' false Hqos Hgot) as Hgot'.
  assert (Hinv' := esteps_inv _ _ Hsteps Hinv). destruct L as [Hn|(fs & [El Hst] & Hov)].
  - exists (dropped e'). assert (Hdr := dropped_step e'). split; [by etrans|]. split; [by left|]. split; cbn [dropped e_out e_b e_log e_live e_up e_down]; rewrite ?V, ?I, ?Hn; try done.
    exact (esteps_inv _ _ Hdr Hinv').
  - exists e'. split; [done|]. split; [right; exact Hload|]. change (c_link c1) with (c_link c) in El, Hst. fold c in Hl. split; cbn [e' e_out e_b e_log e_live e_up e_down]; rewrite ?V, ?I, ?El, ?Hl; try done.
    intros l' [= <-]. destruct (Hst l Hl) as (_ & _ & _ & E4 & E5). unfold on_in. rewrite V, I, E4, E5. unfold c1. rewrite taken_written, taken_read, length_app.
    split_and!; [lia| |by exists ys]. rewrite drop_app_le, omap_app by lia. rewrite Hd. f_equal. exact (eq_sym Hov).
Qed.

(** The connection was lost while the handlers of the message ran. *)
Lemma inflow_cut p c' : cut_short p (x_b x) c1 c' -> forall w', w_c w' = c' ->
  exists e', rtc estep e e' /\ c_link c' = None /\ inflow c' (w_read (x_w x)) (noted (UPub p) w' true) e'.
Proof.
  intros [[Hq Hn] S V I C L] w' Ew. exists (dropped e). assert (Hdr := dropped_step e). split; [done|]. split; [done|].
  destruct Hi as [Ho Hb Hlog Hlive Hent Hs Hc Hgot Hlk Hinv].
  split; cbn [dropped e_out e_b e_log e_live e_up e_down noted x_out x_b x_log]; rewrite ?V, ?I, ?L; try done.
  - intros id. rewrite S. apply Hs.
  - rewrite noted_calls, C, <- Hc. cbn [passes]. rewrite bool_decide_eq_false_2 by tauto. cbn. by rewrite app_nil_r.
  - apply (noted_got (UPub p) w' true); [|done]. intros q [= <-]. lia.
  - exact (esteps_inv _ _ Hdr Hinv).
Qed.

Lemma in_range u : heed v (bytes_of y) = Some (plain u) -> 0 < up_id u < 65536.
Proof.
  intros Hu. pose proof Hup as Hup'. rewrite fmap_cons in Hup'. cbn [omap list_omap] in Hup'. fold c v in Hup'. rewrite Hu in Hup'.
  destruct (v_up _ (f_inv _ _ _ _ Hi) (plain u)) as (z & Hz & Eu); [rewrite Hup'; apply list_elem_of_here|].
  assert (Eid : up_id u = z.1).
  { rewrite <- (again_id e z (f_inv _ _ _ _ Hi) Hz), <- Eu. by destruct u. }
  rewrite Eid. rewrite (f_out _ _ _ _ Hi) in Hz. pose proof (f_entries _ _ _ _ Hi) as Hent. rewrite Forall_forall in Hent. apply (Hent z Hz).
Qed.

Lemma inflow_read w' : w_c w' = (readLoop_turn l c).2 -> w_read w' = w_read (x_w x) ->
  exists e', rtc estep e e' /\ (c_link (w_c w') = None \/ (load e' <= load e)%nat) /\ inflow (w_c w') (w_read w') (on_read w' x) e'.
Proof.
  intros Ew Erd. destruct read_frame as [Er Et]. destruct taken_ready as (Hg & Hok & Hv & Hmax). unfold on_read. rewrite Hl. fold c. rewrite Er. fold v.
  destruct Hy as (Hb & Hlen & Hna & Hflags). pose proof Hy as Hy'. rewrite Ew, Erd, Et. destruct (taken v frame) as [u|] eqn:Hu.
  - assert (Hh := taken_hear v y.1 y.2 u Hb Hu). fold (bytes_of y) in Hh.
    assert (Hcase : heed v (bytes_of y) = Some (plain u) \/ heed v (bytes_of y) = None /\ exists p, u = UPub p /\ pub_QoS p = 0).
    { unfold heed. rewrite Hh. destruct u as [p|id]; [|by left]. cbn [plain undup pub_QoS]. destruct (Z.eqb_spec (pub_QoS p) 0); [right; eauto|by left]. }
    destruct (took_turn l c1 (x_b x) Hg Hl Hok Hroom Hv Hmax (f_stored _ _ _ _ Hi) frame u Hu) as [Hfl Htk].
    { destruct u as [p|id]; [|destruct Hcase as [Hc|[_ (p & [=] & _)]]; exact (in_range _ Hc)]. split.
      - unfold taken in Hu. destruct (Frame_ValidateFlags frame); [|done]. destruct (Z.eqb_spec (Frame_PacketType frame) Publish) as [Ht|].
        + destruct (DecodePublish _ _ _) as [q|] eqn:Hd; [|done]. injection Hu as ->. by apply (Hna Ht).
        + destruct (_ =? Pubrel); [|done]. by destruct (DecodeAck _ _ _).
      - destruct Hcase as [Hc|[_ (q & [= ->] & Hq)]]; [right; exact (in_range _ Hc)|by left]. }
    rewrite Hfl. change (mkDuplex w' _ _ _ _ _) with (noted u w' (interrupted l (passes u (x_b x)) c1)). unfold received in Htk.
    destruct (interrupted l (passes u (x_b x)) c1).
    + destruct Htk as (p & -> & Htk). destruct (inflow_cut p _ Htk w') as (e' & H1 & H2 & H3); [by rewrite Ew, Et, Hfl|]. exists e'. auto.
    + pose proof (inflow_took u _ (taken_qos v frame u Hu) Htk Hcase w') as H. rewrite Ew, Et, Hfl, Erd in H. by apply H.
  - assert (Hn : heed v (bytes_of y) = None).
    { destruct (heed v (bytes_of y)) as [u|] eqn:Hu'; [|done]. exfalso. assert (Hfl := Hflags ltac:(fold c v; by rewrite Hu')).
      destruct (heed_cases v (bytes_of y)) as [E|(p & _ & _ & E)]; [|congruence]. rewrite Hu' in E. symmetry in E.
      destruct (hear_taken v y.1 y.2 u Hb Hfl E) as (u' & Hu2 & _). fold frame in Hu2. congruence. }
    assert (Ha := aside_turn l frame c1 Hg Hok Hroom Hu). destruct Ha as (_ & _ & Hsp).
    destruct (inflow_spared c1 _ _ x e (inflow_skip Hn) Hsp) as (e' & Hs & Hld & Hi'). exists e'. split_and!; [done|done|by apply inflow_world].
Qed.
End read.

Lemma imatches_read M x x' e0 e : M = 0 \/ 5 <= M -> imatches M x e0 e -> lawful M WRead (x_w x) -> dstep (DAct WRead) x = Some x' ->
  exists e0' e', rtc estep e e' /\ imatches M x' e0' e' /\ closer x e0 e x' e0' e'.
Proof.
  intros Hfits [Hm0 Hi] Hroom. cbn [dstep]. destruct (wstep WRead (x_w x)) as [w'|] eqn:Hstep; [|done]. cbn [mbind option_bind]. intros [= <-].
  destruct (Answers.matches_read M (x_w x) e0 Hm0 Hroom w' Hstep) as (e0' & _ & Hm' & Hcalm). cbn [wstep] in Hstep. fold (x_c x) in Hstep.
  destruct (c_link (x_c x)) as [l|] eqn:Hl; [|done]. cbn [mbind option_bind] in Hstep. case_bool_decide as Hne; [done|]. injection Hstep as <-.
  destruct (f_link _ _ _ _ Hi l Hl) as (_ & _ & ys & Hr & Hys & Hup). destruct ys as [|y ys]; [by rewrite Hr in Hne|]. apply Forall_cons in Hys as [Hy Hys].
  destruct (inflow_read M x e l y ys Hfits (ex_intro _ e0 Hm0) Hi Hl Hroom Hr Hy Hys Hup (with_client (readLoop_turn l (x_c x)).2 (x_w x)) eq_refl eq_refl) as (e' & Hs & Hld & Hi').
  exists e0', e'. split; [done|]. assert (Ew : x_w (on_read (with_client (readLoop_turn l (x_c x)).2 (x_w x)) x) = with_client (readLoop_turn l (x_c x)).2 (x_w x)).
  { unfold on_read. rewrite Hl. destruct (ReadFrame _ _) as [[frame rest]|]; [destruct (taken _ _)|]; done. }
  unfold imatches, closer, x_c in *. rewrite Ew. split; [done|]. destruct Hcalm as [|Hcalm]; [by left|]. destruct Hld as [|Hld]; [by left|right]. lia.
Qed.
End inflow.
