(* ===== verification/Receipt.v ===== *)
(** Delivery from the broker to the handlers, from one end to the other. *)

From S2P Require Import Prelude GoStrings Codes Wire WireFacts Props PropsFacts PublishPackets ControlPackets.
From S2P Require Import SubscribePackets Topic SessionStore Errors IdAllocator Quota Subscriptions Lifecycle.
From S2P Require Import Client Pump Requests Connection ClientFacts InboundFacts SessionFacts RequestFacts LinkFacts OutboundFacts Wellformed.
From S2P Require Import Delivery World WorldFacts Ownership PublishFacts Simulation Traffic Answers Resume EndToEnd Duplex Receiving Inflow.
From stdpp Require Import options.

(** Replayed packets acknowledge nothing. *)
Lemma replay_unacknowledged v M msgs : Forall (good_entry v M) (entry_of <$> msgs) -> omap (overhear v) (replay_frames v M msgs) = [].
Proof.
  intros Hg. unfold replay_frames. induction msgs as [|m msgs IH]; [done|]. apply Forall_cons in Hg as [[Hp _] Hg]. cbn [omap list_omap].
  destruct (replay_encoder v m ≫= frame_of M) as [f|] eqn:Hf; [|by apply IH]. cbn [omap list_omap].
  enough (overhear v f = None) as -> by (by apply IH). unfold replay_encoder in Hf. cbn [entry_of key_of fst snd] in Hp.
  assert (Hok : forall encode, frame_of M encode = Some f -> encode [] = Ok f).
  { intros encode. unfold frame_of. destruct (encode []); [|done]. destruct (_ && _); congruence. }
  destruct (Z.eqb_spec (sm_Kind m) StoredPublish) as [E|_].
  - destruct (Hp E) as (p & Ep & Hver & Hd & Hpid & Hwf & Hpub & Hq & _). rewrite Ep in Hf. cbn [mbind option_bind] in Hf. apply Hok in Hf.
    apply PublishPacket_Encode_body in Hf as (body & Hb & -> & Hq2 & Hdup & _); [|done..].
    destruct (publish_header_flags true (pub_Retain p) (pub_QoS p) ltac:(lia) Hdup) as (_ & _ & _ & _ & Ht). cbn [app with_Dup pub_Dup pub_Retain pub_QoS].
    rewrite overhear_packet by done. rewrite (Ht [] : Z.shiftr (publish_header true (pub_Retain p) (pub_QoS p)) 4 = Publish). by rewrite bool_decide_eq_false_2 by by_decide.
  - destruct (_ =? StoredPubrel); [|done]. cbn [mbind option_bind] in Hf. apply Hok in Hf as (body & Hb & ->)%encoded_ack.
    rewrite overhear_packet by done. by rewrite bool_decide_eq_false_2 by by_decide.
Qed.

Section receipt.
Context {St : Type} {HS : SessionStore St} {HC : ContainsStore St} {HE : Environment St}.
Context {HL : SessionStoreLaws St} {HR : ReliableStore St} {HO : Observers St}.
Implicit Types c : client St.
Implicit Types w : world (St := St).
Implicit Types x : duplex (St := St).
Set Default Proof Using "Type*".

(** * A connect *)

Definition resumes c c' : Prop :=
  c_version c' = c_version c /\ c_inboundMax c' = c_inboundMax c /\ c_calls c' = c_calls c /\
  (forall id, stored id StoredInboundID c' <-> gen (c_ids c') = gen (c_ids c) /\ stored id StoredInboundID c) /\
  (c_link c' = None \/ exists l, c_link c' = Some l /\ cn_r (the_conn c' l) = [] /\ omap (overhear (c_version c)) (written c' l) = []).

Lemma Connect_resumes M w e0 d : matches M w e0 -> lawful M (WConnect d) w -> c_link (w_c w) = None -> resumes (w_c w) (client_Connect d (w_c w)).2.
Proof.
  intros Hm [Hg Hlaw] Hl. pose proof (silent_Connect d (w_c w)) as Hcalls.
  destruct (Connect_cases d (w_c w) Hl) as [(err & c' & E & Ec)|(k & c1 & ack & connect & frame & rest & E & Ec & Hmute & Hr & Hdec & Hw1 & Hr1)]; rewrite E in Hcalls |- *.
  - cbn [snd] in *. unfold resumes, stored. rewrite Ec. csimp. split_and!; [done..| |by left]. intros id. tauto.
  - destruct (Hlaw frame rest ack Hr) as [-> HM]. specialize (HM Hdec). clear E Hlaw.
    assert (Hl1 : c_link c1 = None) by (by rewrite Ec). assert (Es1 : c_store c1 = c_store (w_c w)) by (by rewrite Ec).
    assert (Ei1 : c_ids c1 = c_ids (w_c w)) by (by rewrite Ec). assert (Ev1 : c_version c1 = c_version (w_c w)) by (by rewrite Ec).
    assert (Em1 : c_inboundMax c1 = c_inboundMax (w_c w)) by (by rewrite Ec).
    pose proof (establish_session k (d_now d) ack c1 (e_out e0).*1 (holds <$> w_tasks w) Hl1) as H. cbn zeta in H. rewrite Es1, Ei1, Ev1, Em1, Hw1, Hr1, HM in H.
    specialize (H (m_store _ _ _ Hm) (m_owned _ _ _ Hm) Hg). set (r := buildConnectResult ack) in *.
    pose proof (kept_contents r c1 ltac:(rewrite Es1; apply Hm)) as Hkept. rewrite Es1 in Hkept. set (rs := resetsSession r c1) in *.
    destruct (establish k (d_now d) ack c1) as [[err aw] c']. cbn [snd] in *. destruct H as (E1 & E2 & _ & E4 & _ & E6 & E7).
    split_and!; [done..| |].
    + intros id. unfold stored. rewrite E4, E6. destruct rs; cbn [keeps]; [|intuition lia]. split; [by intros ?%elem_of_nil|lia].
    + destruct E7 as [|(l & fs & E7 & _ & _ & _ & L4 & Hfs & L5)]; [by left|right]. exists l. split_and!; [done..|].
      rewrite L5, !omap_app, (omap_unacknowledged _ _ Hfs). cbn [omap list_omap]. rewrite (proj2 Hmute), replay_unacknowledged; [done|].
      rewrite Hkept. unfold keeps. destruct rs; [constructor|apply Hm].
Qed.

Lemma inflow_connected w x e c' (w' : world (St := St)) : x_w x = w -> inflow (w_c w) (w_read w) x e -> c_link (w_c w) = None ->
  Version_Valid (c_version (w_c w)) = true -> 5 <= c_inboundMax (w_c w) -> resumes (w_c w) c' -> w_c w' = c' -> w_read w' = 0%nat ->
  exists e', rtc estep e e' /\ inflow (w_c (x_w (on_connect w' x))) (w_read (x_w (on_connect w' x))) (on_connect w' x) e'.
Proof.
  intros Ew Hi Hl Hv Hmax (V & I & C & Hs & Hlink) Ec Erd. unfold on_connect, x_c. rewrite Ew, Ec. destruct Hi as [Ho Hb Hlog Hlive Hent Hst Hcalls Hgot _ Hinv].
  destruct (Z.eqb_spec (gen (c_ids c')) (gen (c_ids (w_c w)))) as [Eg|Eg].
  - assert (Hstored : forall id, stored id StoredInboundID c' <-> id ∈ r_awaiting (x_b x)) by (intros id; rewrite Hs, Hst; tauto).
    destruct Hlink as [Hn|(l & El & Hr & Hov)].
    + exists (dropped e). assert (Hd := dropped_step e). split; [done|]. rewrite Hn. cbn [in_world x_w]. rewrite Ec.
      split; cbn [dropped e_out e_b e_log e_live e_up e_down in_world x_out x_b x_log]; rewrite ?V, ?I, ?Hn; try done; [by rewrite C|exact (esteps_inv _ _ Hd Hinv)].
    + assert (Hres := resumed_step e). eexists. split; [exact Hres|]. rewrite El. cbn [in_world arriving with_client x_w w_c w_read]. rewrite Ec, Erd.
      destruct (carry_all _ _ _ Hv Hmax Hent) as (ys & Eys & Hys & Hh). rewrite Eys.
      split; cbn [e_out e_b e_log e_live e_up e_down in_world x_out x_b x_log]; try done.
      * by change (c_link (arrive l _ c')) with (c_link c'); rewrite El.
      * change (Forall (entry_ok (c_version c') (c_inboundMax c')) (x_out x)). by rewrite V, I.
      * change (c_calls c' = all_calls x). by rewrite <- Hcalls, <- C.
      * intros l' Hl'. assert (l' = l) as -> by (change (c_link (arrive l (concat (bytes_of <$> ys)) c')) with (c_link c') in Hl'; congruence).
        unfold on_in. rewrite arrive_written, arrive_read. change (c_version (arrive l _ c')) with (c_version c'). change (c_inboundMax (arrive l _ c')) with (c_inboundMax c').
        rewrite V, I, Hr, drop_0, Hov. split_and!; [lia|done|]. exists ys. split_and!; [done| |by rewrite Ho].
        eapply Forall_impl; [exact Hys|]. by intros y [].
      * exact (esteps_inv _ _ Hres Hinv).
  - assert (Hren := renewed_step true e). assert (Hinv1 := esteps_inv _ _ Hren Hinv). cbn [renewed] in *. cbn [x_w]. rewrite Ec, Erd.
    assert (Hold : c_calls c' = all_calls x ++ []) by (by rewrite app_nil_r, C).
    assert (Hstored : forall id, stored id StoredInboundID c' <-> id ∈ r_awaiting (mkReceiver [] [])) by (intros id; rewrite Hs; split; [tauto|by intros ?%elem_of_nil]).
    destruct Hlink as [Hn|(l & El & Hr & Hov)].
    + eexists. split; [exact Hren|]. split; cbn [e_out e_b e_log e_live e_up e_down x_out x_b x_log]; rewrite ?Hn; done.
    + eexists. assert (Hres := resumed_step (mkExchanges false [] [] [] (mkReceiver [] []) [])). split; [etrans; [exact Hren|exact Hres]|].
      split; cbn [e_out e_b e_log e_live e_up e_down x_out x_b x_log]; rewrite ?El; try done; [|exact (esteps_inv _ _ Hres Hinv1)].
      intros l' [= <-]. unfold on_in. rewrite V, I, Hr, drop_0, Hov. split_and!; [lia|done|]. by exists [].
Qed.

Lemma imatches_connect M x x' e0 e d : imatches M x e0 e -> lawful M (WConnect d) (x_w x) -> dstep (DAct (WConnect d)) x = Some x' ->
  exists e0' e', rtc estep e e' /\ imatches M x' e0' e'.
Proof.
  intros [Hm Hi] Hlaw. cbn [dstep]. destruct (wstep (WConnect d) (x_w x)) as [w'|] eqn:Hstep; [|done]. cbn [mbind option_bind]. intros [= <-].
  destruct (matches_step M (WConnect d) (x_w x) w' e0 Hm Hlaw Hstep) as (e0' & _ & Hm'). cbn [wstep] in Hstep.
  destruct (c_link (w_c (x_w x))) as [l|] eqn:Hl; [done|]. cbn [is_some] in Hstep. assert (Hres := Connect_resumes M (x_w x) e0 d Hm Hlaw Hl).
  destruct (client_Connect d (w_c (x_w x))) as [[err aw] c'] eqn:Hc. cbn [snd] in Hres.
  assert (Ew : w_c w' = c' /\ w_read w' = 0%nat) by (destruct (_ =? _); by injection Hstep as <-). destruct Ew as [Ew Erd]. clear Hstep.
  destruct (inflow_connected (x_w x) x e c' w' eq_refl Hi Hl (m_version _ _ _ Hm) (proj1 (m_inbound _ _ _ Hm)) Hres Ew Erd) as (e' & Hs & Hi').
  exists e0', e'. split; [done|]. split; [|done]. clear Hi' Hs. unfold on_connect. destruct (_ =? _); [|done]. destruct (c_link (w_c w')) as [l|] eqn:Hl'; [|done].
  destruct (carry_all _ _ _ (m_version _ _ _ Hm) (proj1 (m_inbound _ _ _ Hm)) (f_entries _ _ _ _ Hi)) as (ys & Eys & Hys & _).
  cbn [in_world x_w]. unfold x_c. rewrite Eys. apply matches_arriving; [done|done|]. destruct Hres as (V & I & _). by rewrite Ew, V, I.
Qed.

(** * Everything else *)

Lemma published_spared l pkt c out : pub_QoS pkt = 1 \/ pub_QoS pkt = 2 -> (forall id, in_u16 id -> wf_publish (with_PacketID id pkt) /\ publishable (with_PacketID id pkt)) ->
  wf_ids (c_ids c) -> c_version out.2 = c_version c -> c_inboundMax out.2 = c_inboundMax c -> c_calls out.2 = c_calls c ->
  published l pkt c out -> spared c out.2.
Proof.
  intros Hq Hlegal Hids Ev Ei Ec (id & ig & a & f & _ & Hacq & _ & Hok & Hc & Henc & _ & Hst). split; try done.
  - intros i. unfold stored. rewrite Hc, fmap_app, elem_of_app. cbn [fmap list_fmap fst]. rewrite list_elem_of_singleton. split; [|by left]. by intros [|[= _]].
  - right. exists [f]. split; [done|]. pose proof (Acquire_spec _ Hids) as Ha. rewrite Hacq in Ha. destruct Ha as (_ & _ & Hid & _).
    destruct (Hlegal id) as [Hwf Hp]; [unfold in_u16; lia|]. apply PublishPacket_Encode_body in Henc as (body & Hb & -> & Hq2 & Hdup & _); [|done..].
    set (p := with_PacketID id pkt) in *. destruct (publish_header_flags (pub_Dup p) (pub_Retain p) (pub_QoS p)) as (_ & _ & _ & _ & Ht); [cbn in *; lia|done|].
    cbn [app omap list_omap]. rewrite overhear_packet by done. rewrite (Ht [] : Z.shiftr (publish_header (pub_Dup p) (pub_Retain p) (pub_QoS p)) 4 = Publish).
    by rewrite bool_decide_eq_false_2 by by_decide.
Qed.

Lemma Publish_spared M w e0 topic payload qos retain opts : matches M w e0 -> lawful M (WPublish topic payload qos retain opts) w ->
  spared (w_c w) (client_Publish topic payload qos retain opts publish_turns (w_c w)).2.
Proof.
  intros Hm (Hq & Hexp & Hroom). unfold client_Publish. destruct (Publish_check topic payload qos retain opts (w_c w)) as [err|[l pkt]] eqn:Hpc.
  { by apply spared_hushed. }
  destruct (Publish_check_packet (w_c w) topic payload qos retain opts l pkt Hq Hexp Hpc) as (Hl & Hv & Hqos & Hd & Hpid & Hq2 & Hlegal).
  destruct (m_wf _ _ _ Hm) as [Hw _]. destruct (wc_link _ Hw l Hl) as (lk & Hlk & _). destruct (Z.eqb_spec qos 0) as [Hz|Hz].
  - assert (Ep : with_PacketID 0 pkt = pkt) by (destruct pkt; cbn in *; by subst). destruct (Hlegal 0) as [Hwf Hpub]; [by unfold in_u16|]. rewrite Ep in Hwf, Hpub.
    assert (Hh := writeFrame_hushed l (PublishPacket_Encode pkt) (w_c w) Hw (ex_intro _ lk Hlk) (mute_publish0 _ pkt Hwf Hpub Hv (eq_trans Hqos Hz))).
    assert (Hc := silent_writeFrame (Some l) (PublishPacket_Encode pkt) (w_c w)). destruct (writeFrame _ _ (w_c w)) as [err c']. by apply spared_hushed.
  - destruct (publishAcked_const l pkt publish_turns (w_c w)) as [Ev Ei]. pose proof (silent_publishAcked l pkt publish_turns (w_c w)) as Ec.
    destruct (publishAcked_outcome l pkt (w_c w) Hw (m_store _ _ _ Hm) Hroom Hl (fun i => stored_in_use M w e0 i Hm)) as [Hp|Hu].
    + eapply published_spared; try done; [rewrite Hqos; lia|apply Hw].
    + destruct Hu as (_ & _ & Hc & _ & _ & Hlnk). apply spared_steady; try done. intros id. unfold stored. by rewrite Hc.
Qed.

(** An action that is no part of the broker's exchanges. *)
Lemma other_spared M w w' e0 a : matches M w e0 -> lawful M a w -> wstep a w = Some w' ->
  match a with WServe | WRead | WConnect _ | WInject _ => True | _ => spared (w_c w) (w_c w') /\ w_read w' = w_read w end.
Proof.
  intros Hm Hlaw Hstep. pose proof (proj1 (m_wf _ _ _ Hm)) as Hw.
  destruct a as [topic payload qos retain opts| | |frame|graceful| | |d|filter qos handler opts|filter|i ev|topic payload qos retain opts n graceful]; cbn [wstep] in Hstep; try done.
  - pose proof (Publish_spared M w e0 topic payload qos retain opts Hm Hlaw) as H. destruct (client_Publish _ _ _ _ _ _ _) as [pc c']. by injection Hstep as <-.
  - destruct (c_link (w_c w)) as [l|] eqn:Hl; [|done]. injection Hstep as <-. split; [|done]. apply spared_hushed; [by apply teardown_hushed|apply silent_teardown].
  - destruct (c_link (w_c w)) as [l|] eqn:Hl; [|done]. injection Hstep as <-. split; [|done]. destruct (link_good M w e0 l Hm Hl) as [_ Hg].
    apply spared_hushed; [apply tick_serene, Hg|apply silent_tick].
  - injection Hstep as <-. split; [|done]. apply spared_hushed; [by apply Disconnect_hushed|apply silent_Disconnect].
  - destruct (Subscribe_check _ _ _ _) as [|[[l options] subID]]; [done|]. injection Hstep as <-. split; [by apply spared_hushed|done].
  - destruct (Unsubscribe_check _ _) as [|l]; [done|]. injection Hstep as <-. split; [by apply spared_hushed|done].
  - destruct (w_tasks w !! i) as [t|] eqn:Hi; [|done]. cbn [mbind option_bind] in Hstep. pose proof (silent_task ev t (w_c w)) as Hc.
    destruct (task_tame ev t (w_c w) Hw) as [Hh _].
    { intros l Hl. apply (proj2 (m_wf _ _ _ Hm)), list_elem_of_omap. exists t. split; [by eapply list_elem_of_lookup_2|done]. }
    destruct (task_step ev t (w_c w)) as [t' c']. injection Hstep as <-. split; [by apply spared_hushed|done].
  - destruct (torn_call topic payload qos retain opts n graceful (w_c w)) as [[[l pkt] [pc c']]|] eqn:Ht; [|done]. injection Hstep as <-. split; [|done].
    destruct (torn_gives_up M w e0 _ _ _ _ _ _ _ _ _ _ _ Hm Hlaw Ht) as [_ (_ & _ & Hc & _) Hlk Ev Ei _ _ _ _].
    apply spared_steady; try done; [|by eapply silent_torn|by left]. intros id. unfold stored. cbn [snd] in Hc. cbn [w_c with_client]. by rewrite Hc.
Qed.

(** * Every run *)

Lemma imatches_step M a x x' e0 e : M = 0 \/ 5 <= M -> imatches M x e0 e -> dlawful M a x -> dstep a x = Some x' ->
  exists e0' e', rtc estep e e' /\ imatches M x' e0' e'.
Proof.
  intros Hfits Hi Hlaw Hstep. destruct a as [p|a]; [exists e0; by eapply imatches_send|]. pose proof Hlaw as [Hla _].
  assert (Hother : match a with WServe | WRead | WConnect _ | WInject _ => False | _ => True end -> exists e0' e', rtc estep e e' /\ imatches M x' e0' e').
  { intros Ha. destruct Hi as [Hm Hi]. cbn [dstep] in Hstep. destruct (wstep a (x_w x)) as [w'|] eqn:Hs; [|done]. cbn [mbind option_bind] in Hstep.
    destruct (matches_step M a (x_w x) w' e0 Hm Hla Hs) as (e0' & _ & Hm'). pose proof (other_spared M (x_w x) w' e0 a Hm Hla Hs) as Hsp.
    assert (Hx : x' = in_world w' x) by (destruct a; try done; congruence).
    assert (Hsp' : spared (x_c x) (w_c w') /\ w_read w' = w_read (x_w x)) by (by destruct a). destruct Hsp' as [Hsp' Hrd].
    destruct (inflow_spared _ _ _ _ _ Hi Hsp') as (e' & Hst & _ & Hi'). exists e0', e'. split; [done|]. rewrite Hx. split; [done|].
    cbn [in_world x_w x_c]. rewrite Hrd. by apply inflow_world. }
  destruct a; try (by apply Hother).
  - destruct (imatches_serve M x x' e0 e Hi Hstep) as (e0' & e' & ? & ? & _). by exists e0', e'.
  - destruct (imatches_read M x x' e0 e Hfits Hi Hla Hstep) as (e0' & e' & ? & ? & _). by exists e0', e'.
  - exists e0, e. split; [done|]. cbn [dstep wstep] in Hstep. fold (x_c x) in Hstep. destruct (c_link (x_c x)) as [l|] eqn:Hl; [|done]. injection Hstep as <-.
    by eapply (imatches_inject M x e0 e frame l).
  - by eapply imatches_connect.
Qed.

Lemma imatches_start M c : fresh_client c -> imatches M (dstart c) at_rest at_rest.
Proof.
  intros Hf. split; [by apply matches_start|]. destruct Hf as [Hw Hl Hs He Hg Hv Hi].
  split; cbn [dstart x_c x_w x_out x_b x_log start w_c at_rest e_out e_b e_log e_live e_up e_down]; try done; rewrite ?Hl; try done.
  - intros id. unfold stored. cbn. rewrite He. split; by intros ?%elem_of_nil.
  - unfold all_calls. cbn. by rewrite app_nil_r.
  - apply einv_init.
Qed.

Lemma imatches_run M acts x x' e0 e : M = 0 \/ 5 <= M -> imatches M x e0 e -> dlawful_run M acts x -> dsteps acts x = Some x' ->
  exists e0' e', rtc estep e e' /\ imatches M x' e0' e'.
Proof.
  intros Hfits. revert x e0 e. induction acts as [|a acts IH]; intros x e0 e Hm Hlaw Hrun; cbn [dsteps dlawful_run] in *; [simplify_eq; by exists e0, e|].
  destruct Hlaw as [Ha Hrest]. destruct (dstep a x) as [x1|] eqn:Hs; [|done]. cbn [mbind option_bind] in Hrun.
  destruct (imatches_step M a x x1 e0 e Hfits Hm Ha Hs) as (e1 & e2 & H1 & Hm1). destruct (IH x1 e1 e2 Hm1 Hrest Hrun) as (e3 & e4 & H2 & Hm2).
  exists e3, e4. split; [by etrans|done].
Qed.

(** * What is still to be delivered *)

(** The messages with QoS [q] in the broker's session whose identifiers are not
    among [held]. *)
Definition pending (q : Z) (held : list Z) x : list PublishPacket :=
  content <$> filter (fun p => pub_QoS p = q /\ pub_PacketID p ∉ held) (out_pubs (x_out x)).

Lemma imatches_qos2 M x e0 e : imatches M x e0 e -> with_qos 2 (x_log x) = with_qos 2 (r_got (x_b x)) ++ pending 2 (r_awaiting (x_b x)) x.
Proof using Type. intros [_ Hi]. unfold pending. rewrite <- (f_log _ _ _ _ Hi), <- (f_b _ _ _ _ Hi), <- (f_out _ _ _ _ Hi). apply (v_log2 _ (f_inv _ _ _ _ Hi)). Qed.

Lemma imatches_qos1 M x e0 e : imatches M x e0 e -> with_qos 1 (x_log x) ⊆+ with_qos 1 (r_got (x_b x)) ++ pending 1 [] x.
Proof using Type.
  intros [_ Hi]. unfold pending. rewrite <- (f_log _ _ _ _ Hi), <- (f_b _ _ _ _ Hi), <- (f_out _ _ _ _ Hi).
  etrans; [apply (v_log1 _ (f_inv _ _ _ _ Hi))|]. apply submseteq_app; [done|]. apply fmap_submseteq, sublist_submseteq.
  etrans; [apply unacked_fewer|]. unfold unacked. rewrite (filter_ext _ (fun p => pub_QoS p = 1 /\ pub_PacketID p ∉ []) (out_pubs (e_out e))); [done|].
  intros p _. split; intros [? _]; (split; [done|apply not_elem_of_nil]).
Qed.

(** * Coming to rest *)

Definition dhandling (a : daction) : Prop := a = DAct WServe \/ a = DAct WRead.

Lemma dhandling_bound M acts x x' e0 e : M = 0 \/ 5 <= M -> imatches M x e0 e -> Forall dhandling acts -> dlawful_run M acts x -> dsteps acts x = Some x' ->
  (length acts <= 6 * (load e0 + load e) + backlog (x_w x))%nat.
Proof.
  intros Hfits. revert x e0 e. induction acts as [|a acts IH]; intros x e0 e Hm Hh Hlaw Hrun; [cbn; lia|]. apply Forall_cons in Hh as [Ha Hh].
  cbn [dsteps dlawful_run length] in *. destruct Hlaw as [Hla Hlaw]. destruct (dstep a x) as [x1|] eqn:Hs; [|done]. cbn [mbind option_bind] in Hrun.
  assert (Hen : (0 < backlog (x_w x))%nat).
  { destruct Ha as [-> | ->]; cbn [dstep] in Hs; match type of Hs with context [wstep ?b (x_w x)] =>
      destruct (wstep b (x_w x)) as [w1|] eqn:Hw; [|done]; eapply (handling_enabled b); [|exact Hw] end; [by left|by right]. }
  assert (Hcl : exists e1 e2, imatches M x1 e1 e2 /\ closer x e0 e x1 e1 e2).
  { destruct Ha as [-> | ->]; [destruct (imatches_serve M x x1 e0 e Hm Hs) as (e1 & e2 & _ & ? & ?)|
      destruct (imatches_read M x x1 e0 e Hfits Hm (proj1 Hla) Hs) as (e1 & e2 & _ & ? & ?)]; by exists e1, e2. }
  destruct Hcl as (e1 & e2 & Hm1 & [Hnone|Hlt]).
  - destruct acts as [|b acts]; [cbn; lia|]. exfalso. apply Forall_cons in Hh as [Hb _]. cbn [dsteps] in Hrun. unfold x_c in Hnone.
    by destruct Hb as [-> | ->]; cbn [dstep wstep] in Hrun; rewrite Hnone in Hrun.
  - specialize (IH x1 e1 e2 Hm1 Hh Hlaw Hrun). lia.
Qed.

Lemma inflow_load c read x e l : inflow c read x e -> c_link c = Some l ->
  (load e <= 4 * (length (written c l) - read + length (cn_r (the_conn c l))))%nat.
Proof.
  intros Hi Hl. destruct (f_link _ _ _ _ Hi l Hl) as (_ & Ed & ys & Er & _ & Eu). unfold load. rewrite Er, Eu, Ed.
  assert (H1 := sum_omap_le hops_up (heed (c_version c)) 4 (bytes_of <$> ys)). assert (H2 := sum_omap_le hops_down (overhear (c_version c)) 3 (drop read (written c l))).
  rewrite length_drop in H2. rewrite length_fmap in H1. assert (H3 : (length ys <= length (concat (bytes_of <$> ys)))%nat).
  { clear. induction ys as [|y ys IH]; [done|]. rewrite fmap_cons, concat_cons, length_app. unfold bytes_of at 1. cbn [packet_bytes length]. lia. }
  lapply H1; [|intros z u _; unfold hops_up; repeat case_match; lia]. lapply H2; [|intros z d _; unfold hops_down; case_match; lia]. lia.
Qed.

Lemma at_rest_received M x e0 e l : imatches M x e0 e -> c_link (x_c x) = Some l -> wstep WServe (x_w x) = None -> wstep WRead (x_w x) = None -> x_out x = [].
Proof.
  intros [Hm Hi] Hl Hserve Hread. rewrite <- (f_out _ _ _ _ Hi). destruct (f_link _ _ _ _ Hi l Hl) as (_ & Ed & ys & Er & _ & Eu).
  unfold x_c in *. apply einv_rest; [apply Hi|rewrite (f_live _ _ _ _ Hi); by unfold x_c; rewrite Hl|..]; rewrite ?Eu, ?Ed; cbn [wstep] in *; rewrite Hl in *; cbn [mbind option_bind] in *.
  - case_bool_decide as Hne; [|done]. destruct ys as [|y ys]; [done|]. rewrite Er in Hne. by rewrite fmap_cons, concat_cons in Hne.
  - destruct (written (w_c (x_w x)) l !! w_read (x_w x)) as [f|] eqn:Hf; [|apply lookup_ge_None in Hf; by rewrite drop_ge by lia].
    cbn [mbind option_bind] in Hserve. by destruct (hear _ f) as [u|]; [destruct (receive u _)|].
Qed.

(** Only QoS 2 messages are seen without being taken over. *)
Lemma unsettled_step a x x' : dstep a x = Some x' -> (forall s, s ∈ x_seen x -> sg_settled s = false -> pub_QoS (sg_packet s) = 2) ->
  forall s, s ∈ x_seen x' -> sg_settled s = false -> pub_QoS (sg_packet s) = 2.
Proof using Type.
  intros Hs Hx. destruct a as [p|a]; cbn [dstep] in Hs.
  - destruct (c_link (x_c x)); [|done]. cbn in Hs. destruct (PublishPacket_Encode p []); [|done]. by injection Hs as <-.
  - destruct (wstep a (x_w x)) as [w'|]; [|done]. cbn [mbind option_bind] in Hs. injection Hs as <-. destruct a; try exact Hx.
    + unfold on_serve. destruct (c_link (x_c x)); [|done]. destruct (_ ≫= _) as [[t id]|]; [|done]. by destruct (t =? Pubrec).
    + unfold on_read. destruct (c_link (x_c x)) as [l|]; [|done]. destruct (ReadFrame _ _) as [[frame rest]|]; [|done]. destruct (taken _ _) as [u|]; [|done]. cbn [x_seen].
      intros s [Hin|(p & -> & Hp)%list_elem_of_fmap]%elem_of_app; [by apply Hx|]. cbn [sg_settled sg_packet]. intros Hcut%negb_false_iff.
      destruct u as [q|id]; cbn [passes] in *; [|by apply elem_of_nil in Hp]. case_bool_decide; [by apply elem_of_nil in Hp|].
      apply list_elem_of_singleton in Hp as ->. cbn [interrupted] in Hcut. apply andb_true_iff in Hcut as [Hq _]. by apply Z.eqb_eq.
    + unfold on_connect. destruct (_ =? _); [by destruct (c_link _)|]. by intros s ?%elem_of_nil.
Qed.

Lemma unsettled_run acts c x : dsteps acts (dstart c) = Some x -> forall s, s ∈ x_seen x -> sg_settled s = false -> pub_QoS (sg_packet s) = 2.
Proof using Type.
  assert (H0 : forall s, s ∈ x_seen (dstart c) -> sg_settled s = false -> pub_QoS (sg_packet s) = 2) by (by intros s ?%elem_of_nil).
  revert H0. generalize (dstart c) as x0. induction acts as [|a acts IH]; intros x0 H0 Hrun; cbn [dsteps] in Hrun; [by injection Hrun as <-|].
  destruct (dstep a x0) as [x1|] eqn:Hs; [|done]. eapply IH; [|exact Hrun]. by eapply unsettled_step.
Qed.
End receipt.

(** * Theorems *)

(** C3.  The broker's QoS 2 messages reach the handlers exactly once and in order.
    Runs are those of the client and a broker that follows MQTT 4.3, with messages
    in both directions: connections are lost between any two steps, while a
    handler runs or in the middle of a Publish, and sessions are resumed or
    renewed; handlers do not use the client, and a Publish is interleaved with
    nothing but the loss of the connection until it returns or waits.  All handler
    calls there have been are those of earlier sessions and then those of the
    messages seen in this one, in order, each with the subscriptions of its
    moment.  The stored identifiers are the ones the receiver of MQTT 4.3 waits to
    see released.  And the QoS 2 messages the broker sent in this session are, in
    order, those the client has taken over ([arrivals]) and then those still in
    the broker's session that have not reached it.  A message is seen without being
    taken over only when it has QoS 2 and the connection was lost while its
    handlers ran; it then comes, and its handlers are called, again. *)
Theorem inbound_exactly_once_in_order {St} {HS : SessionStore St} {HC : ContainsStore St} {HE : Environment St} {HL : SessionStoreLaws St}
    {HR : ReliableStore St} {HO : Observers St} (c : client St) (M : Z) (acts : list daction) (x : duplex (St := St)) :
  M = 0 \/ 5 <= M -> fresh_client c -> dlawful_run M acts (dstart c) -> dsteps acts (dstart c) = Some x ->
  c_calls (x_c x) = x_earlier x ++ (x_seen x ≫= handled) /\
  (forall id, stored id StoredInboundID (x_c x) <-> id ∈ r_awaiting (x_b x)) /\
  with_qos 2 (x_log x) = with_qos 2 (arrivals (x_seen x)) ++ pending 2 (r_awaiting (x_b x)) x /\
  (forall s, s ∈ x_seen x -> sg_settled s = false -> pub_QoS (sg_packet s) = 2).
Proof.
  intros Hfits Hf Hlaw Hrun. destruct (imatches_run M acts (dstart c) x _ _ Hfits (imatches_start M c Hf) Hlaw Hrun) as (e0 & e & _ & Hm).
  pose proof (f_got _ _ _ _ (proj2 Hm)) as Hgot. rewrite <- Hgot.
  split_and!; [apply Hm|apply Hm|exact (imatches_qos2 M x e0 e Hm)|]. by eapply unsettled_run.
Qed.

(** C4.  QoS 1 messages of the broker reach the handlers at least once, and both
    directions come to rest.  In the same runs, with the handler calls those of
    the messages seen: every QoS 1 message the broker sent in this session is,
    counted with repetitions, among those the client has taken over or those still
    in the broker's session, and nothing is taken over, QoS 0 apart, that the
    broker did not send.  From any state, serving and reading what is under way
    takes at most 49 steps for each frame and byte; when neither side has anything
    left to handle and the connection stands, both sessions are empty: every
    message of either side has arrived, at the handlers and at the broker, the
    QoS 2 ones exactly once and in order. *)
Theorem both_directions_settle {St} {HS : SessionStore St} {HC : ContainsStore St} {HE : Environment St} {HL : SessionStoreLaws St}
    {HR : ReliableStore St} {HO : Observers St} (c : client St) (M : Z) (before after : list daction) (x x' : duplex (St := St)) (l l' : nat) :
  M = 0 \/ 5 <= M -> fresh_client c -> dlawful_run M before (dstart c) -> dsteps before (dstart c) = Some x -> c_link (x_c x) = Some l ->
  Forall dhandling after -> dlawful_run M after x -> dsteps after x = Some x' ->
  c_calls (x_c x) = x_earlier x ++ (x_seen x ≫= handled) /\
  with_qos 1 (x_log x) ⊆+ with_qos 1 (arrivals (x_seen x)) ++ pending 1 [] x /\
  (forall m, m ∈ arrivals (x_seen x) -> pub_QoS m = 0 \/ m ∈ x_log x) /\
  (length after <= 49 * backlog (x_w x))%nat /\
  (c_link (x_c x') = Some l' -> wstep WServe (x_w x') = None -> wstep WRead (x_w x') = None ->
    x_out x' = [] /\ c_calls (x_c x') = x_earlier x' ++ (x_seen x' ≫= handled) /\
    with_qos 2 (x_log x') = with_qos 2 (arrivals (x_seen x')) /\ with_qos 1 (x_log x') ⊆+ with_qos 1 (arrivals (x_seen x')) /\
    (forall id, ~ stored id StoredPublish (x_c x') /\ ~ stored id StoredPubrel (x_c x')) /\
    with_qos 2 (w_log (x_w x')) = with_qos 2 (r_got (w_b (x_w x'))) /\ with_qos 1 (w_log (x_w x')) ⊆+ with_qos 1 (r_got (w_b (x_w x')))).
Proof.
  intros Hfits Hf Hlaw Hrun Hl Hh Hlaw' Hrun'. destruct (imatches_run M before (dstart c) x _ _ Hfits (imatches_start M c Hf) Hlaw Hrun) as (e0 & e & Hs & Hm).
  rewrite <- (f_got _ _ _ _ (proj2 Hm)). split_and!; [apply Hm|exact (imatches_qos1 M x e0 e Hm)|..].
  - rewrite <- (f_b _ _ _ _ (proj2 Hm)), <- (f_log _ _ _ _ (proj2 Hm)). apply (esteps_genuine _ _ Hs einv_init). split; [by intros ? ? ?%elem_of_nil|by intros ? ?%elem_of_nil].
  - pose proof (dhandling_bound M after x x' e0 e Hfits Hm Hh Hlaw' Hrun') as Hb. pose proof (load_backlog M (x_w x) e0 l (proj1 Hm) Hl) as H1.
    pose proof (inflow_load _ _ _ _ l (proj2 Hm) Hl) as H2. unfold backlog in *. unfold x_c in *. rewrite Hl in *. lia.
  - intros Hl' Hserve Hread. destruct (imatches_run M after x x' e0 e Hfits Hm Hlaw' Hrun') as (e0' & e' & _ & Hm'). rewrite <- (f_got _ _ _ _ (proj2 Hm')).
    assert (Hout := at_rest_received M x' e0' e' l' Hm' Hl' Hserve Hread). pose proof (imatches_qos2 M x' e0' e' Hm') as H2. pose proof (imatches_qos1 M x' e0' e' Hm') as H1.
    unfold pending in H1, H2. rewrite Hout in H1, H2. cbn in H1, H2. rewrite app_nil_r in H1, H2.
    destruct (outs_empty M (x_w x') e0' (proj1 Hm') (rest_empty M (x_w x') e0' l' (proj1 Hm') Hl' Hserve Hread)) as [Hst Hd].
    pose proof (matches_qos2 M (x_w x') e0' (proj1 Hm')) as O2. pose proof (matches_qos1 M (x_w x') e0' (proj1 Hm')) as O1. rewrite Hd, app_nil_r in O1, O2.
    pose proof (f_calls _ _ _ _ (proj2 Hm')). done.
Qed.

(** ** A run with a lost connection *)

(** [dlawful], decided for the store of the client, messages without properties,
    and other packets than messages. *)
Definition dlawfulb (M : Z) (a : daction) (x : duplex (St := memStore)) : bool :=
  let c := x_c x in
  match a with
  | DSend p =>
    negb (is_some (pub_Properties p)) && (pub_Version p =? c_version c) && negb (pub_Dup p) && bool_decide (in_u16 (pub_PacketID p)) &&
    negb (ContainsAny (pub_Topic p) (gostr "+#")) && bool_decide (pub_Topic p <> []) && ((pub_QoS p =? 1) || (pub_QoS p =? 2)) &&
    match PublishPacket_Encode p [] with Ok f => len f <=? c_inboundMax c | Err _ => false end && bool_decide (pub_PacketID p ∉ (x_out x).*1)
  | DAct a => lawfulb M a (x_w x) &&
    match a with
    | WInject frame => negb (is_some (heed (c_version c) frame)) && negb (Z.shiftr (hd 0 frame) 4 =? Publish)
    | _ => true
    end
  end.

Fixpoint dlawful_runb (M : Z) (acts : list daction) (x : duplex (St := memStore)) : bool :=
  match acts with
  | [] => true
  | a :: acts => dlawfulb M a x && match dstep a x with Some x' => dlawful_runb M acts x' | None => true end
  end.

Lemma dlawfulb_spec M a x : dlawfulb M a x = true -> dlawful M a x.
Proof.
  destruct a as [p|a]; cbn [dlawfulb dlawful].
  - rewrite !andb_true_iff, orb_true_iff, !bool_decide_eq_true. intros [[[[[[[[Hpr Hv] Hd] Hid] Hany] Htop] Hq] Hf] Hnew].
    destruct (pub_Properties p) as [pr|] eqn:Epr; [done|]. apply negb_true_iff in Hd, Hany. assert (Hqos : pub_QoS p = 1 \/ pub_QoS p = 2) by lia.
    split; [|done]. split_and!; try done; [lia|split_and!; [lia..|done|by rewrite Epr]|by split; [|left]|by rewrite Epr| |].
    + destruct p. unfold canon_publish. cbn in *. subst. replace (_ >? 0) with true by lia. by destruct (_ =? V50).
    + destruct (PublishPacket_Encode p []) as [f|]; [|done]. exists f. split; [done|lia].
  - intros [Ha Hi]%andb_true_iff. split; [by apply lawfulb_spec|]. destruct a; try done. apply andb_true_iff in Hi as [Hn Ht].
    destruct (heed _ frame) eqn:Hh; [done|]. split; [done|]. intros h body p -> Hp _. cbn [packet_bytes hd] in Ht. rewrite Hp in Ht. done.
Qed.

Lemma dlawful_runb_spec M acts x : dlawful_runb M acts x = true -> dlawful_run M acts x.
Proof.
  revert x. induction acts as [|a acts IH]; intros x; cbn [dlawful_runb dlawful_run]; [done|]. intros [Ha Hr]%andb_true_iff.
  split; [by apply dlawfulb_spec|]. destruct (dstep a x); [by apply IH|done].
Qed.

(** The client subscribes to "t" and publishes; the broker sends a QoS 2 and a
    QoS 1 message; the client has read the first when the connection drops;
    the session is resumed and both are sent again. *)
Definition news (payload : list Z) (qos id : Z) : PublishPacket := mkPublish V50 (gostr "t") payload qos false false id None.

Definition exchange : list daction :=
  [DAct (WConnect (demo_dial demo_connack)); DAct (WSubscribe (gostr "t") 2 7 []);
   DAct (WTask 0 Run); DAct (WTask 0 Run); DAct (WPublish (gostr "u") [9] 2 false []);
   DSend (news [1] 2 5); DSend (news [2] 1 6); DAct WRead; DAct (WDrop false); DAct (WConnect (demo_dial demo_connack));
   DAct WRead; DAct WServe].
Definition settling : list daction :=
  [DAct WServe; DAct WServe; DAct WServe; DAct WRead; DAct WServe; DAct WRead; DAct WServe; DAct WRead; DAct WServe; DAct WRead].

Definition drun_of (acts : list daction) (x : duplex (St := memStore)) : duplex (St := memStore) := default x (dsteps acts x).
Definition exchanged : duplex (St := memStore) := drun_of exchange (dstart (NewTCPClient demo_cfg)).
Definition settled : duplex (St := memStore) := drun_of settling exchanged.

Lemma exchange_runs : dlawful_run 0 exchange (dstart (NewTCPClient demo_cfg)) /\ dsteps exchange (dstart (NewTCPClient demo_cfg)) = Some exchanged.
Proof. split; [apply dlawful_runb_spec|]; vm_compute; reflexivity. Qed.

Lemma settling_runs : dlawful_run 0 settling exchanged /\ dsteps settling exchanged = Some settled.
Proof. split; [apply dlawful_runb_spec|]; vm_compute; reflexivity. Qed.

(** The client read the QoS 2 message on both connections; handler 7 was called
    once. *)
Lemma inbound_exactly_once_in_order_witness :
  length (c_calls (x_c exchanged)) = 1%nat /\ c_calls (x_c exchanged) = x_earlier exchanged ++ (x_seen exchanged ≫= handled) /\
  stored 5 StoredInboundID (x_c exchanged) /\
  with_qos 2 (x_log exchanged) = with_qos 2 (arrivals (x_seen exchanged)) ++ pending 2 (r_awaiting (x_b exchanged)) exchanged.
Proof.
  destruct (inbound_exactly_once_in_order (NewTCPClient demo_cfg) 0 exchange exchanged (or_introl eq_refl) fresh_demo (proj1 exchange_runs) (proj2 exchange_runs)) as (H1 & H2 & H3 & _).
  split; [vm_compute; reflexivity|]. split_and!; [exact H1|apply H2; by_decide|exact H3].
Defined.

Lemma both_directions_settle_witness :
  pub_Payload <$> arrivals (x_seen settled) = [[1]; [2]] /\ length (c_calls (x_c settled)) = 2%nat /\ pub_Payload <$> r_got (w_b (x_w settled)) = [[9]] /\
  (10 <= 49 * backlog (x_w exchanged))%nat /\ x_out settled = [] /\ (forall id, ~ stored id StoredPublish (x_c settled) /\ ~ stored id StoredPubrel (x_c settled)).
Proof.
  split; [vm_compute; reflexivity|]. split; [vm_compute; reflexivity|]. split; [vm_compute; reflexivity|].
  destruct (both_directions_settle (NewTCPClient demo_cfg) 0 exchange settling exchanged settled 1 1 (or_introl eq_refl) fresh_demo (proj1 exchange_runs) (proj2 exchange_runs))
    as (_ & _ & _ & H1 & H2).
  - vm_compute; reflexivity.
  - apply Forall_forall. intros a Ha. unfold dhandling. unfold settling in Ha. rewrite !elem_of_cons, elem_of_nil in Ha. tauto.
  - exact (proj1 settling_runs).
  - exact (proj2 settling_runs).
  - split; [exact H1|]. destruct H2 as (H2 & _ & _ & _ & H3 & _); [vm_compute; reflexivity..|]. exact (conj H2 H3).
Defined.

(** ** A connection lost while a handler runs *)

(** The connection is lost during the first call of a handler. *)
Definition flaky_env : Environment memStore :=
  {| net _ _ _ := true;
     callback _ _ c := if (length (c_calls c) =? 1)%nat then match c_link c with Some l => teardownLink l false c | None => c end else c |}.

Lemma flaky_observers : Observers memStore (HE := flaky_env).
Proof.
  intros h m c. cbn [callback flaky_env]. destruct (_ =? _)%nat; [|by left]. destruct (c_link c) as [l|] eqn:Hl; [right; by exists l, false|by left].
Qed.

Definition interruption : list daction :=
  [DAct (WConnect (demo_dial demo_connack)); DAct (WSubscribe (gostr "t") 2 7 []); DAct (WTask 0 Run); DAct (WTask 0 Run);
   DSend (news [1] 2 5); DAct WRead; DAct (WConnect (demo_dial demo_connack)); DAct WRead].

(** Its message has QoS 2 and is sent again when the session is resumed: two
    calls for one message taken over. *)
Example called_again : exists x, dsteps (HE := flaky_env) interruption (dstart (NewTCPClient demo_cfg)) = Some x /\
  sg_settled <$> x_seen x = [false; true] /\ (msg_Payload ∘ snd) <$> c_calls (x_c x) = [[1]; [1]] /\ pub_Payload <$> arrivals (x_seen x) = [[1]].
Proof. eexists. split; [vm_compute; reflexivity|]. vm_compute. done. Qed.
