(* ===== verification/Waiters.v ===== *)
(** What the operations of the client do to callers that wait for the
    acknowledgement of a publish: apart from that acknowledgement, nothing but
    to fail them. *)

From S2P Require Import Prelude GoStrings Codes Wire Props PublishPackets ControlPackets SubscribePackets Topic SessionStore.
From S2P Require Import Errors IdAllocator Quota Subscriptions Lifecycle Client Pump Requests Connection ClientFacts World Traffic.
From stdpp Require Import options.

(** The result with which Publish returns nil. *)
Definition granted (r : ackResult) : bool :=
  match ar_err r with Some _ => false | None => negb (ReasonCode_IsError (ar_code r)) end.

Section waiters.
Context {St : Type} {HS : SessionStore St} {HC : ContainsStore St} {HE : Environment St}.
Implicit Types c : client St.

(** Without a connection nobody waits for a publish. *)
Definition idle c : Prop := c_link c = None -> forall i wt, c_waiters c !! i = Some wt -> w_want wt <> ackClassPublish.

(** Waiters disappear, new ones wait on new channels, and nobody who waits for a
    publish is told that it succeeded. *)
Record calm c c' : Prop := {
  cm_next : (c_nextCh c <= c_nextCh c')%nat;
  cm_waiters i wt : c_waiters c' !! i = Some wt ->
    c_waiters c !! i = Some wt \/ (c_nextCh c <= w_ch wt)%nat;
  cm_chans ch r : c_chans c' !! ch = Some r -> granted r = true ->
    c_chans c !! ch = Some r \/ (c_nextCh c <= ch)%nat \/
    exists i wt, c_waiters c !! i = Some wt /\ w_ch wt = ch /\ w_want wt <> ackClassPublish;
  cm_idle : idle c -> idle c'
}.

#[export] Instance calm_refl : Reflexive calm.
Proof. split; auto. Qed.
#[export] Instance calm_trans : Transitive calm.
Proof.
  intros c c1 c2 [N1 W1 C1 I1] [N2 W2 C2 I2]. split; [lia| | |tauto].
  - intros i wt Hi. destruct (W2 i wt Hi) as [Hi1|Hc]; [by apply W1|]. right. lia.
  - intros ch r Hc Hg. destruct (C2 ch r Hc Hg) as [Hc1|[Hn|(i & wt & Hi & Hch & Hw)]]; [by apply C1|right; left; lia|].
    destruct (W1 i wt Hi) as [Hi0|Hn]; right; [right; by exists i, wt|left; lia].
Qed.

Lemma calm_fields c c' : c_nextCh c' = c_nextCh c -> c_waiters c' = c_waiters c -> c_chans c' = c_chans c ->
  (c_link c' = None -> c_link c = None) -> calm c c'.
Proof.
  intros En Ew Ec El. split; rewrite ?En, ?Ew, ?Ec; [lia|by left|by left|]. unfold idle. rewrite Ew. intros Hi Hl. by apply Hi, El.
Qed.

(** * Primitives *)

Lemma calm_register id want c : want <> ackClassPublish \/ c_link c <> None -> calm c (registerWaiter id want c).2.
Proof.
  intros Hw. cbn [registerWaiter snd]. split; csimp; [lia| |by left|].
  - intros i wt [[<- <-]|[_ Hi]]%lookup_insert_Some; [right; cbn; lia|by left].
  - intros Hi Hl i wt. csimp. intros [[<- <-]|[_ Hx]]%lookup_insert_Some; [by destruct Hw|by apply (Hi Hl i)].
Qed.

Lemma calm_waiters ws c : ws ⊆ c_waiters c -> calm c (set_waiters ws c).
Proof.
  intros Hs. split; csimp; [lia| |by left|].
  - intros i wt Hi. left. by eapply lookup_weaken.
  - intros Hi Hl i wt Hx. csimp. apply (Hi Hl i). by eapply lookup_weaken.
Qed.

Lemma calm_remove id ch c : calm c (removeWaiter id ch c).
Proof.
  unfold removeWaiter. destruct (c_waiters c !! id); [|done]. destruct (_ =? _)%nat; [|done]. apply calm_waiters, delete_subseteq.
Qed.

Lemma calm_receive ch c : calm c (set_chans (delete ch (c_chans c)) c).
Proof. split; csimp; [lia|by left| |done]. intros ch' r [_ Hx]%lookup_delete_Some _. by left. Qed.

Lemma calm_signal id got r c : got <> ackClassPublish -> calm c (signalWaiter id got r c).2.
Proof.
  intros Hg. unfold signalWaiter. destruct (c_waiters c !! id) as [wt|] eqn:Hid; [|done]. case_bool_decide as Hw; [|done]. cbn [snd].
  destruct (calm_waiters (delete id (c_waiters c)) c (delete_subseteq _ _)) as [N W _ I]. split; csimp; [lia|exact W| |exact I].
  intros ch r' [Hc|[-> ->]]%chan_send_cases _; [by left|]. right. right. exists id, wt. split_and!; congruence.
Qed.

Lemma calm_teardown l g c : calm c (teardownLink l g c).
Proof.
  destruct (isStopping l c) eqn:Hst; [by rewrite teardown_idem|]. destruct (decide (c_link c = Some l)) as [Hl|Hl].
  - destruct (teardown_current l g c Hst Hl) as (_ & _ & Ew & Ec & _).
    assert (En : c_nextCh (teardownLink l g c) = c_nextCh c) by (unfold teardownLink; repeat case_match; done).
    split; rewrite ?Ew, ?Ec, ?En; [lia|..].
    + intros i wt Hx. by rewrite lookup_empty in Hx.
    + intros ch r [Hc| ->]%failAll_cases; [by left|done].
    + intros _ _ i wt. rewrite Ew. by rewrite lookup_empty.
  - destruct (teardown_other l g c Hl) as (El & _ & Ew & Ec & _). apply calm_fields; [|done|done|congruence].
    unfold teardownLink; repeat case_match; done.
Qed.

(** * Commands *)

Definition calms {A} (m : cmd St A) : Prop := forall c, calm c (m c).2.

Lemma calms_ret {A} (a : A) : calms (mret a).
Proof. intros c. done. Qed.
Lemma calms_gets {A} (f : client St -> A) : calms (gets f).
Proof. intros c. done. Qed.
Lemma calms_upd f : (forall c, calm c (f c)) -> calms (upd f).
Proof. intros Hf c. apply Hf. Qed.
Lemma calms_bind {A B} (m : cmd St A) (f : A -> cmd St B) : calms m -> (forall a, calms (f a)) -> calms (m ≫= f).
Proof. intros Hm Hf c. rewrite cmd_bind_eq. specialize (Hm c). destruct (m c) as [a c1]. etrans; [exact Hm|apply Hf]. Qed.

Lemma calms_writeFrame l encode : calms (writeFrame (Some l) encode).
Proof.
  intros c. cbn [writeFrame]. destruct (encode []) as [f|e]; [|done]. rewrite cmd_bind_eq. unfold gets. destruct (negb _ && _); [done|].
  rewrite !cmd_bind_eq. unfold conn_write. destruct (negb (cn_closed _) && _); [by apply calm_fields|]. rewrite cmd_bind_eq. apply calm_teardown.
Qed.

Lemma sent_waiters l encode c c' : writeFrame (Some l) encode c = (None, c') -> c_waiters c' = c_waiters c.
Proof.
  cbn [writeFrame]. destruct (encode []) as [f|e]; [|done]. rewrite cmd_bind_eq. unfold gets. destruct (negb _ && _); [done|].
  rewrite !cmd_bind_eq. unfold conn_write. destruct (negb (cn_closed _) && _); [|done]. by intros [= <-].
Qed.
End waiters.

Create HintDb waiters.
#[export] Hint Resolve calms_ret calms_gets calms_writeFrame calm_teardown calm_remove calm_receive calm_register calm_signal : waiters.

Ltac calming_step :=
  lazymatch goal with
  | |- calms (_ ≫= _) => apply calms_bind; [|intros ?]
  | |- calms (match ?x with _ => _ end) => destruct x
  | |- calms (upd _) => apply calms_upd; intros ?
  | |- calms skip => apply calms_ret
  | |- calms _ => solve [eauto with waiters]
  | |- calm _ _ => first [solve [eauto with waiters] | by apply calm_fields]
  end.
Ltac calming := repeat calming_step.

Section operations.
Context {St : Type} {HS : SessionStore St} {HC : ContainsStore St} {HE : Environment St}.
Implicit Types c : client St.
#[local] Strategy opaque [idAllocator_Acquire].

Lemma calms_protocolError l rc : calms (protocolError (St := St) l rc).
Proof. unfold protocolError. calming. Qed.
Hint Resolve calms_protocolError : waiters.

Lemma calms_tick l : calms (keepAliveLoop_tick (St := St) l).
Proof. unfold keepAliveLoop_tick. calming. Qed.

Lemma calms_Disconnect : calms (client_Disconnect (St := St)).
Proof. unfold client_Disconnect. calming. Qed.

Lemma calms_req l packet want mk ev pc : want <> ackClassPublish -> calms (req_step (St := St) l packet want mk ev pc).
Proof.
  intros Hw c. destruct pc as [|id g|id g ch|id g ch|id g ch err|id g out|out]; cbn [req_step].
  - destruct (idAllocator_Acquire (c_ids c)) as [[id g|g] a]; by apply calm_fields.
  - exact (calm_register id want c (or_introl Hw)).
  - pose proof (calms_writeFrame l (mk id) c) as H. by destruct (writeFrame _ _ c) as [[e|] c1].
  - destruct ev; try done; destruct (c_chans c !! ch); try done; apply calm_receive.
  - apply calm_remove.
  - by apply calm_fields.
  - done.
Qed.

Lemma calms_task ev t : calms (task_step (St := St) ev t).
Proof.
  intros c. destruct t as [l filter options subID h pc|l filter pc|pc]; cbn [task_step].
  - assert (H : calm c (subscribe_step l filter options subID h ev pc c).2); [|by destruct (subscribe_step _ _ _ _ _ _ _ c)].
    unfold subscribe_step. destruct pc as [|prev|prev token pc|prev token err|out]; try done; [by destruct (addSubscription _ _ _ _ _); apply calm_fields| |by apply calm_fields].
    pose proof (calms_req l "SUBSCRIBE" ackClassSuback (fun id => SubscribePacket_Encode (subscribePacket (c_version c) filter options subID id)) ev pc
      ltac:(done) c) as H. destruct pc as [| | | | | |[err|r]]; try done; by destruct (req_step _ _ _ _ _ _ c).
  - assert (H : calm c (unsubscribe_step l filter ev pc c).2); [|by destruct (unsubscribe_step _ _ _ _ c)].
    unfold unsubscribe_step. destruct pc as [|snap pc|e]; try done.
    pose proof (calms_req l "UNSUBSCRIBE" ackClassUnsuback (fun id => UnsubscribePacket_Encode (mkUnsubscribe (c_version c) id [filter] None)) ev pc
      ltac:(done) c) as H. destruct snap, pc as [| | | | | |[err|r]]; try done; first [by destruct (req_step _ _ _ _ _ _ c)|by apply calm_fields].
  - assert (H : calm c (awaitResubscribe_step ev pc c).2); [|by destruct (awaitResubscribe_step _ _ c)].
    destruct pc as [id g ch|id g ch|id g|]; cbn [awaitResubscribe_step]; [|apply calm_remove|by apply calm_fields|done].
    destruct ev; try done; destruct (c_chans c !! ch); try done; apply calm_receive.
Qed.
(** ** Connect *)

Lemma calms_replaySession l : calms (replaySession (St := St) l).
Proof.
  unfold replaySession. apply calms_bind; [apply calms_gets|]. intros [msgs|]; [|apply calms_ret].
  induction msgs as [|m msgs IH]; cbn [replaySession_loop]; [apply calms_ret|]. apply calms_bind; [apply calms_gets|]. intros v.
  apply calms_bind; [|done]. destruct (replay_encoder v m); [apply calms_writeFrame|apply calms_ret].
Qed.

Lemma calms_acquire : calms (fun c => let '(r, a) := idAllocator_Acquire (c_ids c) in (r, set_ids a c)).
Proof. intros c. destruct (idAllocator_Acquire (c_ids c)) as [r a]. by apply calm_fields. Qed.

Lemma calms_registerSuback id : calms (registerWaiter (St := St) id ackClassSuback).
Proof. intros c. apply calm_register. by left. Qed.

Lemma calms_replaySubscriptions l : calms (replaySubscriptions (St := St) l).
Proof.
  unfold replaySubscriptions. apply calms_bind; [apply calms_gets|]. intros subs.
  induction subs as [|s subs IH]; cbn [replaySubscriptions_loop]; [apply calms_ret|].
  apply calms_bind; [apply calms_acquire|]. intros [id g|g]; [|done]. apply calms_bind; [apply calms_registerSuback|]. intros ch.
  apply calms_bind; [apply calms_gets|]. intros v. apply calms_bind; [apply calms_writeFrame|]. intros [e|]; calming; done.
Qed.

Lemma calm_applySession r c : calm c (applySession r c).
Proof. unfold applySession. by destruct (resetsSession r c); apply calm_fields. Qed.

Lemma calms_handshake d k : calms (handshake (St := St) d k).
Proof.
  assert (Hw : forall frame, calms (conn_write (St := St) k frame)).
  { intros frame c. unfold conn_write. destruct (negb _ && _); [by apply calm_fields|done]. }
  assert (Hr : forall err, calms (refuseConnack (St := St) k err)) by (intros err; unfold refuseConnack; calming; apply Hw).
  unfold handshake. repeat (calming_step || apply Hw || apply Hr).
Qed.

Lemma calms_establish k now ack : calms (establish (St := St) k now ack).
Proof.
  unfold establish. repeat first [calming_step | apply calm_applySession | apply calms_replaySession | apply calms_replaySubscriptions].
Qed.

Lemma calms_Connect d : calms (client_Connect (St := St) d).
Proof. unfold client_Connect. repeat first [calming_step | apply calms_handshake | apply calms_establish]. Qed.

(** ** Frames that are no answer to a publish *)

Context {HO : Observers St}.

Lemma calms_dispatch m : calms (upd (client_dispatch (St := St) m)).
Proof using HO.
  intros c. cbn [upd snd]. destruct (dispatch_observed m c) as [-> |(l & g & _ & ->)]; [by apply calm_fields|].
  eapply calm_trans; [|apply calm_teardown]. by apply calm_fields.
Qed.

Lemma calms_alias l pub : calms (resolveTopicAlias (St := St) l pub).
Proof. unfold resolveTopicAlias. calming. Qed.

Lemma calms_ack l t id rc : calms (sendAckReason (St := St) l t id rc).
Proof. unfold sendAckReason. calming. Qed.
Hint Resolve calms_dispatch calms_alias calms_ack : waiters.

Lemma calms_publish l frame : calms (handlePublish (St := St) l frame).
Proof using HO. unfold handlePublish, handleInboundQoS2, sendAck. repeat first [solve [eauto with waiters] | calming_step]. Qed.

Lemma calms_pubrel l frame : calms (handleInboundPubrel (St := St) l frame).
Proof. unfold handleInboundPubrel, sendAck. calming. Qed.

Lemma calms_suback l frame : calms (handleSuback (St := St) l frame).
Proof. unfold handleSuback. calming; intros c; by apply calm_signal. Qed.

Lemma calms_unsuback l frame : calms (handleUnsuback (St := St) l frame).
Proof. unfold handleUnsuback. calming; intros c; by apply calm_signal. Qed.
Hint Resolve calms_publish calms_pubrel calms_suback calms_unsuback : waiters.

Lemma calm_benign l frame c : Frame_PacketType frame ∉ [Puback; Pubrec; Pubcomp] -> calm c (handleFrame l frame c).2.
Proof using HO.
  rewrite !not_elem_of_cons. intros (H1 & H2 & H3 & _). unfold handleFrame.
  replace (Frame_PacketType frame =? Puback) with false by lia. replace (Frame_PacketType frame =? Pubrec) with false by lia.
  replace (Frame_PacketType frame =? Pubcomp) with false by lia. match goal with |- calm c (?m c).2 => enough (H : calms m) by apply H end.
  unfold handleServerDisconnect. repeat first [solve [eauto with waiters] | calming_step].
Qed.
End operations.
