(* ===== verification/Callers.v ===== *)
(** The callers of Publish in the runs of client and broker: when a call returns
    nil, the broker has the message. *)

From S2P Require Import Prelude GoStrings Codes Wire WireFacts Props PropsFacts PublishPackets ControlPackets.
From S2P Require Import SubscribePackets Topic SessionStore Errors IdAllocator Quota Subscriptions Lifecycle.
From S2P Require Import Client Pump Requests Connection ClientFacts SessionFacts RequestFacts LinkFacts OutboundFacts Wellformed.
From S2P Require Import Delivery World WorldFacts Ownership PublishFacts Simulation Traffic Answers Resume EndToEnd Waiters.
From stdpp Require Import options.

(** * The system with its callers *)

(** A call of Publish that waits for its acknowledgement: its link, its packet and
    where it is. *)
Record call : Type := mkCall { cl_link : nat; cl_pkt : PublishPacket; cl_pc : pub_pc }.

Section callers.
Context {St : Type} {HS : SessionStore St} {HC : ContainsStore St} {HE : Environment St}.
Implicit Types c : client St.
Implicit Types w : world (St := St).
#[local] Strategy opaque [idAllocator_Acquire].

(** Client and broker, the calls, and what the broker has passed on in sessions
    that are over. *)
Record crowd : Type := mkCrowd { k_w : world (St := St); k_calls : list call; k_past : list PublishPacket }.

Inductive caction : Type :=
| CWorld (a : waction)
| CTurn (i : nat) (ev : wake_event).

(** The call that an action leaves waiting, or that it has cut off from its
    connection. *)
Definition new_call (a : waction) c : list call :=
  match a with
  | WPublish topic payload qos retain opts =>
    match Publish_check topic payload qos retain opts c, (client_Publish topic payload qos retain opts publish_turns c).1 with
    | inr (l, pkt), PWait id ch => [mkCall l pkt (PWait id ch)]
    | _, _ => []
    end
  | WTorn topic payload qos retain opts n graceful =>
    match torn_call topic payload qos retain opts n graceful c with Some (l, pkt, (pc, _)) => [mkCall l pkt pc] | None => [] end
  | _ => []
  end.

Definition cstep (a : caction) (k : crowd) : option crowd :=
  let w := k_w k in
  match a with
  | CWorld a =>
    w' ← wstep a w;
    Some (mkCrowd w' (k_calls k ++ new_call a (w_c w))
      (if gen (c_ids (w_c w')) =? gen (c_ids (w_c w)) then k_past k else k_past k ++ r_got (w_b w)))
  | CTurn i ev =>
    call ← k_calls k !! i;
    let '(pc, c) := pub_step (cl_link call) (cl_pkt call) ev (cl_pc call) (w_c w) in
    Some (mkCrowd (with_client c w) (<[i := mkCall (cl_link call) (cl_pkt call) pc]> (k_calls k)) (k_past k))
  end.

Fixpoint csteps (acts : list caction) (k : crowd) : option crowd :=
  match acts with [] => Some k | a :: acts => cstep a k ≫= csteps acts end.

Definition gathering c : crowd := mkCrowd (start c) [] [].

(** Everything the broker has ever passed on. *)
Definition passed_on (k : crowd) : list PublishPacket := k_past k ++ r_got (w_b (k_w k)).

Context {HL : SessionStoreLaws St}.

Fixpoint orderly (M : Z) (acts : list caction) (k : crowd) : Prop :=
  match acts with
  | [] => True
  | a :: acts => match a with CWorld a => lawful M a (k_w k) | CTurn _ _ => True end /\
      match cstep a k with Some k' => orderly M acts k' | None => True end
  end.

(** * What a waiting call is owed *)

(** The exchange of a message: its PUBLISH is stored, or its PUBREL and the broker
    has it. *)
Definition underway (out : list (Z * outgoing)) (taken : list PublishPacket) (id : Z) (m : PublishPacket) : Prop :=
  (exists p, (id, OPub p) ∈ out /\ content p = m) \/ ((id, ORel) ∈ out /\ m ∈ taken).

Definition call_ok c (taken : list PublishPacket) (x : call) : Prop :=
  match cl_pc x with
  | PWait id ch => (ch < c_nextCh c)%nat /\
      (forall i wt, c_waiters c !! i = Some wt -> w_ch wt = ch ->
        i = id /\ w_want wt = ackClassPublish /\ underway (outs c) taken id (message (cl_pkt x))) /\
      (forall r, c_chans c !! ch = Some r -> granted r = true -> message (cl_pkt x) ∈ taken)
  | PForget _ _ _ | PDone (Some _) => True
  | PDone None => message (cl_pkt x) ∈ taken
  | _ => False
  end.

(** Steps that tell no caller of success keep it. *)
Lemma call_ok_calm c c' taken taken' x : call_ok c taken x -> idle c -> calm c c' -> (forall m, m ∈ taken -> m ∈ taken') ->
  c_link c = None \/ (forall id m, underway (outs c) taken id m -> underway (outs c') taken' id m) -> call_ok c' taken' x.
Proof.
  intros Hx Hi [N W C _] Ht Ho. unfold call_ok in *. destruct (cl_pc x) as [| | | | | | | | | | |id ch|id ch err|[err|]]; try done; [|by apply Ht].
  destruct Hx as (Hn & Hw & Hc). split_and!; [lia|..].
  - intros i wt Hwt Hch. destruct (W i wt Hwt) as [Hold|Hnew]; [|lia]. destruct (Hw i wt Hold Hch) as (-> & Hp & Hu). split_and!; [done|done|].
    destruct Ho as [Hl|Ho]; [by destruct (Hi Hl _ _ Hold)|by apply Ho].
  - intros r Hr Hg. destruct (C ch r Hr Hg) as [Hold|[Hnew|(i & wt & Hwt & Hch & Hp)]]; [by eapply Ht, Hc|lia|].
    by destruct (Hw i wt Hwt Hch) as (_ & ? & _).
Qed.

Lemma underway_mono out out' taken taken' id m : (forall x, x ∈ out -> x ∈ out') -> (forall x, x ∈ taken -> x ∈ taken') ->
  underway out taken id m -> underway out' taken' id m.
Proof. intros Ho Ht [(p & Hp & E)|[Hr Hm]]; [left; exists p; auto|right; auto]. Qed.
(** * A turn of a caller *)

Lemma turn_ok c taken x ev : call_ok c taken x -> let '(pc, c') := pub_step (cl_link x) (cl_pkt x) ev (cl_pc x) c in
  calm c c' /\ hushed c c' /\ c_ids c' = c_ids c /\ (forall L, good L c -> good L c') /\ call_ok c' taken (mkCall (cl_link x) (cl_pkt x) pc).
Proof.
  intros Hx. assert (Hstay : forall pc, call_ok c taken (mkCall (cl_link x) (cl_pkt x) pc) -> calm c c /\ hushed c c /\ c_ids c = c_ids c /\
    (forall L, good L c -> good L c) /\ call_ok c taken (mkCall (cl_link x) (cl_pkt x) pc)) by (intros pc Hpc; split_and!; done).
  destruct x as [l pkt pc]. pose proof Hx as Hx0. unfold call_ok in Hx. cbn [cl_pc cl_link cl_pkt] in *.
  destruct pc as [| | | | | | | | | | |id ch|id ch err|o]; try done; cbn [pub_step].
  - destruct ev; try (by apply Hstay); (destruct (c_chans c !! ch) as [r|] eqn:Hr; [|apply Hstay; exact Hx0]);
      (split_and!; [apply calm_receive|by apply hushed_fields|done|intros L; apply good_receive|]); unfold call_ok; cbn [cl_pc cl_pkt];
      destruct Hx as (_ & _ & Hc); specialize (Hc r eq_refl); unfold granted in Hc; (destruct (ar_err r); [done|]); (destruct (ReasonCode_IsError _); [done|by apply Hc]).
  - destruct (remove_hushed id ch c) as [Hh Hi]. split_and!; [apply calm_remove|done|done|intros L; apply good_remove|done].
Qed.

(** * Actions that are no answer to a publish *)

Context {HR : ReliableStore St} {HO : Observers St}.
Set Default Proof Using "Type*".

Lemma hushed_outs c c' : hushed c c' -> outs c' = outs c.
Proof. intros [(Es & _) _]. unfold outs. by rewrite Es. Qed.

(** What an action does for the callers that wait. *)
Definition fair_step (a : waction) w w' : Prop :=
  calm (w_c w) (w_c w') /\ (c_link (w_c w) = None \/ forall x, x ∈ outs (w_c w) -> x ∈ outs (w_c w')).

Lemma fair_task M i ev w w' e : matches M w e -> wstep (WTask i ev) w = Some w' -> fair_step (WTask i ev) w w'.
Proof.
  intros Hm Hs. cbn [wstep] in Hs. destruct (w_tasks w !! i) as [t|] eqn:Hi; [|done]. cbn [mbind option_bind] in Hs.
  assert (Hl : forall l, task_link t = Some l -> is_Some (c_links (w_c w) !! l)).
  { intros l Hl. apply (proj2 (m_wf _ _ _ Hm)), list_elem_of_omap. exists t. split; [by eapply list_elem_of_lookup_2|done]. }
  destruct (task_tame ev t (w_c w) (proj1 (m_wf _ _ _ Hm)) Hl) as [Hh _]. pose proof (calms_task ev t (w_c w)) as Hc.
  destruct (task_step ev t (w_c w)) as [t' c']. injection Hs as <-. split; [exact Hc|]. right. cbn [w_c snd] in *. by rewrite (hushed_outs _ _ Hh).
Qed.

Lemma fair_other M a w w' e : matches M w e -> lawful M a w -> wstep a w = Some w' ->
  match a with WPublish _ _ _ _ _ | WTorn _ _ _ _ _ _ _ | WRead => False | _ => True end -> fair_step a w w'.
Proof.
  intros Hm Hlaw Hs Ha. pose proof (m_wf _ _ _ Hm) as Hg. pose proof (proj1 Hg) as Hw.
  destruct a as [| | |frame|graceful| | |d|filter qos handler opts|filter|i ev|]; try done; [..|by eapply fair_task].
  all: cbn [wstep] in Hs.
  all: try (destruct (c_link (w_c w)) as [l|] eqn:Hl; [|done]; cbn [mbind option_bind is_some] in Hs).
  - destruct (written (w_c w) l !! w_read w); [|done]. cbn [mbind option_bind] in Hs.
    destruct (hear _ _) as [u|]; [destruct (receive u (w_b w)) as [b [a|]]|]; injection Hs as <-; (split; [by apply calm_fields|by right]).
  - injection Hs as <-. split; [by apply calm_fields|by right].
  - injection Hs as <-. split; [apply calm_teardown|right]. cbn [w_c with_client]. by rewrite (hushed_outs _ _ (teardown_hushed l graceful _ Hw)).
  - injection Hs as <-. destruct (link_good M w e l Hm Hl) as [_ Hg1]. destruct (tick_serene l (w_c w) Hg1) as (_ & Hh & _).
    split; [apply calms_tick|right]. cbn [w_c with_client]. by rewrite (hushed_outs _ _ Hh).
  - injection Hs as <-. destruct (Disconnect_hushed (w_c w) Hw) as [Hh _]. split; [apply calms_Disconnect|right]. cbn [w_c with_client]. by rewrite (hushed_outs _ _ Hh).
  - destruct (c_link (w_c w)) eqn:Hl; [done|]. cbn [is_some] in Hs. pose proof (calms_Connect d (w_c w)) as Hc. destruct (client_Connect d (w_c w)) as [[err aw] c'].
    destruct (_ =? _); injection Hs as <-; (split; [exact Hc|by left]).
  - destruct (Subscribe_check _ _ _ _) as [|[[l options] subID]]; [done|]. injection Hs as <-. by split; [|right].
  - destruct (Unsubscribe_check _ _) as [|l]; [done|]. injection Hs as <-. by split; [|right].
Qed.
(** * Publish *)

(** A publish on a connection: whatever it does is fair to the others, and if it
    waits, its waiter is registered. *)
Lemma publish_turns_calm l pkt evs c pc0 c0 : Forall (fun ev => ev = Run) evs -> c_link c <> None ->
  let before pc := match pc with PQuota | PPark _ | PId _ | PSave _ _ _ | PRegister _ _ _ => True | _ => False end in
  let filed pc c' := forall id ch, (pc = PWait id ch \/ exists qg ig, pc = PWrite qg id ig ch) ->
    c_waiters c' !! id = Some (mkWaiter ch ackClassPublish) in
  calm c c0 -> (before pc0 -> c_link c0 = c_link c) -> filed pc0 c0 ->
  let '(pc, c') := fold_left (fun '(pc, c) ev => pub_step l pkt ev pc c) evs (pc0, c0) in calm c c' /\ filed pc c'.
Proof using Type.
  intros Hevs Hl before filed. revert pc0 c0. induction Hevs as [|ev evs -> Hevs IH]; intros pc0 c0 Hc Hb Hf; [done|]. cbn [fold_left].
  destruct (pub_step l pkt Run pc0 c0) as [pc1 c1] eqn:Hs. apply IH; clear IH.
  - etrans; [exact Hc|]. assert (Hs2 : c1 = (pub_step l pkt Run pc0 c0).2) by (by rewrite Hs). rewrite Hs2. clear Hs Hs2.
    destruct pc0 as [|w|qg|qg id ig|qg id ig|qg id ig ch|qg id ig ch err|qg id ig err|qg id ig err|qg id ig err|qg err|id ch|id ch err|err]; cbn [pub_step].
    + destruct (quota_acquire_turn _) as [[] q]; by apply calm_fields.
    + done.
    + destruct (idAllocator_Acquire _) as [[] a]; by apply calm_fields.
    + destruct (Save _ _); [by apply calm_fields|done].
    + apply (calm_register id ackClassPublish c0). right. by rewrite Hb.
    + pose proof (calms_writeFrame l (PublishPacket_Encode (with_PacketID id pkt)) c0) as H. by destruct (writeFrame _ _ c0) as [[e|] c2].
    + apply calm_remove.
    + done.
    + by apply calm_fields.
    + by apply calm_fields.
    + by apply calm_fields.
    + destruct (c_chans c0 !! ch); [apply calm_receive|done].
    + apply calm_remove.
    + done.
  - intros H1. destruct pc0 as [|w|qg|qg id ig|qg id ig|qg id ig ch|qg id ig ch err|qg id ig err|qg id ig err|qg id ig err|qg err|id ch|id ch err|err];
      cbn [pub_step] in Hs; repeat case_match; simplify_eq/=; try done; by apply Hb.
  - intros id0 ch0 [-> | (qg0 & ig0 & ->)].
    + destruct pc0 as [|w|qg|qg id ig|qg id ig|qg id ig ch|qg id ig ch err|qg id ig err|qg id ig err|qg id ig err|qg err|id ch|id ch err|err];
        cbn [pub_step] in Hs; try (by repeat case_match; simplify_eq/=).
      * destruct (writeFrame _ _ c0) as [[e|] c2] eqn:Hw; [done|]. simplify_eq. rewrite (sent_waiters _ _ _ _ Hw). apply Hf. right. by eexists _, _.
      * destruct (c_chans c0 !! ch); [done|]. simplify_eq. apply Hf. by left.
    + destruct pc0 as [|w|qg|qg id ig|qg id ig|qg id ig ch|qg id ig ch err|qg id ig err|qg id ig err|qg id ig err|qg err|id ch|id ch err|err];
        cbn [pub_step] in Hs; try (by repeat case_match; simplify_eq/=). cbn [registerWaiter] in Hs. simplify_eq. csimp. by rewrite lookup_insert_eq.
Qed.

Lemma publishAcked_calm l pkt c : c_link c <> None -> let out := publishAcked l pkt publish_turns c in
  calm c out.2 /\ forall id ch, out.1 = PWait id ch -> c_waiters out.2 !! id = Some (mkWaiter ch ackClassPublish).
Proof using Type.
  intros Hl out. subst out. unfold publishAcked. pose proof (publish_turns_calm l pkt publish_turns c PQuota c) as H.
  destruct (fold_left _ publish_turns (PQuota, c)) as [pc c']. destruct H as [H1 H2]; try done.
  - by apply Forall_replicate.
  - intros id ch [?|(qg & ig & ?)]; done.
  - split; [done|]. intros id ch E. apply H2. by left.
Qed.
Lemma publish_fair M topic payload qos retain opts w w' e e' taken : let a := WPublish topic payload qos retain opts in
  matches M w e -> matches M w' e' -> lawful M a w -> wstep a w = Some w' ->
  calm (w_c w) (w_c w') /\ (forall x, x ∈ outs (w_c w) -> x ∈ outs (w_c w')) /\ Forall (call_ok (w_c w') taken) (new_call a (w_c w)).
Proof.
  intros a Hm Hm' (Hq & Hexp & Hroom) Hs. unfold a in *. cbn [wstep new_call] in *. unfold client_Publish in *.
  destruct (Publish_check topic payload qos retain opts (w_c w)) as [err|[l pkt]] eqn:Hpc; [injection Hs as <-; by split_and!|].
  destruct (Publish_check_packet (w_c w) topic payload qos retain opts l pkt Hq Hexp Hpc) as (Hl & _ & Hqos & _).
  destruct (Z.eqb_spec qos 0) as [Hz|Hz].
  - pose proof (calms_writeFrame l (PublishPacket_Encode pkt) (w_c w)) as Hc. pose proof (writeFrame_same (Some l) (PublishPacket_Encode pkt) (w_c w)) as Hss.
    destruct (writeFrame _ _ (w_c w)) as [err c']. injection Hs as <-. split_and!; [exact Hc| |constructor]. unfold outs. cbn [w_c snd] in *. by rewrite (ss_store _ _ Hss).
  - destruct (publishAcked_calm l pkt (w_c w)) as [Hc Hwt]; [by rewrite Hl|]. pose proof (m_wf _ _ _ Hm') as [Hw' _].
    destruct (publishAcked_outcome l pkt (w_c w) (proj1 (m_wf _ _ _ Hm)) (m_store _ _ _ Hm) Hroom Hl (fun i => stored_in_use M w e i Hm)) as [Hp|Hu];
      destruct (publishAcked l pkt publish_turns (w_c w)) as [pc c']; cbn [fst snd] in *; injection Hs as <-; cbn [w_c] in *.
    + destruct Hp as (id & ig & a0 & f & Epc & _ & _ & _ & Hcs & _). cbn [fst snd] in Epc, Hcs. subst pc. set (ch := c_nextCh (w_c w)) in *.
      specialize (Hwt id ch eq_refl). destruct (wc_waiter _ Hw' _ _ Hwt) as [Hlt Hch]. cbn [w_ch] in Hlt, Hch.
      split_and!; [done|intros x Hx; unfold outs; rewrite Hcs, omap_app, elem_of_app; by left|]. constructor; [|constructor].
      unfold call_ok. cbn [cl_pc cl_pkt]. split_and!; [done| |intros r Hr; congruence]. intros i wt Hi E.
      assert (i = id) as -> by (by apply (wc_owner _ Hw' i id wt (mkWaiter ch ackClassPublish))). assert (wt = mkWaiter ch ackClassPublish) as -> by congruence.
      split_and!; [done|done|]. left. exists (canon_publish (with_PacketID id pkt)). split; [|done]. unfold outs. rewrite Hcs, omap_app, elem_of_app. right. apply list_elem_of_here.
    + destruct Hu as (Hpc' & _ & Hcs & _). cbn [fst snd] in *. split_and!; [done|unfold outs; by rewrite Hcs|]. destruct pc; try apply Forall_nil_2. by destruct (Hpc' id ch).
Qed.

Lemma torn_fair M topic payload qos retain opts n g w w' e taken : let a := WTorn topic payload qos retain opts n g in
  matches M w e -> lawful M a w -> wstep a w = Some w' ->
  calm (w_c w) (w_c w') /\ (forall x, x ∈ outs (w_c w) -> x ∈ outs (w_c w')) /\ Forall (call_ok (w_c w') taken) (new_call a (w_c w)).
Proof.
  intros a Hm Hlaw Hs. unfold a in *. cbn [wstep new_call] in *.
  destruct (torn_call topic payload qos retain opts n g (w_c w)) as [[[l pkt] [pc c']]|] eqn:Ht; [|done]. injection Hs as <-. cbn [w_c with_client].
  destruct (torn_gives_up M w e _ _ _ _ _ _ _ _ _ _ _ Hm Hlaw Ht) as [[err ->] (_ & _ & Hc & _) _ _ _ _ Hwt Hch Hn]. cbn [snd] in Hc. split_and!.
  - split; [done|intros i wt Hx; by destruct (Hwt i wt)| |intros _ _ i wt Hx; by destruct (Hwt i wt)]. intros ch r [Hx| ->]%Hch; [by left|done].
  - unfold outs. by rewrite Hc.
  - by constructor.
Qed.

(** * Answers *)

Lemma completed_calls l id o r c taken x : store_ok (c_store c) -> NoDup (outs c).*1 -> (id, o) ∈ outs c ->
  (forall m, underway (outs c) taken id m -> m ∈ taken) -> idle c -> call_ok c taken x ->
  let c' := (completeOutbound l id (match o with OPub _ => StoredPublish | ORel => StoredPubrel end) r c).2 in idle c' /\ call_ok c' taken x.
Proof.
  intros Hok Hnd Hin Hdone Hi Hx. set (kind := match o with OPub _ => _ | ORel => _ end). cbn zeta.
  destruct (complete_effect l id kind r c Hok (outs_stored c id o Hin)) as (_ & Hcs & _). set (c' := (completeOutbound l id kind r c).2) in *.
  assert (Ho : outs c' = drop_out id (outs c)) by (unfold outs; rewrite Hcs; by apply abs_delete).
  set (c3 := quota_releaseAt' (l_quotaGen (the_link c l)) (ids_ReleaseAt id (l_idGen (the_link c l)) (store_Delete id kind c))).
  assert (E : c' = (signalWaiter id ackClassPublish r c3).2).
  { unfold c', completeOutbound, mbind, cmd_bind, gets, upd. rewrite (known id) by (done || by apply outs_stored). cbn [negb]. by destruct (signalWaiter _ _ _ _). }
  assert (Hcases : c_nextCh c' = c_nextCh c /\ c_link c' = c_link c /\ (forall i wt, c_waiters c' !! i = Some wt -> c_waiters c !! i = Some wt /\
      (i = id -> w_want wt <> ackClassPublish)) /\
    (forall ch r', c_chans c' !! ch = Some r' -> c_chans c !! ch = Some r' \/ exists wt, c_waiters c !! id = Some wt /\ w_ch wt = ch)).
  { rewrite E. unfold signalWaiter. change (c_waiters c3) with (c_waiters c). destruct (c_waiters c !! id) as [wt|] eqn:Hw.
    - case_bool_decide as Hp; cbn [snd]; csimp; split_and!; try done; [|intros ch r' [Hc|[-> ->]]%chan_send_cases; [by left|right; by exists wt]| |by left].
      + intros i wt' [Hne Hx']%lookup_delete_Some. split; [exact Hx'|]. by intros ->.
      + intros i wt' Hx'. change (c_waiters c !! i = Some wt') in Hx'. split; [done|]. intros ->. congruence.
    - cbn [snd]. split_and!; try done; [|by left]. intros i wt' Hx'. split; [done|]. intros ->. change (c_waiters c !! id = Some wt') in Hx'. congruence. }
  clear E. destruct Hcases as (En & El & Hws & Hcs'). split.
  - intros Hl i wt Hwt. apply (Hi ltac:(congruence) i). by apply Hws.
  - unfold call_ok in *. destruct (cl_pc x) as [| | | | | | | | | | |id0 ch|id0 ch err|[err|]]; try done. destruct Hx as (Hn & Hw & Hc). split_and!; [lia|..].
    + intros i wt [Hwt Hne]%Hws Hch. destruct (Hw i wt Hwt Hch) as (-> & Hp & Hu). split_and!; [done|done|]. rewrite Ho.
      assert (id0 <> id) by (intros ->; by apply Hne). destruct Hu as [(p & Hp' & Em)|[Hr Hm]]; [left; exists p|right]; rewrite elem_of_drop_out; done.
    + intros r' Hr' Hg. apply Hcs' in Hr' as [Hr'|(wt & Hwt & Hch)]; [by apply (Hc r')|]. destruct (Hw id wt Hwt Hch) as (<- & _ & Hu). by apply Hdone.
Qed.

Lemma underway_released out id p taken i m : NoDup out.*1 -> (id, OPub p) ∈ out -> content p ∈ taken ->
  underway out taken i m -> underway (drop_out id out ++ [(id, ORel)]) taken i m.
Proof using Type.
  intros Hnd Hp Ht Hu. destruct (decide (i = id)) as [->|Hne].
  - right. split; [apply elem_of_app; right; apply list_elem_of_here|]. destruct Hu as [(q & Hq & <-)|[Hr _]].
    + by injection (key_unique _ _ _ _ Hnd Hq Hp) as ->.
    + by pose proof (key_unique _ _ _ _ Hnd Hr Hp).
  - destruct Hu as [(q & Hq & E)|[Hr Hm]]; [left; exists q|right]; rewrite elem_of_app, elem_of_drop_out; auto.
Qed.
Lemma idle_calm c c' : idle c -> calm c c' -> idle c'.
Proof using Type. intros Hi Hc. by apply (cm_idle _ _ Hc). Qed.

Lemma answered_calls M w e l t id rc xs ack h body taken calls : matches M w e -> vouched e -> store_room (c_store (w_c w)) ->
  (forall m, m ∈ r_got (w_b w) -> m ∈ taken) -> e_down e = (t, id) :: omap arrival_down xs ->
  arrival_ok (c_inboundMax (w_c w)) (Answer (t, id, rc)) -> Frame_PacketType (mkFrame h body) = t ->
  DecodeAck (c_version (w_c w)) t body = Ok ack -> ack_PacketID ack = id -> (rc = Success -> ack_ReasonCode ack = Success) ->
  let c1 := taken_from l (concat (arrival_bytes (c_version (w_c w)) <$> xs)) (w_c w) in let c' := (handleFrame l (mkFrame h body) c1).2 in
  idle c1 -> Forall (call_ok c1 taken) calls -> idle c' /\ Forall (call_ok c' taken) calls.
Proof.
  intros Hm [V1 V2] Hroom Hgot Hd [Hid Ht] Hty Hdec Hpid Hsucc c1 c' Hi Hcalls. pose proof (m_inv _ _ _ Hm) as Hinv.
  pose proof (m_out _ _ _ Hm) as Ho. change (e_out e = outs c1) in Ho. pose proof (v_keys _ Hinv) as Hnd. rewrite Ho in *. rewrite (m_b _ _ _ Hm) in *.
  assert (Htt : t = Puback \/ t = Pubrec \/ t = Pubcomp) by tauto. pose proof (Answer_turn l h body c1 t ack Hty Htt Hdec) as Ec. fold c' in Ec. rewrite Hpid in Ec.
  assert (Hhead : (t, id) ∈ e_down e) by (rewrite Hd; apply list_elem_of_here).
  assert (Hfin : forall o r, (id, o) ∈ outs c1 -> (forall m, underway (outs c1) taken id m -> m ∈ taken) ->
    c' = (completeOutbound l id (match o with OPub _ => StoredPublish | ORel => StoredPubrel end) r c1).2 -> idle c' /\ Forall (call_ok c' taken) calls).
  { intros o r Hin Hdone E. rewrite E. assert (Hall := fun x => completed_calls l id o r c1 taken x (m_store _ _ _ Hm) Hnd Hin Hdone Hi). split.
    - exact (proj1 (Hall (mkCall 0 (mkPublish 0 [] [] 0 false false 0 None) (PDone (Some []))) I)).
    - apply (Forall_impl _ _ _ Hcalls). intros x Hx. by apply Hall. }
  destruct (answer_entry e t id _ Hinv Hd) as [[-> [p Hp]]|[[-> [p Hp]]|[-> Hp]]]; rewrite Ho in Hp; cbn [Z.eqb Pos.eqb Puback Pubcomp Pubrec] in Ec.
  - eapply (Hfin (OPub p)); [done| |exact Ec]. intros m [(q & Hq & <-)|[Hr _]]; [by apply Hgot, (V1 id)|by pose proof (key_unique _ _ _ _ Hnd Hr Hp)].
  - assert (Hc : content p ∈ taken).
    { apply Hgot, (V2 id); [|done]. destruct (v_down _ Hinv _ Hhead) as [[E _]|[(_ & Ha & _)|(E & _)]]; try done. by rewrite (m_b _ _ _ Hm) in Ha. }
    assert (Hrc : ReasonCode_IsError (ack_ReasonCode ack) = false) by (rewrite Hsucc; [done|]; by destruct Ht as [[? ?]|[[_ ?]|[? ?]]]).
    assert (Hnrel : ~ stored id StoredPubrel c1).
    { unfold stored. intros ([[i k] o] & [= <- <-] & Hin)%list_elem_of_fmap. assert (Hrel : (id, ORel) ∈ outs c1) by (apply list_elem_of_omap; by eexists).
      by pose proof (key_unique _ _ _ _ Hnd Hp Hrel). }
    destruct (pubrec_stores l ack (reasonStringOf (ack_Properties ack)) c1) as (s & E & Hoks & Hcs); rewrite ?Hpid; try done;
      [apply Hm|exact (outs_stored _ _ _ Hp)|]. rewrite Hpid in E, Hcs. rewrite E in Ec.
    assert (Hcalm : calm c1 c').
    { rewrite Ec. etrans; [apply (calm_fields c1 (set_store s c1)); done|]. unfold sendAck, sendAckReason. apply calms_bind; [apply calms_gets|]. intros v.
      apply calms_bind; [apply calms_writeFrame|]. intros ?. apply calms_ret. }
    assert (Eo : outs c' = drop_out id (outs c1) ++ [(id, ORel)]).
    { rewrite Ec. unfold outs. assert (Hss : c_store (sendAck l Pubrel id (set_store s c1)).2 = s) by (by apply sendAckReason_same). rewrite Hss, Hcs. by apply (abs_release id p). }
    split; [by eapply idle_calm|]. apply (Forall_impl _ _ _ Hcalls). intros x Hx. eapply call_ok_calm; try done. right. intros i m Hu. rewrite Eo. by eapply underway_released.
  - eapply (Hfin ORel); [done| |exact Ec]. intros m [(q & Hq & <-)|[_ ?]]; [by pose proof (key_unique _ _ _ _ Hnd Hq Hp)|done].
Qed.

Lemma read_calls M w w' e taken calls : matches M w e -> vouched e -> lawful M WRead w -> wstep WRead w = Some w' ->
  (forall m, m ∈ r_got (w_b w) -> m ∈ taken) -> idle (w_c w) -> Forall (call_ok (w_c w) taken) calls ->
  idle (w_c w') /\ Forall (call_ok (w_c w') taken) calls.
Proof.
  intros Hm Hv Hroom Hs Hgot Hi Hcalls. cbn [wstep lawful] in *. destruct (c_link (w_c w)) as [l|] eqn:Hl; [|done]. cbn [mbind option_bind] in Hs.
  case_bool_decide as Hne; [done|]. injection Hs as <-. cbn [w_c with_client]. destruct (link_good M w e l Hm Hl) as [_ Hg1]. pose proof (proj1 Hg1) as Hw.
  pose proof (m_link _ _ _ Hm l Hl) as (L1 & L2 & L3 & L4 & L5 & xs & Hr & Hxs & Hd). destruct xs as [|x xs]; [by rewrite Hr in Hne|].
  apply Forall_cons in Hxs as [Hx Hxs].
  destruct (arrival_frame (c_version (w_c w)) (c_inboundMax (w_c w)) x (m_version _ _ _ Hm) (m_inbound _ _ _ Hm) Hx) as (h & body & Eb & Hb & Hlen & Hrest).
  pose proof Hr as Hr'. rewrite fmap_cons, concat_cons, Eb in Hr'. pose proof (m_inbound _ _ _ Hm).
  rewrite (readLoop_turn_frame l h body _ (c_inboundMax (w_c w)) (w_c w) Hw Hl Hr' L3 Hb ltac:(unfold in_u32; lia) Hlen).
  set (c1 := taken_from l _ (w_c w)). assert (Hc1 : calm (w_c w) c1) by (by apply calm_fields). assert (Hi1 := idle_calm _ _ Hi Hc1).
  assert (Hcalls1 : Forall (call_ok c1 taken) calls).
  { apply (Forall_impl _ _ _ Hcalls). intros y Hy. eapply call_ok_calm; try done. by right. }
  destruct x as [[[t id] rc]|h' body'].
  - destruct Hrest as (Hty & Hfl & ack & Hdec & Hpid & Hsucc). rewrite Hfl.
    apply (answered_calls M w e l t id rc xs ack h body taken calls); try done.
  - destruct Hrest as [-> ->]. assert (Hg2 : good [l] c1) by (by apply taken_good).
    assert (Es := q_outs _ _ _ _ (quiet_taken l (mkFrame h body) c1 Hg2 (m_store _ _ _ Hm) Hroom ltac:(apply Hx))).
    assert (Hc2 : calm c1 (match Frame_ValidateFlags (mkFrame h body) with
      | Err _ => (_ ← protocolError l MalformedPacketReason; mret false) c1 | Ok _ => handleFrame l (mkFrame h body) c1 end).2).
    { destruct (Frame_ValidateFlags _); [apply calm_benign, Hx|]. rewrite cmd_bind_eq. pose proof (calms_protocolError l MalformedPacketReason c1). by destruct (protocolError _ _ c1). }
    split; [by eapply idle_calm|]. apply (Forall_impl _ _ _ Hcalls1). intros y Hy. eapply call_ok_calm; try done. right. intros i m. by rewrite Es.
Qed.

(** * Every run *)

Record kinv (M : Z) (k : crowd) (e : exchanges) : Prop := {
  ki_m : matches M (k_w k) e;
  ki_vouched : vouched e;
  ki_idle : idle (w_c (k_w k));
  ki_calls : Forall (call_ok (w_c (k_w k)) (passed_on k)) (k_calls k)
}.

(** Within a session the broker forgets nothing. *)
Lemma got_grows a w w' m : wstep a w = Some w' -> gen (c_ids (w_c w')) = gen (c_ids (w_c w)) -> m ∈ r_got (w_b w) -> m ∈ r_got (w_b w').
Proof using Type.
  intros Hs Hg Hm. destruct a as [topic payload qos retain opts| | |frame|graceful| | |d|filter qos handler opts|filter|i ev|topic payload qos retain opts n graceful]; cbn [wstep] in Hs.
  - destruct (client_Publish _ _ _ _ _ _ _). by injection Hs as <-.
  - destruct (c_link (w_c w)) as [l|]; [|done]. cbn [mbind option_bind] in Hs. destruct (written (w_c w) l !! w_read w); [|done]. cbn [mbind option_bind] in Hs.
    destruct (hear _ _) as [u|]; [|by injection Hs as <-]. pose proof (receive_grows u (w_b w) m Hm) as H. destruct (receive u (w_b w)). by injection Hs as <-.
  - destruct (c_link (w_c w)); [|done]. cbn [mbind option_bind] in Hs. case_bool_decide; [done|]. by injection Hs as <-.
  - destruct (c_link (w_c w)); [|done]. by injection Hs as <-.
  - destruct (c_link (w_c w)); [|done]. by injection Hs as <-.
  - destruct (c_link (w_c w)); [|done]. by injection Hs as <-.
  - by injection Hs as <-.
  - destruct (is_some _); [done|]. destruct (client_Connect d (w_c w)) as [[err aw] c']. destruct (Z.eqb_spec (gen (c_ids c')) (gen (c_ids (w_c w)))).
    + by injection Hs as <-.
    + injection Hs as <-. done.
  - destruct (Subscribe_check _ _ _ _) as [|[[l options] subID]]; [done|]. by injection Hs as <-.
  - destruct (Unsubscribe_check _ _); [done|]. by injection Hs as <-.
  - destruct (w_tasks w !! i) as [t|]; [|done]. cbn [mbind option_bind] in Hs. destruct (task_step ev t (w_c w)). by injection Hs as <-.
  - destruct (torn_call _ _ _ _ _ _ _ _) as [[[l pkt] [pc c']]|]; [|done]. by injection Hs as <-.
Qed.

Lemma kinv_world M a k k' e : kinv M k e -> lawful M a (k_w k) -> cstep (CWorld a) k = Some k' -> exists e', kinv M k' e'.
Proof.
  intros [Hm Hv Hi Hcalls] Hlaw Hs. cbn [cstep] in Hs. set (w := k_w k) in *. destruct (wstep a w) as [w'|] eqn:Hw; [|done].
  cbn [mbind option_bind] in Hs. destruct (matches_step M a w w' e Hm Hlaw Hw) as (e' & Hsteps & Hm'). exists e'.
  assert (Hpass : forall m, m ∈ passed_on k -> m ∈ passed_on k').
  { injection Hs as <-. unfold passed_on. cbn [k_past k_w]. fold w. intros m. destruct (Z.eqb_spec (gen (c_ids (w_c w'))) (gen (c_ids (w_c w)))) as [Eg|_]; rewrite !elem_of_app; [|tauto].
    intros [|Hx]; [by left|right]. by eapply got_grows. }
  assert (Hgot : forall m, m ∈ r_got (w_b w) -> m ∈ passed_on k) by (intros m Hx; apply elem_of_app; by right).
  assert (Hfair : calm (w_c w) (w_c w') -> (c_link (w_c w) = None \/ forall x, x ∈ outs (w_c w) -> x ∈ outs (w_c w')) ->
    Forall (call_ok (w_c w') (passed_on k')) (new_call a (w_c w)) -> kinv M k' e').
  { intros Hc Ho Hnew. injection Hs as Ek. rewrite <- Ek in Hnew, Hpass |- *. split; cbn [k_w k_calls]; [done|by eapply esteps_vouched; [|apply Hm|]|by eapply idle_calm|].
    apply Forall_app. split; [|done]. apply (Forall_impl _ _ _ Hcalls). intros x Hx. eapply call_ok_calm; try done. destruct Ho as [|Ho]; [by left|right].
    intros id m. by apply underway_mono. }
  destruct a as [topic payload qos retain opts| | |frame|graceful| | |d|filter qos handler opts|filter|i ev|topic payload qos retain opts n graceful].
  12: { destruct (torn_fair M topic payload qos retain opts n graceful w w' e (passed_on k') Hm Hlaw Hw) as (H1 & H2 & H3). apply Hfair; auto. }
  1: { destruct (publish_fair M topic payload qos retain opts w w' e e' (passed_on k') Hm Hm' Hlaw Hw) as (H1 & H2 & H3). apply Hfair; auto. }
  2: { destruct (read_calls M w w' e (passed_on k) (k_calls k) Hm Hv Hlaw Hw Hgot Hi Hcalls) as [H1 H2]. injection Hs as Ek. rewrite <- Ek in Hpass |- *. split; cbn [k_w k_calls new_call];
         [done|by eapply esteps_vouched; [|apply Hm|]|done|]. rewrite app_nil_r. apply (Forall_impl _ _ _ H2). intros x Hx. eapply call_ok_calm; try done. right. intros id m. by apply underway_mono. }
  all: destruct (fair_other M _ _ _ e Hm Hlaw Hw I) as [H1 H2]; apply Hfair; [exact H1|exact H2|constructor].
Qed.

Lemma kinv_turn M i ev k k' e : kinv M k e -> cstep (CTurn i ev) k = Some k' -> exists e', kinv M k' e'.
Proof.
  intros [Hm Hv Hi Hcalls] Hs. cbn [cstep] in Hs. set (w := k_w k) in *. destruct (k_calls k !! i) as [x|] eqn:Hx; [|done]. cbn [mbind option_bind] in Hs.
  pose proof (proj1 (Forall_forall _ _) Hcalls x (list_elem_of_lookup_2 _ _ _ Hx)) as Hxok. pose proof (turn_ok _ _ x ev Hxok) as H.
  destruct (pub_step _ _ _ _ _) as [pc c']. destruct H as (Hc & Hh & Hids & Hg & Hnew). injection Hs as <-.
  destruct (matches_serene M w e c' Hm (Hg _ (m_wf _ _ _ Hm)) Hh Hids) as (e' & Hsteps & Hm'). exists e'.
  split; cbn [k_w k_calls w_c with_client]; [done|by eapply esteps_vouched; [|apply Hm|]|by eapply idle_calm|].
  apply Forall_insert; [|exact Hnew]. apply (Forall_impl _ _ _ Hcalls). intros y Hy. eapply call_ok_calm; try done. right. intros id m.
  by rewrite (hushed_outs _ _ Hh).
Qed.

Lemma kinv_run M acts k k' e : kinv M k e -> orderly M acts k -> csteps acts k = Some k' -> exists e', kinv M k' e'.
Proof.
  revert k e. induction acts as [|a acts IH]; intros k e Hk Ho Hs; cbn [csteps orderly] in *; [simplify_eq; by exists e|].
  destruct Ho as [Ha Ho]. destruct (cstep a k) as [k1|] eqn:H1; [|done]. cbn [mbind option_bind] in Hs.
  assert (exists e1, kinv M k1 e1) as [e1 Hk1] by (destruct a; [by eapply kinv_world|by eapply kinv_turn]). by eapply IH.
Qed.

Lemma kinv_start M c : fresh_client c -> c_waiters c = ∅ -> kinv M (gathering c) at_rest.
Proof.
  intros Hf Hw. split; [by apply matches_start|split; [by intros ? ? ?%elem_of_nil|by intros ? ? ?%elem_of_nil]| |constructor].
  intros _ i wt. cbn. by rewrite Hw.
Qed.
End callers.

(** * Theorems *)

(** C5.  A Publish that returns nil has delivered its message.  In every run of
    client and broker in which calls of Publish lose the connection before their
    frame is out, wait for their acknowledgements, give up on a timer or a
    cancelled context, or lose the connection while they wait, and in which
    sessions are resumed or renewed: when a call with QoS 1 or 2 has returned
    without an error, the broker has passed its message on.  The runs are those of
    World: until it waits, a call is interleaved with nothing but the loss of its
    connection. *)
Theorem publish_success_delivered {St} {HS : SessionStore St} {HC : ContainsStore St} {HE : Environment St} {HL : SessionStoreLaws St}
    {HR : ReliableStore St} {HO : Observers St} (c : client St) (M : Z) (acts : list caction) (k : crowd (St := St)) (x : call) :
  fresh_client c -> c_waiters c = ∅ -> orderly M acts (gathering c) -> csteps acts (gathering c) = Some k ->
  x ∈ k_calls k -> cl_pc x = PDone None -> message (cl_pkt x) ∈ passed_on k.
Proof.
  intros Hf Hw Ho Hs Hx Hpc. destruct (kinv_run M acts _ k _ (kinv_start M c Hf Hw) Ho Hs) as (e & [_ _ _ Hcalls]).
  rewrite Forall_forall in Hcalls. specialize (Hcalls x Hx). unfold call_ok in Hcalls. by rewrite Hpc in Hcalls.
Qed.

Definition lawful_crowdb (M : Z) (a : caction) (k : crowd (St := memStore)) : bool :=
  match a with CWorld a => lawfulb M a (k_w k) | CTurn _ _ => true end.

Fixpoint orderlyb (M : Z) (acts : list caction) (k : crowd (St := memStore)) : bool :=
  match acts with
  | [] => true
  | a :: acts => lawful_crowdb M a k && match cstep a k with Some k' => orderlyb M acts k' | None => true end
  end.

Lemma orderlyb_spec M acts k : orderlyb M acts k = true -> orderly M acts k.
Proof.
  revert k. induction acts as [|a acts IH]; intros k; cbn [orderlyb orderly]; [done|]. intros [Ha Hr]%andb_true_iff.
  split; [destruct a; [by apply lawfulb_spec|done]|]. destruct (cstep a k); [by apply IH|done].
Qed.

(** A QoS 2 publish across a lost connection: its caller is told that the
    connection was lost; so is the one whose publish had stored its message and
    not yet sent it; a third one is acknowledged and returns nil. *)
Definition three_calls : list caction :=
  (CWorld <$> [WConnect (demo_dial demo_connack); WPublish (gostr "t") [1] 2 false []; WServe; WServe;
   WTorn (gostr "t") [3] 2 false [] 3 false; WConnect (demo_dial demo_connack); WPublish (gostr "t") [2] 1 false []]) ++ [CTurn 0 Run] ++
  (CWorld <$> [WServe; WServe; WServe; WRead; WRead]) ++ [CTurn 2 Run].

Definition gathered (acts : list caction) : crowd (St := memStore) := default (gathering (NewTCPClient demo_cfg)) (csteps acts (gathering (NewTCPClient demo_cfg))).

Definition last_call : call := mkCall 1 (mkPublish V50 (gostr "t") [2] 1 false false 0 None) (PDone None).

Lemma three_calls_run : orderly 0 three_calls (gathering (NewTCPClient demo_cfg)) /\ csteps three_calls (gathering (NewTCPClient demo_cfg)) = Some (gathered three_calls).
Proof. split; [apply orderlyb_spec|]; vm_compute; reflexivity. Qed.

Lemma publish_success_delivered_witness :
  cl_pc <$> k_calls (gathered three_calls) = [PDone (Some [ErrConnectionLost]); PDone (Some writeError); PDone None] /\
  message (cl_pkt last_call) ∈ passed_on (gathered three_calls).
Proof.
  split; [vm_compute; reflexivity|].
  refine (publish_success_delivered (NewTCPClient demo_cfg) 0 three_calls (gathered three_calls) last_call fresh_demo eq_refl
    (proj1 three_calls_run) (proj2 three_calls_run) _ eq_refl).
  assert (E : k_calls (gathered three_calls) !! 2%nat = Some last_call) by (vm_compute; reflexivity). exact (list_elem_of_lookup_2 _ _ _ E).
Defined.

(** ** A waiter that is overwritten *)

(** CONNACK without a session. *)
Definition reset_connack : list Z := [0x20; 3; 0; 0; 0].

(** A Subscribe has its identifier when the connection drops; the next one has a
    new session, in which a publish gets the same identifier before the
    Subscribe registers and fails. *)
Definition stale_run : list caction :=
  CWorld <$> ([WConnect (demo_dial demo_connack); WPublish (gostr "t") [1] 1 false []; WSubscribe (gostr "a") 1 7 []] ++ replicate 3 (WTask 0 Run) ++
   [WDrop false; WConnect (demo_dial reset_connack); WPublish (gostr "t") [2] 1 false []] ++ replicate 3 (WTask 0 Run) ++ [WServe; WServe; WServe; WRead]).

(** C37.  A stale registration strands an acknowledged publish.  requestAck registers
    its waiter under an identifier it acquired earlier, without a look at the
    generation: when the session was renewed in between and a publish holds the
    identifier by then, the waiter of the publish is overwritten, and removed
    when the stale request fails.  In this run the broker has passed the message
    on and its PUBACK has been processed, nothing of it is stored any more, and
    yet its caller waits, with no waiter and no result, until it times out. *)
Theorem stale_register_strands_publish : exists k ch, csteps stale_run (gathering (NewTCPClient demo_cfg)) = Some k /\
  orderly 0 stale_run (gathering (NewTCPClient demo_cfg)) /\
  k_calls k !! 1%nat = Some (mkCall 1 (cl_pkt last_call) (PWait 2 ch)) /\ passed_on k = [message (cl_pkt last_call)] /\
  contents (c_store (w_c (k_w k))) = [] /\
  (forall i wt, c_waiters (w_c (k_w k)) !! i = Some wt -> w_ch wt <> ch) /\ c_chans (w_c (k_w k)) !! ch = None /\
  pub_step 1 (cl_pkt last_call) Run (PWait 2 ch) (w_c (k_w k)) = (PWait 2 ch, w_c (k_w k)) /\
  (pub_step 1 (cl_pkt last_call) TimerFired (PWait 2 ch) (w_c (k_w k))).1 = PForget 2 ch [errAckTimeout].
Proof.
  exists (gathered stale_run), 2%nat. split; [vm_compute; reflexivity|]. split; [apply orderlyb_spec; vm_compute; reflexivity|].
  split_and!; try (vm_compute; reflexivity).
  assert (Hw : map_to_list (c_waiters (w_c (k_w (gathered stale_run)))) = [(1, mkWaiter 1 ackClassSuback)]) by (vm_compute; reflexivity).
  intros i wt Hi%elem_of_map_to_list. rewrite Hw in Hi. by apply list_elem_of_singleton in Hi as [= -> ->].
Qed.
