(* ===== verification/MockClient.v ===== *)
(** The client connects to the scripted broker of the test suite. *)

From S2P Require Import Prelude GoStrings Codes Wire WireFacts Props PropsFacts PublishPackets ControlPackets SubscribePackets MockBroker MockFacts.
From S2P Require Import Topic SessionStore Errors IdAllocator Quota Subscriptions Lifecycle Client Pump Requests Connection ClientFacts.
From stdpp Require Import options.

(** The limits a broker may announce pass the client's check. *)
Lemma script_limits v b : sane_script v b -> validateConnackLimits v (scripted_connack v b) = None.
Proof.
  intros [Hp _ _]. unfold validateConnackLimits, scripted_connack. cbn [ca_Properties]. destruct (v =? V50) eqn:Ev; [|done].
  destruct (mb_connackProps b) as [p|]; [|done]. cbn [mbind option_bind normProps]. case_decide; [done|]. destruct (Hp p eq_refl) as [_ Hr _ _ Hs _].
  cbn [negb]. rewrite bool_decide_false; [rewrite bool_decide_false; [done|]|].
  - intros E. by specialize (Hs 0 E).
  - intros E. by specialize (Hr 0 E).
Qed.

Section connecting.
Context {St : Type} {HE : Environment St} {HN : MockNet}.
Context (Hnet : forall out f, mock_net out f = true).
Implicit Types c : client St.

(** The broker accepts the connection, reads the CONNECT and answers. *)
Lemma mock_accepts p f b : sane_script (con_Version p) b -> wf_connect p -> ConnectPacket_Encode p [] = Ok f -> len f <= mockMaxRemainingLength ->
  let l := length (mb_links b) in
  let b' := (serve_turn l (acceptLoop_turn f b)).2 in
  mb_lastConnect b' = connect_info (canon_connect p) /\ mb_reports b' = mb_reports b /\
  exists h body, len body <= maxVarint /\ Frame_PacketType (mkFrame h body) = Connack /\
    DecodeConnack (con_Version p) body = Ok (scripted_connack (con_Version p) b) /\ concat (ml_out (link_of l b')) = packet_bytes h body.
Proof using Hnet.
  intros Hs Hwf He Hl l b'. assert (Hv : Version_Valid (con_Version p) = true) by (by apply Version_Valid_spec, (ConnectPacket_Encode_steps p [] f)).
  assert (Hlk : mb_links (acceptLoop_turn f b) !! l = Some (newMockLink f)).
  { change ((mb_links b ++ [newMockLink f]) !! l = Some (newMockLink f)). by apply list_lookup_middle. }
  destruct (serve_packet Hnet l (con_Version p) (CConnect p) f [] (acceptLoop_turn f b) (newMockLink f)) as (_ & Hg & Hr & _); try done; [by right|by rewrite app_nil_r|].
  destruct (serve_answers Hnet l (con_Version p) (CConnect p) f [] (acceptLoop_turn f b) (newMockLink f)) as (h & body & lk' & Hb & [Ht Hd] & Hlk' & Ho); try done;
    [by right|by rewrite app_nil_r|by destruct Hs|].
  split_and!; [by apply (f_equal lg_connect) in Hg|done|]. exists h, body. split_and!; try done. unfold link_of. fold b' in Hlk'. rewrite Hlk'. cbn [default from_option].
  unfold id. rewrite Ho. cbn. by rewrite app_nil_r.
Qed.

Lemma refuseConnack_err k err c : (refuseConnack k err c).1 = Some err.
Proof using Type.
  unfold refuseConnack. rewrite cmd_bind_eq. unfold gets. rewrite cmd_bind_eq.
  by match goal with |- context [match ?m c with (_, _) => _ end] => destruct (m c) end.
Qed.

(** The client's handshake on a CONNACK that came alone. *)
Lemma handshake_answered c d k f h body ack : ConnectPacket_Encode (buildConnectPacket c) [] = Ok f ->
  cn_closed (c_conns c !!! k) = false -> net k (cn_w (c_conns c !!! k)) f = true -> d_bytes d = packet_bytes h body -> len body <= maxVarint ->
  in_u32 (c_inboundMax c) -> len (d_bytes d) <= c_inboundMax c -> Frame_PacketType (mkFrame h body) = Connack ->
  DecodeConnack (c_version c) body = Ok ack -> validateConnackLimits (c_version c) ack = None -> d_ctx d = None ->
  (ReasonCode_IsError (ca_ReasonCode ack) = true ->
    (handshake d k c).1 = inl (reasonError "CONNECT" (mkAckResult None (reasonStringOf (ca_Properties ack)) (ca_ReasonCode ack)))) /\
  (ReasonCode_IsError (ca_ReasonCode ack) = false ->
    (handshake d k c).1 = if cf_CleanStart (c_cfg c) && ca_SessionPresent ack then inl [ProtocolErr ErrProtocolViolation] else inr ack).
Proof using Type.
  intros He Hc Hn Hd Hb Hm Hl Ht Hdec Hlim Hctx. unfold handshake. rewrite cmd_bind_eq. unfold gets. rewrite He, cmd_bind_eq. unfold conn_write. rewrite Hc, Hn. cbn [negb andb].
  rewrite cmd_bind_eq. unfold upd_conn. cbn [c_inboundMax set_conns]. rewrite Hd in *. rewrite <- (app_nil_r (packet_bytes h body)).
  rewrite ReadFrame_packet by done. rewrite cmd_bind_eq. unfold upd. rewrite Ht. cbn [Z.eqb Pos.eqb Connack negb]. rewrite cmd_bind_eq. cbn [Body].
  change (c_version (upd_conn k ?g ?x)) with (c_version x). csimp. rewrite Hdec. split; intros Hrc; rewrite Hrc; [by rewrite cmd_bind_eq|].
  rewrite Hlim, cmd_bind_eq, cmd_bind_eq. csimp. destruct (_ && _); [|by rewrite Hctx].
  match goal with |- context [refuseConnack k ?e ?c0] => pose proof (refuseConnack_err k e c0) as Hr;
    destruct (refuseConnack k e c0) as [r c1] end.
  cbn [fst] in Hr. by rewrite Hr.
Qed.
End connecting.

(** * Theorems *)

(** C40.  The client and the broker double agree on the handshake, for both
    protocol versions and every script whose CONNACK the protocol allows (limits
    it may announce, Session Present only on success), on a network that delivers
    both packets.  The broker notes down the version, the clean start flag and the
    properties of the client's configuration and reports nothing.  The client
    comes away with exactly the CONNACK the script stands for, session flag and
    limits included; when the script rejects the connect, with the error that
    carries the scripted reason code; and when it claims a session on a clean
    start, with ErrProtocolViolation. *)
Theorem mock_handshake {St} {HE : Environment St} {HN : MockNet} (c : client St) (d : dialling) (k : nat) (f : list Z) (b : mockBroker) :
  let p := buildConnectPacket c in
  let l := length (mb_links b) in
  let b' := (serve_turn l (acceptLoop_turn f b)).2 in
  let ack := scripted_connack (c_version c) b in
  (forall out f, mock_net out f = true) -> sane_script (c_version c) b -> wf_connect p -> ConnectPacket_Encode p [] = Ok f ->
  len f <= mockMaxRemainingLength -> cn_closed (c_conns c !!! k) = false -> net k (cn_w (c_conns c !!! k)) f = true ->
  d_bytes d = concat (ml_out (link_of l b')) -> in_u32 (c_inboundMax c) -> len (d_bytes d) <= c_inboundMax c -> d_ctx d = None ->
  mb_lastConnect b' = connect_info (canon_connect p) /\ mb_reports b' = mb_reports b /\
  (handshake d k c).1 =
    (if ReasonCode_IsError (ca_ReasonCode ack)
     then inl (reasonError "CONNECT" (mkAckResult None (reasonStringOf (ca_Properties ack)) (ca_ReasonCode ack)))
     else if cf_CleanStart (c_cfg c) && mb_sessionPresent b then inl [ProtocolErr ErrProtocolViolation] else inr ack).
Proof.
  intros p l b' ack Hnet Hs Hwf He Hl Hc Hn Hd Hm Hfit Hctx.
  destruct (mock_accepts Hnet p f b Hs Hwf He Hl) as (H1 & H2 & h & body & Hb & Ht & Hdec & Ho). split; [done|]. split; [done|].
  destruct (handshake_answered c d k f h body ack) as [Ha1 Ha2]; try done; [by rewrite Hd, <- Ho|by apply script_limits|].
  destruct (ReasonCode_IsError _); [by apply Ha1|by apply Ha2].
Qed.

(** A script that announces limits. *)
Definition demo_script : mockBroker :=
  SetConnackProperties (Some (set_ReceiveMaximum (Some 7) (set_MaximumQoS (Some 1) emptyProperties))) (SetSessionPresent true newMockBroker).

Lemma demo_sane : sane_script V50 demo_script.
Proof.
  split; [|done|].
  - intros p [= <-]. split; [|intros v [= <-]; done|intros v [= <-]; done|done|done|by left].
    unfold wf_props. split_and!; try done. by intros v [= <-].
  - intros q H1 H2. assert (q = 0 \/ q = 1 \/ q = 2) as [-> | [-> | ->]] by lia; done.
Qed.

(** The client as it is when it has dialled. *)
Definition dialled (bytes : list Z) : client memStore :=
  set_conns (<[0%nat := mkConn bytes [] false]> ∅) (NewTCPClient demo_cfg).
Definition demo_connect : list Z := match ConnectPacket_Encode (buildConnectPacket (NewTCPClient demo_cfg)) [] with Ok f => f | Err _ => [] end.
Definition demo_reply : list Z := concat (ml_out (link_of 0 (serve_turn 0 (acceptLoop_turn demo_connect demo_script)).2)).

Lemma mock_handshake_witness :
  demo_reply = [0x20; 8; 1; 0; 5; 0x21; 0; 7; 0x24; 1] /\
  (handshake (demo_dial demo_reply) 0 (dialled demo_reply)).1 =
    inr (mkConnack true 0 (Some (set_MaximumQoS (Some 1) (set_ReceiveMaximum (Some 7) emptyProperties)))).
Proof.
  split; [vm_compute; reflexivity|].
  destruct (mock_handshake (dialled demo_reply) (demo_dial demo_reply) 0 demo_connect demo_script) as (_ & _ & H).
  - done.
  - exact demo_sane.
  - split; [by_decide|]. split; [|done]. unfold wf_optprops, wf_props. cbn. split_and!; try done; by intros v [= <-].
  - vm_compute; reflexivity.
  - by_decide.
  - vm_compute; reflexivity.
  - done.
  - vm_compute; reflexivity.
  - by_decide.
  - by_decide.
  - done.
  - exact H.
Defined.
